(* ===== verification/_CoqProject ===== *)
-Q . S2P
Prelude.v
GoStd.v
JsonText.v
JsonCodec.v
GoNet.v
GoPath.v
SignerConfig.v
BtcLib.v
Config.v
Types.v
Env.v
ParamsCache.v
ClientController.v
Emulator.v
EmulatorProps.v
ControllerProps.v
SubmitProps.v
PagingProps.v
SystemProps.v
RoundProps.v
Lifecycle.v
SignerApp.v
SignerProps.v
Keyrings.v
WireTypes.v
Bip32.v
HmacAuth.v
Daemon.v
SignerServer.v
SignerClient.v
RemoteProps.v
Rounds.v
EndToEnd.v
ServerProps.v
Tracing.v
SignerConcurrency.v
Datagen.v
NodeHarness.v
SignerHarness.v
Covd.v
SignerCmd.v
Programs.v
Toy.v
ToyServices.v
Witnesses.v
ServiceWitnesses.v
EndToEndWitness.v
ProgramWitnesses.v
HarnessWitnesses.v
