(* ===== verification/Prelude.v ===== *)
(** * Verification of the covenant emulator and the covenant signer

    The repository holds two programs.  [covd] (covenant/, clientcontroller/,
    config/, remotesigner/, cmd/covd/) polls a Babylon node for pending BTC
    delegations, checks each against the staking parameters it was made
    under, asks a signer for the covenant's signatures and submits them in
    batches.  [covenant-signer] (covenant-signer/) holds the covenant key and
    signs what it is asked to over HTTP.  The remote signer of the first is
    the client of the second; both are modelled down to the bytes of the JSON
    they exchange.

    ** Files

    - [Prelude]: results ([res]), the state monad ([M]), machine integers, the
      invariant logic [keeps], the total-correctness logic [yields],
      [refuses], [answers] and the tactics the other files share.
    - [GoStd]: the functions of Go's standard library the code uses
      (encoding/hex, strings, strconv, errors.Join, one regular expression,
      slices with their backing array), executable, with their lemmas.
    - [JsonText], [JsonCodec]: encoding/json, printing, parsing and decoding
      into Go values; [GoNet]: net.ParseIP and SplitHostPort; [GoPath]:
      path/filepath, os.Expand and util/path.go over the operating system
      [Os].
    - [BtcLib]: the third-party libraries (btcd, babylon, sdkmath) as a class
      of types and functions; nothing is assumed of them there.
    - [Config]: config/*.go; [SignerConfig]: covenant-signer/config/*.go;
      go-flags and viper are the classes [GoFlags] and [Viper].
    - [Types]: types/*.go.
    - [Env]: the process state [Sys] (the outside world, the parameter cache,
      the log, covenant/metrics.go) and the Go interfaces Signer,
      ClientController and ParamsGetter as records of operations.
    - [ParamsCache]: covenant/cache_params.go; retry-go is the class
      [RetryLib] with its documented behaviour in [RetryLaws].
    - [ClientController]: clientcontroller/babylon.go, interface.go and
      retry_utils.go; the node's client is the class [BbnClient].
    - [Emulator]: the handler and the submission round of
      covenant/covenant.go; [Lifecycle]: its construction, Start, Stop, the
      two goroutines and CheckReadiness; [Daemon]: RunUntilShutdown of
      covenant/service/server.go over those goroutines and the endpoints of
      prometheus.go.
    - [SignerApp]: covenant-signer/signerapp/ and the cosmos key store;
      private keys are heap locations, because Lock zeroes a key that requests
      being served still hold.
    - [Keyrings]: keyring/*.go, types/chainkey.go and key creation in
      covenant-signer/keystore/cosmos; the cosmos-sdk keyring is the class
      [KeyringLib] with its documented behaviour in [KeyringLaws].
    - [WireTypes]: signerservice/types/signtransactions.go, utils/btc.go and
      the conversions of remotesigner/signer.go.
    - [Bip32]: covenant-signer/keyutils/bip32deriv.go.
    - [HmacAuth]: signerservice/middlewares/hmac_auth.go and content_length.go,
      signerservice/types/error.go and the client's HMAC header, with SHA-256
      and HMAC defined from their standards.
    - [SignerServer]: signerservice/handlers, http_response.go, server.go and
      the counters of observability/metrics; chi is the class [ChiLib] with
      [ChiLaws].  [SignerClient]: signerservice/client.go and the RemoteSigner
      of remotesigner/signer.go over the network [HttpClient].
    - [Covd]: log/log.go, the construction of the client controller and the
      commands of cmd/covd; [SignerCmd]: the commands of covenant-signer/cmd.
    - [EmulatorProps], [ControllerProps], [SubmitProps], [PagingProps],
      [SystemProps], [SignerProps], [RemoteProps], [ServerProps]: theorems
      about these components.  [RoundProps]: what a submission round computes
      against a signer and a chain that answer, and [Rounds]: what any number
      of rounds compute, counted in the ticks of the daemon's runs; [EndToEnd]:
      both with the remote signer and the signer service in their places.
    - [SignerConcurrency]: the signer service with any number of requests
      served at the same time: the handlers as resumption programs whose atomic
      actions are the calls under the mutex of the key store, single uses of a
      key and single updates of a metric, and a step relation over a pool of
      them.
    - [Tracing]: the tracing and logging middlewares with the contexts of the
      requests and the fields of the log lines (observability/tracing).
    - [Programs]: the command lines and main functions of both programs
      (cmd/covd/flags.go, main.go and the declarations of the commands;
      covenant-signer/cmd/root.go, helper.go and main.go), their exit status,
      and the process of the signer with its metrics server
      (observability/metrics/prometheus.go).  urfave/cli and cobra are the
      classes [CliLib] and [CobraLib] with their behaviour in [CliLaws] and
      [CobraLaws].
    - [Datagen]: the generators of testutil/datagen.go, over math/rand and the
      generators and builders of the Babylon libraries ([GenLib]).
    - [NodeHarness]: itest/utils.go and itest/babylon_node_handler.go, the
      ports and the node of the end-to-end tests, over the host [TestHost] and
      its network [TestNet].  [SignerHarness]: covenant-signer/itest, the
      containers (dockertest is the class [DockerLib]), bitcoind, the test
      manager and the check of the signer's answers (the verification functions
      are [VerifyLib] with [VerifyLaws]).
    - [Toy], [ToyServices], [Witnesses], [ServiceWitnesses],
      [EndToEndWitness], [ProgramWitnesses], [HarnessWitnesses]: an executable
      environment and the theorems at concrete inputs.

    ** How the code is translated

    A Go function that returns an error is a [res]; one that touches shared
    state is an [M S] computation, and what it changed before an error or a
    panic stays changed.  Panics (nil dereference, index out of range, explicit
    ones) are values of [res], so a theorem about a result excludes them.
    Error texts are the ones Go prints.  Integers are [Z] with the conversions
    of their width written out ([u16], [u32], [u64], [i64]).  Calls that leave
    the process ([ext]) see and change only the world, an arbitrary type.
    Log lines keep level and message; the structured fields of the signer's
    request logs are in [Tracing] only.  Private keys in memory are the btcec
    keys and the sdk keys the signer's own code gets; copies inside libraries
    and the garbage collector are not.  The chain's verdict on a message does
    not depend on what it executed before ([AtomicChain]).  Metrics keep the one label value of
    the process, durations in nanoseconds.

    ** What the theorems show

    - Emulator: the checks of the loop body are equivalent to declarative rules
      and determine the signing request ([checks_are_the_rules]); acceptance is
      characterised exactly; the handler asks the signer for nothing but valid
      requests and submits nothing but the signatures of those, as an invariant
      rule over any environment ([AddCovenantSignatures_safe]); batches
      partition their input; no error leaves a round.
    - Cache: stability, coherence with the chain, the retry behaviour.
    - Client controller: conversions are faithful, nothing is truncated; the
      resending loop delivers exactly the accepted messages; pagination is
      correct when the walk ends.  The theorems also state where the code does
      not do what it means to: restarted pagination, refusals masked when the
      resending loop gives up, an empty batch, a zero batch size, the panics of
      invalid delegations.
    - Together: the signatures of a batch are delivered
      ([signatures_are_delivered]); and a round of the whole system, from the
      pages of the node through the checks, the cache, JSON, HTTP and the
      signer's key to the messages the chain executes, does exactly what the
      rules and the signing specification say ([round_end_to_end]).
    - Over time: while the walk over the pages ends and every acceptable
      delegation can be signed, under every schedule of the daemon the [n]th
      tick of the submission loop leaves exactly the first [n] times DelegationLimit
      acceptable delegations signed, once each and in order, until none is left
      ([daemon_signs_all]).  Delegations that are accepted but cannot be signed
      are taken up again for ever, and enough of them at the front starve all
      others ([unsigned_starve]).
    - Lifecycle: an inductive invariant of the goroutines and the wait group;
      Stop returns only when the loops have ended, can always complete unless
      a round hangs, and never returns if one does.  A query interval that is
      not positive, which loading a configuration lets through, crashes the
      daemon ([nonpositive_interval_crashes]).
    - Daemon: RunUntilShutdown returns only before anything runs or after
      everything has stopped, and a shutdown can always be carried out; the
      health endpoint is the readiness check.
    - Signer: SignTransactions refines a pure specification; under any
      interleaving with Lock and Unlock a successful answer is signed with one
      key; Lock zeroes every btcec key, but not the sdk keys read from the
      keyring ([Lock_zeroes_btcec_keys]).  Requests and responses survive the
      wire.
    - Service and client: the remote signer of the emulator, through JSON,
      HTTP, authentication and back, implements that same specification
      ([remote_signer_refines]); unlocking and the public key likewise; what a
      refused client is told is determined exactly, and never why signing failed
      ([signing_failures_hidden]); with requests one after the other the
      gauge and the counters agree with the state of the service.
    - Concurrency: under every interleaving of the steps of concurrent requests
      the counters stay right ([concurrent_counters]) and every successful
      answer is explained by its own request and one key
      ([concurrent_answers]); the gauge can be left wrong ([stale_gauge]).  That
      the two models of the handlers agree is [uninterrupted_is_sequential].
    - Logs: every line carries the path and the trace identifier of its request,
      but the one about a request the HMAC middleware rejects
      ([request_log_lines]).
    - Configurations and commands: what is loaded is well formed, what init
      writes is what start loads, show-key shows what create-key made, up to
      the words of the command line ([key_commands_agree]), start reaches the
      daemon only with everything checked, and a key created in
      the signer's keyring is the key the emulator gets
      ([created_key_reaches_emulator]).  What the exit status of the signer
      tells is in [signer_process_exits] and [signer_failure_exits_zero].
    - Authentication: behind the middleware a handler runs exactly on requests
      with the HMAC of their body; the header is not bound to method and
      path.
    - Derivation paths: parsing inverts printing and stays within 32 bits.
    - Test harness: the check of the signer's end-to-end tests accepts every
      answer of the signing specification ([test_oracle_accepts]); ports given
      out are unique and have 16 bits ([ports_unique]); when a start of the
      node leaves its process behind ([node_life]).

    ** Fuel

    Loops that Go does not bound take fuel.  [delegationsToBatches] gets the
    number of delegations, enough for every batch size from one on
    ([delegationsToBatches_partition]); the paged queries get a number of
    pages, and the theorems say how many are enough, or that none is.  The
    attempts of [AllocateUniquePort] are bounded by the code itself.  The
    JSON parser gets twice the length of its input, of which every other step
    at least consumes a part: every printed text is parsed back
    ([parseAll_print]).

    ** Not modelled

    The protobuf codecs, the collectors the metrics server of the signer
    registers and the keys commands of the cosmos-sdk, which are library calls
    only; the generated mocks; itest/test_manager.go, which strings together
    calls of the modelled parts, of the node's client and of the assertions of
    the tests.  Allocation failure, the delay between retries, timeouts other
    than as errors of the network, data races inside one library call, and a
    listener that fails after it was opened are outside the model.  The
    theorems on the service outside [SignerConcurrency],
    [SignTransactions_race_safe] and [PubKey_race] take requests one at a time;
    [daemon_signs_all] and [unsigned_starve] count ticks in given runs and say
    that runs with any number of ticks exist, not that a scheduler takes
    them. *)
From Stdlib Require Export Init.Byte Lia.
From stdpp Require Export base tactics strings gmap numbers pretty list.

#[global] Set Default Goal Selector "!".

(** ** Go results

    A Go function with the result type [(T, error)] is modelled by a value of
    [res T].  [Ok v] is the pair [(v, nil)], [Err e] a non-nil error with the
    text [e] (what [err.Error()] returns), [Panic m] a run-time panic, and
    [OutOfFuel] is what a fuelled loop answers when its fuel is used up. *)

Definition error : Type := string.

Inductive res (A : Type) : Type :=
| Ok (a : A)
| Err (e : error)
| Panic (msg : string)
| OutOfFuel.
Arguments Ok {A} a.
Arguments Err {A} e.
Arguments Panic {A} msg.
Arguments OutOfFuel {A}.

#[export] Instance res_ret : MRet res := fun A a => Ok a.
#[export] Instance res_bind : MBind res := fun A B k m =>
  match m with
  | Ok a => k a
  | Err e => Err e
  | Panic p => Panic p
  | OutOfFuel => OutOfFuel
  end.
#[export] Instance res_fmap : FMap res := fun A B f m =>
  match m with
  | Ok a => Ok (f a)
  | Err e => Err e
  | Panic p => Panic p
  | OutOfFuel => OutOfFuel
  end.

(** [fmt.Errorf("pre: %w", err)] applied to the error of a result. *)
Definition wrapErr {A} (pre : string) (m : res A) : res A :=
  match m with
  | Err e => Err (pre +:+ ": " +:+ e)
  | _ => m
  end.

(** [if err != nil { return nil, fmt.Errorf("msg") }]: the cause is dropped. *)
Definition replErr {A} (msg : string) (m : res A) : res A :=
  match m with
  | Err _ => Err msg
  | _ => m
  end.

(** ** Stateful Go code

    [M S A] is a computation over the state [S] that ends with a [res A]; the
    state changes made before an error or a panic are kept. *)

Definition M (S A : Type) : Type := S -> S * res A.

#[export] Instance M_ret {S} : MRet (M S) := fun A a s => (s, Ok a).
#[export] Instance M_bind {S} : MBind (M S) := fun A B k m s =>
  match m s with
  | (s', Ok a) => k a s'
  | (s', Err e) => (s', Err e)
  | (s', Panic p) => (s', Panic p)
  | (s', OutOfFuel) => (s', OutOfFuel)
  end.

Definition lift {S A} (r : res A) : M S A := fun s => (s, r).
Definition fail {S A} (e : error) : M S A := fun s => (s, Err e).
Definition gets {S A} (f : S -> A) : M S A := fun s => (s, Ok (f s)).
Definition modify {S} (f : S -> S) : M S unit := fun s => (f s, Ok tt).

(** [v, err := f()] where the caller inspects [err] itself. *)
Definition attempt {S A} (m : M S A) : M S (A + error) := fun s =>
  match m s with
  | (s', Ok a) => (s', Ok (inl a))
  | (s', Err e) => (s', Ok (inr e))
  | (s', Panic p) => (s', Panic p)
  | (s', OutOfFuel) => (s', OutOfFuel)
  end.

Definition wrapErrM {S A} (pre : string) (m : M S A) : M S A := fun s =>
  let '(s', r) := m s in (s', wrapErr pre r).

(** Indexing a slice: Go panics outside [0, len). *)
Definition index {A} (l : list A) (i : Z) : res A :=
  if bool_decide (0 <= i)%Z then
    match l !! Z.to_nat i with
    | Some a => Ok a
    | None => Panic "index out of range"
    end
  else Panic "index out of range".

(** ** Machine integers: values are [Z], kept in range by the conversions *)

Definition MaxUint16 : Z := 65535.
Definition MaxInt64 : Z := 9223372036854775807.
Definition u16 (z : Z) : Z := (z mod 2 ^ 16)%Z.
Definition u32 (z : Z) : Z := (z mod 2 ^ 32)%Z.
Definition u64 (z : Z) : Z := (z mod 2 ^ 64)%Z.
Definition i64 (z : Z) : Z := ((z + 2 ^ 63) mod 2 ^ 64 - 2 ^ 63)%Z.

(** ** Generic lemmas: the result type *)

Lemma res_bind_Ok {A B} (m : res A) (k : A -> res B) (b : B) :
  (m ≫= k) = Ok b <-> exists a, m = Ok a /\ k a = Ok b.
Proof.
  destruct m as [a|e|p|]; simpl; split; try naive_solver.
Qed.

Lemma wrapErr_Ok {A} pre (m : res A) a : wrapErr pre m = Ok a <-> m = Ok a.
Proof. by destruct m. Qed.

Lemma replErr_Ok {A} msg (m : res A) a : replErr msg m = Ok a <-> m = Ok a.
Proof. by destruct m. Qed.

Lemma index_Ok {A} (l : list A) i a :
  index l i = Ok a <-> (0 <= i)%Z /\ l !! Z.to_nat i = Some a.
Proof.
  unfold index. case_bool_decide; [|naive_solver].
  destruct (l !! Z.to_nat i); naive_solver.
Qed.

Lemma mapM_res_Ok {A B} (f : A -> res B) (l : list A) (k : list B) :
  mapM f l = Ok k <-> Forall2 (fun x y => f x = Ok y) l k.
Proof.
  revert k. induction l as [|x l IH]; intros k; simpl; unfold mret, res_ret.
  - split; [intros; simplify_eq; constructor|]. by inversion 1.
  - rewrite res_bind_Ok. split.
    + intros (y & Hy & (k' & Hk' & Hk)%res_bind_Ok). simplify_eq/=.
      constructor; [done|]. by apply IH.
    + inversion 1; subst. eexists. split; [done|]. apply res_bind_Ok.
      eexists. split; [by apply IH|done].
Qed.

(** What a result that is no panic says. *)
Definition okOf {A} (r : res A) : option A := match r with Ok a => Some a | _ => None end.
Definition returns {A} (r : res A) : Prop :=
  match r with Ok _ | Err _ => True | Panic _ | OutOfFuel => False end.

Lemma okOf_Some {A} (r : res A) a : okOf r = Some a <-> r = Ok a.
Proof. destruct r; naive_solver. Qed.

(** ** Generic lemmas: the state monad *)

Section MonadLemmas.
Context {S : Type}.

Lemma bind_run_Ok {A B} (m : M S A) (k : A -> M S B) s s1 a :
  m s = (s1, Ok a) -> (m ≫= k) s = k a s1.
Proof. intros H. unfold mbind, M_bind. by rewrite H. Qed.

Lemma bind_run_Err {A B} (m : M S A) (k : A -> M S B) s s1 e :
  m s = (s1, Err e) -> (m ≫= k) s = (s1, Err e).
Proof. intros H. unfold mbind, M_bind. by rewrite H. Qed.

Lemma bind_run_Panic {A B} (m : M S A) (k : A -> M S B) s s1 p :
  m s = (s1, Panic p) -> (m ≫= k) s = (s1, Panic p).
Proof. intros H. unfold mbind, M_bind. by rewrite H. Qed.

Lemma bind_Ok_inv {A B} (m : M S A) (k : A -> M S B) s s' b :
  (m ≫= k) s = (s', Ok b) ->
  exists s1 a, m s = (s1, Ok a) /\ k a s1 = (s', Ok b).
Proof.
  unfold mbind, M_bind. destruct (m s) as [s1 [a|e|p|]]; naive_solver.
Qed.

Lemma wrapErrM_Ok {A} pre (m : M S A) s s' a :
  wrapErrM pre m s = (s', Ok a) <-> m s = (s', Ok a).
Proof. unfold wrapErrM. destruct (m s) as [s1 [ | | | ]]; simpl; naive_solver. Qed.

Lemma lift_Ok {A} (r : res A) (s s' : S) a : lift r s = (s', Ok a) -> s' = s /\ r = Ok a.
Proof. unfold lift. by intros [= -> ->]. Qed.

Lemma bind_assoc_run {A B C} (m : M S A) (f : A -> M S B) (g : B -> M S C) s :
  ((m ≫= f) ≫= g) s = (m ≫= (fun a => f a ≫= g)) s.
Proof. unfold mbind, M_bind. by destruct (m s) as [? []]. Qed.

(** [keeps J m Q]: from a state satisfying [J], [m] ends in a state satisfying
    [J] whatever its result, and a value it returns satisfies [Q]. *)
Definition keeps {A} (J : S -> Prop) (m : M S A) (Q : A -> Prop) : Prop :=
  forall s, J s -> J (m s).1 /\ (forall a, (m s).2 = Ok a -> Q a).

Lemma keeps_mono {A} J (m : M S A) (Q R : A -> Prop) :
  keeps J m Q -> (forall a, Q a -> R a) -> keeps J m R.
Proof. intros H HQR s Hs. destruct (H s Hs). eauto. Qed.

Lemma keeps_ret {A} J (a : A) (Q : A -> Prop) : Q a -> keeps J (mret a) Q.
Proof. intros Ha s Hs. split; [done|]. simpl. naive_solver. Qed.

Lemma keeps_lift {A} J (r : res A) (Q : A -> Prop) :
  (forall a, r = Ok a -> Q a) -> keeps J (lift r) Q.
Proof. intros Hr s Hs. split; [done|]. simpl. naive_solver. Qed.

Lemma keeps_fail {A} J e (Q : A -> Prop) : keeps J (fail e) Q.
Proof. intros s Hs. split; [done|]. simpl. naive_solver. Qed.

Lemma keeps_modify J (f : S -> S) (Q : unit -> Prop) :
  (forall s, J s -> J (f s)) -> Q tt -> keeps J (modify f) Q.
Proof. intros Hf HQ s Hs. split; [by apply Hf|]. by intros []. Qed.

Lemma keeps_bind {A B} J (m : M S A) (k : A -> M S B) Q R :
  keeps J m Q -> (forall a, Q a -> keeps J (k a) R) -> keeps J (m ≫= k) R.
Proof.
  intros Hm Hk s Hs. destruct (Hm s Hs) as [HJ HQ].
  unfold mbind, M_bind. destruct (m s) as [s1 [a|e|p|]]; simpl in *; naive_solver.
Qed.

Lemma keeps_attempt {A} J (m : M S A) (Q : A -> Prop) (R : A + error -> Prop) :
  keeps J m Q -> (forall a, Q a -> R (inl a)) -> (forall e, R (inr e)) ->
  keeps J (attempt m) R.
Proof.
  intros Hm Hl Hr s Hs. destruct (Hm s Hs) as [HJ HQ]. unfold attempt.
  destruct (m s) as [s1 [a|e|p|]]; simpl in *; naive_solver.
Qed.

Lemma keeps_wrapErrM {A} J pre (m : M S A) (Q : A -> Prop) :
  keeps J m Q -> keeps J (wrapErrM pre m) Q.
Proof.
  intros Hm s Hs. destruct (Hm s Hs) as [HJ HQ]. unfold wrapErrM.
  destruct (m s) as [s1 [a|e|p|]]; simpl in *; naive_solver.
Qed.

Lemma keeps_mapM {A B} J (f : A -> M S B) (l : list A) :
  (forall x, keeps J (f x) (fun _ => True)) -> keeps J (mapM f l) (fun _ => True).
Proof.
  intros Hf. induction l as [|x l IH]; simpl; [by apply keeps_ret|].
  eapply keeps_bind; [apply Hf|]. intros y _. eapply keeps_bind; [apply IH|]. intros k _. by apply keeps_ret.
Qed.

(** [yields J m Q]: from a state satisfying [J], [m] returns a value that
    satisfies [Q], in a state satisfying [J]; [refuses J m]: it fails, keeping
    [J].  [answers J m o] is one or the other, as [o] says. *)
Definition yields {A} (J : S -> Prop) (m : M S A) (Q : A -> Prop) : Prop :=
  forall s, J s -> exists s' a, m s = (s', Ok a) /\ J s' /\ Q a.

Definition refuses {A} (J : S -> Prop) (m : M S A) : Prop :=
  forall s, J s -> exists s' e, m s = (s', Err e) /\ J s'.

Definition answers {A} (J : S -> Prop) (m : M S A) (o : option A) : Prop :=
  match o with
  | Some a => yields J m (fun b => b = a)
  | None => refuses J m
  end.

Lemma yields_answers {A} J (m : M S A) a : yields J m (fun b => b = a) -> answers J m (Some a).
Proof. done. Qed.

Lemma yields_run {A} (J : S -> Prop) (m : M S A) a s :
  yields J m (fun b => b = a) -> J s -> exists s', J s' /\ m s = (s', Ok a).
Proof. intros H Hs. destruct (H s Hs) as (s' & b & Hm & HJ & ->). by exists s'. Qed.

Lemma yields_ret {A} J (a : A) (Q : A -> Prop) : Q a -> yields J (mret a) Q.
Proof. intros Ha s Hs. by exists s, a. Qed.

Lemma yields_modify J (f : S -> S) : (forall s, J s -> J (f s)) -> yields J (modify f) (fun _ => True).
Proof. intros Hf s Hs. eexists _, tt. split_and!; [done|by apply Hf|done]. Qed.

Lemma yields_mono {A} J (m : M S A) (Q R : A -> Prop) :
  yields J m Q -> (forall a, Q a -> R a) -> yields J m R.
Proof. intros H HQR s Hs. destruct (H s Hs) as (s' & a & ? & ? & ?). exists s', a. auto. Qed.

Lemma yields_bind {A B} J (m : M S A) (k : A -> M S B) Q R :
  yields J m Q -> (forall a, Q a -> yields J (k a) R) -> yields J (m ≫= k) R.
Proof.
  intros Hm Hk s Hs. destruct (Hm s Hs) as (s1 & a & H1 & Hs1 & Ha).
  destruct (Hk a Ha s1 Hs1) as (s2 & b & H2 & Hs2 & Hb). exists s2, b. by erewrite bind_run_Ok.
Qed.

Lemma answers_after {A B} J (m : M S A) (k : A -> M S B) Q o :
  yields J m Q -> (forall a, Q a -> answers J (k a) o) -> answers J (m ≫= k) o.
Proof.
  intros Hm Hk. destruct o as [b|]; [by eapply yields_bind|].
  intros s Hs. destruct (Hm s Hs) as (s1 & a & H1 & Hs1 & Ha). erewrite bind_run_Ok by done. by apply (Hk a).
Qed.

(** What a program answers is computed by the program in the option monad. *)
Lemma answers_bind {A B} J (m : M S A) (k : A -> M S B) o (f : A -> option B) :
  answers J m o -> (forall a, o = Some a -> answers J (k a) (f a)) -> answers J (m ≫= k) (o ≫= f).
Proof.
  intros Hm Hk. destruct o as [a|].
  - apply (answers_after _ _ _ _ _ Hm). intros ? ->. by apply Hk.
  - intros s Hs. destruct (Hm s Hs) as (s1 & e & H1 & Hs1). exists s1, e. by erewrite bind_run_Err.
Qed.

Lemma answers_ret {A} J (a : A) : answers J (mret a) (Some a).
Proof. by apply yields_ret. Qed.

Lemma answers_lift {A} J (r : res A) : returns r -> answers J (lift r) (okOf r).
Proof. destruct r; try done; intros _ s Hs; by eexists s, _. Qed.

Lemma answers_wrapErrM {A} J pre (m : M S A) o : answers J m o -> answers J (wrapErrM pre m) o.
Proof.
  intros Hm. unfold wrapErrM. destruct o as [a|]; intros s Hs.
  - destruct (Hm s Hs) as (s1 & b & -> & Hs1 & ->). by exists s1, a.
  - destruct (Hm s Hs) as (s1 & e & -> & Hs1). by eexists s1, _.
Qed.

Lemma answers_lift_wrapErr {A} J pre (r : res A) : returns r -> answers J (lift (wrapErr pre r)) (okOf r).
Proof. destruct r; try done; intros _ s Hs; by eexists s, _. Qed.

Lemma answers_keeps {A} J (m : M S A) o : answers J m o -> keeps J m (fun a => o = Some a).
Proof.
  intros Hm s Hs. destruct o as [a|].
  - destruct (Hm s Hs) as (s1 & b & -> & Hs1 & ->). by split; [|intros ? [= ->]].
  - by destruct (Hm s Hs) as (s1 & e & -> & Hs1).
Qed.

Lemma yields_keeps {A} J (m : M S A) Q : yields J m Q -> keeps J m Q.
Proof. intros Hm s Hs. destruct (Hm s Hs) as (s1 & b & -> & Hs1 & ?). by split; [|intros ? [= <-]]. Qed.

Lemma answers_attempt {A} J (m : M S A) o : answers J m o ->
  yields J (attempt m) (fun r => match o with Some a => r = inl a | None => exists e, r = inr e end).
Proof.
  intros Hm. unfold attempt. destruct o as [a|]; intros s Hs.
  - destruct (Hm s Hs) as (s1 & b & -> & Hs1 & ->). by eexists s1, _.
  - destruct (Hm s Hs) as (s1 & e & -> & Hs1). exists s1, (inr e). split_and!; [done|done|by exists e].
Qed.

End MonadLemmas.

(** ** Automation *)

Create HintDb keeps.
#[export] Hint Resolve keeps_fail : keeps.

(** Decompose a successful run of a monadic program into its steps. *)
Ltac inv_bind H :=
  let s := fresh "s" in let a := fresh "a" in let Hm := fresh "Hm" in
  apply bind_Ok_inv in H as (s & a & Hm & H).

(** Case analysis on the scrutinee of the first [match] or [if] in [H]. *)
Ltac case_in H :=
  match type of H with
  | context [match ?x with _ => _ end] => destruct x eqn:?
  end; simplify_eq/=.
