(* ===== verification/GoStd.v ===== *)
(** * The parts of the Go standard library the program uses

    encoding/hex, strings, strconv, errors.Join and the regular expression
    [message index:\s*(\d+)], as executable functions on byte strings, with
    the round-trip lemmas the components rely on. *)
From Stdlib Require Import Strings.Byte Strings.Ascii Strings.String.
From S2P Require Import Prelude.

Definition bytes : Type := list byte.

#[export] Instance byte_eq_dec : EqDecision byte := Byte.byte_eq_dec.

(** ** encoding/hex *)

Definition hexchar (n : N) : ascii :=
  Ascii.ascii_of_N (if (n <? 10)%N then 48 + n else 87 + n).

Definition hexval (c : ascii) : option N :=
  let n := Ascii.N_of_ascii c in
  if ((48 <=? n) && (n <=? 57))%N then Some (n - 48)%N
  else if ((97 <=? n) && (n <=? 102))%N then Some (n - 87)%N
  else if ((65 <=? n) && (n <=? 70))%N then Some (n - 55)%N
  else None.

(** hex.EncodeToString *)
Fixpoint EncodeToString (b : bytes) : string :=
  match b with
  | [] => ""
  | x :: b =>
      String (hexchar (Byte.to_N x / 16)) (String (hexchar (Byte.to_N x mod 16)) (EncodeToString b))
  end.

Definition HexErrLength : error := "encoding/hex: odd length hex string".

(** fmt's [%#U] on a rune below 256: the code point in upper-case hexadecimal
    and, when it is printable, the quoted character in UTF-8. *)
Definition uhexchar (n : N) : ascii :=
  Ascii.ascii_of_N (if (n <? 10)%N then 48 + n else 55 + n).

Definition utf8_latin1 (n : N) : string :=
  if (n <? 128)%N then String (Ascii.ascii_of_N n) ""
  else String (Ascii.ascii_of_N (192 + n / 64)) (String (Ascii.ascii_of_N (128 + n mod 64)) "").

Definition is_print_latin1 (n : N) : bool :=
  (((32 <=? n) && (n <=? 126)) || ((161 <=? n) && negb (n =? 173)))%N.

Definition fmtU (c : ascii) : string :=
  let n := Ascii.N_of_ascii c in
  "U+00" +:+ String (uhexchar (n / 16)) (String (uhexchar (n mod 16)) "")
  +:+ (if is_print_latin1 n then " '" +:+ utf8_latin1 n +:+ "'" else "").

(** hex.InvalidByteError *)
Definition HexErrByte (c : ascii) : error := "encoding/hex: invalid byte: " +:+ fmtU c.

Definition byte_of_nibbles (a b : N) : byte :=
  default x00 (Byte.of_N (16 * a + b)).

(** hex.DecodeString: pairs of digits of either case; an invalid character is
    reported before an odd length. *)
Fixpoint DecodeString (s : string) : res bytes :=
  match s with
  | "" => Ok []
  | String p "" =>
      match hexval p with
      | None => Err (HexErrByte p)
      | Some _ => Err HexErrLength
      end
  | String p (String q s) =>
      match hexval p, hexval q with
      | None, _ => Err (HexErrByte p)
      | _, None => Err (HexErrByte q)
      | Some a, Some b => cons (byte_of_nibbles a b) <$> DecodeString s
      end
  end.

(** ** strings *)

(** strings.Contains(s, sub) *)
Fixpoint Contains (s sub : string) : bool :=
  String.prefix sub s ||
  match s with
  | "" => false
  | String _ s => Contains s sub
  end.

(** strings.Split(s, sep) for a one-character separator *)
Fixpoint Split (s : string) (sep : ascii) : list string :=
  match s with
  | "" => [""]
  | String c s' =>
      if decide (c = sep) then "" :: Split s' sep
      else match Split s' sep with
           | [] => [String c ""]
           | w :: ws => String c w :: ws
           end
  end.

(** strings.TrimSuffix(s, suffix) for a one-character suffix *)
Fixpoint TrimSuffix (s : string) (suffix : ascii) : string :=
  match s with
  | "" => ""
  | String c "" => if decide (c = suffix) then "" else s
  | String c s' => String c (TrimSuffix s' suffix)
  end.

(** ** strconv *)

Definition is_digit (c : ascii) : bool :=
  let n := Ascii.N_of_ascii c in ((48 <=? n) && (n <=? 57))%N.

Definition digit_val (c : ascii) : Z := Z.of_N (Ascii.N_of_ascii c) - 48.

Fixpoint all_digits (s : string) : bool :=
  match s with
  | "" => true
  | String c s => is_digit c && all_digits s
  end.

Fixpoint dec_value (acc : Z) (s : string) : Z :=
  match s with
  | "" => acc
  | String c s => dec_value (10 * acc + digit_val c) s
  end.

(** strconv.ParseUint(s, 10, bits): [None] stands for a non-nil error (syntax
    or range), whose text no caller in this program looks at. *)
Definition ParseUint (s : string) (bits : Z) : option Z :=
  if bool_decide (s = "") then None
  else if all_digits s then
    let v := dec_value 0 s in
    if bool_decide (v < 2 ^ bits)%Z then Some v else None
  else None.

(** strconv.Atoi on a 64-bit platform: an optional sign, then digits. *)
Definition Atoi (s : string) : option Z :=
  let signed (neg : bool) (d : string) :=
    v ← ParseUint d 64;
    if neg then (if bool_decide (v <= 2 ^ 63)%Z then Some (- v)%Z else None)
    else (if bool_decide (v < 2 ^ 63)%Z then Some v else None) in
  match s with
  | String "-" d => signed true d
  | String "+" d => signed false d
  | _ => signed false s
  end.

(** ** regexp: the expression [message index:\s*(\d+)] *)

(** The class [\s] of RE2: tab, newline, form feed, carriage return, space. *)
Definition is_space (c : ascii) : bool :=
  let n := Ascii.N_of_ascii c in
  ((n =? 9) || (n =? 10) || (n =? 12) || (n =? 13) || (n =? 32))%N.

Fixpoint skip_spaces (s : string) : string :=
  match s with
  | String c s' => if is_space c then skip_spaces s' else s
  | "" => ""
  end.

Fixpoint take_digits (s : string) : string :=
  match s with
  | String c s' => if is_digit c then String c (take_digits s') else ""
  | "" => ""
  end.

Fixpoint strip_prefix (pre s : string) : option string :=
  match pre, s with
  | "", _ => Some s
  | String a pre, String b s => if decide (a = b) then strip_prefix pre s else None
  | String _ _, "" => None
  end.

Definition match_here (s : string) : option string :=
  r ← strip_prefix "message index:" s;
  let d := take_digits (skip_spaces r) in
  if bool_decide (d = "") then None else Some d.

(** messageIndexRegex.FindStringSubmatch(s)[1]: the digits of the leftmost
    match, [None] when there is no match. *)
Fixpoint FindMessageIndex (s : string) : option string :=
  match match_here s with
  | Some d => Some d
  | None =>
      match s with
      | "" => None
      | String _ s' => FindMessageIndex s'
      end
  end.

(** ** errors *)

(** errors.Join(err, e) for a possibly nil [err] and a non-nil [e]. *)
Definition Join (err : option error) (e : error) : error :=
  match err with
  | None => e
  | Some e0 => e0 +:+ String "010" "" +:+ e
  end.

(** ** Slices

    A slice header over its backing array, both seen from the slice's first
    element: [sl_arr] runs to the capacity, the first [sl_len] elements are
    the slice's own. *)

Record slice (A : Type) := Slice { sl_arr : list A; sl_len : nat }.
Arguments Slice {A} sl_arr sl_len.
Arguments sl_arr {A} s.
Arguments sl_len {A} s.

Definition view {A} (s : slice A) : list A := take (sl_len s) (sl_arr s).

(** A slice as [make] and [append] build it, with no spare capacity. *)
Definition slice_of {A} (l : list A) : slice A := Slice l (length l).

(** s[:n] for n up to the length *)
Definition slice_to {A} (s : slice A) (n : nat) : slice A := Slice (sl_arr s) n.

(** append(s, xs...): in place when the capacity allows, else a new array. *)
Definition slice_append {A} (s : slice A) (xs : list A) : slice A :=
  let n := (sl_len s + length xs)%nat in
  if bool_decide (n <= length (sl_arr s))%nat
  then Slice (take (sl_len s) (sl_arr s) ++ xs ++ drop n (sl_arr s)) n
  else Slice (view s ++ xs) n.

(** ** Lemmas: hex *)

Lemma hex_nibbles (x : byte) :
  hexval (hexchar (Byte.to_N x / 16)) = Some (Byte.to_N x / 16)%N /\
  hexval (hexchar (Byte.to_N x mod 16)) = Some (Byte.to_N x mod 16)%N /\
  byte_of_nibbles (Byte.to_N x / 16) (Byte.to_N x mod 16) = x.
Proof. destruct x; vm_compute; auto. Qed.

(** Decoding undoes encoding, for every byte string. *)
Lemma hex_roundtrip (b : bytes) : DecodeString (EncodeToString b) = Ok b.
Proof.
  induction b as [|x b IH]; [done|].
  cbn [EncodeToString DecodeString].
  destruct (hex_nibbles x) as (-> & -> & ->). by rewrite IH.
Qed.

Lemma EncodeToString_empty (b : bytes) : EncodeToString b = "" <-> b = [].
Proof. by destruct b. Qed.

(** ** Lemmas: decimal text *)

Lemma pretty_char_digit (d : N) : (d < 10)%N ->
  is_digit (pretty_N_char d) = true /\ digit_val (pretty_N_char d) = Z.of_N d.
Proof.
  intros Hd.
  assert (d = 0 \/ d = 1 \/ d = 2 \/ d = 3 \/ d = 4 \/ d = 5 \/ d = 6 \/ d = 7
          \/ d = 8 \/ d = 9)%N as Hc by lia.
  destruct_or! Hc; subst d; vm_compute; auto.
Qed.

Lemma pretty_N_go_digits (n : N) : forall s, all_digits s = true ->
  all_digits (pretty_N_go n s) = true.
Proof.
  induction (N.lt_wf_0 n) as [n _ IH]. intros s Hs.
  destruct (decide (n = 0)%N) as [->|Hn]; [done|].
  rewrite pretty_N_go_step by lia.
  apply IH; [apply N.div_lt; lia|]. simpl.
  destruct (pretty_char_digit (n `mod` 10)) as [-> _]; [apply N.mod_lt; lia|done].
Qed.

Lemma pretty_N_go_value (n : N) : forall s,
  dec_value 0 (pretty_N_go n s) = dec_value (Z.of_N n) s.
Proof.
  induction (N.lt_wf_0 n) as [n _ IH]. intros s.
  destruct (decide (n = 0)%N) as [->|Hn]; [done|].
  rewrite pretty_N_go_step by lia.
  rewrite IH by (apply N.div_lt; lia). simpl.
  destruct (pretty_char_digit (n `mod` 10)) as [_ ->]; [apply N.mod_lt; lia|].
  f_equal. pose proof (N.div_mod n 10). lia.
Qed.

Lemma pretty_N_go_nonempty (n : N) : forall s, s <> "" -> pretty_N_go n s <> "".
Proof.
  induction (N.lt_wf_0 n) as [n _ IH]. intros s Hs.
  destruct (decide (n = 0)%N) as [->|Hn]; [done|].
  rewrite pretty_N_go_step by lia. apply IH; [apply N.div_lt; lia|done].
Qed.

Lemma pretty_N_dec (n : N) :
  all_digits (pretty n) = true /\ dec_value 0 (pretty n) = Z.of_N n /\ pretty n <> "".
Proof.
  unfold pretty, pretty_N. case_decide as Hn; [by subst|].
  split_and!; [by apply pretty_N_go_digits|by rewrite pretty_N_go_value|].
  rewrite pretty_N_go_step by lia. by apply pretty_N_go_nonempty.
Qed.

(** Reading back a printed number, when it fits. *)
Lemma ParseUint_pretty (n : N) bits :
  (Z.of_N n < 2 ^ bits)%Z -> ParseUint (pretty n) bits = Some (Z.of_N n).
Proof.
  intros Hn. destruct (pretty_N_dec n) as (Hd & Hv & He). unfold ParseUint.
  rewrite bool_decide_false, Hd, Hv by done. by rewrite bool_decide_true.
Qed.

Lemma ParseUint_pretty_overflow (n : N) bits :
  ~ (Z.of_N n < 2 ^ bits)%Z -> ParseUint (pretty n) bits = None.
Proof.
  intros Hn. destruct (pretty_N_dec n) as (Hd & Hv & He). unfold ParseUint.
  rewrite bool_decide_false, Hd, Hv by done. by rewrite bool_decide_false.
Qed.

Lemma ParseUint_bound s bits v : ParseUint s bits = Some v -> (v < 2 ^ bits)%Z.
Proof.
  unfold ParseUint. repeat case_match; intros; simplify_eq.
  by eapply bool_decide_eq_true_1.
Qed.

Lemma digit_val_nonneg c : is_digit c = true -> (0 <= digit_val c)%Z.
Proof. unfold is_digit, digit_val. intros [?%N.leb_le ?]%andb_true_iff. lia. Qed.

Lemma dec_value_nonneg s : forall acc,
  all_digits s = true -> (0 <= acc)%Z -> (0 <= dec_value acc s)%Z.
Proof.
  induction s as [|c s IH]; intros acc; simpl; [done|].
  intros [Hc Hs]%andb_true_iff Ha. apply IH; [done|].
  pose proof (digit_val_nonneg c Hc). lia.
Qed.

Lemma ParseUint_nonneg s bits v : ParseUint s bits = Some v -> (0 <= v)%Z.
Proof.
  unfold ParseUint. repeat case_match; intros; simplify_eq.
  by apply dec_value_nonneg.
Qed.

(** ** Lemmas: substrings *)

Lemma append_assoc (a b c : string) : (a +:+ b) +:+ c = a +:+ (b +:+ c).
Proof.
  induction a as [|x a IH]; [done|].
  change (String x ((a +:+ b) +:+ c) = String x (a +:+ (b +:+ c))). by rewrite IH.
Qed.

Lemma prefix_append (sub t : string) : String.prefix sub (sub +:+ t) = true.
Proof. induction sub as [|c sub IH]; simpl; [by destruct t|]. by destruct (ascii_dec c c). Qed.

Lemma Contains_cons c s sub : Contains s sub = true -> Contains (String c s) sub = true.
Proof. intros H. simpl. rewrite H. apply orb_true_r. Qed.

Lemma Contains_prefix s sub : String.prefix sub s = true -> Contains s sub = true.
Proof. intros H. destruct s; cbn [Contains]; by rewrite H. Qed.

Lemma Contains_app_r (pre s sub : string) : Contains s sub = true -> Contains (pre +:+ s) sub = true.
Proof. intros H. induction pre as [|c pre IH]; [done|]. by apply Contains_cons. Qed.

Lemma prefix_inv (sub s : string) : String.prefix sub s = true -> exists t, s = sub +:+ t.
Proof.
  revert s. induction sub as [|c sub IH]; intros s; [by exists s|].
  destruct s as [|d s]; [done|]. simpl. case_match; [|done]. subst.
  intros [t ->]%IH. by exists t.
Qed.

Lemma Contains_inv (s sub : string) :
  Contains s sub = true -> exists pre post, s = pre +:+ sub +:+ post.
Proof.
  induction s as [|c s IH]; cbn [Contains]; intros [H|H]%orb_true_iff; [|done|..].
  - apply prefix_inv in H as [t Ht]. by exists "", t.
  - apply prefix_inv in H as [t Ht]. by exists "", t.
  - destruct (IH H) as (pre & post & ->). by exists (String c pre), post.
Qed.

Lemma Contains_mid (pre sub post : string) : Contains (pre +:+ sub +:+ post) sub = true.
Proof. apply Contains_app_r, Contains_prefix, prefix_append. Qed.

Lemma Contains_app_l (s post sub : string) : Contains s sub = true -> Contains (s +:+ post) sub = true.
Proof.
  intros (a & b & ->)%Contains_inv. rewrite !append_assoc. apply Contains_mid.
Qed.

(** ** Lemmas: the message-index expression *)

Lemma strip_prefix_app (pre s : string) : strip_prefix pre (pre +:+ s) = Some s.
Proof. induction pre as [|c pre IH]; simpl; [done|]. by rewrite decide_True. Qed.

Lemma take_digits_app (d rest : string) :
  all_digits d = true -> (forall c r, rest = String c r -> is_digit c = false) ->
  take_digits (d +:+ rest) = d.
Proof.
  intros Hd Hr. induction d as [|c d IH]; simpl in *.
  - destruct rest as [|c r]; simpl; [done|]. by rewrite (Hr c r).
  - apply andb_true_iff in Hd as [-> Hd]. by rewrite IH.
Qed.

Lemma digit_not_space c : is_digit c = true -> is_space c = false.
Proof.
  unfold is_digit, is_space. intros [?%N.leb_le ?%N.leb_le]%andb_true_iff.
  rewrite !orb_false_iff, !N.eqb_neq. lia.
Qed.

Lemma skip_spaces_digits (d rest : string) :
  all_digits d = true -> d <> "" -> skip_spaces (d +:+ rest) = d +:+ rest.
Proof.
  destruct d as [|c d]; simpl; [done|].
  intros [Hc _]%andb_true_iff _. by rewrite (digit_not_space c Hc).
Qed.

Lemma match_here_index (n : N) (rest : string) :
  (forall c r, rest = String c r -> is_digit c = false) ->
  match_here ("message index: " +:+ pretty n +:+ rest) = Some (pretty n).
Proof.
  intros Hr. destruct (pretty_N_dec n) as (Hd & _ & He). unfold match_here.
  change ("message index: " +:+ pretty n +:+ rest)
    with ("message index:" +:+ (" " +:+ pretty n +:+ rest)).
  rewrite strip_prefix_app. cbn [mbind option_bind].
  change (skip_spaces (" " +:+ pretty n +:+ rest)) with (skip_spaces (pretty n +:+ rest)).
  rewrite skip_spaces_digits by done. rewrite take_digits_app by done.
  by rewrite bool_decide_false.
Qed.

(** ** Lemmas: slices *)

Definition slice_ok {A} (s : slice A) : Prop := (sl_len s <= length (sl_arr s))%nat.

Lemma slice_of_ok {A} (l : list A) : slice_ok (slice_of l).
Proof. unfold slice_ok. simpl. lia. Qed.

Lemma view_slice_of {A} (l : list A) : view (slice_of l) = l.
Proof. unfold view. simpl. by rewrite firstn_all. Qed.

Lemma length_view {A} (s : slice A) : slice_ok s -> length (view s) = sl_len s.
Proof. unfold slice_ok, view. rewrite length_take. lia. Qed.
