(* ===== verification/JsonText.v ===== *)
(** * encoding/json and unicode/utf8: the text of JSON values

    The two programs talk JSON over HTTP, so encoding/json is modelled as far
    as they use it: the encoder's string escaping with HTML escaping on, its
    output for values, and the scanner with its string unquoting.  Text is a
    byte string; [sanitize] replaces what is not UTF-8 by U+FFFD, as both
    sides do. *)
From Stdlib Require Import Strings.Byte Strings.Ascii Strings.String.
From S2P Require Import Prelude GoStd.

(** ** unicode/utf8 *)

Definition code (c : ascii) : N := Ascii.N_of_ascii c.
Definition chr (n : N) : ascii := Ascii.ascii_of_N n.

Definition between (lo hi n : N) : bool := ((lo <=? n) && (n <=? hi))%N.
Definition isCont (c : ascii) : bool := between 128 191 (code c).

(** utf8.DecodeRune on a first byte from 128 on: the size of the valid
    sequence at the front, 0 where Go answers RuneError of size 1. *)
Definition runeSize (s : string) : nat :=
  match s with
  | "" => 0
  | String a s1 =>
      let n := code a in
      if between 194 223 n then
        match s1 with String b _ => if isCont b then 2 else 0 | _ => 0 end
      else if between 224 239 n then
        match s1 with
        | String b (String c _) =>
            let lo := if (n =? 224)%N then 160%N else 128%N in
            let hi := if (n =? 237)%N then 159%N else 191%N in
            if between lo hi (code b) && isCont c then 3 else 0
        | _ => 0
        end
      else if between 240 244 n then
        match s1 with
        | String b (String c (String d _)) =>
            let lo := if (n =? 240)%N then 144%N else 128%N in
            let hi := if (n =? 244)%N then 143%N else 191%N in
            if between lo hi (code b) && isCont c && isCont d then 4 else 0
        | _ => 0
        end
      else 0
  end.

(** utf8.EncodeRune, for the code points the decoder produces *)
Definition encodeRune (r : N) : string :=
  if (r <? 128)%N then String (chr r) ""
  else if (r <? 2048)%N then
    String (chr (192 + r / 64)) (String (chr (128 + r mod 64)) "")
  else if (r <? 65536)%N then
    String (chr (224 + r / 4096))
      (String (chr (128 + r / 64 mod 64)) (String (chr (128 + r mod 64)) ""))
  else
    String (chr (240 + r / 262144)) (String (chr (128 + r / 4096 mod 64))
      (String (chr (128 + r / 64 mod 64)) (String (chr (128 + r mod 64)) ""))).

Definition replacementChar : N := 65533.
Definition replacement : string := encodeRune replacementChar.

(** The text with every byte that is not part of a valid sequence replaced;
    [skip] counts the bytes left of the sequence being copied. *)
Fixpoint sanitizeFrom (skip : nat) (s : string) : string :=
  match s with
  | "" => ""
  | String c s' =>
      match skip with
      | S k => String c (sanitizeFrom k s')
      | O =>
          if (code c <? 128)%N then String c (sanitizeFrom 0 s')
          else match runeSize s with
               | O => replacement +:+ sanitizeFrom 0 s'
               | S k => String c (sanitizeFrom k s')
               end
      end
  end.

Definition sanitize (s : string) : string := sanitizeFrom 0 s.

(** ** The encoder's strings *)

(** appendString on a byte below 128: htmlSafeSet, the short escapes, \u00xx *)
Definition escape (c : ascii) : string :=
  let n := code c in
  let short (e : ascii) := String "\" (String e "") in
  if (n =? 34)%N || (n =? 92)%N then short c
  else if (n =? 8)%N then short "b"%char
  else if (n =? 12)%N then short "f"%char
  else if (n =? 10)%N then short "n"%char
  else if (n =? 13)%N then short "r"%char
  else if (n =? 9)%N then short "t"%char
  else if (n <? 32)%N || (n =? 60)%N || (n =? 62)%N || (n =? 38)%N then
    "\u00" +:+ String (hexchar (n / 16)) (String (hexchar (n mod 16)) "")
  else String c "".

(** U+2028 and U+2029, which the encoder escapes *)
Definition isLineSep (a b c : ascii) : bool :=
  (code a =? 226)%N && (code b =? 128)%N && ((code c =? 168)%N || (code c =? 169)%N).

Fixpoint quoteFrom (skip : nat) (s : string) : string :=
  match s with
  | "" => ""
  | String c s' =>
      match skip with
      | S k => String c (quoteFrom k s')
      | O =>
          if (code c <? 128)%N then escape c +:+ quoteFrom 0 s'
          else match runeSize s with
               | O => "\ufffd" +:+ quoteFrom 0 s'
               | S k =>
                   match s' with
                   | String c2 (String c3 s3) =>
                       if isLineSep c c2 c3
                       then "\u202" +:+ String (hexchar (code c3 mod 16)) (quoteFrom 0 s3)
                       else String c (quoteFrom k s')
                   | _ => String c (quoteFrom k s')
                   end
               end
      end
  end.

Definition dquote : ascii := "034"%char.

Definition quote (s : string) : string := String dquote (quoteFrom 0 s +:+ String dquote "").

(** ** The decoder's strings *)

Definition shortEscape (c : ascii) : option ascii :=
  let n := code c in
  if (n =? 34)%N || (n =? 92)%N || (n =? 47)%N then Some c
  else if (n =? 98)%N then Some (chr 8)
  else if (n =? 102)%N then Some (chr 12)
  else if (n =? 110)%N then Some (chr 10)
  else if (n =? 114)%N then Some (chr 13)
  else if (n =? 116)%N then Some (chr 9)
  else None.

(** getu4 *)
Definition u4 (a b c d : ascii) : option N :=
  a ← hexval a; b ← hexval b; c ← hexval c; d ← hexval d;
  Some (4096 * a + 256 * b + 16 * c + d)%N.

(** utf16.IsSurrogate; utf16.DecodeRune on a pair *)
Definition isSurrogate (r : N) : bool := between 55296 57343 r.
Definition surrogatePair (r1 r2 : N) : option N :=
  if between 55296 56319 r1 && between 56320 57343 r2
  then Some ((r1 - 55296) * 1024 + (r2 - 56320) + 65536)%N else None.

Definition emit (t : string) (m : option (string * string)) : option (string * string) :=
  '(u, rest) ← m; Some (t +:+ u, rest).

(** The rest of a string literal after its opening quote: the unquoted text
    and what follows the closing quote; [None] is a syntax error.  The scanner
    and unquoteBytes in one pass. *)
Fixpoint strBody (skip : nat) (s : string) : option (string * string) :=
  match s with
  | "" => None
  | String c s' =>
      match skip with
      | S k => emit (String c "") (strBody k s')
      | O =>
          if (code c =? 34)%N then Some ("", s')
          else if (code c =? 92)%N then
            match s' with
            | "" => None
            | String e s2 =>
                match shortEscape e with
                | Some d => emit (String d "") (strBody 0 s2)
                | None =>
                    if (code e =? 117)%N then
                      match s2 with
                      | String h1 (String h2 (String h3 (String h4 s3))) =>
                          match u4 h1 h2 h3 h4 with
                          | None => None
                          | Some r =>
                              if isSurrogate r then
                                match s3 with
                                | String b (String u (String i1 (String i2 (String i3 (String i4 s4))))) =>
                                    match (if (code b =? 92)%N && (code u =? 117)%N
                                           then u4 i1 i2 i3 i4 ≫= surrogatePair r else None) with
                                    | Some r' => emit (encodeRune r') (strBody 0 s4)
                                    | None => emit replacement (strBody 0 s3)
                                    end
                                | _ => emit replacement (strBody 0 s3)
                                end
                              else emit (encodeRune r) (strBody 0 s3)
                          end
                      | _ => None
                      end
                    else None
                end
            end
          else if (code c <? 32)%N then None
          else if (code c <? 128)%N then emit (String c "") (strBody 0 s')
          else match runeSize s with
               | O => emit replacement (strBody 0 s')
               | S k => emit (String c "") (strBody k s')
               end
      end
  end.

(** ** Values *)

Unset Elimination Schemes.
Inductive Json :=
| JNull
| JBool (b : bool)
| JNum (lit : string)
| JStr (s : string)
| JArr (l : list Json)
| JObj (l : list (string * Json)).
Set Elimination Schemes.

Fixpoint commaSep (l : list string) : string :=
  match l with
  | [] => ""
  | [x] => x
  | x :: l => x +:+ String "," (commaSep l)
  end.

(** json.Marshal *)
Fixpoint print (j : Json) : string :=
  match j with
  | JNull => "null"
  | JBool true => "true"
  | JBool false => "false"
  | JNum lit => lit
  | JStr s => quote s
  | JArr l => String "[" (commaSep (map print l) +:+ "]")
  | JObj l =>
      String "{" (commaSep (map (fun m => quote m.1 +:+ String ":" (print m.2)) l) +:+ "}")
  end.

Definition isWs (c : ascii) : bool :=
  let n := code c in ((n =? 32) || (n =? 9) || (n =? 10) || (n =? 13))%N.

Fixpoint skipWs (s : string) : string :=
  match s with
  | String c s' => if isWs c then skipWs s' else s
  | "" => ""
  end.

(** The digits at the front and what follows them. *)
Fixpoint spanDigits (s : string) : string * string :=
  match s with
  | String c s' => if is_digit c then let '(d, r) := spanDigits s' in (String c d, r) else ("", s)
  | "" => ("", "")
  end.

Definition digits1 (s : string) : option (string * string) :=
  match spanDigits s with
  | ("", _) => None
  | dr => Some dr
  end.

Definition intPart (s : string) : option (string * string) :=
  match s with
  | String c s' => if (code c =? 48)%N then Some (String c "", s') else digits1 s
  | "" => None
  end.

Definition fracPart (s : string) : option (string * string) :=
  match s with
  | String c s' =>
      if (code c =? 46)%N then '(d, r) ← digits1 s'; Some (String c d, r) else Some ("", s)
  | "" => Some ("", s)
  end.

Definition expPart (s : string) : option (string * string) :=
  match s with
  | String c s' =>
      if (code c =? 101)%N || (code c =? 69)%N then
        match s' with
        | String g s2 =>
            if (code g =? 43)%N || (code g =? 45)%N
            then '(d, r) ← digits1 s2; Some (String c (String g d), r)
            else '(d, r) ← digits1 s'; Some (String c d, r)
        | "" => None
        end
      else Some ("", s)
  | "" => Some ("", s)
  end.

(** A number literal at the front. *)
Definition number (s : string) : option (string * string) :=
  let '(sign, s) := match s with
                    | String c s' => if (code c =? 45)%N then (String c "", s') else ("", s)
                    | "" => ("", s)
                    end in
  '(i, s) ← intPart s;
  '(f, s) ← fracPart s;
  '(e, s) ← expPart s;
  Some (sign +:+ i +:+ f +:+ e, s).

Definition literal (s : string) : option (Json * string) :=
  match strip_prefix "null" s with
  | Some r => Some (JNull, r)
  | None =>
      match strip_prefix "true" s with
      | Some r => Some (JBool true, r)
      | None =>
          match strip_prefix "false" s with
          | Some r => Some (JBool false, r)
          | None => '(lit, r) ← number s; Some (JNum lit, r)
          end
      end
  end.

(** maxNestingDepth of the scanner *)
Definition maxNestingDepth : N := 10000.

(** The value at the front and what follows it; [depth] is the number of
    arrays and objects that may still be opened. *)
Fixpoint parseValue (fuel : nat) (depth : N) (s : string) : option (Json * string) :=
  match fuel with
  | O => None
  | S fuel =>
      match skipWs s with
      | "" => None
      | String c s' =>
          if (code c =? 34)%N then '(t, r) ← strBody 0 s'; Some (JStr t, r)
          else if (code c =? 91)%N then
            if (depth =? 0)%N then None
            else match skipWs s' with
                 | String d r =>
                     if (code d =? 93)%N then Some (JArr [], r)
                     else '(l, r) ← parseElems fuel (depth - 1) s'; Some (JArr l, r)
                 | "" => None
                 end
          else if (code c =? 123)%N then
            if (depth =? 0)%N then None
            else match skipWs s' with
                 | String d r =>
                     if (code d =? 125)%N then Some (JObj [], r)
                     else '(l, r) ← parseMembers fuel (depth - 1) s'; Some (JObj l, r)
                 | "" => None
                 end
          else literal (String c s')
      end
  end
with parseElems (fuel : nat) (depth : N) (s : string) : option (list Json * string) :=
  match fuel with
  | O => None
  | S fuel =>
      '(v, r) ← parseValue fuel depth s;
      match skipWs r with
      | String c r =>
          if (code c =? 44)%N then '(l, r) ← parseElems fuel depth r; Some (v :: l, r)
          else if (code c =? 93)%N then Some ([v], r)
          else None
      | "" => None
      end
  end
with parseMembers (fuel : nat) (depth : N) (s : string) : option (list (string * Json) * string) :=
  match fuel with
  | O => None
  | S fuel =>
      match skipWs s with
      | String q s1 =>
          if (code q =? 34)%N then
            '(k, r) ← strBody 0 s1;
            match skipWs r with
            | String c r =>
                if (code c =? 58)%N then
                  '(v, r) ← parseValue fuel depth r;
                  match skipWs r with
                  | String c r =>
                      if (code c =? 44)%N then '(l, r) ← parseMembers fuel depth r; Some ((k, v) :: l, r)
                      else if (code c =? 125)%N then Some ([(k, v)], r)
                      else None
                  | "" => None
                  end
                else None
            | "" => None
            end
          else None
      | "" => None
      end
  end.

(** Two calls at most are made for each byte of input. *)
Definition fuelFor (s : string) : nat := 2 * String.length s + 1.

(** Decoder.Decode: the first value of the text. *)
Definition parsePrefix (s : string) : option (Json * string) :=
  parseValue (fuelFor s) maxNestingDepth s.

(** json.Unmarshal: nothing but white space may follow the value. *)
Definition parseAll (s : string) : option Json :=
  '(j, r) ← parsePrefix s;
  match skipWs r with "" => Some j | _ => None end.

(** ** Lemmas: strings *)

Lemma code_inj a b : code a = code b -> a = b.
Proof. unfold code. intros H. by rewrite <- (ascii_N_embedding a), <- (ascii_N_embedding b), H. Qed.

Lemma append_cons c (s t : string) : String c s +:+ t = String c (s +:+ t).
Proof. done. Qed.

Lemma emit_Some t u r : emit t (Some (u, r)) = Some (t +:+ u, r).
Proof. done. Qed.

Lemma strBody_escape c t :
  (code c <? 128)%N = true -> strBody 0 (escape c +:+ t) = emit (String c "") (strBody 0 t).
Proof.
  destruct c as [[] [] [] [] [] [] [] []]; intros H; try discriminate H; reflexivity.
Qed.

Lemma runeSize_length s : (runeSize s <= String.length s)%nat.
Proof.
  destruct s as [|a [|b [|c [|d s]]]]; cbn [runeSize String.length]; repeat case_match; lia.
Qed.

(** The size is decided by the bytes of the sequence itself, which quoting
    copies. *)
Lemma runeSize_quote c s k t :
  runeSize (String c s) = S k -> runeSize (String c (quoteFrom k s +:+ t)) = S k.
Proof.
  destruct s as [|b [|d [|e s]]]; cbn [runeSize]; intros H;
    repeat match type of H with context [match ?x with _ => _ end] => destruct x eqn:? end; simplify_eq;
    cbn [quoteFrom]; rewrite ?append_cons; cbn [runeSize];
    repeat match goal with H : _ = true |- _ => rewrite H | H : _ = false |- _ => rewrite H end; try done.
Qed.

Lemma runeSize_high c s k : runeSize (String c s) = S k ->
  (code c =? 34)%N = false /\ (code c =? 92)%N = false /\ (code c <? 32)%N = false /\ (code c <? 128)%N = false.
Proof.
  destruct c as [[] [] [] [] [] [] [] []]; intros H; first [discriminate H | repeat split; reflexivity].
Qed.

Lemma isLineSep_inv a b c : isLineSep a b c = true ->
  a = chr 226 /\ b = chr 128 /\ (c = chr 168 \/ c = chr 169).
Proof.
  unfold isLineSep. intros [[Ha%N.eqb_eq Hb%N.eqb_eq]%andb_true_iff Hc]%andb_true_iff.
  rewrite orb_true_iff, !N.eqb_eq in Hc.
  split; [by apply code_inj|]. split; [by apply code_inj|].
  destruct Hc; [left|right]; by apply code_inj.
Qed.

Lemma strBody_rune c s k t :
  runeSize (String c s) = S k -> strBody 0 (String c s) = emit (String c "") (strBody k s) /\
  strBody 0 (String c (quoteFrom k s +:+ t)) = emit (String c "") (strBody k (quoteFrom k s +:+ t)).
Proof.
  intros H. destruct (runeSize_high _ _ _ H) as (E1 & E2 & E3 & E4).
  pose proof (runeSize_quote c s k t H) as H'.
  split; cbn [strBody]; rewrite E1, E2, E3, E4, ?H, ?H'; done.
Qed.

(** Unquoting undoes quoting, up to the replacement of invalid bytes. *)
Lemma strBody_quote n : forall s skip r,
  (String.length s <= n)%nat -> (skip <= String.length s)%nat ->
  strBody skip (quoteFrom skip s +:+ String dquote r) = Some (sanitizeFrom skip s, r).
Proof.
  induction n as [|n IH]; intros [|c s] skip r Hn Hs; simpl in Hn, Hs; try lia.
  { assert (skip = 0)%nat as -> by lia. done. }
  { assert (skip = 0)%nat as -> by lia. done. }
  destruct skip as [|k].
  2: { cbn [quoteFrom sanitizeFrom]. rewrite append_cons. cbn [strBody]. by rewrite IH by lia. }
  cbn [quoteFrom sanitizeFrom]. destruct (code c <? 128)%N eqn:Ha.
  { rewrite append_assoc, strBody_escape by done. by rewrite IH by lia. }
  destruct (runeSize (String c s)) as [|k] eqn:Hr.
  { rewrite append_assoc. change (strBody 0 ("\ufffd" +:+ ?x)) with (emit replacement (strBody 0 x)).
    by rewrite IH by lia. }
  pose proof (runeSize_length (String c s)) as Hl. rewrite Hr in Hl. simpl in Hl.
  destruct (strBody_rune c s k (String dquote r) Hr) as [_ Hq].
  assert (strBody 0 (String c (quoteFrom k s) +:+ String dquote r) = Some (String c (sanitizeFrom k s), r))
    as Hplain by (rewrite append_cons, Hq, IH by lia; done).
  destruct s as [|c2 [|c3 s3]]; [exact Hplain|exact Hplain|].
  destruct (isLineSep c c2 c3) eqn:Hsep; [|exact Hplain].
  apply isLineSep_inv in Hsep as (-> & -> & Hc3). assert (k = 2)%nat as -> by (destruct Hc3; subst; by inversion Hr).
  cbn [sanitizeFrom]. simpl in Hn. destruct Hc3 as [-> | ->].
  - change (strBody 0 (("\u202" +:+ String (hexchar (code (chr 168) mod 16)) ?q) +:+ ?t))
      with (emit (encodeRune 8232) (strBody 0 (q +:+ t))). by rewrite IH by lia.
  - change (strBody 0 (("\u202" +:+ String (hexchar (code (chr 169) mod 16)) ?q) +:+ ?t))
      with (emit (encodeRune 8233) (strBody 0 (q +:+ t))). by rewrite IH by lia.
Qed.

Lemma strBody_quoted s r :
  strBody 0 (quoteFrom 0 s +:+ String dquote r) = Some (sanitize s, r).
Proof. apply (strBody_quote (String.length s)); lia. Qed.

(** ** Lemmas: values *)

(** Induction with hypotheses for the elements of arrays and objects. *)
Lemma Json_ind (P : Json -> Prop) :
  P JNull -> (forall b, P (JBool b)) -> (forall lit, P (JNum lit)) -> (forall s, P (JStr s)) ->
  (forall l, Forall P l -> P (JArr l)) -> (forall l, Forall (fun m => P m.2) l -> P (JObj l)) ->
  forall j, P j.
Proof.
  intros Hnull Hbool Hnum Hstr Harr Hobj. fix IH 1. intros [|b|lit|s|l|l];
    [exact Hnull|apply Hbool|apply Hnum|apply Hstr|..].
  - apply Harr. induction l as [|j l IHl]; constructor; [apply IH|apply IHl].
  - apply Hobj. induction l as [|m l IHl]; constructor; [apply IH|apply IHl].
Qed.

(** The values the encoder is given: numbers are unsigned integers. *)
Fixpoint wfJson (depth : N) (j : Json) : Prop :=
  match j with
  | JNum lit => exists n : N, lit = pretty n
  | JArr l => (0 < depth)%N /\ fold_right (fun j acc => wfJson (depth - 1) j /\ acc) True l
  | JObj l => (0 < depth)%N /\ fold_right (fun m acc => wfJson (depth - 1) m.2 /\ acc) True l
  | _ => True
  end.

Fixpoint sanitizeJson (j : Json) : Json :=
  match j with
  | JStr s => JStr (sanitize s)
  | JArr l => JArr (map sanitizeJson l)
  | JObj l => JObj (map (fun m => (sanitize m.1, sanitizeJson m.2)) l)
  | _ => j
  end.

(** What may follow a number without becoming part of it. *)
Definition stops (s : string) : Prop :=
  forall c r, s = String c r -> is_digit c = false /\ (code c =? 46)%N = false /\
                               (code c =? 101)%N || (code c =? 69)%N = false.

Lemma length_append (s t : string) : String.length (s +:+ t) = (String.length s + String.length t)%nat.
Proof. induction s as [|c s IH]; [done|]. rewrite append_cons. simpl. by rewrite IH. Qed.

Lemma pretty_N_go_head (n : N) : forall s, (0 < n)%N ->
  exists c t, pretty_N_go n s = String c t /\ is_digit c = true /\ (code c =? 48)%N = false.
Proof.
  induction (N.lt_wf_0 n) as [n _ IH]. intros s Hn. rewrite pretty_N_go_step by lia.
  destruct (decide (n < 10)%N) as [Hlt|Hge].
  - rewrite N.div_small, N.mod_small, pretty_N_go_0 by done. eexists _, _. split; [done|].
    assert (n = 1 \/ n = 2 \/ n = 3 \/ n = 4 \/ n = 5 \/ n = 6 \/ n = 7 \/ n = 8 \/ n = 9)%N as Hc by lia.
    destruct_or! Hc; subst n; by vm_compute.
  - apply IH; [apply N.div_lt; lia|]. pose proof (N.div_le_lower_bound n 10 1). lia.
Qed.

Lemma spanDigits_app d rest :
  all_digits d = true -> (forall c r, rest = String c r -> is_digit c = false) ->
  spanDigits (d +:+ rest) = (d, rest).
Proof.
  intros Hd Hr. induction d as [|c d IH].
  - destruct rest as [|c r]; [done|]. simpl. by rewrite (Hr c r).
  - simpl in Hd. apply andb_true_iff in Hd as [Hc Hd]. rewrite append_cons. cbn [spanDigits].
    by rewrite Hc, (IH Hd).
Qed.

Lemma noFracExp rest : stops rest -> fracPart rest = Some ("", rest) /\ expPart rest = Some ("", rest).
Proof.
  intros H. destruct rest as [|c r]; [done|]. destruct (H c r eq_refl) as (_ & H1 & H2).
  unfold fracPart, expPart. by rewrite H1, H2.
Qed.

Lemma intPart_pretty (n : N) rest : stops rest -> intPart (pretty n +:+ rest) = Some (pretty n, rest).
Proof.
  intros Hs. assert (forall c r, rest = String c r -> is_digit c = false) as Hr
    by (intros c r ->; by apply (Hs c r)).
  destruct (decide (n = 0)%N) as [->|Hn]; [done|].
  destruct (pretty_N_dec n) as (Hd & _ & Hne).
  assert (exists c t, pretty n = String c t /\ is_digit c = true /\ (code c =? 48)%N = false) as (c & t & E & _ & Hz).
  { unfold pretty, pretty_N. rewrite decide_False by done. apply pretty_N_go_head. lia. }
  rewrite E in *. rewrite append_cons. cbn [intPart]. rewrite Hz. unfold digits1.
  change (String c (t +:+ rest)) with (String c t +:+ rest). by rewrite spanDigits_app.
Qed.

Lemma digit_head c s : is_digit c = true ->
  (code c =? 45)%N = false /\ (code c =? 34)%N = false /\ (code c =? 91)%N = false /\
  (code c =? 123)%N = false /\ isWs c = false /\ (code c =? 93)%N = false /\ (code c =? 125)%N = false /\
  literal (String c s) = ('(lit, r) ← number (String c s); Some (JNum lit, r)).
Proof.
  destruct c as [[] [] [] [] [] [] [] []]; intros H; try discriminate H; repeat split; reflexivity.
Qed.

Lemma pretty_head (n : N) : exists c t, pretty n = String c t /\ is_digit c = true.
Proof.
  destruct (pretty_N_dec n) as (Hd & _ & Hne). destruct (pretty n) as [|c t]; [done|].
  exists c, t. split; [done|]. simpl in Hd. by apply andb_true_iff in Hd as [? _].
Qed.

Lemma number_pretty (n : N) rest : stops rest -> number (pretty n +:+ rest) = Some (pretty n, rest).
Proof.
  intros Hs. unfold number. destruct (pretty_head n) as (c & t & E & Hc).
  pose proof (intPart_pretty n rest Hs) as Hi. rewrite E in *. rewrite append_cons in *.
  destruct (digit_head c "" Hc) as (-> & _). destruct (noFracExp rest Hs) as [Hf He].
  rewrite Hi. simpl. rewrite Hf. simpl. rewrite He. simpl. do 2 f_equal.
  change (("" +:+ String c t +:+ "" +:+ "")) with (String c (t +:+ "")). f_equal.
  clear. induction t as [|x t IH]; [done|]. rewrite append_cons. by f_equal.
Qed.

(** The first byte of a printed value: no white space, no closing bracket. *)
Lemma print_head d j : wfJson d j ->
  exists c t, print j = String c t /\ isWs c = false /\ (code c =? 93)%N = false /\ (code c =? 125)%N = false.
Proof.
  destruct j as [|[]|lit|s|l|l]; intros Hw; try (eexists _, _; split; [reflexivity|by repeat split]).
  destruct Hw as [n ->]. destruct (pretty_head n) as (c & t & E & Hc). exists c, t.
  destruct (digit_head c "" Hc) as (_ & _ & _ & _ & ? & ? & ? & _). done.
Qed.

Lemma skipWs_nonws c s : isWs c = false -> skipWs (String c s) = String c s.
Proof. intros H. simpl. by rewrite H. Qed.

Lemma stops_cons c r : is_digit c = false -> (code c =? 46)%N = false ->
  (code c =? 101)%N || (code c =? 69)%N = false -> stops (String c r).
Proof. intros H1 H2 H3 d t [= <- <-]. done. Qed.

(** The value [j] is read back from its text, whatever follows. *)
Definition readsBack (j : Json) : Prop := forall depth fuel rest,
  wfJson depth j -> stops rest -> (2 * String.length (print j +:+ rest) + 1 <= fuel)%nat ->
  parseValue fuel depth (print j +:+ rest) = Some (sanitizeJson j, rest).

Lemma skipWs_print depth j t : wfJson depth j -> skipWs (print j +:+ t) = print j +:+ t.
Proof.
  intros Hw. destruct (print_head depth j Hw) as (c & s & -> & Hc & _). rewrite append_cons.
  by apply skipWs_nonws.
Qed.

Lemma elems_back l depth rest : Forall readsBack l ->
  fold_right (fun j acc => wfJson depth j /\ acc) True l -> l <> [] -> forall fuel,
  (2 * String.length (commaSep (map print l) +:+ String "]" rest) + 2 <= fuel)%nat ->
  parseElems fuel depth (commaSep (map print l) +:+ String "]" rest) = Some (map sanitizeJson l, rest).
Proof.
  induction l as [|j l IH]; intros Hl Hw Hne [|f] Hf; try lia; [done..|].
  apply Forall_cons in Hl as [Hj Hl]. destruct Hw as [Hwj Hw].
  cbn [parseElems]. destruct l as [|j' l]; cbn [map commaSep] in *.
  - rewrite (Hj depth) by (first [done|by apply stops_cons|lia]). done.
  - rewrite append_assoc in *. rewrite append_cons in *.
    rewrite (Hj depth) by (first [done|by apply stops_cons|lia]).
    cbn [mbind option_bind]. rewrite skipWs_nonws by done.
    change (code "," =? 44)%N with true. cbv iota.
    rewrite IH; [done|done|done|done|]. rewrite length_append in Hf. simpl in Hf |- *. lia.
Qed.

Lemma member_step f depth k j c r : readsBack j -> wfJson depth j -> stops (String c r) -> isWs c = false ->
  (2 * String.length (print j +:+ String c r) + 1 <= f)%nat ->
  parseMembers (S f) depth ((quote k +:+ String ":" (print j)) +:+ String c r) =
  if (code c =? 44)%N
  then '(l, r) ← parseMembers f depth r; Some ((sanitize k, sanitizeJson j) :: l, r)
  else if (code c =? 125)%N then Some ([(sanitize k, sanitizeJson j)], r) else None.
Proof.
  intros Hj Hw Hs Hws Hf. cbn [parseMembers]. unfold quote.
  rewrite append_assoc. rewrite !append_cons. rewrite !append_assoc.
  change (String dquote "" +:+ ?t) with (String dquote t). rewrite skipWs_nonws by done.
  change (code dquote =? 34)%N with true. cbv iota. rewrite strBody_quoted.
  cbn [mbind option_bind]. rewrite skipWs_nonws by done.
  change (code ":" =? 58)%N with true. cbv iota. rewrite (Hj depth) by done.
  cbn [mbind option_bind]. by rewrite skipWs_nonws by done.
Qed.

Lemma member_length k (v t : string) :
  (String.length (v +:+ t) < String.length ((quote k +:+ String ":" v) +:+ t))%nat.
Proof. rewrite !length_append. simpl. lia. Qed.

Lemma members_back l depth rest : Forall (fun m => readsBack m.2) l ->
  fold_right (fun m acc => wfJson depth m.2 /\ acc) True l -> l <> [] -> forall fuel,
  let text := commaSep (map (fun m => quote m.1 +:+ String ":" (print m.2)) l) in
  (2 * String.length (text +:+ String "}" rest) + 2 <= fuel)%nat ->
  parseMembers fuel depth (text +:+ String "}" rest)
    = Some (map (fun m => (sanitize m.1, sanitizeJson m.2)) l, rest).
Proof.
  induction l as [|[k j] l IH]; intros Hl Hw Hne [|f] text Hf; try lia; [done..|].
  apply Forall_cons in Hl as [Hj Hl]. destruct Hw as [Hwj Hw]. simpl in Hj, Hwj.
  unfold text in *. clear text. destruct l as [|m' l]; cbn [map commaSep fst snd] in *.
  - rewrite member_step; [done|done|done|by apply stops_cons|done|].
    pose proof (member_length k (print j) (String "}" rest)). lia.
  - rewrite append_assoc in Hf |- *. rewrite (append_cons ","%char) in Hf |- *.
    rewrite member_step; [|done|done|by apply stops_cons|done|].
    + change (code "," =? 44)%N with true. cbv iota. rewrite IH; [done|done|done|done|].
      rewrite (length_append _ (String "," _)) in Hf. cbn [String.length] in Hf. lia.
    + match goal with |- (2 * String.length (_ +:+ ?t) + 1 <= _)%nat =>
        pose proof (member_length k (print j) t) end. lia.
Qed.

Lemma print_back j : readsBack j.
Proof.
  induction j as [|b|lit|s|l IH|l IH] using Json_ind; intros depth [|f] rest Hw Hs Hf; try lia.
  - done.
  - by destruct b.
  - destruct Hw as [n ->]. cbn [print parseValue sanitizeJson].
    pose proof (number_pretty n rest Hs) as Hn. destruct (pretty_head n) as (c & t & E & Hc).
    rewrite E in *. rewrite append_cons in *.
    destruct (digit_head c (t +:+ rest) Hc) as (_ & E1 & E2 & E3 & Ews & _ & _ & El).
    rewrite skipWs_nonws, E1, E2, E3, El, Hn by done. done.
  - cbn [print parseValue sanitizeJson]. unfold quote. rewrite append_cons, append_assoc, append_cons.
    rewrite skipWs_nonws by done. change (code dquote =? 34)%N with true. cbv iota.
    change ("" +:+ rest) with rest. by rewrite strBody_quoted.
  - cbn [print] in *. rewrite append_cons, append_assoc in *. change ("]" +:+ rest) with (String "]" rest) in *.
    cbn [parseValue]. rewrite skipWs_nonws by done.
    change (code "[" =? 34)%N with false. change (code "[" =? 91)%N with true. cbv iota.
    destruct Hw as [Hd Hw]. rewrite (proj2 (N.eqb_neq depth 0)) by lia.
    destruct l as [|j l]; [done|].
    rewrite elems_back; [|done|done|done|]; [|cbn [String.length] in Hf; lia].
    assert (exists c t, commaSep (map print (j :: l)) = String c t /\ isWs c = false /\ (code c =? 93)%N = false)
      as (c & t & E & Hc & Hb).
    { destruct Hw as [Hj _]. destruct (print_head _ _ Hj) as (c & t & E & ? & ? & _).
      exists c. destruct l; cbn [map commaSep]; rewrite E; eexists; split_and!; done. }
    rewrite E, append_cons, skipWs_nonws, Hb by done. done.
  - cbn [print] in *. rewrite append_cons, append_assoc in *. change ("}" +:+ rest) with (String "}" rest) in *.
    cbn [parseValue]. rewrite skipWs_nonws by done.
    change (code "{" =? 34)%N with false. change (code "{" =? 91)%N with false.
    change (code "{" =? 123)%N with true. cbv iota.
    destruct Hw as [Hd Hw]. rewrite (proj2 (N.eqb_neq depth 0)) by lia.
    destruct l as [|m l]; [done|].
    rewrite members_back; [|done|done|done|]; [|cbn [String.length] in Hf; lia].
    assert (exists t, commaSep (map (fun m => quote m.1 +:+ String ":" (print m.2)) (m :: l)) = String dquote t)
      as (t & E) by (destruct l; cbn [map commaSep]; unfold quote; rewrite !append_cons; eauto).
    by rewrite E, append_cons, skipWs_nonws by done.
Qed.

(** Marshalled values are parsed back, with the invalid bytes of their strings
    replaced, by Decode whatever follows and by Unmarshal. *)
Lemma parsePrefix_print j rest :
  wfJson maxNestingDepth j -> stops rest -> parsePrefix (print j +:+ rest) = Some (sanitizeJson j, rest).
Proof. intros Hw Hs. by apply print_back. Qed.

Lemma append_nil_r (s : string) : s +:+ "" = s.
Proof. induction s as [|c s IH]; [done|]. rewrite append_cons. by f_equal. Qed.

Lemma parseAll_print j : wfJson maxNestingDepth j -> parseAll (print j) = Some (sanitizeJson j).
Proof.
  intros Hw. unfold parseAll. rewrite <- (append_nil_r (print j)).
  by rewrite parsePrefix_print by done.
Qed.
