(* ===== verification/JsonCodec.v ===== *)
(** * encoding/json: decoding into Go variables

    What Unmarshal and Decode do with the variable they are given: JSON null
    leaves it alone, a value of another type is recorded as an error and
    skipped, keys are matched exactly or up to case, unknown keys are ignored,
    and a repeated key is decoded onto what the previous one left. *)
From Stdlib Require Import Strings.Ascii Strings.String.
From S2P Require Import Prelude GoStd JsonText.

(** A decoder: from a value and the old content of the variable, its new
    content and whether an UnmarshalTypeError was saved. *)
Definition dec (A : Type) : Type := Json -> A -> A * bool.

(** Run a decoder of a part and go on; a saved error stays saved. *)
Definition part {A B} (m : A * bool) (k : A -> B * bool) : B * bool :=
  let '(a, e) := m in let '(b, e') := k a in (b, e || e').
Notation "x <~ m ; k" := (part m (fun x => k)) (at level 20, m at level 100, k at level 200, right associativity).

Definition decString : dec string := fun j old =>
  match j with
  | JStr s => (s, false)
  | JNull => (old, false)
  | _ => (old, true)
  end.

Definition decUint32 : dec Z := fun j old =>
  match j with
  | JNum lit => match ParseUint lit 32 with Some v => (v, false) | None => (old, true) end
  | JNull => (old, false)
  | _ => (old, true)
  end.

(** The elements of an array, each onto the element of the old backing array
    at its place. *)
Fixpoint decElems (arr : list string) (xs : list Json) : list string * bool :=
  match xs with
  | [] => (arr, false)
  | x :: xs =>
      v <~ decString x (default "" (head arr));
      vs <~ decElems (tail arr) xs;
      (v :: vs, false)
  end.

Definition nilSlice : slice string := Slice [] 0.

(** []string *)
Definition decSlice : dec (slice string) := fun j old =>
  match j with
  | JNull | JArr [] => (nilSlice, false)
  | JArr xs => arr <~ decElems (sl_arr old) xs; (Slice arr (length xs), false)
  | _ => (old, true)
  end.

(** *T: null makes it nil, anything else is decoded into a T *)
Definition decPtr {A} (zero : A) (d : dec A) : dec (option A) := fun j old =>
  match j with
  | JNull => (None, false)
  | _ => a <~ d j (default zero old); (Some a, false)
  end.

(** foldName, for the comparison with names in ASCII: lower case to upper
    case, the long s and the Kelvin sign to the letters they fold to.  What
    other characters fold to is not ASCII, so they are kept. *)
Fixpoint foldName (s : string) : string :=
  match s with
  | "" => ""
  | String c s' =>
      let n := code c in
      if between 97 122 n then String (chr (n - 32)) (foldName s')
      else match s' with
           | String c2 s2 =>
               if (n =? 197)%N && (code c2 =? 191)%N then String "S" (foldName s2)
               else match s2 with
                    | String c3 s3 =>
                        if (n =? 226)%N && (code c2 =? 132)%N && (code c3 =? 170)%N
                        then String "K" (foldName s3)
                        else String c (foldName s')
                    | "" => String c (foldName s')
                    end
           | "" => String c (foldName s')
           end
  end.

(** The field of a struct with the given field names that a key is for. *)
Definition resolve (names : list string) (key : string) : option string :=
  match filter (fun n => n = key) names with
  | n :: _ => Some n
  | [] => head (filter (fun n => foldName n = foldName key) names)
  end.

(** The field [name] after the members of an object, which are taken in their
    order. *)
Fixpoint field {A} (names : list string) (name : string) (d : dec A) (l : list (string * Json)) (old : A)
  : A * bool :=
  match l with
  | [] => (old, false)
  | (k, v) :: l =>
      if bool_decide (resolve names k = Some name)
      then a <~ d v old; field names name d l a
      else field names name d l old
  end.

(** A struct, from its decoder on the members of an object. *)
Definition decStruct {A} (f : list (string * Json) -> A -> A * bool) : dec A := fun j old =>
  match j with
  | JNull => (old, false)
  | JObj l => f l old
  | _ => (old, true)
  end.

(** json.Unmarshal *)
Definition Unmarshal {A} (d : dec A) (zero : A) (text : string) : option A :=
  j ← parseAll text;
  let '(a, e) := d j zero in if (e : bool) then None else Some a.

(** json.NewDecoder(r).Decode where [r] yields [text] and then the end, or an
    error if [broken].  Objects and arrays are complete at their last byte;
    other values need a byte or the end after them. *)
Definition Decode {A} (d : dec A) (zero : A) (text : string) (broken : bool) : option A :=
  '(j, rest) ← parsePrefix text;
  let complete := match j with JArr _ | JObj _ => true | _ => negb broken || bool_decide (rest <> "") end in
  if complete then let '(a, e) := d j zero in if (e : bool) then None else Some a
  else None.

(** ** Types that are sent and received *)

(** A Go type with its encoder and decoder. *)
Class JsonType (A : Type) : Type := {
  toJson : A -> Json;
  fromJson : dec A;
  zeroValue : A
}.

(** What the two sides promise each other: a value [a] that satisfies [P] is
    encoded to a well-formed document and decoded to itself. *)
Class JsonRoundTrip (A : Type) `{JsonType A} (P : A -> Prop) : Prop := {
  rt_wf : forall a, P a -> wfJson maxNestingDepth (toJson a);
  rt_back : forall a, P a -> fromJson (sanitizeJson (toJson a)) zeroValue = (a, false)
}.

Definition Marshal `{JsonType A} (a : A) : string := print (toJson a).

(** ** Lemmas *)

(** Text without invalid bytes, which JSON does not change. *)
Definition validText (s : string) : Prop := sanitize s = s.

Fixpoint asciiText (s : string) : bool :=
  match s with
  | "" => true
  | String c s => (code c <? 128)%N && asciiText s
  end.

Lemma ascii_valid s : asciiText s = true -> validText s.
Proof.
  unfold validText, sanitize. induction s as [|c s IH]; [done|]. simpl.
  intros [Hc Hs]%andb_true_iff. by rewrite Hc, IH.
Qed.

Lemma hex_ascii b : asciiText (EncodeToString b) = true.
Proof. induction b as [|x b IH]; [done|]. cbn [EncodeToString asciiText]. rewrite IH. by destruct x. Qed.

Lemma hex_valid b : validText (EncodeToString b).
Proof. apply ascii_valid, hex_ascii. Qed.

Lemma decElems_strings l : decElems [] (JStr <$> l) = (l, false).
Proof. induction l as [|s l IH]; [done|]. cbn [fmap list_fmap decElems]. simpl. by rewrite IH. Qed.

Lemma decSlice_strings l :
  decSlice (JArr (JStr <$> l)) nilSlice = (slice_of l, false).
Proof.
  destruct l as [|s l]; [done|]. pose proof (decElems_strings (s :: l)) as E.
  cbn [fmap list_fmap decSlice] in *. change (sl_arr nilSlice) with (@nil string). rewrite E. simpl.
  unfold slice_of. simpl. do 4 f_equal. apply length_fmap.
Qed.

Lemma sanitize_strings l : Forall validText l -> map sanitizeJson (JStr <$> l) = JStr <$> l.
Proof. induction 1 as [|s l Hs _ IH]; [done|]. cbn. rewrite Hs. by f_equal. Qed.

Lemma decUint32_pretty (z old : Z) : (0 <= z < 2 ^ 32)%Z -> decUint32 (JNum (pretty (Z.to_N z))) old = (z, false).
Proof.
  intros Hz. unfold decUint32. rewrite ParseUint_pretty by lia. by rewrite Z2N.id by lia.
Qed.

(** The member with a key. *)
Fixpoint assoc (name : string) (l : list (string * Json)) : option Json :=
  match l with
  | [] => None
  | (k, v) :: l => if String.eqb name k then Some v else assoc name l
  end.

Lemma resolve_exact names k : k ∈ names -> resolve names k = Some k.
Proof.
  intros Hk. unfold resolve. destruct (filter (fun n => n = k) names) as [|n l] eqn:E.
  - assert (k ∈ filter (fun n => n = k) names) as H by (by apply list_elem_of_filter).
    rewrite E in H. by apply not_elem_of_nil in H.
  - assert (n ∈ filter (fun n => n = k) names) as H by (rewrite E; left).
    apply list_elem_of_filter in H as [-> _]. done.
Qed.

Lemma field_none {A} names name (d : dec A) l : (forall k, k ∈ map fst l -> k ∈ names) ->
  name ∉ map fst l -> forall old, field names name d l old = (old, false).
Proof.
  induction l as [|[k v] l IH]; intros Hin Hno old; [done|]. cbn [field map fst] in *.
  rewrite resolve_exact by (apply Hin; left). apply not_elem_of_cons in Hno as [Hne Hno].
  rewrite bool_decide_false by congruence. apply IH; [|done]. intros x Hx. apply Hin. by right.
Qed.

Lemma assoc_not_in name l : name ∉ map fst l -> assoc name l = None.
Proof.
  induction l as [|[k v] l IH]; [done|]. intros [Hne Hno]%not_elem_of_cons. cbn [assoc].
  destruct (String.eqb_spec name k); [done|]. by apply IH.
Qed.

(** On an object with proper and distinct keys, a field is decoded from its
    member. *)
Lemma field_assoc {A} names name (d : dec A) l : (forall k, k ∈ map fst l -> k ∈ names) ->
  NoDup (map fst l) -> forall old,
  field names name d l old = match assoc name l with Some v => d v old | None => (old, false) end.
Proof.
  induction l as [|[k v] l IH]; intros Hin Hnd old; [done|]. cbn [field assoc map fst] in *.
  apply NoDup_cons in Hnd as [Hk Hnd]. rewrite resolve_exact by (apply Hin; left).
  assert (forall k, k ∈ map fst l -> k ∈ names) as Hin' by (intros x Hx; apply Hin; by right).
  destruct (String.eqb_spec name k) as [->|Hne].
  - rewrite bool_decide_true by done. destruct (d v old) as [a e]. unfold part.
    rewrite field_none by done. by rewrite orb_false_r.
  - rewrite bool_decide_false by congruence. by apply IH.
Qed.

Section RoundTrip.
Context {A : Type} `{JA : JsonType A} {P : A -> Prop} `{RT : !JsonRoundTrip A P}.

(** Unmarshal undoes Marshal; so does Decode, also when more text follows or
    the reader breaks afterwards, if the document is an object. *)
Lemma Unmarshal_Marshal a : P a -> Unmarshal fromJson zeroValue (Marshal a) = Some a.
Proof.
  intros Ha. unfold Unmarshal, Marshal. rewrite parseAll_print by by apply rt_wf. simpl.
  by rewrite (rt_back a Ha).
Qed.

Lemma Decode_Marshal a l rest broken : P a -> toJson a = JObj l -> stops rest ->
  Decode fromJson zeroValue (Marshal a +:+ rest) broken = Some a.
Proof.
  intros Ha Hl Hs. unfold Decode, Marshal.
  rewrite parsePrefix_print by (first [by apply rt_wf|done]).
  simpl. pose proof (rt_back a Ha) as Hb. rewrite Hl in Hb |- *. simpl in *. by rewrite Hb.
Qed.

End RoundTrip.
