(* ===== verification/GoNet.v ===== *)
(** * Parts of Go's net package the configurations rely on

    net.ParseIP (whether it answers non-nil, which is all the program looks
    at) and net.SplitHostPort, through which a listening server reads its
    address. *)
From Stdlib Require Import Strings.Ascii Strings.String.
From S2P Require Import Prelude GoStd JsonText.

(** ** net.ParseIP *)

(** One field of a dotted address: a number up to 255 without leading zeros. *)
Definition octet (s : string) : bool :=
  match s with
  | "" => false
  | String c r =>
      all_digits s && (bool_decide (r = "") || negb (code c =? 48)%N) &&
      bool_decide (dec_value 0 s <= 255)%Z
  end.

Definition parseIPv4 (s : string) : bool :=
  match Split s "." with
  | [a; b; c; d] => octet a && octet b && octet c && octet d
  | _ => false
  end.

(** The hexadecimal digits at the front: how many, and what follows. *)
Fixpoint spanHex (s : string) : nat * string :=
  match s with
  | String c s' =>
      match hexval c with
      | Some _ => let '(n, r) := spanHex s' in (S n, r)
      | None => (0, s)
      end
  | "" => (0, "")
  end.

(** The loop of parseIPv6: [i] bytes of the address are known, [ell] says
    where the ellipsis was; at most eight groups are read. *)
Fixpoint v6loop (groups i : nat) (ell : option nat) (s : string) : option (string * nat * option nat) :=
  match groups with
  | O => Some (s, i, ell)
  | S groups =>
      let '(n, r) := spanHex s in
      if bool_decide (n = 0 \/ 4 < n)%nat then None
      else match r with
           | "" => Some ("", i + 2, ell)
           | String c r1 =>
               if (code c =? 46)%N then
                 if bool_decide (ell = None /\ i <> 12)%nat then None
                 else if bool_decide (16 < i + 4)%nat then None
                 else if parseIPv4 s then Some ("", i + 4, ell) else None
               else if (code c =? 58)%N then
                 match r1 with
                 | "" => None
                 | String c2 r2 =>
                     if (code c2 =? 58)%N then
                       match ell with
                       | Some _ => None
                       | None =>
                           if bool_decide (r2 = "") then Some ("", i + 2, Some (i + 2))
                           else v6loop groups (i + 2) (Some (i + 2)) r2
                       end
                     else v6loop groups (i + 2) ell r1
                 end
               else None
           end
  end%nat.

Definition v6done (st : option (string * nat * option nat)) : bool :=
  match st with
  | Some (s, i, ell) =>
      bool_decide (s = "") &&
      (if bool_decide (i < 16)%nat then bool_decide (is_Some ell) else bool_decide (ell = None))
  | None => false
  end.

Definition parseIPv6 (s : string) : bool :=
  match strip_prefix "::" s with
  | Some "" => true
  | Some r => v6done (v6loop 8 0 (Some 0%nat) r)
  | None => v6done (v6loop 8 0 None s)
  end.

(** Which of the two notations, by the first of the characters . : % *)
Fixpoint addrKind (s : string) : option ascii :=
  match s with
  | "" => None
  | String c s => if (code c =? 46)%N || (code c =? 58)%N || (code c =? 37)%N then Some c else addrKind s
  end.

(** net.ParseIP(s) != nil; addresses with a zone are refused *)
Definition ParseIP (s : string) : bool :=
  match addrKind s with
  | None => false
  | Some c =>
      if (code c =? 46)%N then parseIPv4 s
      else if (code c =? 58)%N then negb (Contains s "%") && parseIPv6 s
      else false
  end.

(** ** net.SplitHostPort *)

(** The text before and after the last occurrence of a character. *)
Fixpoint splitLast (sep : ascii) (s : string) : option (string * string) :=
  match s with
  | "" => None
  | String c s' =>
      match splitLast sep s' with
      | Some (a, b) => Some (String c a, b)
      | None => if decide (c = sep) then Some ("", s') else None
      end
  end.

(** Hosts in brackets are taken off first; the error texts are left out, as
    every caller only prints them. *)
Definition SplitHostPort (hostport : string) : option (string * string) :=
  '(before, port) ← splitLast ":" hostport;
  '(host, outside) ←
    match before with
    | String "[" b =>
        match splitLast "]" b with
        | Some (h, "") => Some (h, h)
        | _ => None
        end
    | _ => if Contains before ":" then None else Some (before, before)
    end;
  if Contains outside "[" || Contains outside "]" || Contains port "[" || Contains port "]"
  then None else Some (host, port).

(** ** Lemmas *)

Lemma splitLast_app sep (a b : string) :
  Contains b (String sep "") = false -> splitLast sep (a +:+ String sep b) = Some (a, b).
Proof.
  intros Hb. induction a as [|c a IH].
  - change ("" +:+ ?t) with t. cbn [splitLast].
    assert (splitLast sep b = None) as ->; [|by rewrite decide_True].
    clear -Hb. induction b as [|c b IH]; [done|]. cbn [Contains] in Hb.
    apply orb_false_iff in Hb as [Hp Hb]. cbn [splitLast]. rewrite (IH Hb).
    destruct (decide (c = sep)) as [->|]; [|done]. simpl in Hp.
    destruct (ascii_dec sep sep); [|done]. by destruct b.
  - rewrite append_cons. cbn [splitLast]. by rewrite IH.
Qed.

Definition noChar (c : ascii) (s : string) : Prop := Contains s (String c "") = false.

Lemma noChar_cons x c s : noChar x (String c s) <-> c <> x /\ noChar x s.
Proof.
  unfold noChar. cbn [Contains String.prefix]. rewrite orb_false_iff.
  destruct (ascii_dec x c) as [->|Hne].
  - split; [|by intros [[] _]]. intros [Hp _]. by destruct s.
  - split; [by intros [_ ?]|]. by intros [_ ?].
Qed.

Lemma noChar_app x s t : noChar x (s +:+ t) <-> noChar x s /\ noChar x t.
Proof.
  induction s as [|c s IH]; [split; [by split|by intros [_ ?]]|].
  rewrite append_cons, !noChar_cons, IH. tauto.
Qed.

Lemma digits_noChar x s : all_digits s = true -> is_digit x = false -> noChar x s.
Proof.
  intros Hs Hx. induction s as [|c s IH]; [by destruct x|]. simpl in Hs.
  apply andb_true_iff in Hs as [Hc Hs]. apply noChar_cons. split; [congruence|by apply IH].
Qed.
