(* ===== verification/GoPath.v ===== *)
(** * Paths: path/filepath on Unix, os.ExpandEnv and util/path.go

    File paths as the programs compute them.  The operating system itself is a
    parameter ([Os]): which files exist, what the calls answer. *)
From Stdlib Require Import Strings.Ascii Strings.String.
From S2P Require Import Prelude GoStd JsonText GoNet.

(** ** path/filepath *)

Fixpoint joinSlash (l : list string) : string :=
  match l with
  | [] => ""
  | [x] => x
  | x :: l => x +:+ String "/" (joinSlash l)
  end.

(** The elements kept by Clean, the last one first: empty elements and dots
    are dropped, and .. removes the element before it. *)
Fixpoint cleanElems (rooted : bool) (stack l : list string) : list string :=
  match l with
  | [] => stack
  | x :: l =>
      if bool_decide (x = "" \/ x = ".") then cleanElems rooted stack l
      else if bool_decide (x = "..") then
        match stack with
        | y :: st =>
            if bool_decide (y = "..") then cleanElems rooted (".." :: stack) l
            else cleanElems rooted st l
        | [] => cleanElems rooted (if rooted then [] else [".."]) l
        end
      else cleanElems rooted (x :: stack) l
  end.

Definition IsAbs (p : string) : bool := String.prefix "/" p.

(** filepath.Clean, path.Clean *)
Definition Clean (p : string) : string :=
  let body := joinSlash (reverse (cleanElems (IsAbs p) [] (Split p "/"))) in
  if IsAbs p then String "/" body
  else if bool_decide (body = "") then "." else body.

(** filepath.Join(a, b), path.Join(a, b) *)
Definition Join2 (a b : string) : string :=
  if bool_decide (a = "") then (if bool_decide (b = "") then "" else Clean b)
  else if bool_decide (b = "") then Clean a
  else Clean (a +:+ String "/" b).

(** filepath.Split: the directory with its slash, and the file *)
Definition SplitPath (p : string) : string * string :=
  match splitLast "/" p with
  | Some (d, f) => (d +:+ "/", f)
  | None => ("", p)
  end.

(** filepath.Dir *)
Definition Dir (p : string) : string := Clean (SplitPath p).1.

(** strings.TrimSuffix(name, filepath.Ext(name)) for a name without slashes *)
Definition fileNameWithoutExtension (fileName : string) : string :=
  match splitLast "." fileName with
  | Some (n, _) => n
  | None => fileName
  end.

(** ** os.Expand *)

Definition isSpecialVar (c : ascii) : bool :=
  let n := code c in
  is_digit c || (n =? 42)%N || (n =? 35)%N || (n =? 36)%N || (n =? 64)%N || (n =? 33)%N
  || (n =? 63)%N || (n =? 45)%N.

Definition isAlphaNum (c : ascii) : bool :=
  let n := code c in (n =? 95)%N || is_digit c || between 97 122 n || between 65 90 n.

Fixpoint takeName (s : string) : string :=
  match s with
  | String c s => if isAlphaNum c then String c (takeName s) else ""
  | "" => ""
  end.

Fixpoint toBrace (s : string) : option string :=
  match s with
  | "" => None
  | String c s => if (code c =? 125)%N then Some "" else String c <$> toBrace s
  end.

(** getShellName: the name and how many bytes of the text it takes *)
Definition getShellName (s : string) : string * nat :=
  match s with
  | "" => ("", 0%nat)
  | String c r =>
      if (code c =? 123)%N then
        match r with
        | String v (String b _) =>
            if isSpecialVar v && (code b =? 125)%N then (String v "", 3%nat)
            else match toBrace r with
                 | None => ("", 1%nat)
                 | Some "" => ("", 2%nat)
                 | Some n => (n, String.length n + 2)%nat
                 end
        | _ => match toBrace r with
               | None => ("", 1%nat)
               | Some "" => ("", 2%nat)
               | Some n => (n, String.length n + 2)%nat
               end
        end
      else if isSpecialVar c then (String c "", 1%nat)
      else let n := takeName s in (n, String.length n)
  end.

Fixpoint Expand (mapping : string -> string) (skip : nat) (s : string) : string :=
  match s with
  | "" => ""
  | String c s' =>
      match skip with
      | S k => Expand mapping k s'
      | O =>
          if (code c =? 36)%N && bool_decide (s' <> "") then
            let '(name, w) := getShellName s' in
            (if bool_decide (name = "" /\ 0 < w)%nat then ""
             else if bool_decide (name = "") then String c ""
             else mapping name) +:+ Expand mapping w s'
          else String c (Expand mapping 0 s')
      end
  end.

(** ** The operating system *)

(** What the programs ask of it; errors carry the properties the code tests. *)
Class Os (W : Type) : Type := {
  os_Stat : string -> M W unit;
  os_IsNotExist : error -> bool;
  os_MkdirAll : string -> M W unit;
  os_IsExist : error -> bool;
  os_PathOf : error -> option string;          (* errors.As(err, *os.PathError) and its Path *)
  os_Readlink : string -> M W string;
  os_WriteFile : string -> bytes -> M W unit;
  os_OpenAppend : string -> M W unit;
  os_Getenv : string -> string;
  os_UserHome : option string;                 (* user.Current().HomeDir, [None] when it fails *)
  os_UserHomeDir : res string;                 (* os.UserHomeDir *)
  os_Getwd : res string
}.

Section Util.
Context {W : Type} `{!Os W}.

(** ** util/path.go *)

Definition FileExists (name : string) : M W bool :=
  r ← attempt (os_Stat name);
  match r with
  | inl _ => mret true
  | inr err => mret (negb (os_IsNotExist err))
  end.

Definition MakeDirectory (dir : string) : M W unit :=
  r ← attempt (os_MkdirAll dir);
  match r with
  | inl _ => mret tt
  | inr err =>
      err ← match os_PathOf err with
            | Some p =>
                if os_IsExist err then
                  l ← attempt (os_Readlink p);
                  match l with
                  | inl link => mret ("is symlink " +:+ p +:+ " -> " +:+ link +:+ " mounted?")
                  | inr _ => mret err
                  end
                else mret err
            | None => mret err
            end;
      fail ("failed to create dir " +:+ dir +:+ ": " +:+ err)
  end.

Definition CleanAndExpandPath (path : string) : string :=
  if bool_decide (path = "") then ""
  else
    let path := match path with
                | String "~" rest => default (os_Getenv "HOME") os_UserHome +:+ rest
                | _ => path
                end in
    Clean (Expand os_Getenv 0 path).

(** filepath.Abs *)
Definition Abs (p : string) : res string :=
  if IsAbs p then Ok (Clean p)
  else wd ← os_Getwd; Ok (Join2 wd p).

End Util.

(** ** Lemmas: Clean *)

Definition goodElem (x : string) : Prop := x <> "" /\ x <> "." /\ noChar "/" x.

(** What Clean keeps: proper elements, with .. only in front of all others and
    never below the root. *)
Fixpoint okStack (rooted : bool) (st : list string) : Prop :=
  match st with
  | [] => True
  | x :: st => goodElem x /\ okStack rooted st /\
               (x = ".." -> rooted = false /\ Forall (fun y => y = "..") st)
  end.

Lemma Split_noChar s sep : Forall (noChar sep) (Split s sep).
Proof.
  induction s as [|c s IH]; cbn [Split].
  { constructor; [|done]. by destruct sep. }
  case_decide as Hc; [constructor; [by destruct sep|done]|].
  destruct (Split s sep) as [|w ws]; [constructor; [|done]; by apply noChar_cons|].
  apply Forall_cons in IH as [Hw Hws]. constructor; [by apply noChar_cons|done].
Qed.

Lemma Split_single x sep : noChar sep x -> Split x sep = [x].
Proof.
  induction x as [|c x IH]; [done|]. intros [Hc Hx]%noChar_cons. cbn [Split].
  by rewrite decide_False, IH.
Qed.

Lemma Split_app x t sep : noChar sep x -> Split (x +:+ String sep t) sep = x :: Split t sep.
Proof.
  induction x as [|c x IH].
  - intros _. change ("" +:+ ?t) with t. cbn [Split]. by rewrite decide_True.
  - intros [Hc Hx]%noChar_cons. rewrite append_cons. cbn [Split]. by rewrite decide_False, IH.
Qed.

Lemma Split_joinSlash l : Forall (noChar "/") l -> l <> [] -> Split (joinSlash l) "/" = l.
Proof.
  induction l as [|x l IH]; [done|]. intros [Hx Hl]%Forall_cons _.
  destruct l as [|y l]; [by apply Split_single|]. cbn [joinSlash].
  rewrite Split_app by done. f_equal. by apply IH.
Qed.

Lemma cleanElems_ok rooted l : forall st,
  Forall (noChar "/") l -> okStack rooted st -> okStack rooted (cleanElems rooted st l).
Proof.
  assert (goodElem "..") as Hdd by (by repeat split).
  induction l as [|x l IH]; intros st Hl Hst; [done|]. apply Forall_cons in Hl as [Hx Hl].
  cbn [cleanElems]. case_bool_decide as H1; [by apply IH|].
  apply Decidable.not_or in H1 as [Hne Hnd].
  case_bool_decide as H2.
  - destruct st as [|y st].
    + apply IH; [done|]. destruct rooted; [done|]. by repeat split.
    + destruct Hst as (Hy & Hst & Hdot). case_bool_decide as H3; [|by apply IH]. subst.
      destruct (Hdot eq_refl) as [-> Hall]. apply IH; [done|].
      split; [done|]. split; [by repeat split|]. intros _. split; [done|by constructor].
  - apply IH; [done|]. split; [by repeat split|]. by split.
Qed.

Lemma cleanElems_rebuild rooted st : okStack rooted st -> forall l,
  cleanElems rooted [] (reverse st ++ l) = cleanElems rooted st l.
Proof.
  induction st as [|x st IH]; [done|]. intros ((Hne & Hnd & _) & Hst & Hdot) l.
  rewrite reverse_cons, <- (app_assoc (reverse st)), IH by done. cbn [app cleanElems].
  rewrite bool_decide_false by (by intros [?|?]). case_bool_decide as H; [|done]. subst.
  destruct (Hdot eq_refl) as [-> Hall]. destruct st as [|y st]; [done|].
  apply Forall_cons in Hall as [-> _]. by rewrite bool_decide_true.
Qed.

Lemma okStack_good rooted st : okStack rooted st -> Forall goodElem st.
Proof. induction st as [|x st IH]; [by constructor|]. intros (? & ? & _). constructor; auto. Qed.

Lemma joinSlash_head l : Forall goodElem l -> l <> [] ->
  joinSlash l <> "" /\ IsAbs (joinSlash l) = false.
Proof.
  intros Hl Hne. destruct l as [|x l]; [done|]. apply Forall_cons in Hl as [(Hx & _ & Hs) _].
  destruct x as [|c x]; [done|]. apply noChar_cons in Hs as [Hc _].
  assert (exists t, joinSlash (String c x :: l) = String c t) as [t ->]
    by (destruct l; cbn [joinSlash]; rewrite ?append_cons; eauto).
  split; [done|]. unfold IsAbs. cbn [String.prefix].
  by destruct (ascii_dec "/" c) as [<-|].
Qed.

Lemma reverse_nil_iff {A} (l : list A) : reverse l = [] <-> l = [].
Proof. destruct l; [done|]. rewrite reverse_cons. split; [|done]. intros H. by destruct (app_cons_not_nil (reverse l) [] a). Qed.

Lemma IsAbs_slash b : IsAbs (String "/" b) = true.
Proof. by destruct b. Qed.

Lemma clean_stack rooted st : okStack rooted st ->
  cleanElems rooted [] (if bool_decide (st = []) then [""] else Split (joinSlash (reverse st)) "/") = st.
Proof.
  intros Hst. case_bool_decide as H; [by subst|].
  rewrite Split_joinSlash; [|..|by rewrite reverse_nil_iff].
  - rewrite <- (app_nil_r (reverse st)), cleanElems_rebuild by done. done.
  - apply Forall_reverse. eapply Forall_impl; [by apply (okStack_good rooted)|]. by intros x (_ & _ & ?).
Qed.

(** Clean is idempotent. *)
Lemma Clean_idem p : Clean (Clean p) = Clean p.
Proof.
  pose proof (cleanElems_ok (IsAbs p) (Split p "/") [] (Split_noChar p "/") I) as Hok.
  unfold Clean at 2 3. remember (cleanElems (IsAbs p) [] (Split p "/")) as st eqn:E. clear E.
  pose proof (clean_stack _ _ Hok) as Hs. pose proof (okStack_good _ _ Hok) as Hg%Forall_reverse.
  destruct (IsAbs p) eqn:Ha.
  - unfold Clean. rewrite IsAbs_slash. f_equal.
    change (Split (String "/" ?b) "/") with ("" :: Split b "/"). cbn [cleanElems].
    rewrite bool_decide_true by (by left).
    destruct (decide (st = [])) as [->|Hne]; [done|]. rewrite bool_decide_false in Hs by done. by rewrite Hs.
  - destruct (decide (st = [])) as [->|Hne]; [done|]. rewrite bool_decide_false in Hs by done.
    rewrite <- reverse_nil_iff in Hne. destruct (joinSlash_head _ Hg Hne) as [Hj Hr].
    rewrite bool_decide_false by done. unfold Clean. by rewrite Hr, Hs, bool_decide_false.
Qed.
