(* ===== verification/SignerConfig.v ===== *)
(** * covenant-signer/config: the configuration of the signer

    config.go, keystore.go, server.go and metrics.go: defaults, parsing, the
    file that dump-cfg writes and the reading of a configuration over the
    defaults.  viper, which finds and decodes the file, is a parameter. *)
From Stdlib Require Import Strings.Ascii Strings.String.
From S2P Require Import Prelude GoStd JsonText GoNet GoPath.
Local Open Scope Z_scope.

(** ** keystore.go *)

Definition KeyStoreType : Type := Z.
Definition CosmosKeyStore : KeyStoreType := 0.

Definition KeyStoreToString (c : KeyStoreType) : res string :=
  if bool_decide (c = CosmosKeyStore) then Ok "cosmos" else Err "unknown key store type".

Definition KeyStoreFromString (s : string) : res KeyStoreType :=
  if bool_decide (s = "cosmos") then Ok CosmosKeyStore else Err "unknown key store type".

Record CosmosKeyStoreConfig := {
  ck_ChainID : string;
  ck_KeyDirectory : string;
  ck_KeyringBackend : string;
  ck_KeyName : string
}.

Record KeyStoreConfig := {
  ks_KeyStoreType : string;
  ks_CosmosKeyStore : option CosmosKeyStoreConfig    (* a pointer *)
}.

Definition DefaultKeyStoreConfig : res KeyStoreConfig :=
  match KeyStoreToString CosmosKeyStore with
  | Ok t => Ok {| ks_KeyStoreType := t;
                  ks_CosmosKeyStore := Some {| ck_ChainID := ""; ck_KeyDirectory := "";
                                               ck_KeyringBackend := ""; ck_KeyName := "" |} |}
  | Err e => Panic e
  | Panic m => Panic m
  | OutOfFuel => OutOfFuel
  end.

Record ParsedKeyStoreConfig := {
  pk_KeyStoreType : KeyStoreType;
  pk_CosmosKeyStore : option CosmosKeyStoreConfig
}.

Definition KeyStoreConfig_Parse (cfg : KeyStoreConfig) : res ParsedKeyStoreConfig :=
  keyStoreType ← KeyStoreFromString (ks_KeyStoreType cfg);
  Ok {| pk_KeyStoreType := keyStoreType; pk_CosmosKeyStore := ks_CosmosKeyStore cfg |}.

(** ** server.go *)

Record ServerConfig := {
  sc_Host : string;
  sc_Port : Z;                     (* int *)
  sc_WriteTimeout : Z;             (* uint32, seconds *)
  sc_ReadTimeout : Z;              (* uint32, seconds *)
  sc_IdleTimeout : Z;              (* uint32, seconds *)
  sc_MaxContentLength : Z;         (* uint32 *)
  sc_HMACKey : string
}.

Record ParsedServerConfig := {
  psc_Host : string;
  psc_Port : Z;
  psc_WriteTimeout : Z;            (* time.Duration, nanoseconds in an int64 *)
  psc_ReadTimeout : Z;
  psc_IdleTimeout : Z;
  psc_MaxContentLength : Z;
  psc_HMACKey : string
}.

Definition Second : Z := 1000000000.

(** time.Duration(n) * time.Second *)
Definition seconds (n : Z) : Z := i64 (i64 n * Second).

Definition ServerConfig_Parse (c : ServerConfig) : res ParsedServerConfig :=
  Ok {| psc_Host := sc_Host c;
        psc_Port := sc_Port c;
        psc_WriteTimeout := seconds (sc_WriteTimeout c);
        psc_ReadTimeout := seconds (sc_ReadTimeout c);
        psc_IdleTimeout := seconds (sc_IdleTimeout c);
        psc_MaxContentLength := sc_MaxContentLength c;
        psc_HMACKey := sc_HMACKey c |}.

Definition DefaultServerConfig : ServerConfig :=
  {| sc_Host := "127.0.0.1"; sc_Port := 9791; sc_WriteTimeout := 15; sc_ReadTimeout := 15;
     sc_IdleTimeout := 120; sc_MaxContentLength := 10 * 1024 * 1024; sc_HMACKey := "" |}.

(** ** metrics.go *)

Record SignerMetricsConfig := { smc_Host : string; smc_Port : Z }.
Record ParsedMetricsConfig := { pmc_Host : string; pmc_Port : Z }.

Definition SignerMetricsConfig_Parse (cfg : SignerMetricsConfig) : res ParsedMetricsConfig :=
  if bool_decide (smc_Port cfg < 1024) || bool_decide (65535 < smc_Port cfg) then
    Err "metrics server port must be between 1024 and 65535 (inclusive)"
  else if ParseIP (smc_Host cfg) then Ok {| pmc_Host := smc_Host cfg; pmc_Port := smc_Port cfg |}
  else Err ("invalid metrics server host: " +:+ smc_Host cfg).

Definition GetMetricsPort (cfg : SignerMetricsConfig) : Z := smc_Port cfg.

Definition DefaultSignerMetricsConfig : SignerMetricsConfig :=
  {| smc_Host := "127.0.0.1"; smc_Port := 2112 |}.

(** ** config.go *)

Record SignerConfig := {
  KeyStore : KeyStoreConfig;
  Server : ServerConfig;
  Metrics : SignerMetricsConfig
}.

Record ParsedConfig := {
  pc_KeyStoreConfig : ParsedKeyStoreConfig;
  pc_ServerConfig : ParsedServerConfig;
  pc_MetricsConfig : ParsedMetricsConfig
}.

Definition DefaultSignerConfig : res SignerConfig :=
  ks ← DefaultKeyStoreConfig;
  Ok {| KeyStore := ks; Server := DefaultServerConfig; Metrics := DefaultSignerMetricsConfig |}.

Definition SignerConfig_Parse (cfg : SignerConfig) : res ParsedConfig :=
  keyStoreConfig ← KeyStoreConfig_Parse (KeyStore cfg);
  serverConfig ← ServerConfig_Parse (Server cfg);
  metricsConfig ← SignerMetricsConfig_Parse (Metrics cfg);
  Ok {| pc_KeyStoreConfig := keyStoreConfig; pc_ServerConfig := serverConfig;
        pc_MetricsConfig := metricsConfig |}.

Definition lf : string := String "010" "".
Definition qt : string := String dquote "".

(** A line of the template with a quoted and with a plain value *)
Definition quoted (name value : string) : string := name +:+ " = " +:+ qt +:+ value +:+ qt +:+ lf.
Definition plain (name : string) (value : Z) : string := name +:+ " = " +:+ pretty value +:+ lf.

(** configTemplate.Execute: values are inserted as they are; a nil key store
    makes the template fail. *)
Definition configText (config : SignerConfig) : option string :=
  match ks_CosmosKeyStore (KeyStore config) with
  | None => None
  | Some cosmos =>
      let srv := Server config in
      Some ("# This is a TOML config file." +:+ lf
          +:+ "# For more information, see https://github.com/toml-lang/toml" +:+ lf +:+ lf
          +:+ "[keystore]" +:+ lf
          +:+ "# The type of the key store" +:+ lf
          +:+ quoted "keystore-type" (ks_KeyStoreType (KeyStore config)) +:+ lf
          +:+ "[keystore.cosmos]" +:+ lf
          +:+ "# The chain id of the chain to connect to" +:+ lf
          +:+ quoted "chain-id" (ck_ChainID cosmos)
          +:+ "# The directory to store the keys in" +:+ lf
          +:+ quoted "key-directory" (ck_KeyDirectory cosmos)
          +:+ "# The keyring backend to use" +:+ lf
          +:+ quoted "keyring-backend" (ck_KeyringBackend cosmos)
          +:+ "# The name of the key to use" +:+ lf
          +:+ quoted "key-name" (ck_KeyName cosmos) +:+ lf
          +:+ "[server-config]" +:+ lf
          +:+ "# The address to listen on" +:+ lf
          +:+ quoted "host" (sc_Host srv) +:+ lf
          +:+ "# The port to listen on" +:+ lf
          +:+ plain "port" (sc_Port srv) +:+ lf
          +:+ "# Read timeout in seconds" +:+ lf
          +:+ plain "read-timeout" (sc_ReadTimeout srv) +:+ lf
          +:+ "# Write timeout in seconds" +:+ lf
          +:+ plain "write-timeout" (sc_WriteTimeout srv) +:+ lf
          +:+ "# Idle timeout in seconds" +:+ lf
          +:+ plain "idle-timeout" (sc_IdleTimeout srv) +:+ lf
          +:+ "# Max content length in bytes" +:+ lf
          +:+ plain "max-content-length" (sc_MaxContentLength srv) +:+ lf
          +:+ "# HMAC key for request authentication" +:+ lf
          +:+ "# This can be a direct key or a reference to a cloud secret manager" +:+ lf
          +:+ "# Leave empty to disable HMAC authentication" +:+ lf
          +:+ quoted "hmac-key" (sc_HMACKey srv) +:+ lf
          +:+ "[metrics]" +:+ lf
          +:+ "# The prometheus server host" +:+ lf
          +:+ quoted "host" (smc_Host (Metrics config))
          +:+ "# The prometheus server port" +:+ lf
          +:+ plain "port" (smc_Port (Metrics config)))
  end.

(** viper: the file found under a directory and a name, decoded over a
    configuration *)
Class Viper (W : Type) : Type := {
  ViperFile : Type;
  viper_ReadInConfig : string -> string -> M W ViperFile;
  viper_Unmarshal : ViperFile -> SignerConfig -> res SignerConfig
}.

Section Files.
Context {W : Type} `{!Os W}.

Definition writeConfigToFile (configFilePath : string) (config : SignerConfig) : M W unit :=
  match configText config with
  | Some text => os_WriteFile configFilePath (String.list_byte_of_string text)
  | None => lift (Panic "nil pointer evaluating *config.CosmosKeyStoreConfig")
  end.

Definition WriteConfigToFile (pathToConfFile : string) (conf : SignerConfig) : M W unit :=
  let dirPath := (SplitPath pathToConfFile).1 in
  st ← attempt (os_Stat pathToConfFile);
  match st with
  | inr err =>
      if os_IsNotExist err then
        wrapErrM "couldn't make config" (os_MkdirAll dirPath);;
        wrapErrM "could config to the file" (writeConfigToFile pathToConfFile conf)
      else mret tt
  | inl _ => mret tt
  end.

Definition GetConfig `{!Viper W} (pathToConfFile : string) : M W SignerConfig :=
  let '(dir, file) := SplitPath pathToConfFile in
  let configName := fileNameWithoutExtension file in
  f ← viper_ReadInConfig dir configName;
  conf ← lift DefaultSignerConfig;
  lift (viper_Unmarshal f conf).

End Files.

(** ** Lemmas *)

Lemma i64_range z : - 2 ^ 63 <= z < 2 ^ 63 -> i64 z = z.
Proof. intros H. unfold i64. rewrite Z.mod_small by lia. lia. Qed.

(** A uint32 of seconds is a duration without overflow. *)
Lemma seconds_exact n : 0 <= n < 2 ^ 32 -> seconds n = n * Second.
Proof. intros H. unfold seconds, Second. rewrite !i64_range; rewrite ?i64_range; lia. Qed.

Definition uint32s (c : ServerConfig) : Prop :=
  Forall (fun n => 0 <= n < 2 ^ 32)
    [sc_WriteTimeout c; sc_ReadTimeout c; sc_IdleTimeout c; sc_MaxContentLength c].

(** What a usable configuration is. *)
Record validSignerConfig (cfg : SignerConfig) : Prop := {
  vs_store : ks_KeyStoreType (KeyStore cfg) = "cosmos";
  vs_port : 1024 <= smc_Port (Metrics cfg) <= 65535;
  vs_host : ParseIP (smc_Host (Metrics cfg)) = true
}.

(** ** Properties *)

(** C22: parsing accepts exactly the configurations with the cosmos key store,
    a metrics port outside the reserved ones and an IP address as metrics host;
    the parsed configuration has the same values, the timeouts in nanoseconds
    without overflow. *)
Theorem SignerConfig_Parse_exact cfg parsed :
  uint32s (Server cfg) ->
  SignerConfig_Parse cfg = Ok parsed <->
  validSignerConfig cfg /\
  parsed = {| pc_KeyStoreConfig := {| pk_KeyStoreType := CosmosKeyStore;
                                      pk_CosmosKeyStore := ks_CosmosKeyStore (KeyStore cfg) |};
              pc_ServerConfig := {| psc_Host := sc_Host (Server cfg); psc_Port := sc_Port (Server cfg);
                                    psc_WriteTimeout := sc_WriteTimeout (Server cfg) * 1000000000;
                                    psc_ReadTimeout := sc_ReadTimeout (Server cfg) * 1000000000;
                                    psc_IdleTimeout := sc_IdleTimeout (Server cfg) * 1000000000;
                                    psc_MaxContentLength := sc_MaxContentLength (Server cfg);
                                    psc_HMACKey := sc_HMACKey (Server cfg) |};
              pc_MetricsConfig := {| pmc_Host := smc_Host (Metrics cfg); pmc_Port := smc_Port (Metrics cfg) |} |}.
Proof.
  unfold uint32s. rewrite !Forall_cons. intros (Hw & Hr & Hi & _).
  unfold SignerConfig_Parse, KeyStoreConfig_Parse, KeyStoreFromString, ServerConfig_Parse, SignerMetricsConfig_Parse.
  rewrite !seconds_exact by done.
  destruct (bool_decide_reflect (ks_KeyStoreType (KeyStore cfg) = "cosmos")) as [Hk|Hk]; cbn [mbind res_bind];
    [|split; [done|by intros [[] _]]].
  destruct (bool_decide_reflect (smc_Port (Metrics cfg) < 1024)) as [?|H1];
    [split; [done|intros [[] _]; lia]|].
  destruct (bool_decide_reflect (65535 < smc_Port (Metrics cfg))) as [?|H2];
    [split; [done|intros [[] _]; lia]|]. cbn [orb].
  destruct (ParseIP (smc_Host (Metrics cfg))) eqn:Hh; cbn [mbind res_bind];
    [|split; [done|intros [[] _]; congruence]]. split; [intros [= <-]; split; [split; [done|lia|done]|done]|]. by intros [_ ->].
Qed.

(** The default configuration. *)
Definition defaultSigner : SignerConfig :=
  {| KeyStore := {| ks_KeyStoreType := "cosmos";
                    ks_CosmosKeyStore := Some {| ck_ChainID := ""; ck_KeyDirectory := "";
                                                 ck_KeyringBackend := ""; ck_KeyName := "" |} |};
     Server := DefaultServerConfig; Metrics := DefaultSignerMetricsConfig |}.

Lemma SignerConfig_Parse_exact_witness :
  DefaultSignerConfig = Ok defaultSigner /\
  exists parsed, SignerConfig_Parse defaultSigner = Ok parsed /\
    psc_IdleTimeout (pc_ServerConfig parsed) = 120000000000.
Proof.
  split; [reflexivity|]. eexists. split.
  - apply SignerConfig_Parse_exact; [repeat constructor; simpl; lia|].
    split; [split; [reflexivity|simpl; lia|vm_compute; reflexivity]|reflexivity].
  - reflexivity.
Defined.

(** Writing the configuration never touches a file that is there, or whose
    absence the system does not confirm. *)
Lemma WriteConfigToFile_keeps {W} `{!Os W} path conf w w1 r :
  attempt (os_Stat path) w = (w1, Ok r) ->
  (forall err, r = inr err -> os_IsNotExist err = false) ->
  WriteConfigToFile path conf w = (w1, Ok tt).
Proof.
  intros Hs Hr. unfold WriteConfigToFile. erewrite bind_run_Ok by exact Hs.
  destruct r as [[]|err]; [done|]. by rewrite (Hr err).
Qed.
