(* ===== verification/BtcLib.v ===== *)
(** * Third-party libraries the program calls

    btcd (btcec, schnorr, wire, chainhash), babylon's btcstaking, adaptor
    signature and type packages, and sdkmath are not part of the repository.
    They are parameters of the model: this class lists the types and the
    functions the program uses, with the signatures the call sites show.  A
    fallible function returns [res]; nothing is assumed about any of them
    here, the theorems that need documented behaviour name it as a
    hypothesis. *)
From S2P Require Import Prelude GoStd.

Class BtcLib : Type := {
  (** btcec, schnorr *)
  PublicKey : Type;
  PrivateKey : Type;
  SchnorrSig : Type;
  SerializePubKey : PublicKey -> bytes;          (* schnorr.SerializePubKey *)
  SerializeCompressed : PublicKey -> bytes;      (* PublicKey.SerializeCompressed *)
  ParsePubKey : bytes -> res PublicKey;          (* btcec.ParsePubKey *)
  SchnorrParsePubKey : bytes -> res PublicKey;   (* schnorr.ParsePubKey *)
  PrivPubKey : PrivateKey -> PublicKey;          (* PrivateKey.PubKey *)
  PrivSerialize : PrivateKey -> bytes;           (* PrivateKey.Serialize *)
  PrivKeyFromBytes : bytes -> PrivateKey;        (* btcec.PrivKeyFromBytes, first result *)
  ZeroKey : PrivateKey;                          (* what PrivateKey.Zero leaves behind *)
  SigSerialize : SchnorrSig -> bytes;            (* schnorr.Signature.Serialize *)
  ParseSignature : bytes -> res SchnorrSig;      (* schnorr.ParseSignature *)

  (** wire, chainhash *)
  Hash : Type;
  TxIn : Type;
  TxOut : Type;
  MsgTx : Type;
  tx_TxIn : MsgTx -> list TxIn;
  tx_TxOut : MsgTx -> list TxOut;
  PreviousOutPointHash : TxIn -> Hash;           (* TxIn.PreviousOutPoint.Hash *)
  Value : TxOut -> Z;                            (* TxOut.Value, an int64 *)
  TxHash : MsgTx -> Hash;
  HashIsEqual : Hash -> Hash -> bool;
  HashString : Hash -> string;
  NewHashFromStr : string -> res Hash;
  TxDeserialize : bytes -> res MsgTx;            (* MsgTx.Deserialize *)
  TxSerialize : MsgTx -> res bytes;              (* MsgTx.Serialize *)

  (** babylon/types, babylon/x/btcstaking/types *)
  BIP340PubKey : Type;
  BIP340Signature : Type;
  ToBTCPK : BIP340PubKey -> res PublicKey;       (* BIP340PubKey.ToBTCPK *)
  MustToBTCPK : BIP340PubKey -> res PublicKey;   (* panics instead of failing *)
  ToBTCSig : BIP340Signature -> res SchnorrSig;  (* BIP340Signature.ToBTCSig *)
  NewBIP340PubKeyFromBTCPK : PublicKey -> BIP340PubKey;
  NewBIP340SignatureFromBTCSig : SchnorrSig -> BIP340Signature;
  BIP340MarshalHex : BIP340PubKey -> string;
  NewBTCTxFromHex : string -> res MsgTx;         (* bbntypes.NewBTCTxFromHex, first result *)
  SlashingTx : Type;                             (* bstypes.BTCSlashingTx *)
  NewBTCSlashingTxFromHex : string -> res SlashingTx;
  ToMsgTx : SlashingTx -> res MsgTx;

  (** sdkErr.Error.Error() of the btcstaking module's registered errors *)
  ErrInvalidCovenantPK : error;
  ErrInvalidCovenantSig : error;
  ErrDuplicatedCovenantSig : error;

  (** babylon/client/babylonclient *)
  RelayerEvent : Type;

  (** the parts of babylon's messages the client controller only passes on *)
  ProofOfPossessionBTC : Type;
  TransactionInfo : Type;                        (* btcctypes.TransactionInfo *)
  TransactionKey : Type;
  ti_Key : TransactionInfo -> TransactionKey;
  ti_Transaction : TransactionInfo -> bytes;
  ti_Proof : TransactionInfo -> bytes;
  InclusionProof : Type;
  NewInclusionProof : TransactionKey -> bytes -> InclusionProof;
  Description : Type;                            (* stakingtypes.Description *)
  CommissionRates : Type;
  BTCHeaderBytes : Type;
  FinalityProviderResponse : Type;
  BTCHeaderInfoResponse : Type;

  (** babylon/btcstaking *)
  NetParams : Type;                              (* chaincfg.Params *)
  LegacyDec : Type;                              (* sdkmath.LegacyDec *)
  LegacyDecAdd : LegacyDec -> LegacyDec -> LegacyDec;
  LegacyOneDec : LegacyDec;
  NewCommissionRates : LegacyDec -> LegacyDec -> LegacyDec -> CommissionRates;
  StakingInfo : Type;
  UnbondingInfo : Type;
  SpendInfo : Type;
  CheckSlashingTxMatchFundingTx :
    MsgTx -> MsgTx -> Z -> Z -> LegacyDec -> bytes -> PublicKey -> Z -> NetParams -> res unit;
  BuildStakingInfo :
    PublicKey -> list PublicKey -> list PublicKey -> Z -> Z -> Z -> NetParams -> res StakingInfo;
  BuildUnbondingInfo :
    PublicKey -> list PublicKey -> list PublicKey -> Z -> Z -> Z -> NetParams -> res UnbondingInfo;
  StakingSlashingPathSpendInfo : StakingInfo -> res SpendInfo;
  StakingUnbondingPathSpendInfo : StakingInfo -> res SpendInfo;
  UnbondingSlashingPathSpendInfo : UnbondingInfo -> res SpendInfo;
  GetPkScriptPath : SpendInfo -> bytes;
  SerializeTxOut : TxOut -> res bytes;
  DeserializeTxOut : bytes -> res TxOut;

  (** schnorr-adaptor-signature *)
  EncryptionKey : Type;
  AdaptorSig : Type;
  NewEncryptionKeyFromBTCPK : PublicKey -> res EncryptionKey;
  NewEncryptionKeyFromBytes : bytes -> res EncryptionKey;
  EncKeyToBytes : EncryptionKey -> bytes;
  MustMarshal : AdaptorSig -> res bytes;         (* panics instead of failing *)
  EncSignTxWithOneScriptSpendInputStrict :
    MsgTx -> MsgTx -> Z -> bytes -> PrivateKey -> EncryptionKey -> res AdaptorSig;
  SignTxWithOneScriptSpendInputStrict :
    MsgTx -> MsgTx -> Z -> bytes -> PrivateKey -> res SchnorrSig;
  SignTxForFirstScriptSpendWithTwoInputsFromScript :
    MsgTx -> TxOut -> TxOut -> PrivateKey -> bytes -> res SchnorrSig
}.
