(* ===== verification/Config.v ===== *)
(** * config/: the configuration of the emulator

    config.go, babylon.go, metrics.go and remotesigner.go: the records, their
    defaults, validation and loading.  The ini files are read and written by
    go-flags ([GoFlags]), the chains' parameters belong to btcd ([BtcNets]) and
    the defaults of the Babylon client to its library ([BbnDefaults]). *)
From Stdlib Require Import Strings.Ascii Strings.String QArith.
From S2P Require Import Prelude GoStd JsonText GoNet GoPath BtcLib.
Local Open Scope Z_scope.

Definition NanosPerSecond : Z := 1000000000.

(** ** remotesigner.go *)

Record RemoteSignerCfg := {
  rc_URL : string;
  rc_Timeout : Z;                  (* time.Duration *)
  rc_HMACKey : string
}.

Definition DefaultRemoteSignerConfig : RemoteSignerCfg :=
  {| rc_URL := "http://127.0.0.1:9791"; rc_Timeout := 2 * NanosPerSecond; rc_HMACKey := "" |}.

(** ** metrics.go *)

Record MetricsConfig := {
  mc_Host : string;
  mc_Port : Z;                     (* int *)
  mc_UpdateInterval : Z            (* time.Duration *)
}.

Definition MetricsConfig_Validate (cfg : MetricsConfig) : res unit :=
  if bool_decide (mc_Port cfg < 0) || bool_decide (65535 < mc_Port cfg) then
    Err ("invalid port: " +:+ pretty (mc_Port cfg))
  else if ParseIP (mc_Host cfg) then Ok tt
  else Err ("invalid host: " +:+ mc_Host cfg).

Definition Address (cfg : MetricsConfig) : res string :=
  MetricsConfig_Validate cfg;;
  Ok (mc_Host cfg +:+ ":" +:+ pretty (mc_Port cfg)).

Definition DefaultMetricsConfig : MetricsConfig :=
  {| mc_Host := "127.0.0.1"; mc_Port := 2112; mc_UpdateInterval := NanosPerSecond / 10 |}.

(** ** babylon.go *)

(** The configuration of the Babylon client library. *)
Record BabylonConfig := {
  bab_Key : string; bab_ChainID : string; bab_RPCAddr : string; bab_GRPCAddr : string;
  bab_AccountPrefix : string; bab_KeyringBackend : string; bab_GasAdjustment : Q;
  bab_GasPrices : string; bab_KeyDirectory : string; bab_Debug : bool; bab_Timeout : Z;
  bab_BlockTimeout : Z; bab_OutputFormat : string; bab_SignModeStr : string;
  bab_SubmitterAddress : string
}.

Class BbnDefaults : Type := { DefaultBabylonConfig : BabylonConfig }.

Record BBNConfig := {
  bbn_Key : string; bbn_ChainID : string; bbn_RPCAddr : string; bbn_GRPCAddr : string;
  bbn_AccountPrefix : string; bbn_KeyringBackend : string; bbn_GasAdjustment : Q;
  bbn_GasPrices : string; bbn_KeyDirectory : string; bbn_Debug : bool; bbn_Timeout : Z;
  bbn_BlockTimeout : Z; bbn_OutputFormat : string; bbn_SignModeStr : string
}.

Definition DefaultBBNConfig `{BbnDefaults} : BBNConfig :=
  let dc := DefaultBabylonConfig in
  {| bbn_Key := bab_Key dc; bbn_ChainID := bab_ChainID dc; bbn_RPCAddr := bab_RPCAddr dc;
     bbn_GRPCAddr := bab_GRPCAddr dc; bbn_AccountPrefix := bab_AccountPrefix dc;
     bbn_KeyringBackend := bab_KeyringBackend dc; bbn_GasAdjustment := 5 # 2;
     bbn_GasPrices := bab_GasPrices dc; bbn_KeyDirectory := ""; bbn_Debug := bab_Debug dc;
     bbn_Timeout := bab_Timeout dc; bbn_BlockTimeout := 60 * NanosPerSecond;
     bbn_OutputFormat := bab_OutputFormat dc; bbn_SignModeStr := bab_SignModeStr dc |}.

(** The gRPC address is not among the fields that are passed on. *)
Definition BBNConfigToBabylonConfig (bc : BBNConfig) : BabylonConfig :=
  {| bab_Key := bbn_Key bc; bab_ChainID := bbn_ChainID bc; bab_RPCAddr := bbn_RPCAddr bc;
     bab_GRPCAddr := ""; bab_AccountPrefix := bbn_AccountPrefix bc;
     bab_KeyringBackend := bbn_KeyringBackend bc; bab_GasAdjustment := bbn_GasAdjustment bc;
     bab_GasPrices := bbn_GasPrices bc; bab_KeyDirectory := bbn_KeyDirectory bc; bab_Debug := bbn_Debug bc;
     bab_Timeout := bbn_Timeout bc; bab_BlockTimeout := bbn_BlockTimeout bc;
     bab_OutputFormat := bbn_OutputFormat bc; bab_SignModeStr := bbn_SignModeStr bc;
     bab_SubmitterAddress := "" |}.

(** ** config.go *)

(** chaincfg *)
Class BtcNets `{BtcLib} : Type := {
  MainNetParams : NetParams;
  TestNet3Params : NetParams;
  RegressionNetParams : NetParams;
  SimNetParams : NetParams;
  SigNetParams : NetParams;
  zeroNetParams : NetParams                (* the zero value of chaincfg.Params *)
}.

Section Config.
Context `{BL : BtcLib} {BN : BtcNets}.

Record Config := {
  cf_LogLevel : string;
  cf_QueryInterval : Z;            (* time.Duration *)
  cf_DelegationLimit : Z;          (* uint64 *)
  cf_SigsBatchSize : Z;            (* uint64 *)
  cf_MaxRetiresBatchRemovingMsgs : Z;  (* uint64 *)
  cf_BitcoinNetwork : string;
  cf_BTCNetParams : NetParams;
  cf_Metrics : option MetricsConfig;   (* pointers *)
  cf_BabylonConfig : option BBNConfig;
  cf_RemoteSigner : option RemoteSignerCfg
}.

(** [var cfg Config] *)
Definition zeroConfig : Config :=
  {| cf_LogLevel := ""; cf_QueryInterval := 0; cf_DelegationLimit := 0; cf_SigsBatchSize := 0;
     cf_MaxRetiresBatchRemovingMsgs := 0; cf_BitcoinNetwork := ""; cf_BTCNetParams := zeroNetParams;
     cf_Metrics := None; cf_BabylonConfig := None; cf_RemoteSigner := None |}.

Definition setNet (p : NetParams) (cfg : Config) : Config :=
  {| cf_LogLevel := cf_LogLevel cfg; cf_QueryInterval := cf_QueryInterval cfg;
     cf_DelegationLimit := cf_DelegationLimit cfg; cf_SigsBatchSize := cf_SigsBatchSize cfg;
     cf_MaxRetiresBatchRemovingMsgs := cf_MaxRetiresBatchRemovingMsgs cfg;
     cf_BitcoinNetwork := cf_BitcoinNetwork cfg; cf_BTCNetParams := p;
     cf_Metrics := cf_Metrics cfg; cf_BabylonConfig := cf_BabylonConfig cfg;
     cf_RemoteSigner := cf_RemoteSigner cfg |}.

(** The method writes to its receiver: the result is the receiver afterwards. *)
Definition Validate (cfg : Config) : res Config :=
  match cf_Metrics cfg with
  | None => Err "empty metrics config"
  | Some m =>
      replErr "invalid metrics config" (MetricsConfig_Validate m);;
      let net := cf_BitcoinNetwork cfg in
      if bool_decide (net = "mainnet") then Ok (setNet MainNetParams cfg)
      else if bool_decide (net = "testnet") then Ok (setNet TestNet3Params cfg)
      else if bool_decide (net = "regtest") then Ok (setNet RegressionNetParams cfg)
      else if bool_decide (net = "simnet") then Ok (setNet SimNetParams cfg)
      else if bool_decide (net = "signet") then Ok (setNet SigNetParams cfg)
      else Err ("unsupported Bitcoin network: " +:+ net)
  end.

Definition File (homePath : string) : string := Join2 homePath "covd.conf".
Definition LogDir (homePath : string) : string := Join2 homePath "logs".
Definition LogFile (homePath : string) : string := Join2 (LogDir homePath) "covd.log".

Definition DefaultConfigWithHomePath `{BbnDefaults} (homePath : string) : res Config :=
  let d := DefaultBBNConfig in
  let bbnCfg :=
    {| bbn_Key := "covenant-key"; bbn_ChainID := bbn_ChainID d; bbn_RPCAddr := bbn_RPCAddr d;
       bbn_GRPCAddr := bbn_GRPCAddr d; bbn_AccountPrefix := bbn_AccountPrefix d;
       bbn_KeyringBackend := bbn_KeyringBackend d; bbn_GasAdjustment := bbn_GasAdjustment d;
       bbn_GasPrices := bbn_GasPrices d; bbn_KeyDirectory := homePath; bbn_Debug := bbn_Debug d;
       bbn_Timeout := bbn_Timeout d; bbn_BlockTimeout := bbn_BlockTimeout d;
       bbn_OutputFormat := bbn_OutputFormat d; bbn_SignModeStr := bbn_SignModeStr d |} in
  let cfg :=
    {| cf_LogLevel := "debug"; cf_QueryInterval := 15 * NanosPerSecond; cf_DelegationLimit := 100;
       cf_SigsBatchSize := 30; cf_MaxRetiresBatchRemovingMsgs := 0; cf_BitcoinNetwork := "simnet";
       cf_BTCNetParams := SimNetParams; cf_Metrics := Some DefaultMetricsConfig;
       cf_BabylonConfig := Some bbnCfg; cf_RemoteSigner := Some DefaultRemoteSignerConfig |} in
  match Validate cfg with
  | Err e => Panic e
  | r => r
  end.

(** go-flags: an ini file read into a configuration, and one written to a
    file *)
Class GoFlags (W : Type) : Type := {
  ini_ParseFile : string -> Config -> M W Config;
  ini_WriteFile : string -> Config -> M W unit
}.

Definition LoadConfig {W} `{!Os W, !GoFlags W} (homePath : string) : M W Config :=
  let cfgFile := File homePath in
  e ← FileExists cfgFile;
  if (e : bool) then
    cfg ← ini_ParseFile cfgFile zeroConfig;
    lift (Validate cfg)
  else fail ("specified config file does not exist in " +:+ cfgFile).

(** ** Lemmas *)

(** The parameters of a network name. *)
Definition netOf (name : string) : option NetParams :=
  if bool_decide (name = "mainnet") then Some MainNetParams
  else if bool_decide (name = "testnet") then Some TestNet3Params
  else if bool_decide (name = "regtest") then Some RegressionNetParams
  else if bool_decide (name = "simnet") then Some SimNetParams
  else if bool_decide (name = "signet") then Some SigNetParams
  else None.

Definition validMetrics (m : MetricsConfig) : Prop :=
  0 <= mc_Port m <= 65535 /\ ParseIP (mc_Host m) = true.

Lemma MetricsConfig_Validate_Ok m : MetricsConfig_Validate m = Ok tt <-> validMetrics m.
Proof.
  unfold MetricsConfig_Validate, validMetrics.
  destruct (bool_decide_reflect (mc_Port m < 0)); [split; [done|lia]|].
  destruct (bool_decide_reflect (65535 < mc_Port m)); [split; [done|lia]|]. simpl.
  destruct (ParseIP (mc_Host m)); [split; [intros; split; [lia|done]|done]|split; [done|by intros [_ ?]]].
Qed.

Lemma Validate_net m cfg :
  MetricsConfig_Validate m = Ok tt -> cf_Metrics cfg = Some m ->
  Validate cfg = match netOf (cf_BitcoinNetwork cfg) with
                 | Some p => Ok (setNet p cfg)
                 | None => Err ("unsupported Bitcoin network: " +:+ cf_BitcoinNetwork cfg)
                 end.
Proof. intros Hm Hc. unfold Validate, netOf. rewrite Hc, Hm. simpl. by repeat case_match. Qed.

(** What a loaded configuration is known to satisfy. *)
Record wfConfig (cfg : Config) : Prop := {
  wf_metrics : exists m, cf_Metrics cfg = Some m /\ validMetrics m;
  wf_net : netOf (cf_BitcoinNetwork cfg) = Some (cf_BTCNetParams cfg)
}.

Lemma Validate_Ok cfg cfg' :
  Validate cfg = Ok cfg' <->
  (exists m, cf_Metrics cfg = Some m /\ validMetrics m) /\
  exists p, netOf (cf_BitcoinNetwork cfg) = Some p /\ cfg' = setNet p cfg.
Proof.
  split.
  - intros H. destruct (cf_Metrics cfg) as [m|] eqn:Hm; [|unfold Validate in H; by rewrite Hm in H].
    assert (MetricsConfig_Validate m = Ok tt) as Hv.
    { unfold Validate in H. rewrite Hm in H. apply res_bind_Ok in H as ([] & H%replErr_Ok & _). done. }
    rewrite (Validate_net m) in H by done. split; [exists m; by rewrite <- MetricsConfig_Validate_Ok|].
    destruct (netOf (cf_BitcoinNetwork cfg)) as [p|]; [|done]. exists p. naive_solver.
  - intros [(m & Hm & Hv) (p & Hp & ->)]. rewrite (Validate_net m); [by rewrite Hp|by apply MetricsConfig_Validate_Ok|done].
Qed.

(** ** Properties *)

(** C21: a configuration LoadConfig returns is well formed, whatever the file
    holds: its metrics address is valid and its chain parameters are the ones of
    the network it names; loading succeeds exactly when the file is there, can
    be parsed and the result is valid. *)
Theorem LoadConfig_wf {W} `{!Os W, !GoFlags W} home w w' cfg :
  LoadConfig home w = (w', Ok cfg) <->
  exists w1 parsed p, FileExists (File home) w = (w1, Ok true) /\
    ini_ParseFile (File home) zeroConfig w1 = (w', Ok parsed) /\
    netOf (cf_BitcoinNetwork parsed) = Some p /\ cfg = setNet p parsed /\ wfConfig cfg.
Proof.
  unfold LoadConfig. split.
  - intros H. inv_bind H. destruct a; [|done]. inv_bind H. injection H as <- H.
    apply Validate_Ok in H as [Hmet (p & Hp & ->)]. by exists s, a, p.
  - intros (w1 & parsed & p & He & Hp & Hn & -> & [Hm _]).
    erewrite bind_run_Ok by exact He. cbv iota. erewrite bind_run_Ok by exact Hp. unfold lift. f_equal.
    apply Validate_Ok. simpl in Hm. split; [done|]. by exists p.
Qed.

(** The defaults are valid, for every home directory. *)
Lemma DefaultConfig_valid `{BbnDefaults} home :
  exists cfg, DefaultConfigWithHomePath home = Ok cfg /\ wfConfig cfg /\ cf_SigsBatchSize cfg = 30.
Proof.
  unfold DefaultConfigWithHomePath. rewrite (Validate_net DefaultMetricsConfig) by done. simpl.
  eexists. split; [reflexivity|]. split; [|done]. split; [|done].
  exists DefaultMetricsConfig. split; [done|]. by apply MetricsConfig_Validate_Ok.
Qed.

End Config.

(** ** The metrics address *)

Lemma addrKind_contains s c : addrKind s = Some c -> Contains s (String c "") = true.
Proof.
  induction s as [|d s IH]; [done|]. cbn [addrKind]. case_match; [|intros Hs; by apply Contains_cons, IH].
  intros [= ->]. apply Contains_prefix. simpl. destruct (ascii_dec c c); [|done]. by destruct s.
Qed.

Lemma Split_back x sep s : x <> sep -> Forall (noChar x) (Split s sep) -> noChar x s.
Proof.
  intros Hx. induction s as [|c s IH]; [by destruct x|]. cbn [Split]. case_decide as Hc.
  - subst. intros [_ H]%Forall_cons. apply noChar_cons. split; [done|by apply IH].
  - destruct (Split s sep) as [|w ws] eqn:E.
    + intros [[? ?]%noChar_cons _]%Forall_cons. apply noChar_cons. split; [done|]. apply IH. constructor.
    + intros [[? ?]%noChar_cons Hws]%Forall_cons. apply noChar_cons. split; [done|]. apply IH. by constructor.
Qed.

Lemma ParseIPv4_noChar s x : parseIPv4 s = true -> x <> "."%char -> is_digit x = false -> noChar x s.
Proof.
  unfold parseIPv4. intros H Hx Hd. apply (Split_back x "."%char); [done|].
  destruct (Split s ".") as [|a [|b [|c [|d [|? ?]]]]]; try done.
  repeat (apply andb_true_iff in H as [H ?]).
  assert (forall o, octet o = true -> noChar x o) as Ho; [|repeat constructor; auto].
  intros o Hoct. apply digits_noChar; [|done]. unfold octet in Hoct. destruct o; [done|].
  apply andb_true_iff in Hoct as [Hoct _]. by apply andb_true_iff in Hoct as [Hoct _].
Qed.

Lemma pretty_port z : 0 <= z -> all_digits (pretty z) = true.
Proof.
  intros Hz. assert (pretty z = pretty (Z.to_N z)) as ->; [|by apply pretty_N_dec].
  destruct z as [|p|p]; [done|done|lia].
Qed.

(** The address of a valid metrics configuration is usable exactly for
    IPv4 hosts: the server splits it into the configured host and port; with an
    IPv6 host, which validation accepts, the address has too many colons and
    the server cannot listen. *)
Theorem Address_splits m a : Address m = Ok a ->
  (parseIPv4 (mc_Host m) = true /\ SplitHostPort a = Some (mc_Host m, pretty (mc_Port m))) \/
  (parseIPv6 (mc_Host m) = true /\ SplitHostPort a = None).
Proof.
  unfold Address. intros ([] & [[Hp _] Hip]%MetricsConfig_Validate_Ok & [= <-])%res_bind_Ok.
  pose proof (pretty_port _ Hp) as Hd. remember (pretty (mc_Port m)) as port. clear Heqport Hp.
  change (":" +:+ port) with (String ":" port). unfold SplitHostPort.
  rewrite splitLast_app by (by apply digits_noChar). cbn [mbind option_bind].
  assert (forall x, is_digit x = false -> Contains port (String x "") = false) as Hport
    by (intros x Hx; by apply digits_noChar).
  unfold ParseIP in Hip. destruct (addrKind (mc_Host m)) as [c|] eqn:Hk; [|done].
  destruct (code c =? 46)%N eqn:H4.
  - left. split; [done|].
    assert (forall x, x <> "."%char -> is_digit x = false -> Contains (mc_Host m) (String x "") = false) as Hh
      by (intros x Hx Hxd; by apply ParseIPv4_noChar).
    pose proof (Hh "["%char) as Hb. destruct (mc_Host m) as [|d h] eqn:Eh; [done|].
    assert (d <> "["%char) as Hd' by (specialize (Hb ltac:(done) ltac:(done)); by apply noChar_cons in Hb as [? _]).
    transitivity (if Contains (String d h) ":" then None else Some (String d h, port));
      [|by rewrite Hh].
    rewrite !(Hport "["%char), !(Hport "]"%char) by done.
    destruct d as [[] [] [] [] [] [] [] []]; try (by destruct Hd');
      rewrite (Hh ":"%char) by done; cbn [mbind option_bind]; by rewrite (Hh "["%char), (Hh "]"%char) by done.
  - destruct (code c =? 58)%N eqn:H6; [|done]. apply andb_true_iff in Hip as [_ Hip]. right. split; [done|].
    assert (c = ":"%char) as -> by (by apply code_inj, N.eqb_eq).
    pose proof (addrKind_contains _ _ Hk) as Hc. destruct (mc_Host m) as [|d h]; [done|].
    destruct d as [[] [] [] [] [] [] [] []]; try (by rewrite Hc); discriminate Hip.
Qed.
