(* ===== verification/Types.v ===== *)
(** * types/: delegations, parameters and signatures *)
From S2P Require Import Prelude GoStd BtcLib.
Local Open Scope Z_scope.

Section Types.
Context `{BL : BtcLib}.

(** ** types/delegation.go *)

Record CovenantAdaptorSigInfo := {
  cas_Pk : PublicKey;
  cas_Sigs : list bytes
}.

Record CovenantSchnorrSigInfo := {
  css_Pk : PublicKey;
  css_Sig : SchnorrSig
}.

Record Undelegation := {
  ud_UnbondingTxHex : string;
  ud_SlashingTxHex : string;
  ud_CovenantSlashingSigs : list CovenantAdaptorSigInfo;
  ud_CovenantUnbondingSigs : list CovenantSchnorrSigInfo;
  ud_DelegatorUnbondingSig : option BIP340Signature;
  ud_SpendStakeTxHex : string
}.

Record DelegationStakeExpansion := {
  PreviousStakingTxHashHex : string;
  OtherFundingTxOutHex : string
}.

Record Delegation := {
  del_BtcPk : PublicKey;
  del_FpBtcPks : list PublicKey;
  del_StakingTime : Z;                 (* uint32 *)
  del_StartHeight : Z;                 (* uint32 *)
  del_EndHeight : Z;                   (* uint32 *)
  del_TotalSat : Z;                    (* btcutil.Amount, an int64 *)
  del_StakingTxHex : string;
  del_StakingOutputIdx : Z;            (* uint32 *)
  del_SlashingTxHex : string;
  del_UnbondingTime : Z;               (* uint16 *)
  del_CovenantSigs : list CovenantAdaptorSigInfo;
  del_BtcUndelegation : option Undelegation;
  del_ParamsVersion : Z;               (* uint32 *)
  del_StakeExpansion : option DelegationStakeExpansion
}.

Definition OtherFundingTxOut (d : DelegationStakeExpansion) : res TxOut :=
  otherFundingTxOut ← DecodeString (OtherFundingTxOutHex d);
  DeserializeTxOut otherFundingTxOut.

Definition HasCovenantQuorumOnSlashing (ud : Undelegation) (quorum : Z) : bool :=
  bool_decide (quorum <= Z.of_nat (length (ud_CovenantUnbondingSigs ud))).

Definition HasCovenantQuorumOnUnbonding (ud : Undelegation) (quorum : Z) : bool :=
  bool_decide (quorum <= Z.of_nat (length (ud_CovenantUnbondingSigs ud))).

Definition HasAllSignatures (ud : Undelegation) (covenantQuorum : Z) : bool :=
  HasCovenantQuorumOnUnbonding ud covenantQuorum && HasCovenantQuorumOnSlashing ud covenantQuorum.

(** The method is called on [d.BtcUndelegation], which may be nil: it is only
    dereferenced when the first conjunct holds. *)
Definition HasCovenantQuorum (d : Delegation) (quorum : Z) : res bool :=
  if bool_decide (quorum <= Z.of_nat (length (del_CovenantSigs d))) then
    match del_BtcUndelegation d with
    | Some ud => Ok (HasAllSignatures ud quorum)
    | None => Panic "invalid memory address or nil pointer dereference"
    end
  else Ok false.

Definition GetStakingTime (d : Delegation) : res Z :=
  if bool_decide (MaxUint16 < del_StakingTime d) then Panic "invalid delegation in database"
  else Ok (u16 (del_StakingTime d)).

Definition IsStakeExpansion (d : Delegation) : bool :=
  bool_decide (is_Some (del_StakeExpansion d)).

(** ** types/params.go *)

Record StakingParams := {
  ComfirmationTimeBlocks : Z;          (* uint32 *)
  FinalizationTimeoutBlocks : Z;       (* uint32 *)
  MinSlashingTxFeeSat : Z;             (* btcutil.Amount *)
  CovenantPks : list PublicKey;
  SlashingPkScript : bytes;
  CovenantQuorum : Z;                  (* uint32 *)
  SlashingRate : LegacyDec;
  MinComissionRate : LegacyDec;
  UnbondingTimeBlocks : Z;             (* uint32 *)
  UnbondingFee : Z;                    (* btcutil.Amount *)
  MinStakingTime : Z;                  (* uint16 *)
  MaxStakingTime : Z;                  (* uint16 *)
  MinStakingValue : Z;                 (* btcutil.Amount *)
  MaxStakingValue : Z                  (* btcutil.Amount *)
}.

(** ** types/sigs.go, types/txresponse.go *)

Record CovenantSigs := {
  cs_PublicKey : PublicKey;
  cs_StakingTxHash : Hash;
  cs_SlashingSigs : list bytes;
  cs_UnbondingSig : SchnorrSig;
  cs_SlashingUnbondingSigs : list bytes;
  cs_StkExpSig : option SchnorrSig
}.

Record TxResponse := {
  tr_TxHash : string;
  tr_Events : list RelayerEvent
}.

(** ** Lemmas *)

Lemma HasAllSignatures_spec ud q :
  HasAllSignatures ud q = HasCovenantQuorumOnUnbonding ud q.
Proof. unfold HasAllSignatures. apply andb_diag. Qed.

(** C28: what counts as a delegation whose covenant quorum is complete: enough
    signatures on the slashing transaction and enough on the unbonding
    transaction.  The signatures on the slashing of the unbonding transaction
    are not counted, although HasCovenantQuorumOnSlashing is meant to. *)
Theorem HasCovenantQuorum_counts d q :
  HasCovenantQuorum d q = Ok true <->
  q <= Z.of_nat (length (del_CovenantSigs d)) /\
  exists ud, del_BtcUndelegation d = Some ud /\
    q <= Z.of_nat (length (ud_CovenantUnbondingSigs ud)).
Proof.
  unfold HasCovenantQuorum. case_bool_decide; [|naive_solver].
  destruct (del_BtcUndelegation d) as [ud|]; [|naive_solver].
  rewrite HasAllSignatures_spec. unfold HasCovenantQuorumOnUnbonding.
  case_bool_decide; naive_solver.
Qed.

End Types.
