(* ===== verification/Env.v ===== *)
(** * The state of the covd process and the interfaces between its components

    [Sys W] is what the daemon's components share: the world [W] (the Babylon
    node, the remote signer and the clock, seen through their clients), the
    parameter cache of covenant/cache_params.go, the log and the metrics of
    covenant/metrics.go.  [ClientController], [Signer] and [ParamsGetter] are
    the Go interfaces of clientcontroller/interface.go,
    covenant/expected_signer.go and covenant/cache_params.go, as records of
    operations. *)
From S2P Require Import Prelude GoStd BtcLib Types.
Local Open Scope Z_scope.

Inductive Level := DebugL | InfoL | ErrorL.

(** A log line: its level and message (the structured fields are dropped). *)
Record LogEntry := Log { log_level : Level; log_msg : string }.

(** ** covenant/metrics.go *)

Record metricsTimer := {
  previousSubmission : option Z;
  previousLocalSignStart : option Z;
  previousLocalSignFinish : option Z
}.

Definition newMetricsTimer : metricsTimer :=
  {| previousSubmission := None; previousLocalSignStart := None; previousLocalSignFinish := None |}.

Definition SetPreviousSubmission (t : Z) (mt : metricsTimer) : metricsTimer :=
  {| previousSubmission := Some t; previousLocalSignStart := previousLocalSignStart mt;
     previousLocalSignFinish := previousLocalSignFinish mt |}.

Definition SetPreviousSignStart (t : Z) (mt : metricsTimer) : metricsTimer :=
  {| previousSubmission := previousSubmission mt; previousLocalSignStart := Some t;
     previousLocalSignFinish := previousLocalSignFinish mt |}.

Definition SetPreviousSignFinish (t : Z) (mt : metricsTimer) : metricsTimer :=
  {| previousSubmission := previousSubmission mt; previousLocalSignStart := previousLocalSignStart mt;
     previousLocalSignFinish := Some t |}.

(** The Prometheus collectors: the counters and the gauge under the label of
    the one covenant key of the process, durations in nanoseconds. *)
Record Collectors := {
  totalSignDelegationsSubmitted : Z;
  failedSignDelegations : Z;
  currentPendingDelegations : Z;
  secondsSinceLastSubmission : Z;
  secondsSinceLastSignStart : Z;
  secondsSinceLastSignFinish : Z;
  timedSignDelegationLag : list Z
}.

Definition initCollectors : Collectors := {|
  totalSignDelegationsSubmitted := 0; failedSignDelegations := 0; currentPendingDelegations := 0;
  secondsSinceLastSubmission := 0; secondsSinceLastSignStart := 0; secondsSinceLastSignFinish := 0;
  timedSignDelegationLag := [] |}.

Definition AddSubmitted (n : Z) (c : Collectors) : Collectors := {|
  totalSignDelegationsSubmitted := totalSignDelegationsSubmitted c + n;
  failedSignDelegations := failedSignDelegations c;
  currentPendingDelegations := currentPendingDelegations c;
  secondsSinceLastSubmission := secondsSinceLastSubmission c;
  secondsSinceLastSignStart := secondsSinceLastSignStart c;
  secondsSinceLastSignFinish := secondsSinceLastSignFinish c;
  timedSignDelegationLag := timedSignDelegationLag c |}.

Definition AddFailed (n : Z) (c : Collectors) : Collectors := {|
  totalSignDelegationsSubmitted := totalSignDelegationsSubmitted c;
  failedSignDelegations := failedSignDelegations c + n;
  currentPendingDelegations := currentPendingDelegations c;
  secondsSinceLastSubmission := secondsSinceLastSubmission c;
  secondsSinceLastSignStart := secondsSinceLastSignStart c;
  secondsSinceLastSignFinish := secondsSinceLastSignFinish c;
  timedSignDelegationLag := timedSignDelegationLag c |}.

Definition SetPending (n : Z) (c : Collectors) : Collectors := {|
  totalSignDelegationsSubmitted := totalSignDelegationsSubmitted c;
  failedSignDelegations := failedSignDelegations c;
  currentPendingDelegations := n;
  secondsSinceLastSubmission := secondsSinceLastSubmission c;
  secondsSinceLastSignStart := secondsSinceLastSignStart c;
  secondsSinceLastSignFinish := secondsSinceLastSignFinish c;
  timedSignDelegationLag := timedSignDelegationLag c |}.

Definition ObserveLag (d : Z) (c : Collectors) : Collectors := {|
  totalSignDelegationsSubmitted := totalSignDelegationsSubmitted c;
  failedSignDelegations := failedSignDelegations c;
  currentPendingDelegations := currentPendingDelegations c;
  secondsSinceLastSubmission := secondsSinceLastSubmission c;
  secondsSinceLastSignStart := secondsSinceLastSignStart c;
  secondsSinceLastSignFinish := secondsSinceLastSignFinish c;
  timedSignDelegationLag := timedSignDelegationLag c ++ [d] |}.

(** UpdatePrometheusMetrics; the arguments are the times at which the three
    time.Since calls read the clock. *)
Definition UpdatePrometheusMetrics (t1 t2 t3 : Z) (mt : metricsTimer) (c : Collectors) : Collectors :=
  match previousSubmission mt, previousLocalSignStart mt, previousLocalSignFinish mt with
  | Some sub, Some start, Some finish => {|
      totalSignDelegationsSubmitted := totalSignDelegationsSubmitted c;
      failedSignDelegations := failedSignDelegations c;
      currentPendingDelegations := currentPendingDelegations c;
      secondsSinceLastSubmission := t1 - sub;
      secondsSinceLastSignStart := t2 - start;
      secondsSinceLastSignFinish := t3 - finish;
      timedSignDelegationLag := timedSignDelegationLag c |}
  | _, _, _ => c
  end.

(** time.Now(), in nanoseconds. *)
Class Clock (W : Type) : Type := { Now : W -> W * Z }.

Section Env.
Context `{BL : BtcLib} {W : Type}.

Record Sys := {
  world : W;
  paramsByVersion : gmap Z StakingParams;
  logs : list LogEntry;
  metricsTimeKeeper : metricsTimer;
  collectors : Collectors
}.

Definition set_world (w : W) (s : Sys) : Sys := {|
  world := w; paramsByVersion := paramsByVersion s; logs := logs s;
  metricsTimeKeeper := metricsTimeKeeper s; collectors := collectors s |}.
Definition set_params (p : gmap Z StakingParams) (s : Sys) : Sys := {|
  world := world s; paramsByVersion := p; logs := logs s;
  metricsTimeKeeper := metricsTimeKeeper s; collectors := collectors s |}.
Definition add_log (l : LogEntry) (s : Sys) : Sys := {|
  world := world s; paramsByVersion := paramsByVersion s; logs := logs s ++ [l];
  metricsTimeKeeper := metricsTimeKeeper s; collectors := collectors s |}.
Definition set_timer (t : metricsTimer) (s : Sys) : Sys := {|
  world := world s; paramsByVersion := paramsByVersion s; logs := logs s;
  metricsTimeKeeper := t; collectors := collectors s |}.
Definition set_collectors (c : Collectors) (s : Sys) : Sys := {|
  world := world s; paramsByVersion := paramsByVersion s; logs := logs s;
  metricsTimeKeeper := metricsTimeKeeper s; collectors := c |}.

(** The process right after start-up, in the world [w]. *)
Definition initSys (w : W) : Sys := {|
  world := w; paramsByVersion := ∅; logs := [];
  metricsTimeKeeper := newMetricsTimer; collectors := initCollectors |}.

(** A call that leaves the process: it sees and changes only the world. *)
Definition ext {A} (m : M W A) : M Sys A := fun s =>
  let '(w, r) := m (world s) in (set_world w s, r).

Definition timeNow `{!Clock W} : M Sys Z := ext (fun w => let '(w', t) := Now w in (w', Ok t)).

Definition logError (msg : string) : M Sys unit := modify (add_log (Log ErrorL msg)).
Definition logDebug (msg : string) : M Sys unit := modify (add_log (Log DebugL msg)).
Definition onTimer (f : metricsTimer -> metricsTimer) : M Sys unit :=
  modify (fun s => set_timer (f (metricsTimeKeeper s)) s).
Definition onCollectors (f : Collectors -> Collectors) : M Sys unit :=
  modify (fun s => set_collectors (f (collectors s)) s).

(** ** covenant/expected_signer.go *)

Record SigningRequestStkExp := {
  se_PreviousActiveStakeTx : MsgTx;
  se_OtherFundingOutput : TxOut;
  se_PreviousStakingOutputIdx : Z;
  se_PreviousActiveStakeUnbondingPkScriptPath : bytes
}.

Record SigningRequest := {
  sr_StakingTx : MsgTx;
  sr_SlashingTx : MsgTx;
  sr_UnbondingTx : MsgTx;
  sr_SlashUnbondingTx : MsgTx;
  sr_StakeExp : option SigningRequestStkExp;
  sr_StakingOutputIdx : Z;
  sr_SlashingPkScriptPath : bytes;
  sr_StakingTxUnbondingPkScriptPath : bytes;
  sr_UnbondingTxSlashingPkScriptPath : bytes;
  sr_FpEncKeys : list EncryptionKey
}.

Record SignaturesResponse := {
  sp_SlashSigs : list bytes;
  sp_UnbondingSig : SchnorrSig;
  sp_StkExtSig : option SchnorrSig;
  sp_SlashUnbondingSigs : list bytes
}.

Record Signer := {
  SignTransactions : SigningRequest -> M W SignaturesResponse;
  PubKey : M W PublicKey
}.

(** ** clientcontroller/interface.go *)

Definition FilterFn : Type := Delegation -> M Sys bool.

Record ClientController := {
  SubmitCovenantSigs : list CovenantSigs -> M Sys TxResponse;
  QueryPendingDelegations : Z -> option FilterFn -> M Sys (list Delegation);
  QueryBTCDelegation : string -> M Sys Delegation;
  QueryStakingParamsByVersion : Z -> M Sys StakingParams;
  Close : M Sys unit
}.

(** ** covenant/cache_params.go: the interface *)

Record ParamsGetter := { Get : Z -> M Sys StakingParams }.

(** ** Rules for the process state *)

Lemma keeps_ext {A} (J : Sys -> Prop) (m : M W A) (Q : A -> Prop) :
  (forall s, J s -> J (set_world (m (world s)).1 s) /\ (forall a, (m (world s)).2 = Ok a -> Q a)) ->
  keeps J (ext m) Q.
Proof.
  intros H s Hs. specialize (H s Hs). unfold ext. by destruct (m (world s)).
Qed.

(** Invariants that speak of the world and the cache only. *)
Class Local (J : Sys -> Prop) : Prop := {
  local_log : forall s l, J s -> J (add_log l s);
  local_timer : forall s t, J s -> J (set_timer t s);
  local_collectors : forall s c, J s -> J (set_collectors c s)
}.

Lemma keeps_logError J `{!Local J} msg : keeps J (logError msg) (fun _ => True).
Proof. apply keeps_modify; [|done]. intros s. apply local_log. Qed.

Lemma keeps_logDebug J `{!Local J} msg : keeps J (logDebug msg) (fun _ => True).
Proof. apply keeps_modify; [|done]. intros s. apply local_log. Qed.

Lemma keeps_onTimer J `{!Local J} f : keeps J (onTimer f) (fun _ => True).
Proof. apply keeps_modify; [|done]. intros s. apply local_timer. Qed.

Lemma keeps_onCollectors J `{!Local J} f : keeps J (onCollectors f) (fun _ => True).
Proof. apply keeps_modify; [|done]. intros s. apply local_collectors. Qed.

End Env.

Arguments Sys {BL} W.
Arguments Signer {BL} W.
Arguments ClientController {BL} W.
Arguments ParamsGetter {BL} W.
Arguments FilterFn {BL} W.
#[export] Hint Resolve keeps_logError keeps_logDebug keeps_onTimer keeps_onCollectors : keeps.
