(* ===== verification/ParamsCache.v ===== *)
(** * covenant/cache_params.go: the versioned parameter cache

    [CacheGet] is CacheVersionedParams.Get under its mutex, so one call is one
    atomic step on the process state.  retry.Do (avast/retry-go) is a
    parameter with its documented behaviour as the laws of [RetryLaws]. *)
From S2P Require Import Prelude GoStd BtcLib Types Env.
Local Open Scope Z_scope.

(** ** retry-go *)

(** [k] failed attempts in a row, each followed by the OnRetry callback. *)
Inductive failed_attempts {S} (f : M S unit) (onRetry : Z -> error -> M S unit) :
  nat -> S -> S -> Prop :=
| fa_none s : failed_attempts f onRetry 0 s s
| fa_more k s s1 s2 s3 e :
    failed_attempts f onRetry k s s1 ->
    f s1 = (s2, Err e) -> onRetry (Z.of_nat k) e s2 = (s3, Ok tt) ->
    failed_attempts f onRetry (Datatypes.S k) s s3.

(** retry.Do with the options Attempts(n), LastErrorOnly(true) and OnRetry. *)
Class RetryLib : Type := {
  retry_Do : forall S : Type, nat -> M S unit -> (Z -> error -> M S unit) -> M S unit
}.
Arguments retry_Do {_ S}.

Class RetryLaws `{RL : RetryLib} : Prop := {
  retry_succeeds : forall (S : Type) (n k : nat) (f : M S unit) onRetry s s1 s2,
    (k < n)%nat -> failed_attempts f onRetry k s s1 -> f s1 = (s2, Ok tt) ->
    retry_Do n f onRetry s = (s2, Ok tt);
  retry_exhausted : forall (S : Type) (n : nat) (f : M S unit) onRetry s s1 s2 e,
    failed_attempts f onRetry n s s1 -> f s1 = (s2, Err e) ->
    exists s3, retry_Do (Datatypes.S n) f onRetry s = (s3, Err e) /\
               (s3 = s2 \/ onRetry (Z.of_nat n) e s2 = (s3, Ok tt));
  retry_only_runs : forall (S : Type) (n : nat) (f : M S unit) onRetry (J : S -> Prop),
    keeps J f (fun _ => True) -> (forall i e, keeps J (onRetry i e) (fun _ => True)) ->
    keeps J (retry_Do n f onRetry) (fun _ => True)
}.

Section Cache.
Context `{BL : BtcLib} {W : Type} `{RL : RetryLib}.
Variable cc : ClientController W.

Definition RtyAttNum : nat := 5.

(** The closure given to retry.Do: it assigns the captured variable [params]. *)
Definition queryAttempt (version : Z) : M (Sys W * option StakingParams) unit :=
  fun '(s, _) =>
    match QueryStakingParamsByVersion cc version s with
    | (s', Ok p) => ((s', Some p), Ok tt)
    | (s', Err e) => ((s', None), Err e)
    | (s', Panic m) => ((s', None), Panic m)
    | (s', OutOfFuel) => ((s', None), OutOfFuel)
    end.

Definition onRetryLog (n : Z) (e : error) : M (Sys W * option StakingParams) unit :=
  fun '(s, p) =>
    let '(s', r) := logDebug "failed to query the consumer chain for the staking params" s in
    ((s', p), r).

Definition getParamsByVersion (version : Z) : M (Sys W) StakingParams := fun s =>
  match retry_Do RtyAttNum (queryAttempt version) onRetryLog (s, None) with
  | ((s', Some p), Ok _) => (s', Ok p)
  | ((s', None), Ok _) => (s', Panic "invalid memory address or nil pointer dereference")
  | ((s', _), Err e) => (s', Err e)
  | ((s', _), Panic m) => (s', Panic m)
  | ((s', _), OutOfFuel) => (s', OutOfFuel)
  end.

Definition CacheGet (version : Z) : M (Sys W) StakingParams :=
  cached ← gets (fun s => paramsByVersion s !! version);
  match cached with
  | Some params => mret params
  | None =>
      params ← getParamsByVersion version;
      modify (fun s => set_params (<[version := params]> (paramsByVersion s)) s);;
      mret params
  end.

Definition NewCacheVersionedParams : ParamsGetter W := {| Get := CacheGet |}.

(** [k] failed queries in a row, each followed by the log line of OnRetry. *)
Inductive query_fails (version : Z) : nat -> Sys W -> Sys W -> Prop :=
| qf_none s : query_fails version 0 s s
| qf_more k s s1 s2 e :
    query_fails version k s s1 ->
    QueryStakingParamsByVersion cc version s1 = (s2, Err e) ->
    query_fails version (Datatypes.S k) s
      (add_log (Log DebugL "failed to query the consumer chain for the staking params") s2).

(** ** Lemmas *)

Lemma query_fails_attempts version k s s1 :
  query_fails version k s s1 ->
  forall p, exists p', failed_attempts (queryAttempt version) onRetryLog k (s, p) (s1, p').
Proof.
  induction 1 as [s|k s s1 s2 e _ IH Hq]; intros p; [exists p; constructor|].
  destruct (IH p) as [p' Hp']. exists None.
  eapply (fa_more _ _ k _ (s1, p') (s2, None)); [done|simpl; by rewrite Hq|done].
Qed.

Lemma CacheGet_hit version s p :
  paramsByVersion s !! version = Some p -> CacheGet version s = (s, Ok p).
Proof. intros H. unfold CacheGet. unfold mbind, M_bind, gets. by rewrite H. Qed.

Lemma CacheGet_miss version s :
  paramsByVersion s !! version = None ->
  CacheGet version s =
  match getParamsByVersion version s with
  | (s', Ok p) => (set_params (<[version := p]> (paramsByVersion s')) s', Ok p)
  | (s', r) => (s', r)
  end.
Proof.
  intros H. unfold CacheGet at 1. unfold mbind, M_bind, gets. rewrite H.
  by destruct (getParamsByVersion version s) as [s' []].
Qed.

Lemma CacheGet_fills version s s' p :
  CacheGet version s = (s', Ok p) -> paramsByVersion s' !! version = Some p.
Proof.
  destruct (paramsByVersion s !! version) as [q|] eqn:Hv.
  - rewrite (CacheGet_hit _ _ q) by done. naive_solver.
  - rewrite CacheGet_miss by done.
    destruct (getParamsByVersion version s) as [s1 [q|e|m|]]; intros; simplify_eq/=.
    by rewrite lookup_insert_eq.
Qed.

(** The rule of the cache for invariants: what every query keeps and what
    survives the store of a queried value is kept by [CacheGet]. *)
Lemma keeps_CacheGet `{!RetryLaws} (J : Sys W -> Prop) (Q : StakingParams -> Prop) version :
  (forall s l, J s -> J (add_log l s)) ->
  keeps J (QueryStakingParamsByVersion cc version)
    (fun p => Q p /\ forall s, J s -> J (set_params (<[version := p]> (paramsByVersion s)) s)) ->
  (forall s p, J s -> paramsByVersion s !! version = Some p -> Q p) ->
  keeps J (CacheGet version) Q.
Proof.
  intros Hlog Hq Hhit s Hs.
  destruct (paramsByVersion s !! version) as [p|] eqn:Hv.
  { rewrite (CacheGet_hit _ _ p) by done. naive_solver. }
  rewrite CacheGet_miss by done.
  set (J' := fun x : Sys W * option StakingParams => J x.1 /\
    forall p, x.2 = Some p ->
      Q p /\ forall s, J s -> J (set_params (<[version := p]> (paramsByVersion s)) s)).
  assert (keeps J' (retry_Do RtyAttNum (queryAttempt version) onRetryLog) (fun _ => True)) as HJ'.
  { apply retry_only_runs.
    - intros [s0 p0] [H0 _]. simpl in H0. destruct (Hq s0 H0) as [H1 H2]. simpl.
      destruct (QueryStakingParamsByVersion cc version s0) as [s1 [p|e|m|]];
        unfold J'; simpl in *; naive_solver.
    - intros i e [s0 p0] [H0 H1]. unfold J'. simpl in *. split; [|done]. split; [by apply Hlog|done]. }
  destruct (HJ' (s, None)) as [Hr _]; [unfold J'; naive_solver|].
  unfold getParamsByVersion.
  destruct (retry_Do RtyAttNum (queryAttempt version) onRetryLog (s, None))
    as [[s' [p|]] [a|e|m|]]; unfold J' in Hr; simpl in *; naive_solver.
Qed.

(** ** Properties *)

(** Once Get has returned parameters for a version, every later Get of
    that version returns the same parameters without touching the chain, the
    cache or anything else of the process. *)
Theorem Get_stable version s s' p :
  CacheGet version s = (s', Ok p) -> CacheGet version s' = (s', Ok p).
Proof. intros H. by apply CacheGet_hit, (CacheGet_fills version s). Qed.

Lemma CacheGet_retried `{!RetryLaws} version k s s1 s2 p :
  paramsByVersion s !! version = None ->
  (k < RtyAttNum)%nat -> query_fails version k s s1 ->
  QueryStakingParamsByVersion cc version s1 = (s2, Ok p) ->
  CacheGet version s = (set_params (<[version := p]> (paramsByVersion s2)) s2, Ok p).
Proof.
  intros Hm Hk Hf Hq. rewrite CacheGet_miss by done. unfold getParamsByVersion.
  destruct (query_fails_attempts version k s s1 Hf None) as [p' Hp'].
  erewrite (retry_succeeds _ RtyAttNum k _ _ _ (s1, p') (s2, Some p)); [done..|].
  simpl. by rewrite Hq.
Qed.

(** On a miss, when the first [k] queries fail ([k] below the 5 attempts)
    and the next one succeeds, Get returns what that query returned and stores
    it under the version, on top of the state the query left. *)
Theorem Get_miss_success `{!RetryLaws} version k s s1 s2 p :
  paramsByVersion s !! version = None ->
  (k < RtyAttNum)%nat -> query_fails version k s s1 ->
  QueryStakingParamsByVersion cc version s1 = (s2, Ok p) ->
  CacheGet version s = (set_params (<[version := p]> (paramsByVersion s2)) s2, Ok p).
Proof. apply CacheGet_retried. Qed.

(** On a miss, when all 5 queries fail, Get returns the last error and
    caches nothing: the next Get asks the chain again. *)
Theorem Get_miss_exhausted `{!RetryLaws} version s s1 s2 e :
  paramsByVersion s !! version = None ->
  query_fails version 4 s s1 ->
  QueryStakingParamsByVersion cc version s1 = (s2, Err e) ->
  exists s3, CacheGet version s = (s3, Err e) /\
    world s3 = world s2 /\ paramsByVersion s3 = paramsByVersion s2.
Proof.
  intros Hm Hf Hq. rewrite CacheGet_miss by done. unfold getParamsByVersion.
  destruct (query_fails_attempts version 4 s s1 Hf None) as [p' Hp'].
  destruct (retry_exhausted _ 4 (queryAttempt version) onRetryLog (s, None) (s1, p') (s2, None) e)
    as ([s3 p3] & Hr & Hs3); [done|simpl; by rewrite Hq|].
  change RtyAttNum with 5%nat. rewrite Hr. exists s3. split; [by destruct p3|].
  destruct Hs3 as [Hs3|Hs3]; unfold onRetryLog in Hs3; simpl in Hs3; by simplify_eq.
Qed.

Lemma query_fails_refused version (J : Sys W -> Prop) :
  (forall s l, J s -> J (add_log l s)) ->
  refuses J (QueryStakingParamsByVersion cc version) ->
  forall k s, J s -> exists s1, query_fails version k s s1 /\ J s1.
Proof.
  intros Hlog Hq. induction k as [|k IH]; intros s Hs; [exists s; by split; [constructor|]|].
  destruct (IH s Hs) as (s1 & H1 & Hs1). destruct (Hq s1 Hs1) as (s2 & e & H2 & Hs2).
  eexists. split; [by econstructor|by apply Hlog].
Qed.

(** With a chain that gives the same answer each time, so does the cache. *)
Lemma answers_CacheGet `{!RetryLaws} (J : Sys W -> Prop) version o :
  (forall s l, J s -> J (add_log l s)) ->
  answers J (QueryStakingParamsByVersion cc version) o ->
  (forall p s, o = Some p -> J s -> J (set_params (<[version := p]> (paramsByVersion s)) s)) ->
  (forall s p, J s -> paramsByVersion s !! version = Some p -> o = Some p) ->
  answers J (CacheGet version) o.
Proof.
  intros Hlog Hq Hset Hhit.
  assert (keeps J (CacheGet version) (fun p => o = Some p)) as HK.
  { apply keeps_CacheGet; [done| |done]. eapply keeps_mono; [by apply answers_keeps|].
    intros p Hp. split; [done|]. intros s. by apply Hset. }
  assert (forall s, J s -> match o with
    | Some p => exists s', CacheGet version s = (s', Ok p)
    | None => exists s' e, CacheGet version s = (s', Err e)
    end) as HR.
  { intros s Hs. destruct (paramsByVersion s !! version) as [p|] eqn:Hv.
    { rewrite (Hhit s p Hs Hv). exists s. by apply CacheGet_hit. }
    destruct o as [p|].
    - destruct (Hq s Hs) as (s1 & ? & H1 & _ & ->). eexists.
      eapply (CacheGet_retried version 0); [done|unfold RtyAttNum; lia|constructor|done].
    - destruct (query_fails_refused version J Hlog Hq 4 s Hs) as (s1 & H1 & Hs1).
      destruct (Hq s1 Hs1) as (s2 & e & H2 & _).
      destruct (Get_miss_exhausted version s s1 s2 e Hv H1 H2) as (s3 & H3 & _). by exists s3, e. }
  destruct o as [p|]; intros s Hs; destruct (HK s Hs) as [HJ _]; specialize (HR s Hs).
  - destruct HR as [s' Hr]. rewrite Hr in HJ. by exists s', p.
  - destruct HR as (s' & e & Hr). rewrite Hr in HJ. by exists s', e.
Qed.

(** C25: the cache only ever holds what the chain answered for that version.
    For any relation [P] between versions and parameters that the answers of
    the chain satisfy (and queries do not write to the cache), [P] holds of
    every entry before and after a Get of any version, and of its result. *)
Theorem cache_coherent `{!RetryLaws} (P : Z -> StakingParams -> Prop) version s :
  (forall v s0, let '(s1, r) := QueryStakingParamsByVersion cc v s0 in
     paramsByVersion s1 = paramsByVersion s0 /\ (forall p, r = Ok p -> P v p)) ->
  map_Forall P (paramsByVersion s) ->
  map_Forall P (paramsByVersion (CacheGet version s).1) /\
  (forall p, (CacheGet version s).2 = Ok p -> P version p).
Proof.
  intros Hq Hs.
  apply (keeps_CacheGet (fun s => map_Forall P (paramsByVersion s)) (P version));
    [done| |by intros s0 p0 H0; apply H0|done].
  intros s0 Hs0. specialize (Hq version s0).
  destruct (QueryStakingParamsByVersion cc version s0) as [s1 r]. simpl in *.
  destruct Hq as [-> Hp]. split; [done|]. intros p Hr.
  split; [by apply Hp|]. intros s2 Hs2. apply map_Forall_insert_2; [by apply Hp|done].
Qed.

End Cache.

Arguments CacheGet {BL W RL}.
Arguments NewCacheVersionedParams {BL W RL}.
