(* ===== verification/ClientController.v ===== *)
(** * clientcontroller/babylon.go: the client of the Babylon node

    The gRPC/RPC client (bbnclient.Client), its keyring and the protobuf
    messages are third-party: [BbnClient W] lists the calls the controller
    makes, as computations over the world [W]; the response and message
    records hold the fields the controller reads or writes. *)
From S2P Require Import Prelude GoStd BtcLib Types Env.
Local Open Scope Z_scope.

Section Messages.
Context `{BL : BtcLib}.

(** ** Responses of the node (babylon's query types) *)

Record BTCCheckpointParamsT := {
  BtcConfirmationDepth : Z;
  CheckpointFinalizationTimeout : Z
}.

Record BTCStakingParamsT := {
  sp_CovenantPks : list BIP340PubKey;
  sp_CovenantQuorum : Z;
  sp_MinStakingValueSat : Z;
  sp_MaxStakingValueSat : Z;
  sp_MinStakingTimeBlocks : Z;
  sp_MaxStakingTimeBlocks : Z;
  sp_SlashingPkScript : bytes;
  sp_MinSlashingTxFeeSat : Z;
  sp_SlashingRate : LegacyDec;
  sp_UnbondingTimeBlocks : Z;
  sp_UnbondingFeeSat : Z;
  sp_MinCommissionRate : LegacyDec
}.

Record CovenantAdaptorSignatures := {
  ca_CovPk : BIP340PubKey;
  ca_AdaptorSigs : list bytes
}.

Record SignatureInfo := {
  si_Pk : BIP340PubKey;
  si_Sig : BIP340Signature
}.

Record BTCUndelegationResponse := {
  ur_UnbondingTxHex : string;
  ur_SlashingTxHex : string;
  ur_CovenantUnbondingSigList : list SignatureInfo;
  ur_CovenantSlashingSigs : list CovenantAdaptorSignatures;
  (* DelegatorUnbondingInfoResponse, with its SpendStakeTxHex *)
  ur_DelegatorUnbondingInfoResponse : option string
}.

Record StakeExpansionResponse := {
  sx_PreviousStakingTxHashHex : string;
  sx_OtherFundingTxOutHex : string
}.

Record BTCDelegationResponse := {
  dr_BtcPk : BIP340PubKey;
  dr_FpBtcPkList : list BIP340PubKey;
  dr_StakingTime : Z;
  dr_StartHeight : Z;
  dr_EndHeight : Z;
  dr_TotalSat : Z;
  dr_StakingTxHex : string;
  dr_SlashingTxHex : string;
  dr_CovenantSigs : list CovenantAdaptorSignatures;
  dr_StakingOutputIdx : Z;
  dr_UnbondingTime : Z;
  dr_UndelegationResponse : option BTCUndelegationResponse;
  dr_ParamsVersion : Z;
  dr_StkExp : option StakeExpansionResponse
}.

Inductive BTCDelegationStatus := PENDING | ACTIVE | VERIFIED.

(** cosmos-sdk's query pagination; the empty key stands for a nil one. *)
Record PageRequest := { pg_Key : bytes; pg_Limit : Z }.
Record PageResponse := { NextKey : bytes }.

(** QueryBTCDelegationsResponse and QueryFinalityProvidersResponse: the items
    of one page and the pagination. *)
Record QueryPage (A : Type) := {
  Items : list A;
  Pagination : option PageResponse
}.

Record RelayerTxResponse := {
  rr_TxHash : string;
  rr_Events : list RelayerEvent
}.

(** ** Transactions of the btcstaking module *)

Record MsgAddCovenantSigs := {
  mc_Signer : string;
  mc_Pk : BIP340PubKey;
  mc_StakingTxHash : string;
  mc_SlashingTxSigs : list bytes;
  mc_UnbondingTxSig : BIP340Signature;
  mc_SlashingUnbondingTxSigs : list bytes;
  mc_StakeExpansionTxSig : option BIP340Signature
}.

Record MsgCreateBTCDelegation := {
  md_StakerAddr : string;
  md_Pop : ProofOfPossessionBTC;
  md_BtcPk : BIP340PubKey;
  md_FpBtcPkList : list BIP340PubKey;
  md_StakingTime : Z;
  md_StakingValue : Z;
  md_StakingTx : bytes;
  md_StakingTxInclusionProof : option InclusionProof;
  md_SlashingTx : SlashingTx;
  md_DelegatorSlashingSig : BIP340Signature;
  md_UnbondingTx : bytes;
  md_UnbondingTime : Z;
  md_UnbondingValue : Z;
  md_UnbondingSlashingTx : SlashingTx;
  md_DelegatorUnbondingSlashingSig : BIP340Signature
}.

Record MsgBtcStakeExpand := {
  me_StakerAddr : string;
  me_Pop : ProofOfPossessionBTC;
  me_BtcPk : BIP340PubKey;
  me_FpBtcPkList : list BIP340PubKey;
  me_StakingTime : Z;
  me_StakingValue : Z;
  me_StakingTx : bytes;
  me_SlashingTx : SlashingTx;
  me_DelegatorSlashingSig : BIP340Signature;
  me_UnbondingTx : bytes;
  me_UnbondingTime : Z;
  me_UnbondingValue : Z;
  me_UnbondingSlashingTx : SlashingTx;
  me_DelegatorUnbondingSlashingSig : BIP340Signature;
  me_PreviousStakingTxHash : string;
  me_FundingTx : bytes
}.

Record MsgCreateFinalityProvider := {
  mf_Addr : string;
  mf_Commission : CommissionRates;
  mf_BtcPk : BIP340PubKey;
  mf_Description : Description;
  mf_Pop : ProofOfPossessionBTC
}.

Record MsgInsertHeaders := {
  mh_Signer : string;
  mh_Headers : list BTCHeaderBytes
}.

(** sdk.Msg: the messages the controller sends *)
Inductive Msg :=
| AddCovenantSigsMsg (m : MsgAddCovenantSigs)
| CreateBTCDelegationMsg (m : MsgCreateBTCDelegation)
| BtcStakeExpandMsg (m : MsgBtcStakeExpand)
| CreateFinalityProviderMsg (m : MsgCreateFinalityProvider)
| InsertHeadersMsg (m : MsgInsertHeaders).

End Messages.
Arguments Items {A}.
Arguments Pagination {A}.

(** bbnclient.Client, with its keyring. *)
Class BbnClient `{BL : BtcLib} (W : Type) : Type := {
  KeyRecord : Type;
  AccAddress : Type;
  KeyringKey : string -> M W KeyRecord;
  GetAddress : KeyRecord -> res AccAddress;
  MustBech32ifyAddressBytes : string -> AccAddress -> res string;
  BTCCheckpointParams : M W BTCCheckpointParamsT;
  BTCStakingParamsByVersion : Z -> M W BTCStakingParamsT;
  BTCDelegation : string -> M W BTCDelegationResponse;
  BTCDelegations : BTCDelegationStatus -> PageRequest -> M W (QueryPage BTCDelegationResponse);
  FinalityProviders : PageRequest -> M W (QueryPage FinalityProviderResponse);
  BTCTip : M W BTCHeaderInfoResponse;
  (* ReliablySendMsgs(ctx, msgs, expectedErrors, unrecoverableErrors) *)
  ReliablySendMsgs :
    list Msg -> list error -> list error -> M W (option RelayerTxResponse);
  IsRunning : M W bool;
  StopClient : M W unit
}.

(** ** Helpers of the resending loop *)

Section Helpers.
Context `{BL : BtcLib}.

Definition unrecoverableErrors : list error := [ErrInvalidCovenantPK; ErrInvalidCovenantSig].
Definition expectedErrors : list error := [ErrDuplicatedCovenantSig].

Definition errorContained (err : error) (errList : list error) : bool :=
  existsb (fun e => Contains err e) errList.

End Helpers.

Definition BatchRetries {A} (msgs : list A) (maxRetiresBatchRemovingMsgs : Z) : Z :=
  let maxRetriesByMsgLen := Z.of_nat (length msgs) in
  if bool_decide (maxRetiresBatchRemovingMsgs = 0) then maxRetriesByMsgLen
  else if bool_decide (maxRetriesByMsgLen < maxRetiresBatchRemovingMsgs) then maxRetriesByMsgLen
  else maxRetiresBatchRemovingMsgs.

(** append(msgs[:index], msgs[index+1:]...), on the shared backing array *)
Definition RemoveMsgAtIndex {A} (msgs : slice A) (index : Z) : slice A :=
  if bool_decide (index < 0) || bool_decide (Z.of_nat (sl_len msgs) <= index) then msgs
  else
    let i := Z.to_nat index in
    slice_append (slice_to msgs i) (drop (S i) (view msgs)).

Definition FailedMessageIndex (err : error) : option Z :=
  match FindMessageIndex err with
  | Some m => Atoi m
  | None => None
  end.

(** ** Conversions of the node's responses *)

Section Convert.
Context `{BL : BtcLib}.

Definition toAdaptorSigInfo (s : CovenantAdaptorSignatures) : res CovenantAdaptorSigInfo :=
  pk ← MustToBTCPK (ca_CovPk s);
  Ok {| cas_Pk := pk; cas_Sigs := ca_AdaptorSigs s |}.

Definition toSchnorrSigInfo (unbondingSig : SignatureInfo) : res CovenantSchnorrSigInfo :=
  sig ← ToBTCSig (si_Sig unbondingSig);
  pk ← MustToBTCPK (si_Pk unbondingSig);
  Ok {| css_Pk := pk; css_Sig := sig |}.

Definition UndelegationRespToUndelegation (undel : BTCUndelegationResponse) : res Undelegation :=
  if bool_decide (ur_UnbondingTxHex undel = "") then
    Err "staking tx should not be empty in undelegation"
  else if bool_decide (ur_SlashingTxHex undel = "") then
    Err "slashing tx should not be empty in undelegation"
  else
    covenantUnbondingSigs ← mapM toSchnorrSigInfo (ur_CovenantUnbondingSigList undel);
    covenantSlashingSigs ← mapM toAdaptorSigInfo (ur_CovenantSlashingSigs undel);
    let spendStakeTxHex := default "" (ur_DelegatorUnbondingInfoResponse undel) in
    Ok {| ud_UnbondingTxHex := ur_UnbondingTxHex undel;
          ud_SlashingTxHex := ur_SlashingTxHex undel;
          ud_CovenantSlashingSigs := covenantSlashingSigs;
          ud_CovenantUnbondingSigs := covenantUnbondingSigs;
          ud_DelegatorUnbondingSig := None;
          ud_SpendStakeTxHex := spendStakeTxHex |}.

Definition toStakeExpansion (x : StakeExpansionResponse) : DelegationStakeExpansion :=
  {| PreviousStakingTxHashHex := sx_PreviousStakingTxHashHex x;
     OtherFundingTxOutHex := sx_OtherFundingTxOutHex x |}.

Definition DelegationRespToDelegation (del : BTCDelegationResponse) : res Delegation :=
  if bool_decide (dr_StakingTxHex del = "") then
    Err "staking tx should not be empty in delegation"
  else if bool_decide (dr_SlashingTxHex del = "") then
    Err "slashing tx should not be empty in delegation"
  else
    covenantSigs ← mapM toAdaptorSigInfo (dr_CovenantSigs del);
    undelegation ← match dr_UndelegationResponse del with
                   | Some u => Some <$> UndelegationRespToUndelegation u
                   | None => Ok None
                   end;
    fpBtcPks ← mapM MustToBTCPK (dr_FpBtcPkList del);
    if bool_decide (MaxUint16 < dr_UnbondingTime del) then
      Err "unbonding time should be smaller than max uint16"
    else if bool_decide (MaxInt64 < dr_TotalSat del) then
      Err ("total sat (" +:+ pretty (dr_TotalSat del) +:+ ") is larger than the maximum int64")
    else
      btcPk ← MustToBTCPK (dr_BtcPk del);
      Ok {| del_BtcPk := btcPk;
            del_FpBtcPks := fpBtcPks;
            del_StakingTime := dr_StakingTime del;
            del_StartHeight := dr_StartHeight del;
            del_EndHeight := dr_EndHeight del;
            del_TotalSat := i64 (dr_TotalSat del);
            del_StakingTxHex := dr_StakingTxHex del;
            del_StakingOutputIdx := dr_StakingOutputIdx del;
            del_SlashingTxHex := dr_SlashingTxHex del;
            del_UnbondingTime := u16 (dr_UnbondingTime del);
            del_CovenantSigs := covenantSigs;
            del_BtcUndelegation := undelegation;
            del_ParamsVersion := dr_ParamsVersion del;
            del_StakeExpansion := toStakeExpansion <$> dr_StkExp del |}.

End Convert.

(** ** The controller *)

Definition MaxPaginationLimit : Z := 1000.

Record BabylonController := {
  bc_Key : string;                         (* cfg.Key *)
  bc_AccountPrefix : string;               (* cfg.AccountPrefix *)
  MaxRetiresBatchRemovingMsgs : Z          (* uint64 *)
}.

Section Controller.
Context `{BL : BtcLib} {W : Type} `{BC : !BbnClient W}.
Variable bc : BabylonController.

(** panic(fmt.Sprintf("Failed to get key address: %s", err)) *)
Definition panicKeyAddress {A} (m : M (Sys W) A) : M (Sys W) A := fun s =>
  match m s with
  | (s', Err e) => (s', Panic ("Failed to get key address: " +:+ e))
  | x => x
  end.

Definition GetKeyAddress : M (Sys W) AccAddress :=
  keyRec ← panicKeyAddress (ext (KeyringKey (bc_Key bc)));
  panicKeyAddress (lift (GetAddress keyRec)).

Definition mustGetTxSigner : M (Sys W) string :=
  signer ← GetKeyAddress;
  lift (MustBech32ifyAddressBytes (bc_AccountPrefix bc) signer).

Definition bc_QueryStakingParamsByVersion (version : Z) : M (Sys W) StakingParams :=
  ckptParamRes ← wrapErrM "failed to query params of the btccheckpoint module" (ext BTCCheckpointParams);
  stakingParamRes ← wrapErrM ("failed to query staking params with version " +:+ pretty version)
                      (ext (BTCStakingParamsByVersion version));
  covenantPks ← lift (replErr "invalid covenant public key"
                        (mapM ToBTCPK (sp_CovenantPks stakingParamRes)));
  if bool_decide (MaxUint16 < sp_MinStakingTimeBlocks stakingParamRes) then
    fail ("babylon min staking time blocks (" +:+ pretty (sp_MinStakingTimeBlocks stakingParamRes)
          +:+ ") is larger than the maximum uint16")
  else
  let minStakingTimeBlocksUint16 := u16 (sp_MinStakingTimeBlocks stakingParamRes) in
  if bool_decide (MaxUint16 < sp_MaxStakingTimeBlocks stakingParamRes) then
    fail ("babylon max staking time blocks (" +:+ pretty (sp_MaxStakingTimeBlocks stakingParamRes)
          +:+ ") is larger than the maximum uint16")
  else
  let maxStakingTimeBlocksUint16 := u16 (sp_MaxStakingTimeBlocks stakingParamRes) in
  mret {| ComfirmationTimeBlocks := BtcConfirmationDepth ckptParamRes;
          FinalizationTimeoutBlocks := CheckpointFinalizationTimeout ckptParamRes;
          MinSlashingTxFeeSat := sp_MinSlashingTxFeeSat stakingParamRes;
          CovenantPks := covenantPks;
          SlashingPkScript := sp_SlashingPkScript stakingParamRes;
          CovenantQuorum := sp_CovenantQuorum stakingParamRes;
          SlashingRate := sp_SlashingRate stakingParamRes;
          MinComissionRate := sp_MinCommissionRate stakingParamRes;
          UnbondingTimeBlocks := sp_UnbondingTimeBlocks stakingParamRes;
          UnbondingFee := sp_UnbondingFeeSat stakingParamRes;
          MinStakingTime := minStakingTimeBlocksUint16;
          MaxStakingTime := maxStakingTimeBlocksUint16;
          MinStakingValue := sp_MinStakingValueSat stakingParamRes;
          MaxStakingValue := sp_MaxStakingValueSat stakingParamRes |}.

Definition reliablySendMsgs (msgs : list Msg) : M (Sys W) (option RelayerTxResponse) :=
  ext (ReliablySendMsgs msgs [] unrecoverableErrors).

Definition emptyTxResponse : TxResponse := {| tr_TxHash := ""; tr_Events := [] |}.

(** The statements after the loop of reliablySendMsgsResendingOnMsgErr. *)
Definition resendExhausted (err : option error) : res TxResponse :=
  match err with
  | Some e =>
      if errorContained e expectedErrors then Ok emptyTxResponse
      else Err ("failed to send batch of msgs: " +:+ e)
  | None => Err "failed to send batch of msgs: %!w(<nil>)"
  end.

(** The loop, with the number of iterations left. *)
Fixpoint resendLoop (n : nat) (err : option error) (msgs : slice Msg) :
  M (Sys W) TxResponse :=
  match n with
  | O => lift (resendExhausted err)
  | S n =>
      r ← attempt (reliablySendMsgs (view msgs));
      match r with
      | inr errSendMsg =>
          let err := Some (Join err errSendMsg) in
          if Contains errSendMsg "message index: " then
            match FailedMessageIndex errSendMsg with
            | None => fail errSendMsg
            | Some failedIndex => resendLoop n err (RemoveMsgAtIndex msgs failedIndex)
            end
          else fail errSendMsg
      | inl None => mret emptyTxResponse
      | inl (Some res) => mret {| tr_TxHash := rr_TxHash res; tr_Events := rr_Events res |}
      end
  end.

Definition reliablySendMsgsResendingOnMsgErr (msgs : slice Msg) :
  M (Sys W) TxResponse :=
  let maxRetries := BatchRetries (view msgs) (MaxRetiresBatchRemovingMsgs bc) in
  resendLoop (Z.to_nat maxRetries) None msgs.

Definition toMsgAddCovenantSigs (covSig : CovenantSigs) : M (Sys W) Msg :=
  let bip340UnbondingSig := NewBIP340SignatureFromBTCSig (cs_UnbondingSig covSig) in
  signer ← mustGetTxSigner;
  mret (AddCovenantSigsMsg {| mc_Signer := signer;
          mc_Pk := NewBIP340PubKeyFromBTCPK (cs_PublicKey covSig);
          mc_StakingTxHash := HashString (cs_StakingTxHash covSig);
          mc_SlashingTxSigs := cs_SlashingSigs covSig;
          mc_UnbondingTxSig := bip340UnbondingSig;
          mc_SlashingUnbondingTxSigs := cs_SlashingUnbondingSigs covSig;
          mc_StakeExpansionTxSig := NewBIP340SignatureFromBTCSig <$> cs_StkExpSig covSig |}).

Definition bc_SubmitCovenantSigs (covSigs : list CovenantSigs) : M (Sys W) TxResponse :=
  msgs ← mapM toMsgAddCovenantSigs covSigs;
  reliablySendMsgsResendingOnMsgErr (slice_of msgs).

Definition bc_QueryBTCDelegation (stakingTxHashHex : string) : M (Sys W) Delegation :=
  resp ← wrapErrM ("failed to query BTC delegation " +:+ stakingTxHashHex)
           (ext (BTCDelegation stakingTxHashHex));
  lift (DelegationRespToDelegation resp).

(** The inner loop over one page: [inl] when the limit is reached and the
    function returns, [inr] with the accumulators at the end of the page. *)
Fixpoint pageDelegations (filter : option (FilterFn W)) (delsLimit : Z)
    (page : list BTCDelegationResponse) (dels : list Delegation) (indexDels : Z) :
  M (Sys W) (list Delegation + list Delegation * Z) :=
  match page with
  | [] => mret (inr (dels, indexDels))
  | delResp :: page =>
      del ← lift (DelegationRespToDelegation delResp);
      accept ← match filter with Some f => f del | None => mret true end;
      if accept : bool then
        let dels := dels ++ [del] in
        let indexDels := indexDels + 1 in
        if bool_decide (indexDels = delsLimit) then mret (inl dels)
        else pageDelegations filter delsLimit page dels indexDels
      else pageDelegations filter delsLimit page dels indexDels
  end.

(** The outer loop; [fuel] bounds the number of pages asked for. *)
Fixpoint pagesLoop (fuel : nat) (status : BTCDelegationStatus) (filter : option (FilterFn W))
    (delsLimit pgLimit : Z) (key : bytes) (dels : list Delegation) (indexDels : Z) :
  M (Sys W) (list Delegation) :=
  if bool_decide (indexDels < delsLimit) then
    match fuel with
    | O => lift OutOfFuel
    | S fuel =>
        res ← wrapErrM "failed to query BTC delegations"
                (ext (BTCDelegations status {| pg_Key := key; pg_Limit := pgLimit |}));
        r ← pageDelegations filter delsLimit (Items res) dels indexDels;
        match r with
        | inl dels => mret dels
        | inr (dels, indexDels) =>
            if bool_decide (Z.of_nat (length (Items res)) <> pgLimit) then mret dels
            else match Pagination res with
                 | None => lift (Panic "invalid memory address or nil pointer dereference")
                 | Some p => pagesLoop fuel status filter delsLimit pgLimit (NextKey p) dels indexDels
                 end
        end
    end
  else mret dels.

Definition queryDelegationsWithStatus (fuel : nat) (status : BTCDelegationStatus) (delsLimit : Z)
    (filter : option (FilterFn W)) : M (Sys W) (list Delegation) :=
  let pgLimit := Z.min MaxPaginationLimit delsLimit in
  pagesLoop fuel status filter delsLimit pgLimit [] [] 0.

Definition bc_QueryPendingDelegations (fuel : nat) (limit : Z) (filter : option (FilterFn W)) :=
  queryDelegationsWithStatus fuel PENDING limit filter.

Definition QueryActiveDelegations (fuel : nat) (limit : Z) :=
  queryDelegationsWithStatus fuel ACTIVE limit None.

Definition QueryVerifiedDelegations (fuel : nat) (limit : Z) :=
  queryDelegationsWithStatus fuel VERIFIED limit None.

(** *** Messages and queries of the end-to-end tests *)

Definition reliablySendMsg (msg : Msg) : M (Sys W) (option RelayerTxResponse) :=
  reliablySendMsgs [msg].

(** res.TxHash, where res is nil after an expected error *)
Definition txHashOf (res : option RelayerTxResponse) : M (Sys W) TxResponse :=
  match res with
  | Some res => mret {| tr_TxHash := rr_TxHash res; tr_Events := [] |}
  | None => lift (Panic "invalid memory address or nil pointer dereference")
  end.

Definition CreateBTCDelegation (delBtcPk : BIP340PubKey) (fpPks : list PublicKey)
    (pop : ProofOfPossessionBTC) (stakingTime stakingValue : Z) (stakingTxInfo : TransactionInfo)
    (slashingTx : SlashingTx) (delSlashingSig : BIP340Signature) (unbondingTx : bytes)
    (unbondingTime unbondingValue : Z) (unbondingSlashingTx : SlashingTx)
    (delUnbondingSlashingSig : BIP340Signature) (isPreApproval : bool) : M (Sys W) TxResponse :=
  let fpBtcPks := NewBIP340PubKeyFromBTCPK <$> fpPks in
  let inclusionProof :=
    if negb isPreApproval then Some (NewInclusionProof (ti_Key stakingTxInfo) (ti_Proof stakingTxInfo))
    else None in
  signer ← mustGetTxSigner;
  res ← reliablySendMsg (CreateBTCDelegationMsg {|
    md_StakerAddr := signer;
    md_Pop := pop;
    md_BtcPk := delBtcPk;
    md_FpBtcPkList := fpBtcPks;
    md_StakingTime := stakingTime;
    md_StakingValue := stakingValue;
    md_StakingTx := ti_Transaction stakingTxInfo;
    md_StakingTxInclusionProof := inclusionProof;
    md_SlashingTx := slashingTx;
    md_DelegatorSlashingSig := delSlashingSig;
    md_UnbondingTx := unbondingTx;
    md_UnbondingTime := unbondingTime;
    md_UnbondingValue := unbondingValue;
    md_UnbondingSlashingTx := unbondingSlashingTx;
    md_DelegatorUnbondingSlashingSig := delUnbondingSlashingSig |});
  txHashOf res.

Definition CreateStakeExpansionDelegation (delBtcPk : BIP340PubKey) (fpPks : list PublicKey)
    (pop : ProofOfPossessionBTC) (stakingTime stakingValue : Z) (stakingTxInfo : TransactionInfo)
    (slashingTx : SlashingTx) (delSlashingSig : BIP340Signature) (unbondingTx : bytes)
    (unbondingTime unbondingValue : Z) (unbondingSlashingTx : SlashingTx)
    (delUnbondingSlashingSig : BIP340Signature) (previousStakingTxHash : string)
    (fundingTx : bytes) : M (Sys W) TxResponse :=
  let fpBtcPks := NewBIP340PubKeyFromBTCPK <$> fpPks in
  signer ← mustGetTxSigner;
  res ← reliablySendMsg (BtcStakeExpandMsg {|
    me_StakerAddr := signer;
    me_Pop := pop;
    me_BtcPk := delBtcPk;
    me_FpBtcPkList := fpBtcPks;
    me_StakingTime := stakingTime;
    me_StakingValue := stakingValue;
    me_StakingTx := ti_Transaction stakingTxInfo;
    me_SlashingTx := slashingTx;
    me_DelegatorSlashingSig := delSlashingSig;
    me_UnbondingTx := unbondingTx;
    me_UnbondingTime := unbondingTime;
    me_UnbondingValue := unbondingValue;
    me_UnbondingSlashingTx := unbondingSlashingTx;
    me_DelegatorUnbondingSlashingSig := delUnbondingSlashingSig;
    me_PreviousStakingTxHash := previousStakingTxHash;
    me_FundingTx := fundingTx |});
  txHashOf res.

Definition RegisterFinalityProvider (btcPubKey : BIP340PubKey) (commission : LegacyDec)
    (description : Description) (pop : ProofOfPossessionBTC) :
  M (Sys W) (option RelayerTxResponse) :=
  signer ← mustGetTxSigner;
  reliablySendMsgs [CreateFinalityProviderMsg {|
    mf_Addr := signer;
    mf_Commission := NewCommissionRates commission (LegacyDecAdd commission LegacyOneDec) LegacyOneDec;
    mf_BtcPk := btcPubKey;
    mf_Description := description;
    mf_Pop := pop |}].

Definition InsertBtcBlockHeaders (headers : list BTCHeaderBytes) :
  M (Sys W) (option RelayerTxResponse) :=
  signer ← mustGetTxSigner;
  reliablySendMsg (InsertHeadersMsg {| mh_Signer := signer; mh_Headers := headers |}).

(** The loop of QueryFinalityProviders; [fuel] bounds the number of pages. *)
Fixpoint finalityProvidersLoop (fuel : nat) (key : bytes) (fps : list FinalityProviderResponse) :
  M (Sys W) (list FinalityProviderResponse) :=
  match fuel with
  | O => lift OutOfFuel
  | S fuel =>
      res ← wrapErrM "failed to query finality providers"
              (ext (FinalityProviders {| pg_Key := key; pg_Limit := 100 |}));
      let fps := fps ++ Items res in
      match Pagination res with
      | None => mret fps
      | Some p => if bool_decide (NextKey p = []) then mret fps
                  else finalityProvidersLoop fuel (NextKey p) fps
      end
  end.

Definition QueryFinalityProviders (fuel : nat) : M (Sys W) (list FinalityProviderResponse) :=
  finalityProvidersLoop fuel [] [].

Definition QueryBtcLightClientTip : M (Sys W) BTCHeaderInfoResponse :=
  wrapErrM "failed to query BTC tip" (ext BTCTip).

Definition bc_Close : M (Sys W) unit :=
  running ← ext IsRunning;
  if running : bool then ext StopClient else mret tt.

(** BabylonController as the ClientController of the emulator. *)
Definition babylonClientController (fuel : nat) : ClientController W := {|
  SubmitCovenantSigs := bc_SubmitCovenantSigs;
  QueryPendingDelegations := bc_QueryPendingDelegations fuel;
  QueryBTCDelegation := bc_QueryBTCDelegation;
  QueryStakingParamsByVersion := bc_QueryStakingParamsByVersion;
  Close := bc_Close
|}.

End Controller.
