(* ===== verification/Emulator.v ===== *)
(** * covenant/covenant.go: the covenant emulator

    Each Go function is one definition; the handler AddCovenantSignatures is
    split where its numbered steps are, so that the checks that only depend on
    the delegation and its parameters ([checkAgainstParams],
    [buildSigningRequest]) are pure
    functions and the rest ([signDelegation], [AddCovenantSignatures]) runs over
    the process state. *)
From S2P Require Import Prelude GoStd BtcLib Types Env.
Local Open Scope Z_scope.

(** What one pass of the loop body decides: go on with a value, or [continue]
    after logging the message at error level. *)
Inductive step (A : Type) : Type :=
| Go (a : A)
| Skip (msg : string).
Arguments Go {A} a.
Arguments Skip {A} msg.

(** [v, err := f(); if err != nil { log msg; continue }] *)
Definition orSkip {A B} (m : res A) (msg : string) (k : A -> res (step B)) : res (step B) :=
  match m with
  | Ok a => k a
  | Err _ => Ok (Skip msg)
  | Panic p => Panic p
  | OutOfFuel => OutOfFuel
  end.

(** dels[i:j]; Go panics unless i <= j <= len *)
Definition slice_range {A} (l : list A) (i j : Z) : res (list A) :=
  if bool_decide (0 <= i <= j) && bool_decide (j <= Z.of_nat (length l))
  then Ok (take (Z.to_nat (j - i)) (drop (Z.to_nat i) l))
  else Panic "slice bounds out of range".

Section Pure.
Context `{BL : BtcLib}.

(** ** Decoding and checking the transactions of a delegation *)

Definition decodeDelegationTransactions (del : Delegation) (params : StakingParams)
    (btcNet : NetParams) : res (MsgTx * MsgTx) :=
  stakingMsgTx ← replErr "failed to decode staking tx from hex" (NewBTCTxFromHex (del_StakingTxHex del));
  slashingTx ← replErr "failed to decode slashing tx from hex"
                 (NewBTCSlashingTxFromHex (del_SlashingTxHex del));
  slashingMsgTx ← ToMsgTx slashingTx;
  wrapErr "invalid txs in the delegation"
    (CheckSlashingTxMatchFundingTx slashingMsgTx stakingMsgTx (del_StakingOutputIdx del)
       (MinSlashingTxFeeSat params) (SlashingRate params) (SlashingPkScript params)
       (del_BtcPk del) (del_UnbondingTime del) btcNet);;
  Ok (stakingMsgTx, slashingMsgTx).

Definition decodeUndelegationTransactions (del : Delegation) (ud : Undelegation)
    (params : StakingParams) (btcNet : NetParams) : res (MsgTx * MsgTx) :=
  unbondingMsgTx ← wrapErr "failed to decode unbonding tx from hex"
                     (NewBTCTxFromHex (ud_UnbondingTxHex ud));
  unbondingSlashingMsgTx ← wrapErr "failed to decode unbonding slashing tx from hex"
                             (NewBTCTxFromHex (ud_SlashingTxHex ud));
  wrapErr "invalid txs in the undelegation"
    (CheckSlashingTxMatchFundingTx unbondingSlashingMsgTx unbondingMsgTx 0
       (MinSlashingTxFeeSat params) (SlashingRate params) (SlashingPkScript params)
       (del_BtcPk del) (del_UnbondingTime del) btcNet);;
  Ok (unbondingMsgTx, unbondingSlashingMsgTx).

Definition fpEncKeysFromDel (btcDel : Delegation) : res (list EncryptionKey) :=
  mapM (fun fpPk =>
          wrapErr ("failed to get encryption key from finality provider public key "
                   +:+ BIP340MarshalHex (NewBIP340PubKeyFromBTCPK fpPk))
            (NewEncryptionKeyFromBTCPK fpPk))
       (del_FpBtcPks btcDel).

Definition pkScriptPathUnbondingSlash (del : Delegation) (unbondingTx : MsgTx)
    (params : StakingParams) (btcNet : NetParams) : res bytes :=
  out ← index (tx_TxOut unbondingTx) 0;
  unbondingInfo ← BuildUnbondingInfo (del_BtcPk del) (del_FpBtcPks del) (CovenantPks params)
                    (CovenantQuorum params) (del_UnbondingTime del) (Value out) btcNet;
  unbondingTxSlashingPathInfo ← UnbondingSlashingPathSpendInfo unbondingInfo;
  Ok (GetPkScriptPath unbondingTxSlashingPathInfo).

Definition pkScriptPathSlashAndUnbond (del : Delegation) (params : StakingParams)
    (btcNet : NetParams) : res (bytes * bytes) :=
  stakingTime ← GetStakingTime del;
  stakingInfo ← wrapErr "failed to build staking info"
    (BuildStakingInfo (del_BtcPk del) (del_FpBtcPks del) (CovenantPks params)
       (CovenantQuorum params) stakingTime (del_TotalSat del) btcNet);
  slashingPathInfo ← wrapErr "failed to get slashing path info" (StakingSlashingPathSpendInfo stakingInfo);
  let slashingPkScriptPath := GetPkScriptPath slashingPathInfo in
  stakingTxUnbondingPathInfo ← replErr "failed to get unbonding path spend info"
    (StakingUnbondingPathSpendInfo stakingInfo);
  let stakingTxUnbondingPkScriptPath := GetPkScriptPath stakingTxUnbondingPathInfo in
  Ok (slashingPkScriptPath, stakingTxUnbondingPkScriptPath).

Definition pkScriptPaths (del : Delegation) (params : StakingParams) (btcNet : NetParams)
    (unbondingTx : MsgTx) : res (bytes * bytes * bytes) :=
  '(slash, unbond) ← pkScriptPathSlashAndUnbond del params btcNet;
  unbondSlash ← pkScriptPathUnbondingSlash del unbondingTx params btcNet;
  Ok (slash, unbond, unbondSlash).

(** Steps 2 to 4 of the loop body: the checks against the parameters. *)
Definition checkAgainstParams (params : StakingParams) (btcDel : Delegation) : res (step unit) :=
  fulfilled ← HasCovenantQuorum btcDel (CovenantQuorum params);
  if fulfilled : bool then Ok (Skip "covenant signatures already fulfilled")
  else if bool_decide (del_UnbondingTime btcDel <> UnbondingTimeBlocks params) then
    Ok (Skip "invalid unbonding time")
  else
  stakingTime ← GetStakingTime btcDel;
  if bool_decide (stakingTime < MinStakingTime params) || bool_decide (MaxStakingTime params < stakingTime)
  then Ok (Skip "invalid staking time")
  else if bool_decide (del_TotalSat btcDel < MinStakingValue params)
       || bool_decide (MaxStakingValue params < del_TotalSat btcDel)
  then Ok (Skip "invalid staking value")
  else Ok (Go tt).

(** Steps 5 to 8: decode and verify the transactions, check the unbonding
    fee, collect the encryption keys and the script paths. *)
Definition buildSigningRequest (params : StakingParams) (btcNet : NetParams)
    (btcDel : Delegation) (ud : Undelegation) : res (step SigningRequest) :=
  orSkip (decodeDelegationTransactions btcDel params btcNet) "invalid delegation"
    (fun '(stakingTx, slashingTx) =>
  orSkip (decodeUndelegationTransactions btcDel ud params btcNet) "invalid undelegation"
    (fun '(unbondingTx, slashUnbondingTx) =>
  stakingOut ← index (tx_TxOut stakingTx) (del_StakingOutputIdx btcDel);
  unbondingOut ← index (tx_TxOut unbondingTx) 0;
  let unbondingFee := i64 (Value stakingOut - Value unbondingOut) in
  if bool_decide (unbondingFee <> UnbondingFee params) then Ok (Skip "invalid unbonding fee")
  else
  orSkip (fpEncKeysFromDel btcDel)
    "failed to encript the finality provider keys of the btc delegation" (fun fpsEncKeys =>
  orSkip (pkScriptPaths btcDel params btcNet unbondingTx) "failed to generate pk script path"
    (fun '(slashing, unbonding, unbondingSlashing) =>
  Ok (Go {| sr_StakingTx := stakingTx;
            sr_SlashingTx := slashingTx;
            sr_UnbondingTx := unbondingTx;
            sr_SlashUnbondingTx := slashUnbondingTx;
            sr_StakeExp := None;
            sr_StakingOutputIdx := del_StakingOutputIdx btcDel;
            sr_SlashingPkScriptPath := slashing;
            sr_StakingTxUnbondingPkScriptPath := unbonding;
            sr_UnbondingTxSlashingPkScriptPath := unbondingSlashing;
            sr_FpEncKeys := fpsEncKeys |}))))).

Definition withStakeExp (req : SigningRequest) (e : SigningRequestStkExp) : SigningRequest := {|
  sr_StakingTx := sr_StakingTx req;
  sr_SlashingTx := sr_SlashingTx req;
  sr_UnbondingTx := sr_UnbondingTx req;
  sr_SlashUnbondingTx := sr_SlashUnbondingTx req;
  sr_StakeExp := Some e;
  sr_StakingOutputIdx := sr_StakingOutputIdx req;
  sr_SlashingPkScriptPath := sr_SlashingPkScriptPath req;
  sr_StakingTxUnbondingPkScriptPath := sr_StakingTxUnbondingPkScriptPath req;
  sr_UnbondingTxSlashingPkScriptPath := sr_UnbondingTxSlashingPkScriptPath req;
  sr_FpEncKeys := sr_FpEncKeys req |}.

(** ** Stake expansion *)

Definition stakeExpValidateBasic (btcDel : Delegation) : res TxOut :=
  match del_StakeExpansion btcDel with
  | None => Err "stake expansion is nil in the delegation"
  | Some se =>
      stkExpandTx ← NewBTCTxFromHex (del_StakingTxHex btcDel);
      if bool_decide (length (tx_TxIn stkExpandTx) <> 2%nat) then
        Err "stake expansion must have 2 inputs (TxIn)"
      else
      previousActiveStkTxHash ← NewHashFromStr (PreviousStakingTxHashHex se);
      txin ← index (tx_TxIn stkExpandTx) 0;
      if negb (HashIsEqual (PreviousOutPointHash txin) previousActiveStkTxHash) then
        Err ("stake expansion first input must be the previous staking transaction hash "
             +:+ PreviousStakingTxHashHex se)
      else
      otherOutput ← OtherFundingTxOut se;
      if bool_decide (Value otherOutput <= 0) then
        Err ("funding output has invalid value " +:+ pretty (Value otherOutput))
      else Ok otherOutput
  end.

(** ** Committee membership and previous signatures *)

Definition AlreadySigned (covenantSerializedPk : bytes) (del : Delegation) : bool :=
  existsb (fun covSig => bool_decide (SerializePubKey (cas_Pk covSig) = covenantSerializedPk))
    (del_CovenantSigs del).

Definition keyInCommittee (covenantSerializedPk : bytes) (pks : list PublicKey) : bool :=
  existsb (fun pk => bool_decide (SerializePubKey pk = covenantSerializedPk)) pks.

End Pure.

Record Emulator `{BL : BtcLib} {W : Type} := {
  ce_pk : PublicKey;
  ce_signer : Signer W;
  ce_cc : ClientController W;
  ce_paramCache : ParamsGetter W;
  (* the fields of config.Config the emulator reads *)
  SigsBatchSize : Z;                       (* uint64 *)
  DelegationLimit : Z;                     (* uint64 *)
  BTCNetParams : NetParams;
  QueryInterval : Z;                       (* time.Duration *)
  UpdateInterval : Z                       (* Metrics.UpdateInterval *)
}.
Arguments Emulator {BL} W.

Section Acceptance.
Context `{BL : BtcLib} {W : Type}.

Definition IsKeyInCommittee (paramCache : ParamsGetter W) (covenantSerializedPk : bytes)
    (del : Delegation) : M (Sys W) bool :=
  stkParams ← wrapErrM ("unable to get the param version: " +:+ pretty (del_ParamsVersion del)
                        +:+ ", reason") (Get paramCache (del_ParamsVersion del));
  mret (keyInCommittee covenantSerializedPk (CovenantPks stkParams)).

(** del.StakeExpansion, dereferenced *)
Definition derefStakeExpansion (del : Delegation) : M (Sys W) DelegationStakeExpansion :=
  match del_StakeExpansion del with
  | Some se => mret se
  | None => lift (Panic "invalid memory address or nil pointer dereference")
  end.

Definition ValidateStakeExpansion (paramCache : ParamsGetter W) (covenantSerializedPk : bytes)
    (del : Delegation) (prevDel : option Delegation) : M (Sys W) bool :=
  match prevDel with
  | None =>
      se ← derefStakeExpansion del;
      fail ("previous delegation is nil for stake expansion delegation: "
            +:+ PreviousStakingTxHashHex se)
  | Some prevDel =>
      prevStakingTx ← lift (wrapErr "failed to decode previous delegation staking tx"
                              (NewBTCTxFromHex (del_StakingTxHex prevDel)));
      let prevStakingTxHash := HashString (TxHash prevStakingTx) in
      se ← derefStakeExpansion del;
      if bool_decide (prevStakingTxHash <> PreviousStakingTxHashHex se) then
        fail ("previous delegation staking tx hash mismatch: expected "
              +:+ PreviousStakingTxHashHex se +:+ ", got " +:+ prevStakingTxHash)
      else
        wrapErrM "unable to verify if covenant key is in committee"
          (IsKeyInCommittee paramCache covenantSerializedPk prevDel)
  end.

Definition AcceptDelegationToSign (pk : PublicKey) (paramCache : ParamsGetter W)
    (del : Delegation) (prevDel : option Delegation) : M (Sys W) bool :=
  let covenantSerializedPk := SerializePubKey pk in
  if AlreadySigned covenantSerializedPk del then mret false
  else
  isInCommittee ← wrapErrM "unable to verify if covenant key is in committee"
                    (IsKeyInCommittee paramCache covenantSerializedPk del);
  if negb isInCommittee then mret false
  else if IsStakeExpansion del then
    ValidateStakeExpansion paramCache covenantSerializedPk del prevDel
  else mret true.

Definition acceptDelegationToSign (ce : Emulator W) (del : Delegation) : M (Sys W) bool :=
  prevDel ← (if IsStakeExpansion del then
               se ← derefStakeExpansion del;
               prevDel ← wrapErrM "failed to query previous delegation for stake expansion"
                           (QueryBTCDelegation (ce_cc ce) (PreviousStakingTxHashHex se));
               mret (Some prevDel)
             else mret None);
  AcceptDelegationToSign (ce_pk ce) (ce_paramCache ce) del prevDel.

End Acceptance.

Section Signing.
Context `{BL : BtcLib} {W : Type} `{!Clock W}.
Variable ce : Emulator W.

Definition skip {A} (msg : string) : M (Sys W) (option A) := logError msg;; mret None.

(** Emulator.SignTransactions: the signer, with the timing metrics *)
Definition ceSignTransactions (signingReq : SigningRequest) : M (Sys W) SignaturesResponse :=
  startSignTime ← timeNow;
  onTimer (SetPreviousSignStart startSignTime);;
  resp ← ext (SignTransactions (ce_signer ce) signingReq);
  finishSignTime ← timeNow;
  onTimer (SetPreviousSignFinish finishSignTime);;
  now ← timeNow;
  onCollectors (ObserveLag (now - startSignTime));;
  mret resp.

Definition logged {A} (m : M (Sys W) A) (msg : string) : M (Sys W) A :=
  r ← attempt m;
  match r with
  | inl a => mret a
  | inr err => logError msg;; fail err
  end.

Definition buildStkExpSigningRequest (btcDel : Delegation) : M (Sys W) SigningRequestStkExp :=
  match del_StakeExpansion btcDel with
  | None => fail "stake expansion is nil in the delegation"
  | Some se =>
      fundingTxOut ← logged (lift (stakeExpValidateBasic btcDel)) "invalid stake expansion delegation";
      prevDel ← logged (QueryBTCDelegation (ce_cc ce) (PreviousStakingTxHashHex se))
                  "failed to query stake expansion";
      previousActiveStkTx ← logged (lift (NewBTCTxFromHex (del_StakingTxHex prevDel)))
                              "failed to decode stake expansion tx";
      prevDelParams ← wrapErrM ("failed to get staking params with version "
                                +:+ pretty (del_ParamsVersion btcDel))
                        (Get (ce_paramCache ce) (del_ParamsVersion prevDel));
      '(_, prevStakingTxUnbondingPkScriptPath) ←
         lift (pkScriptPathSlashAndUnbond prevDel prevDelParams (BTCNetParams ce));
      mret {| se_PreviousActiveStakeTx := previousActiveStkTx;
              se_OtherFundingOutput := fundingTxOut;
              se_PreviousStakingOutputIdx := del_StakingOutputIdx prevDel;
              se_PreviousActiveStakeUnbondingPkScriptPath := prevStakingTxUnbondingPkScriptPath |}
  end.

(** Steps 9 and 10: the stake expansion part of the request, the signatures. *)
Definition signRequest (btcDel : Delegation) (req : SigningRequest) : M (Sys W) (option CovenantSigs) :=
  stkExp ← (if IsStakeExpansion btcDel then
              r ← attempt (buildStkExpSigningRequest btcDel);
              match r with
              | inl stkExpReq => mret (inl (withStakeExp req stkExpReq))
              | inr _ => mret (inr "error building stake expansion request")
              end
            else mret (inl req));
  match stkExp with
  | inr msg => skip msg
  | inl req =>
      r ← attempt (ceSignTransactions req);
      match r with
      | inr _ => skip "failed to sign transactions"
      | inl resp =>
          mret (Some {| cs_PublicKey := ce_pk ce;
                        cs_StakingTxHash := TxHash (sr_StakingTx req);
                        cs_SlashingSigs := sp_SlashSigs resp;
                        cs_UnbondingSig := sp_UnbondingSig resp;
                        cs_SlashingUnbondingSigs := sp_SlashUnbondingSigs resp;
                        cs_StkExpSig := sp_StkExtSig resp |})
      end
  end.

(** The body of the loop over the delegations: [Some] signatures are appended
    to the batch, [None] is [continue], an error leaves the whole function. *)
Definition signDelegation (btcDel : option Delegation) : M (Sys W) (option CovenantSigs) :=
  match btcDel with
  | None =>
      (* the log statement of the nil check reads btcDel.StakingTxHex *)
      lift (Panic "invalid memory address or nil pointer dereference")
  | Some btcDel =>
      match del_BtcUndelegation btcDel with
      | None => skip "empty undelegation"
      | Some ud =>
          params ← wrapErrM ("failed to get staking params with version "
                             +:+ pretty (del_ParamsVersion btcDel))
                     (Get (ce_paramCache ce) (del_ParamsVersion btcDel));
          checked ← lift (checkAgainstParams params btcDel);
          match checked with
          | Skip msg => skip msg
          | Go _ =>
              built ← lift (buildSigningRequest params (BTCNetParams ce) btcDel ud);
              match built with
              | Skip msg => skip msg
              | Go req => signRequest btcDel req
              end
          end
      end
  end.

Fixpoint signLoop (btcDels : list (option Delegation)) (covenantSigs : list CovenantSigs) :
  M (Sys W) (list CovenantSigs) :=
  match btcDels with
  | [] => mret covenantSigs
  | btcDel :: btcDels =>
      r ← signDelegation btcDel;
      match r with
      | None => signLoop btcDels covenantSigs
      | Some sigs => signLoop btcDels (covenantSigs ++ [sigs])
      end
  end.

Definition recordMetricsFailedSignDelegations (n : nat) : M (Sys W) unit :=
  onCollectors (AddFailed (Z.of_nat n)).
Definition recordMetricsTotalSignDelegationsSubmitted (n : nat) : M (Sys W) unit :=
  onCollectors (AddSubmitted (Z.of_nat n)).
Definition recordMetricsCurrentPendingDelegations (n : nat) : M (Sys W) unit :=
  onCollectors (SetPending (Z.of_nat n)).

Definition AddCovenantSignatures (btcDels : list (option Delegation)) : M (Sys W) TxResponse :=
  if bool_decide (btcDels = []) then fail "no delegations"
  else
  covenantSigs ← signLoop btcDels [];
  r ← attempt (SubmitCovenantSigs (ce_cc ce) covenantSigs);
  match r with
  | inr err =>
      recordMetricsFailedSignDelegations (length covenantSigs);;
      fail err
  | inl res =>
      submittedTime ← timeNow;
      onTimer (SetPreviousSubmission submittedTime);;
      recordMetricsTotalSignDelegationsSubmitted (length covenantSigs);;
      mret res
  end.

End Signing.

(** ** Batches *)

Fixpoint batchLoop {A} (fuel : nat) (batchSize i : Z) (dels : list A) (batches : list (list A)) :
  res (list (list A)) :=
  let n := Z.of_nat (length dels) in
  if bool_decide (i < n) then
    match fuel with
    | O => OutOfFuel
    | S fuel =>
        let e := u64 (i + batchSize) in
        let e := if bool_decide (n < e) then n else e in
        b ← slice_range dels i e;
        batchLoop fuel batchSize (u64 (i + batchSize)) dels (batches ++ [b])
    end
  else Ok batches.

Definition delegationsToBatches {A} (fuel : nat) (batchSize : Z) (dels : list A) : res (list (list A)) :=
  batchLoop fuel batchSize 0 dels [].

(** ** One turn of covenantSigSubmissionLoop *)

Section Round.
Context `{BL : BtcLib} {W : Type} `{!Clock W}.
Variable ce : Emulator W.

Fixpoint submitBatches (batches : list (list Delegation)) : M (Sys W) unit :=
  match batches with
  | [] => mret tt
  | delBatch :: batches =>
      r ← attempt (AddCovenantSignatures ce (Some <$> delBatch));
      match r with
      | inl _ => mret tt
      | inr _ => logError "failed to submit covenant signatures for BTC delegations"
      end;;
      submitBatches batches
  end.

(** The case of the ticker.  A batch size of at least one needs no more
    batches than there are delegations, which is the fuel given. *)
Definition submissionRound : M (Sys W) unit :=
  r ← attempt (QueryPendingDelegations (ce_cc ce) (DelegationLimit ce) (Some (acceptDelegationToSign ce)));
  match r with
  | inr _ => logDebug "failed to get pending delegations"
  | inl dels =>
      recordMetricsCurrentPendingDelegations (length dels);;
      if bool_decide (length dels = 0%nat) then logDebug "no pending delegations are found"
      else
        batches ← lift (delegationsToBatches (length dels) (SigsBatchSize ce) dels);
        submitBatches batches
  end.

End Round.
