(* ===== verification/EmulatorProps.v ===== *)
(** * Theorems about the covenant emulator (covenant/covenant.go) *)
From S2P Require Import Prelude GoStd BtcLib Types Env Emulator.
Local Open Scope Z_scope.

(** ** Batches *)

Section Batches.
Context {A : Type}.

(** The reference: cut a list into pieces of [k] elements. *)
Fixpoint chunks (fuel k : nat) (l : list A) : list (list A) :=
  match fuel with
  | O => []
  | S fuel => match l with
              | [] => []
              | _ => take k l :: chunks fuel k (drop k l)
              end
  end.

Lemma chunks_concat fuel k (l : list A) :
  (0 < k)%nat -> (length l <= fuel)%nat -> concat (chunks fuel k l) = l.
Proof.
  intros Hk. revert l. induction fuel as [|fuel IH]; intros l Hl.
  { destruct l; simpl in *; [done|lia]. }
  destruct l as [|x l]; [done|]. cbn [chunks concat].
  rewrite IH by (rewrite length_drop; simpl in *; lia). apply take_drop.
Qed.

Lemma chunks_sizes fuel k (l : list A) :
  (0 < k)%nat -> Forall (fun b => b <> [] /\ (length b <= k)%nat) (chunks fuel k l).
Proof.
  intros Hk. revert l. induction fuel as [|fuel IH]; intros l; [constructor|].
  destruct l as [|x l]; [constructor|]. cbn [chunks]. constructor; [|apply IH].
  split; [destruct k; [lia|done]|rewrite length_take; lia].
Qed.

Lemma chunks_full fuel k (l : list A) i b :
  chunks fuel k l !! i = Some b -> (S i < length (chunks fuel k l))%nat -> length b = k.
Proof.
  revert l i. induction fuel as [|fuel IH]; intros l i; [done|].
  destruct l as [|x l]; [done|]. cbn [chunks]. set (xl := x :: l). intros Hi Hlt.
  destruct i as [|i].
  - simpl in Hi. simplify_eq. cbn [length] in Hlt.
    destruct (decide (k <= length xl)%nat) as [Hk|Hk]; [rewrite length_take; lia|].
    rewrite drop_ge in Hlt by lia. destruct fuel; simpl in Hlt; lia.
  - simpl in Hi. cbn [length] in Hlt. eapply IH; [done|lia].
Qed.

Lemma slice_range_Ok (l : list A) i j :
  0 <= i <= j -> j <= Z.of_nat (length l) ->
  slice_range l i j = Ok (take (Z.to_nat (j - i)) (drop (Z.to_nat i) l)).
Proof. intros Hi Hj. unfold slice_range. by rewrite !bool_decide_true. Qed.

Lemma batchLoop_chunks fuel batchSize i (dels : list A) acc :
  0 < batchSize < 2 ^ 64 -> Z.of_nat (length dels) < 2 ^ 63 ->
  0 <= i -> (i < Z.of_nat (length dels) -> i = 0 \/ batchSize <= i) ->
  (length dels - Z.to_nat i <= fuel)%nat ->
  batchLoop fuel batchSize i dels acc =
  Ok (acc ++ chunks fuel (Z.to_nat batchSize) (drop (Z.to_nat i) dels)).
Proof.
  intros Hb Hd. revert i acc. induction fuel as [|fuel IH]; intros i acc Hi Hge Hf; cbn [batchLoop].
  { rewrite bool_decide_false by lia. simpl. by rewrite app_nil_r. }
  case_bool_decide as Hlt; cycle 1.
  { rewrite drop_ge by lia. simpl. by rewrite app_nil_r. }
  assert (u64 (i + batchSize) = i + batchSize) as He.
  { unfold u64. apply Z.mod_small. destruct (Hge Hlt); lia. }
  rewrite He. set (e := if bool_decide _ then _ else _).
  assert (e = Z.min (i + batchSize) (Z.of_nat (length dels))) as ->.
  { unfold e. case_bool_decide; lia. }
  rewrite slice_range_Ok by lia. cbn [mbind res_bind].
  rewrite IH by lia. rewrite <- app_assoc. do 2 f_equal.
  destruct (drop (Z.to_nat i) dels) as [|x r] eqn:Hr.
  { apply (f_equal length) in Hr. rewrite length_drop in Hr. simpl in Hr. lia. }
  cbn [chunks app]. rewrite <- Hr. f_equal.
  - destruct (decide (i + batchSize <= Z.of_nat (length dels))).
    + f_equal. lia.
    + rewrite !take_ge by (rewrite length_drop; lia). done.
  - rewrite drop_drop. f_equal. f_equal. lia.
Qed.

Lemma batchLoop_zero fuel i (dels : list A) acc :
  0 <= i < Z.of_nat (length dels) -> Z.of_nat (length dels) < 2 ^ 63 ->
  batchLoop fuel 0 i dels acc = OutOfFuel.
Proof.
  intros Hi Hd. revert acc. induction fuel as [|fuel IH]; intros acc; cbn [batchLoop];
    rewrite bool_decide_true by lia; [done|].
  replace (u64 (i + 0)) with i by (unfold u64; rewrite Z.mod_small; lia).
  rewrite bool_decide_false by lia. rewrite slice_range_Ok by lia. apply IH.
Qed.

Lemma batches_partition batchSize (dels : list A) :
  0 < batchSize < 2 ^ 64 -> Z.of_nat (length dels) < 2 ^ 63 ->
  exists batches, delegationsToBatches (length dels) batchSize dels = Ok batches /\
    concat batches = dels /\
    Forall (fun b => b <> [] /\ Z.of_nat (length b) <= batchSize) batches /\
    (forall i b, batches !! i = Some b -> (S i < length batches)%nat ->
       Z.of_nat (length b) = batchSize).
Proof.
  intros Hb Hd. unfold delegationsToBatches. rewrite batchLoop_chunks by lia. simpl.
  eexists. split; [done|]. rewrite drop_0. split; [apply chunks_concat; lia|]. split.
  - assert (0 < Z.to_nat batchSize)%nat as Hk by lia.
    eapply Forall_impl; [apply (chunks_sizes (length dels) (Z.to_nat batchSize) dels Hk)|].
    simpl. intros b [? ?]. split; [done|lia].
  - intros i b Hi Hlt. apply chunks_full in Hi; [lia|done].
Qed.

(** C23: delegationsToBatches splits the delegations into consecutive batches:
    with a positive batch size it returns (after at most one turn of its loop
    per delegation, and with no wrap-around of the uint64 index for any batch
    size), the batches concatenate to the input, none is empty or larger than
    the batch size, and every one but the last is full. *)
Theorem delegationsToBatches_partition batchSize (dels : list A) :
  0 < batchSize < 2 ^ 64 -> Z.of_nat (length dels) < 2 ^ 63 ->
  exists batches, delegationsToBatches (length dels) batchSize dels = Ok batches /\
    concat batches = dels /\
    Forall (fun b => b <> [] /\ Z.of_nat (length b) <= batchSize) batches /\
    (forall i b, batches !! i = Some b -> (S i < length batches)%nat ->
       Z.of_nat (length b) = batchSize).
Proof. apply batches_partition. Qed.

(** With a batch size of zero, which config.Validate lets through, the
    loop of delegationsToBatches never ends on a non-empty input: no fuel is
    enough. *)
Theorem delegationsToBatches_zero_diverges (dels : list A) fuel :
  dels <> [] -> Z.of_nat (length dels) < 2 ^ 63 ->
  delegationsToBatches fuel 0 dels = OutOfFuel.
Proof. intros Hn Hd. apply batchLoop_zero; [|done]. destruct dels; simpl; [done|lia]. Qed.

End Batches.

(** The properties at concrete inputs: five delegations in batches of two. *)
Lemma delegationsToBatches_partition_witness :
  exists batches, delegationsToBatches 5 2 [1; 2; 3; 4; 5] = Ok batches /\
    concat batches = [1; 2; 3; 4; 5] /\
    Forall (fun b => b <> [] /\ Z.of_nat (length b) <= 2) batches /\
    (forall i b, batches !! i = Some b -> (S i < length batches)%nat -> Z.of_nat (length b) = 2).
Proof. apply (delegationsToBatches_partition 2 [1; 2; 3; 4; 5]); simpl; lia. Defined.

Lemma delegationsToBatches_zero_diverges_witness :
  delegationsToBatches 1000 0 [1; 2; 3] = OutOfFuel.
Proof. apply (delegationsToBatches_zero_diverges [1; 2; 3] 1000); [done|simpl; lia]. Defined.

(** ** Which delegations are accepted *)

Section Acceptance.
Context `{BL : BtcLib} {W : Type}.
Implicit Types (cache : ParamsGetter W).

(** The covenant key [pk] belongs to the committee [pks] (as serialized). *)
Definition in_committee (pk : PublicKey) (pks : list PublicKey) : Prop :=
  exists k, k ∈ pks /\ SerializePubKey k = SerializePubKey pk.

#[export] Instance in_committee_dec pk pks : Decision (in_committee pk pks).
Proof.
  refine (cast_if (decide (Exists (fun k => SerializePubKey k = SerializePubKey pk) pks)));
    unfold in_committee; by rewrite Exists_exists in *.
Defined.

(** The member with the key [pk] has signed [del]: one of its covenant
    signatures names that key (as serialized). *)
Definition signed_by (pk : PublicKey) (del : Delegation) : Prop :=
  exists sig, sig ∈ del_CovenantSigs del /\ SerializePubKey (cas_Pk sig) = SerializePubKey pk.

#[export] Instance signed_by_dec pk del : Decision (signed_by pk del).
Proof.
  refine (cast_if (decide (Exists (fun sig => SerializePubKey (cas_Pk sig) = SerializePubKey pk)
                             (del_CovenantSigs del))));
    unfold signed_by; by rewrite Exists_exists in *.
Defined.

Lemma AlreadySigned_spec pk del : AlreadySigned (SerializePubKey pk) del = bool_decide (signed_by pk del).
Proof.
  apply eq_true_iff_eq. rewrite bool_decide_eq_true. unfold AlreadySigned, signed_by. rewrite existsb_exists.
  split; intros (sig & Hin & He); exists sig; rewrite list_elem_of_In, bool_decide_eq_true in *; done.
Qed.

Lemma keyInCommittee_spec pk pks :
  keyInCommittee (SerializePubKey pk) pks = true <-> in_committee pk pks.
Proof.
  unfold keyInCommittee, in_committee. rewrite existsb_exists.
  split; intros (k & Hk & He); exists k.
  - rewrite bool_decide_eq_true in He. by rewrite list_elem_of_In.
  - rewrite bool_decide_eq_true. by rewrite <- list_elem_of_In.
Qed.

Lemma keyInCommittee_decides pk pks :
  keyInCommittee (SerializePubKey pk) pks = bool_decide (in_committee pk pks).
Proof. apply eq_true_iff_eq. by rewrite bool_decide_eq_true, keyInCommittee_spec. Qed.

Lemma IsKeyInCommittee_true cache pk del s s' :
  IsKeyInCommittee cache (SerializePubKey pk) del s = (s', Ok true) <->
  exists p : StakingParams,
    Get cache (del_ParamsVersion del) s = (s', Ok p) /\ in_committee pk (CovenantPks p).
Proof.
  unfold IsKeyInCommittee, mbind, M_bind, wrapErrM, mret, M_ret.
  destruct (Get cache (del_ParamsVersion del) s) as [s1 [p|e|m|]]; simpl; [|naive_solver..].
  split.
  - intros H. simplify_eq. exists p. split; [done|]. by apply keyInCommittee_spec.
  - intros (q & ? & Hq). simplify_eq. by apply keyInCommittee_spec in Hq as ->.
Qed.

Lemma ValidateStakeExpansion_true cache pk del se prevDel s s' :
  del_StakeExpansion del = Some se ->
  ValidateStakeExpansion cache (SerializePubKey pk) del prevDel s = (s', Ok true) <->
  exists prev tx (p : StakingParams),
    prevDel = Some prev /\ NewBTCTxFromHex (del_StakingTxHex prev) = Ok tx /\
    HashString (TxHash tx) = PreviousStakingTxHashHex se /\
    Get cache (del_ParamsVersion prev) s = (s', Ok p) /\ in_committee pk (CovenantPks p).
Proof.
  intros Hse. unfold ValidateStakeExpansion, derefStakeExpansion. rewrite Hse.
  destruct prevDel as [prev|];
    [|split; [intros; simplify_eq/=|intros (? & ? & ? & ? & _); simplify_eq]].
  unfold lift, mbind, M_bind, mret, M_ret.
  destruct (NewBTCTxFromHex (del_StakingTxHex prev)) as [tx|e|m|] eqn:Htx; simpl;
    [|split; [intros; simplify_eq|intros (? & ? & ? & ? & ? & _); simplify_eq; congruence]..].
  case_bool_decide as Hh.
  - unfold fail. split; [intros; simplify_eq|]. intros (? & ? & ? & ? & ? & ? & _). congruence.
  - rewrite wrapErrM_Ok, IsKeyInCommittee_true.
    naive_solver.
Qed.

(** C5: a delegation is accepted exactly when none of its covenant signatures
    names this member's key, the key is in the committee of the parameters the
    delegation was created under, and, for a stake expansion, the previous
    delegation is known, is the one named by the expansion (its staking
    transaction hashes to the named hash) and was itself created under
    parameters whose committee contains the key. *)
Theorem AcceptDelegationToSign_true pk cache del prevDel s s' :
  AcceptDelegationToSign pk cache del prevDel s = (s', Ok true) <->
  ~ signed_by pk del /\
  exists s1 (p : StakingParams),
    Get cache (del_ParamsVersion del) s = (s1, Ok p) /\ in_committee pk (CovenantPks p) /\
    match del_StakeExpansion del with
    | None => s' = s1
    | Some se => exists prev tx (q : StakingParams),
        prevDel = Some prev /\ NewBTCTxFromHex (del_StakingTxHex prev) = Ok tx /\
        HashString (TxHash tx) = PreviousStakingTxHashHex se /\
        Get cache (del_ParamsVersion prev) s1 = (s', Ok q) /\ in_committee pk (CovenantPks q)
    end.
Proof.
  unfold AcceptDelegationToSign. rewrite AlreadySigned_spec. case_bool_decide as Hsig; [naive_solver|].
  set (k := IsKeyInCommittee _ _ _). assert (forall s1, k s = (s1, Ok true) <-> exists p : StakingParams,
    Get cache (del_ParamsVersion del) s = (s1, Ok p) /\ in_committee pk (CovenantPks p)) as Hk
    by (intros; apply IsKeyInCommittee_true).
  unfold mbind, M_bind. unfold wrapErrM at 1.
  destruct (k s) as [s1 [[]|e|m|]] eqn:Hs; simpl; cycle 1.
  1-4: split; [naive_solver|]; intros (_ & s2 & p & H1 & H2 & _);
    destruct (Hk s2) as [_ H3]; specialize (H3 (ex_intro _ p (conj H1 H2))); simplify_eq.
  destruct (Hk s1) as [H3 _]. destruct (H3 eq_refl) as (p & Hp & Hc).
  unfold IsStakeExpansion. destruct (del_StakeExpansion del) as [se|] eqn:Hse.
  - rewrite bool_decide_true by eauto. rewrite (ValidateStakeExpansion_true _ _ _ se) by done.
    split; [naive_solver|]. intros (_ & s2 & p2 & Hp2 & _ & Hr).
    rewrite Hp in Hp2. simplify_eq. done.
  - rewrite bool_decide_false by (by intros [? ?]). unfold mret, M_ret.
    split; [intros; simplify_eq; eauto 10|]. intros (_ & s2 & p2 & Hp2 & _ & Hr).
    rewrite Hp in Hp2. simplify_eq. done.
Qed.

End Acceptance.

(** ** What is signed *)

Section Validity.
Context `{BL : BtcLib}.

(** The covenant's rules for a delegation [del] with undelegation [ud] under
    [params], and the request the signer must be given for it. *)
Record ValidFor (params : StakingParams) (net : NetParams) (del : Delegation) (ud : Undelegation)
    (req : SigningRequest) : Prop := {
  (* the quorum of covenant signatures is not reached yet *)
  vf_quorum : Z.of_nat (length (del_CovenantSigs del)) < CovenantQuorum params \/
              Z.of_nat (length (ud_CovenantUnbondingSigs ud)) < CovenantQuorum params;
  (* the timelocks and the amount are those the protocol allows *)
  vf_unbonding_time : del_UnbondingTime del = UnbondingTimeBlocks params;
  vf_staking_time_fits : del_StakingTime del <= MaxUint16;
  vf_staking_time : MinStakingTime params <= u16 (del_StakingTime del) <= MaxStakingTime params;
  vf_value : MinStakingValue params <= del_TotalSat del <= MaxStakingValue params;
  (* the request holds the transactions of the delegation *)
  vf_staking_tx : NewBTCTxFromHex (del_StakingTxHex del) = Ok (sr_StakingTx req);
  vf_slashing_tx : (stx ← NewBTCSlashingTxFromHex (del_SlashingTxHex del); ToMsgTx stx)
                   = Ok (sr_SlashingTx req);
  vf_unbonding_tx : NewBTCTxFromHex (ud_UnbondingTxHex ud) = Ok (sr_UnbondingTx req);
  vf_slash_unbonding_tx : NewBTCTxFromHex (ud_SlashingTxHex ud) = Ok (sr_SlashUnbondingTx req);
  vf_staking_idx : sr_StakingOutputIdx req = del_StakingOutputIdx del;
  (* both slashing transactions slash what the protocol demands *)
  vf_slashing_ok :
    CheckSlashingTxMatchFundingTx (sr_SlashingTx req) (sr_StakingTx req) (del_StakingOutputIdx del)
      (MinSlashingTxFeeSat params) (SlashingRate params) (SlashingPkScript params)
      (del_BtcPk del) (del_UnbondingTime del) net = Ok tt;
  vf_unbonding_slashing_ok :
    CheckSlashingTxMatchFundingTx (sr_SlashUnbondingTx req) (sr_UnbondingTx req) 0
      (MinSlashingTxFeeSat params) (SlashingRate params) (SlashingPkScript params)
      (del_BtcPk del) (del_UnbondingTime del) net = Ok tt;
  (* unbonding pays exactly the protocol's fee *)
  vf_fee : exists so uo,
    index (tx_TxOut (sr_StakingTx req)) (del_StakingOutputIdx del) = Ok so /\
    index (tx_TxOut (sr_UnbondingTx req)) 0 = Ok uo /\
    i64 (Value so - Value uo) = UnbondingFee params;
  (* one encryption key per finality provider *)
  vf_keys : Forall2 (fun pk k => NewEncryptionKeyFromBTCPK pk = Ok k)
              (del_FpBtcPks del) (sr_FpEncKeys req);
  (* the slashing and the unbonding path of the staking output: of the script
     tree of the delegation's keys, its full staking time and its amount *)
  vf_staking_paths : exists info slash unbond,
    BuildStakingInfo (del_BtcPk del) (del_FpBtcPks del) (CovenantPks params) (CovenantQuorum params)
      (u16 (del_StakingTime del)) (del_TotalSat del) net = Ok info /\
    StakingSlashingPathSpendInfo info = Ok slash /\ StakingUnbondingPathSpendInfo info = Ok unbond /\
    sr_SlashingPkScriptPath req = GetPkScriptPath slash /\
    sr_StakingTxUnbondingPkScriptPath req = GetPkScriptPath unbond;
  (* the slashing path of the unbonding output: of the same keys, the unbonding
     time and the value of the output *)
  vf_unbonding_path : exists uo info slash,
    index (tx_TxOut (sr_UnbondingTx req)) 0 = Ok uo /\
    BuildUnbondingInfo (del_BtcPk del) (del_FpBtcPks del) (CovenantPks params) (CovenantQuorum params)
      (del_UnbondingTime del) (Value uo) net = Ok info /\
    UnbondingSlashingPathSpendInfo info = Ok slash /\
    sr_UnbondingTxSlashingPkScriptPath req = GetPkScriptPath slash;
  vf_not_expansion : sr_StakeExp req = None
}.

Lemma HasCovenantQuorum_false d ud q :
  del_BtcUndelegation d = Some ud ->
  HasCovenantQuorum d q = Ok false <->
  Z.of_nat (length (del_CovenantSigs d)) < q \/ Z.of_nat (length (ud_CovenantUnbondingSigs ud)) < q.
Proof.
  intros Hud. unfold HasCovenantQuorum. rewrite Hud, HasAllSignatures_spec.
  unfold HasCovenantQuorumOnUnbonding.
  case_bool_decide; [|split; [lia|done]].
  case_bool_decide; split; intros; simplify_eq; auto with lia.
Qed.

Lemma checkAgainstParams_Go params del ud :
  del_BtcUndelegation del = Some ud ->
  checkAgainstParams params del = Ok (Go tt) <->
  (Z.of_nat (length (del_CovenantSigs del)) < CovenantQuorum params \/
   Z.of_nat (length (ud_CovenantUnbondingSigs ud)) < CovenantQuorum params) /\
  del_UnbondingTime del = UnbondingTimeBlocks params /\
  del_StakingTime del <= MaxUint16 /\
  MinStakingTime params <= u16 (del_StakingTime del) <= MaxStakingTime params /\
  MinStakingValue params <= del_TotalSat del <= MaxStakingValue params.
Proof.
  intros Hud. rewrite <- (HasCovenantQuorum_false del ud) by done. unfold checkAgainstParams.
  destruct (HasCovenantQuorum del _) as [[]|e|m|]; simpl; try (split; [done|naive_solver]).
  case_bool_decide; [split; [done|naive_solver]|].
  unfold GetStakingTime. destruct (bool_decide_reflect (MaxUint16 < del_StakingTime del)); simpl.
  - split; [intros; simplify_eq|]. intros (_ & _ & ? & _). lia.
  - repeat case_bool_decide; simpl; split; intros; destruct_and?; simplify_eq; split_and?; done || lia.
Qed.

Lemma orSkip_Go {A B} (m : res A) msg (k : A -> res (step B)) b :
  orSkip m msg k = Ok (Go b) <-> exists a, m = Ok a /\ k a = Ok (Go b).
Proof. destruct m; simpl; naive_solver. Qed.

Lemma decodeDelegationTransactions_Ok del params net a b :
  decodeDelegationTransactions del params net = Ok (a, b) <->
  NewBTCTxFromHex (del_StakingTxHex del) = Ok a /\
  (stx ← NewBTCSlashingTxFromHex (del_SlashingTxHex del); ToMsgTx stx) = Ok b /\
  CheckSlashingTxMatchFundingTx b a (del_StakingOutputIdx del)
    (MinSlashingTxFeeSat params) (SlashingRate params) (SlashingPkScript params)
    (del_BtcPk del) (del_UnbondingTime del) net = Ok tt.
Proof.
  unfold decodeDelegationTransactions.
  setoid_rewrite res_bind_Ok. setoid_rewrite replErr_Ok.
  setoid_rewrite res_bind_Ok. setoid_rewrite replErr_Ok.
  setoid_rewrite res_bind_Ok. setoid_rewrite res_bind_Ok. setoid_rewrite wrapErr_Ok.
  split.
  - intros (a' & ? & stx & ? & b' & ? & [] & ? & ?). simplify_eq. eauto.
  - intros (? & (stx & ? & ?) & ?). eauto 10.
Qed.

Lemma decodeUndelegationTransactions_Ok del ud params net a b :
  decodeUndelegationTransactions del ud params net = Ok (a, b) <->
  NewBTCTxFromHex (ud_UnbondingTxHex ud) = Ok a /\ NewBTCTxFromHex (ud_SlashingTxHex ud) = Ok b /\
  CheckSlashingTxMatchFundingTx b a 0
    (MinSlashingTxFeeSat params) (SlashingRate params) (SlashingPkScript params)
    (del_BtcPk del) (del_UnbondingTime del) net = Ok tt.
Proof.
  unfold decodeUndelegationTransactions.
  setoid_rewrite res_bind_Ok. setoid_rewrite wrapErr_Ok.
  setoid_rewrite res_bind_Ok. setoid_rewrite wrapErr_Ok.
  setoid_rewrite res_bind_Ok. setoid_rewrite wrapErr_Ok.
  split.
  - intros (a' & ? & b' & ? & [] & ? & ?). simplify_eq. eauto.
  - intros (? & ? & ?). eauto 10.
Qed.

Lemma fpEncKeysFromDel_Ok del ks :
  fpEncKeysFromDel del = Ok ks <->
  Forall2 (fun pk k => NewEncryptionKeyFromBTCPK pk = Ok k) (del_FpBtcPks del) ks.
Proof.
  unfold fpEncKeysFromDel. rewrite mapM_res_Ok.
  split; intros H; (eapply Forall2_impl; [exact H|]); intros x y; simpl; by rewrite wrapErr_Ok.
Qed.

Lemma pkScriptPaths_Ok del params net utx p1 p2 p3 : del_StakingTime del <= MaxUint16 ->
  pkScriptPaths del params net utx = Ok (p1, p2, p3) <->
  (exists info slash unbond,
    BuildStakingInfo (del_BtcPk del) (del_FpBtcPks del) (CovenantPks params) (CovenantQuorum params)
      (u16 (del_StakingTime del)) (del_TotalSat del) net = Ok info /\
    StakingSlashingPathSpendInfo info = Ok slash /\ StakingUnbondingPathSpendInfo info = Ok unbond /\
    p1 = GetPkScriptPath slash /\ p2 = GetPkScriptPath unbond) /\
  (exists uo info slash,
    index (tx_TxOut utx) 0 = Ok uo /\
    BuildUnbondingInfo (del_BtcPk del) (del_FpBtcPks del) (CovenantPks params) (CovenantQuorum params)
      (del_UnbondingTime del) (Value uo) net = Ok info /\
    UnbondingSlashingPathSpendInfo info = Ok slash /\ p3 = GetPkScriptPath slash).
Proof.
  intros Ht. unfold pkScriptPaths, pkScriptPathSlashAndUnbond, pkScriptPathUnbondingSlash, GetStakingTime.
  rewrite bool_decide_false by lia.
  split.
  - intros ([q1 q2] & H1 & H2)%res_bind_Ok. apply res_bind_Ok in H1 as (t & [= <-] & H1).
    apply res_bind_Ok in H1 as (info & Hi%wrapErr_Ok & H1). apply res_bind_Ok in H1 as (slash & Hs%wrapErr_Ok & H1).
    apply res_bind_Ok in H1 as (unbond & Hb%replErr_Ok & [= <- <-]).
    apply res_bind_Ok in H2 as (q3 & H3 & [= <- <- <-]). apply res_bind_Ok in H3 as (uo & Huo & H3).
    apply res_bind_Ok in H3 as (uinfo & Hui & H3). apply res_bind_Ok in H3 as (us & Hus & [= <-]).
    split; [by exists info, slash, unbond|by exists uo, uinfo, us].
  - intros ((info & slash & unbond & Hi & Hs & Hb & -> & ->) & (uo & uinfo & us & Huo & Hui & Hus & ->)).
    cbn. rewrite Hi. cbn. rewrite Hs. cbn. rewrite Hb. cbn. rewrite Huo. cbn. rewrite Hui. cbn. by rewrite Hus.
Qed.

Lemma buildSigningRequest_Go params net del ud req :
  buildSigningRequest params net del ud = Ok (Go req) <->
  exists stx sltx utx sutx so uo keys p1 p2 p3,
    decodeDelegationTransactions del params net = Ok (stx, sltx) /\
    decodeUndelegationTransactions del ud params net = Ok (utx, sutx) /\
    index (tx_TxOut stx) (del_StakingOutputIdx del) = Ok so /\
    index (tx_TxOut utx) 0 = Ok uo /\ i64 (Value so - Value uo) = UnbondingFee params /\
    fpEncKeysFromDel del = Ok keys /\
    pkScriptPaths del params net utx = Ok (p1, p2, p3) /\
    req = {| sr_StakingTx := stx; sr_SlashingTx := sltx; sr_UnbondingTx := utx;
             sr_SlashUnbondingTx := sutx; sr_StakeExp := None;
             sr_StakingOutputIdx := del_StakingOutputIdx del;
             sr_SlashingPkScriptPath := p1; sr_StakingTxUnbondingPkScriptPath := p2;
             sr_UnbondingTxSlashingPkScriptPath := p3; sr_FpEncKeys := keys |}.
Proof.
  unfold buildSigningRequest. split.
  - intros ([stx sltx] & Hd & H)%orSkip_Go. apply orSkip_Go in H as ([utx sutx] & Hu & H).
    apply res_bind_Ok in H as (so & Hso & H). apply res_bind_Ok in H as (uo & Huo & H).
    case_bool_decide as Hfee; [simplify_eq|].
    apply orSkip_Go in H as (keys & Hk & H). apply orSkip_Go in H as ([[p1 p2] p3] & Hp & H).
    simplify_eq. exists stx, sltx, utx, sutx, so, uo, keys, p1, p2, p3. split_and!; done.
  - intros (stx & sltx & utx & sutx & so & uo & keys & p1 & p2 & p3 & Hd & Hu & Hso & Huo & Hf & Hk & Hp & ->).
    rewrite Hd. simpl. rewrite Hu. simpl. rewrite Hso. simpl. rewrite Huo. simpl.
    rewrite bool_decide_false by (by intros []). rewrite Hk. simpl. by rewrite Hp.
Qed.

Lemma checks_ValidFor params net del ud req :
  del_BtcUndelegation del = Some ud /\
  checkAgainstParams params del = Ok (Go tt) /\
  buildSigningRequest params net del ud = Ok (Go req) <->
  del_BtcUndelegation del = Some ud /\ ValidFor params net del ud req.
Proof.
  split; intros [Hud H]; (split; [done|]).
  - destruct H as [Hc Hb]. apply (checkAgainstParams_Go _ _ ud) in Hc as (? & ? & ? & ? & ?); [|done].
    apply buildSigningRequest_Go in Hb
      as (stx & sltx & utx & sutx & so & uo & keys & p1 & p2 & p3 & Hd & Hu & Hso & Huo & Hf & Hk & Hp & ->).
    apply decodeDelegationTransactions_Ok in Hd as (? & ? & ?).
    apply decodeUndelegationTransactions_Ok in Hu as (? & ? & ?).
    apply fpEncKeysFromDel_Ok in Hk. apply pkScriptPaths_Ok in Hp as [Hp1 Hp2]; [|done].
    constructor; simpl; try done. by exists so, uo.
  - destruct H. split.
    + by apply (checkAgainstParams_Go _ _ ud).
    + destruct vf_fee0 as (so & uo & ? & ? & ?). apply buildSigningRequest_Go.
      destruct req as [stx sltx utx sutx e idx p1 p2 p3 keys]; simpl in *.
      exists stx, sltx, utx, sutx, so, uo, keys, p1, p2, p3. subst.
      split_and!; try done.
      * by apply decodeDelegationTransactions_Ok.
      * by apply decodeUndelegationTransactions_Ok.
      * by apply fpEncKeysFromDel_Ok.
      * by apply pkScriptPaths_Ok.
Qed.

(** C4: the checks of the handler are the covenant's rules: a delegation passes
    them and yields the request [req] exactly when its undelegation is present
    and [ValidFor] holds: quorum not reached, unbonding time, staking time and
    amount as the parameters demand, both slashing transactions verified
    against the transactions they spend, the unbonding fee exact, one
    encryption key per finality provider, and [req] made of these. *)
Theorem checks_are_the_rules params net del ud req :
  del_BtcUndelegation del = Some ud /\
  checkAgainstParams params del = Ok (Go tt) /\
  buildSigningRequest params net del ud = Ok (Go req) <->
  del_BtcUndelegation del = Some ud /\ ValidFor params net del ud req.
Proof. apply checks_ValidFor. Qed.

End Validity.

(** ** The handler *)

Section Handler.
Context `{BL : BtcLib} {W : Type} `{!Clock W}.
Variable ce : Emulator W.

(** What the chain is known to answer: [P v p] for the parameters of version
    [v], [D h d] for the delegation of the staking transaction hash [h]; and
    what the signer is known to answer, [R req resp]. *)
Variable P : Z -> StakingParams -> Prop.
Variable D : string -> Delegation -> Prop.
Variable R : SigningRequest -> SignaturesResponse -> Prop.

(** The stake expansion part of a request for [del]: the funding output comes
    from a staking transaction whose first input spends the transaction named
    by the delegation, and the rest from that previous delegation. *)
Definition StkExpFor (del : Delegation) (e : SigningRequestStkExp) : Prop :=
  exists se prevDel p spath,
    del_StakeExpansion del = Some se /\
    stakeExpValidateBasic del = Ok (se_OtherFundingOutput e) /\
    D (PreviousStakingTxHashHex se) prevDel /\ P (del_ParamsVersion prevDel) p /\
    NewBTCTxFromHex (del_StakingTxHex prevDel) = Ok (se_PreviousActiveStakeTx e) /\
    se_PreviousStakingOutputIdx e = del_StakingOutputIdx prevDel /\
    pkScriptPathSlashAndUnbond prevDel p (BTCNetParams ce)
      = Ok (spath, se_PreviousActiveStakeUnbondingPkScriptPath e).

(** [req] is a request the covenant may have signed for [del]. *)
Definition RequestFor (del : Delegation) (req : SigningRequest) : Prop :=
  exists ud params base,
    del_BtcUndelegation del = Some ud /\ P (del_ParamsVersion del) params /\
    ValidFor params (BTCNetParams ce) del ud base /\
    match del_StakeExpansion del with
    | None => req = base
    | Some _ => exists e, StkExpFor del e /\ req = withStakeExp base e
    end.

(** The signatures the emulator makes of the signer's answer to [req]. *)
Definition sigsOf (req : SigningRequest) (resp : SignaturesResponse) : CovenantSigs := {|
  cs_PublicKey := ce_pk ce;
  cs_StakingTxHash := TxHash (sr_StakingTx req);
  cs_SlashingSigs := sp_SlashSigs resp;
  cs_UnbondingSig := sp_UnbondingSig resp;
  cs_SlashingUnbondingSigs := sp_SlashUnbondingSigs resp;
  cs_StkExpSig := sp_StkExtSig resp |}.

(** The signatures [sigs] are the signer's answer to a request for [del]. *)
Definition SigsFor (del : Delegation) (sigs : CovenantSigs) : Prop :=
  exists req resp, RequestFor del req /\ R req resp /\ sigs = sigsOf req resp.

(** An invariant [J] of the process that every component keeps, the signer on
    the requests in [Pre] only and the submission on the batches in [Sub] only. *)
Record Environment (J : Sys W -> Prop) (Pre : SigningRequest -> Prop)
    (Sub : list CovenantSigs -> Prop) : Prop := {
  env_local : Local J;
  env_now : keeps J timeNow (fun _ => True);
  env_params : forall v, keeps J (Get (ce_paramCache ce) v) (P v);
  env_delegation : forall h, keeps J (QueryBTCDelegation (ce_cc ce) h) (D h);
  env_submit : forall sigs, Sub sigs ->
    keeps J (SubmitCovenantSigs (ce_cc ce) sigs) (fun _ => True);
  env_sign : forall req, Pre req ->
    keeps J (ext (SignTransactions (ce_signer ce) req)) (R req)
}.

Section Keeps.
Variables (J : Sys W -> Prop) (Pre : SigningRequest -> Prop) (Sub : list CovenantSigs -> Prop).
Hypothesis (E : Environment J Pre Sub).

#[local] Instance env_local_inst : Local J := env_local _ _ _ E.
#[local] Hint Resolve env_now env_params env_delegation : keeps.

Lemma keeps_skip {A} msg (Q : option A -> Prop) : Q None -> keeps J (skip msg) Q.
Proof.
  intros HQ. eapply keeps_bind; [apply keeps_logError; apply _|]. intros _ _. by apply keeps_ret.
Qed.

Lemma keeps_logged {A} (m : M (Sys W) A) msg (Q : A -> Prop) : keeps J m Q -> keeps J (logged m msg) Q.
Proof.
  intros Hm. unfold logged.
  eapply (keeps_bind _ _ _ (fun r => match r with inl a => Q a | inr _ => True end)).
  - by eapply keeps_attempt.
  - intros [a|e] Ha; [by apply keeps_ret|].
    eapply keeps_bind; [apply keeps_logError; apply _|]. intros _ _. apply keeps_fail.
Qed.

Lemma keeps_sign req : Pre req -> keeps J (ceSignTransactions ce req) (R req).
Proof.
  intros Hreq. unfold ceSignTransactions.
  eapply keeps_bind; [eauto with keeps|]. intros t1 _.
  eapply keeps_bind; [apply keeps_onTimer; apply _|]. intros _ _.
  eapply keeps_bind; [apply (env_sign _ _ _ E _ Hreq)|]. intros resp Hresp.
  repeat first
    [ apply keeps_ret; done
    | eapply keeps_bind; [solve [eauto with keeps
                                | apply keeps_onTimer; apply _ | apply keeps_onCollectors; apply _]|];
      intros ? _ ].
Qed.

Lemma keeps_buildStkExp del :
  keeps J (buildStkExpSigningRequest ce del) (StkExpFor del).
Proof.
  unfold buildStkExpSigningRequest. destruct (del_StakeExpansion del) as [se|] eqn:Hse; [|apply keeps_fail].
  eapply keeps_bind; [apply keeps_logged, (keeps_lift _ _ (fun o => stakeExpValidateBasic del = Ok o)); done|].
  intros out Hout.
  eapply keeps_bind; [apply keeps_logged, (env_delegation _ _ _ E)|]. intros prevDel HD.
  eapply keeps_bind; [apply keeps_logged,
    (keeps_lift _ _ (fun t => NewBTCTxFromHex (del_StakingTxHex prevDel) = Ok t)); done|].
  intros tx Htx.
  eapply keeps_bind; [apply keeps_wrapErrM, (env_params _ _ _ E)|]. intros p Hp.
  eapply keeps_bind; [apply (keeps_lift _ _ (fun t => pkScriptPathSlashAndUnbond prevDel p (BTCNetParams ce) = Ok t)); done|].
  intros [a b] Hab. apply keeps_ret. exists se, prevDel, p, a. by rewrite <- Hse.
Qed.

Lemma keeps_signRequest del ud params base :
  (forall req, RequestFor del req -> Pre req) ->
  del_BtcUndelegation del = Some ud -> P (del_ParamsVersion del) params ->
  ValidFor params (BTCNetParams ce) del ud base ->
  keeps J (signRequest ce del base) (fun r => forall sigs, r = Some sigs -> SigsFor del sigs).
Proof.
  intros HPre Hud HP Hbase. unfold signRequest.
  eapply (keeps_bind _ _ _ (fun r => forall req, r = inl req -> RequestFor del req)).
  - unfold IsStakeExpansion. case_bool_decide as Hx.
    + eapply (keeps_bind _ _ _ (fun r => forall e, r = inl e -> StkExpFor del e)).
      * eapply keeps_attempt; [apply keeps_buildStkExp|naive_solver|naive_solver].
      * intros [e|err] He; apply keeps_ret; intros req Hreq; simplify_eq.
        destruct Hx as [se Hse]. exists ud, params, base. rewrite Hse. naive_solver.
    + apply keeps_ret. intros req ?. simplify_eq. exists ud, params, req.
      destruct (del_StakeExpansion del) eqn:Hse; [destruct Hx; eauto|done].
  - intros [req|msg] Hreq; [|by apply keeps_skip].
    specialize (Hreq req eq_refl).
    eapply (keeps_bind _ _ _ (fun r => forall resp, r = inl resp -> R req resp));
      [eapply keeps_attempt; [by apply keeps_sign, HPre|naive_solver..]|].
    intros [resp|err] Hr; [|by apply keeps_skip].
    apply keeps_ret. intros sigs ?. simplify_eq. exists req, resp. auto.
Qed.

Lemma keeps_signDelegation btcDel :
  (forall del req, btcDel = Some del -> RequestFor del req -> Pre req) ->
  keeps J (signDelegation ce btcDel)
    (fun r => forall sigs, r = Some sigs -> exists del, btcDel = Some del /\ SigsFor del sigs).
Proof.
  intros HPre. unfold signDelegation. destruct btcDel as [del|]; [|by apply keeps_lift].
  destruct (del_BtcUndelegation del) as [ud|] eqn:Hud; [|by apply keeps_skip].
  eapply keeps_bind; [apply keeps_wrapErrM, (env_params _ _ _ E)|]. intros params HP.
  eapply keeps_bind; [apply (keeps_lift _ _ (fun t => checkAgainstParams params del = Ok t)); done|].
  intros [[]|msg] Hc; [|by apply keeps_skip].
  eapply keeps_bind;
    [apply (keeps_lift _ _ (fun t => buildSigningRequest params (BTCNetParams ce) del ud = Ok t)); done|].
  intros [req|msg] Hb; [|by apply keeps_skip].
  destruct (checks_ValidFor params (BTCNetParams ce) del ud req) as [Hv _].
  destruct (Hv (conj Hud (conj Hc Hb))) as [_ Hvf].
  eapply keeps_mono; [apply (keeps_signRequest del ud params req); eauto|]. simpl. naive_solver.
Qed.

Lemma keeps_signLoop btcDels : forall acc,
  (forall del req, Some del ∈ btcDels -> RequestFor del req -> Pre req) ->
  keeps J (signLoop ce btcDels acc) (fun sigs => exists new ds,
    sigs = acc ++ new /\ ds `sublist_of` btcDels /\ Forall2 (fun d => SigsFor d) (omap id ds) new).
Proof.
  induction btcDels as [|btcDel btcDels IH]; intros acc HPre; cbn [signLoop].
  { apply keeps_ret. exists [], []. rewrite app_nil_r. split_and!; [done|constructor..]. }
  eapply keeps_bind; [apply keeps_signDelegation; intros del req -> ?; apply (HPre del); [left|done]|].
  intros [sigs|] Hs.
  - destruct (Hs sigs eq_refl) as (del & -> & Hdel).
    eapply keeps_mono; [apply IH; intros d req ? ?; apply (HPre d); [by right|done]|]. simpl.
    intros r (new & ds & -> & Hds & Hf). exists (sigs :: new), (Some del :: ds).
    rewrite <- app_assoc. split_and!; [done|by constructor|by constructor].
  - eapply keeps_mono; [apply IH; intros d req ? ?; apply (HPre d); [by right|done]|]. simpl.
    intros r (new & ds & -> & Hds & Hf). exists new, ds. split_and!; [done|by constructor|done].
Qed.

End Keeps.

(** What may be submitted for a batch: signatures for some of its delegations,
    in their order, each answering a request that obeys the rules. *)
Definition BatchSigs (btcDels : list (option Delegation)) (sigs : list CovenantSigs) : Prop :=
  exists ds, ds `sublist_of` btcDels /\ Forall2 (fun d => SigsFor d) (omap id ds) sigs.

Lemma keeps_AddCovenantSignatures J btcDels :
  Environment J (fun req => exists del, Some del ∈ btcDels /\ RequestFor del req) (BatchSigs btcDels) ->
  keeps J (AddCovenantSignatures ce btcDels) (fun _ => True).
Proof.
  intros E. unfold AddCovenantSignatures. case_bool_decide; [apply keeps_fail|].
  pose proof (env_local _ _ _ E). eapply keeps_bind; [apply (keeps_signLoop _ _ _ E); eauto|].
  intros sigs (new & ds & -> & Hds & Hf). simpl.
  eapply (keeps_bind _ _ _ (fun _ => True)).
  { eapply keeps_attempt; [apply (env_submit _ _ _ E); by exists ds|done..]. }
  intros [r|err] _.
  - eapply keeps_bind; [apply (env_now _ _ _ E)|]. intros t _.
    eapply keeps_bind; [apply keeps_onTimer; apply _|]. intros _ _.
    eapply keeps_bind; [apply keeps_onCollectors; apply _|]. intros _ _. by apply keeps_ret.
  - eapply keeps_bind; [apply keeps_onCollectors; apply _|]. intros _ _. apply keeps_fail.
Qed.

(** C3: the emulator never asks the signer for anything else than requests that
    obey the covenant's rules for a delegation of the batch, and never submits
    anything else than the signatures obtained for such requests.  Stated for
    any invariant [J] of the process: if the signer keeps [J] on these requests
    and the submission on these batches (and the rest of the environment keeps
    it), then AddCovenantSignatures keeps it, however it ends. *)
Theorem AddCovenantSignatures_safe J btcDels s :
  Environment J (fun req => exists del, Some del ∈ btcDels /\ RequestFor del req) (BatchSigs btcDels) ->
  J s -> J (AddCovenantSignatures ce btcDels s).1.
Proof. intros E Hs. by apply keeps_AddCovenantSignatures. Qed.

End Handler.

(** ** Error paths *)

Section Errors.
Context `{BL : BtcLib} {W : Type} `{!Clock W}.
Variable ce : Emulator W.

(** A batch split at one delegation: the loop runs the first part, then the
    delegation, then the rest. *)
Lemma signLoop_app l1 l2 acc s :
  signLoop ce (l1 ++ l2) acc s = (signLoop ce l1 acc ≫= signLoop ce l2) s.
Proof.
  revert acc s. induction l1 as [|d l1 IH]; intros acc s; [done|]. cbn [app signLoop].
  rewrite bind_assoc_run. unfold mbind, M_bind.
  destruct (signDelegation ce d s) as [s1 [[sigs|]|e|m|]]; try done; apply IH.
Qed.

(** A nil delegation in a batch is not skipped: the log statement of the nil
    check dereferences it and the handler panics, also when other delegations
    of the batch have been signed already. *)
Theorem nil_delegation_panics l1 l2 sigs s s1 :
  signLoop ce l1 [] s = (s1, Ok sigs) ->
  AddCovenantSignatures ce (l1 ++ None :: l2) s =
    (s1, Panic "invalid memory address or nil pointer dereference").
Proof.
  intros H. unfold AddCovenantSignatures. rewrite bool_decide_false by (by destruct l1).
  apply bind_run_Panic. rewrite signLoop_app. by erewrite bind_run_Ok by done.
Qed.

(** A failing parameter query is the one check that is not local to its
    delegation: it ends the handler with that error and nothing is submitted,
    not even the signatures obtained before it ([s1] is where the query left
    the process). *)
Theorem params_failure_drops_batch l1 l2 del ud sigs s s0 s1 e :
  signLoop ce l1 [] s = (s0, Ok sigs) ->
  del_BtcUndelegation del = Some ud ->
  Get (ce_paramCache ce) (del_ParamsVersion del) s0 = (s1, Err e) ->
  AddCovenantSignatures ce (l1 ++ Some del :: l2) s =
    (s1, Err (("failed to get staking params with version " +:+ pretty (del_ParamsVersion del))
              +:+ ": " +:+ e)).
Proof.
  intros H Hud Hget. unfold AddCovenantSignatures. rewrite bool_decide_false by (by destruct l1).
  apply bind_run_Err. rewrite signLoop_app. erewrite bind_run_Ok by done.
  cbn [signLoop]. apply bind_run_Err. unfold signDelegation. rewrite Hud.
  apply bind_run_Err. unfold wrapErrM. rewrite Hget. done.
Qed.

(** C34: a delegation whose staking time does not fit in 16 bits, and which
    passes the checks that come before that of the staking time (it has an
    undelegation, its parameters are found, the quorum is not reached, its
    unbonding time is the one of the parameters), makes the handler panic
    instead of being skipped as other invalid delegations are, at whatever
    place of the batch it is, if the loop gets through the ones before it. *)
Theorem long_staking_time_panics before sigs del ud rest s s0 s1 (p : StakingParams) :
  signLoop ce before [] s = (s0, Ok sigs) ->
  del_BtcUndelegation del = Some ud ->
  Get (ce_paramCache ce) (del_ParamsVersion del) s0 = (s1, Ok p) ->
  Z.of_nat (length (del_CovenantSigs del)) < CovenantQuorum p \/
    Z.of_nat (length (ud_CovenantUnbondingSigs ud)) < CovenantQuorum p ->
  del_UnbondingTime del = UnbondingTimeBlocks p ->
  MaxUint16 < del_StakingTime del ->
  AddCovenantSignatures ce (before ++ Some del :: rest) s = (s1, Panic "invalid delegation in database").
Proof.
  intros Hbefore Hud Hget Hq%(HasCovenantQuorum_false _ _ _ Hud) Hu Hst.
  unfold AddCovenantSignatures. rewrite bool_decide_false by (by destruct before).
  apply bind_run_Panic. rewrite signLoop_app. erewrite bind_run_Ok by done.
  cbn [signLoop]. apply bind_run_Panic. unfold signDelegation. rewrite Hud.
  erewrite bind_run_Ok by (apply wrapErrM_Ok; exact Hget).
  apply bind_run_Panic. unfold lift. f_equal. unfold checkAgainstParams. rewrite Hq. simpl.
  rewrite bool_decide_false by (by intros []). unfold GetStakingTime.
  rewrite (bool_decide_true (MaxUint16 < _)) by done. reflexivity.
Qed.

Definition no_err {A} (r : res A) : Prop := forall e, r <> Err e.

Lemma attempt_no_err {S A} (m : M S A) s : no_err (attempt m s).2.
Proof. unfold attempt. destruct (m s) as [? []]; by intros ?. Qed.

Lemma bind_no_err {S A B} (m : M S A) (k : A -> M S B) s :
  no_err (m s).2 -> (forall a s1, no_err (k a s1).2) -> no_err ((m ≫= k) s).2.
Proof.
  intros Hm Hk e. unfold mbind, M_bind. destruct (m s) as [s1 [a|e1|p|]]; simpl in *; [apply Hk|..]; try done.
  by destruct (Hm e1).
Qed.

Lemma submitBatches_no_err batches s : no_err (submitBatches ce batches s).2.
Proof.
  revert s. induction batches as [|b batches IH]; intros s; [done|]. cbn [submitBatches].
  apply bind_no_err; [apply attempt_no_err|]. intros r s1. apply bind_no_err; [by destruct r|]. auto.
Qed.

(** No error leaves a turn of covenantSigSubmissionLoop: a failing query, a
    failing batch or an empty answer of the node only produce a log line, so
    the loop waits for the next tick. *)
Theorem submissionRound_never_errs s e : (submissionRound ce s).2 <> Err e.
Proof.
  revert e. apply bind_no_err; [apply attempt_no_err|]. intros [dels|err] s1; [|done].
  apply bind_no_err; [done|]. intros _ s2. case_bool_decide as Hl; [done|].
  apply bind_no_err; [|intros; apply submitBatches_no_err].
  intros e. unfold lift. simpl. unfold delegationsToBatches.
  generalize (@nil (list Delegation)) as acc. generalize 0%Z as i. generalize (length dels) at 1 as fuel.
  intros fuel. induction fuel as [|fuel IH]; intros i acc; cbn [batchLoop]; case_bool_decide; try done.
  unfold slice_range. case_match; simpl; [apply IH|done].
Qed.

End Errors.
