(* ===== verification/ControllerProps.v ===== *)
(** * Theorems about the client controller (clientcontroller/babylon.go) *)
From S2P Require Import Prelude GoStd BtcLib Types Env ClientController.
Local Open Scope Z_scope.

(** ** Removing a message from the batch *)

Section Remove.
Context {A : Type}.

Lemma RemoveMsgAtIndex_out (s : slice A) i :
  i < 0 \/ Z.of_nat (sl_len s) <= i -> RemoveMsgAtIndex s i = s.
Proof.
  intros Hi. unfold RemoveMsgAtIndex.
  destruct Hi; [by rewrite (bool_decide_true (i < 0))|].
  rewrite (bool_decide_true (_ <= i)) by done. by rewrite orb_true_r.
Qed.

Lemma RemoveMsgAtIndex_in (s : slice A) i :
  slice_ok s -> 0 <= i < Z.of_nat (sl_len s) ->
  RemoveMsgAtIndex s i =
  Slice (delete (Z.to_nat i) (view s) ++ drop (sl_len s - 1) (sl_arr s)) (sl_len s - 1).
Proof.
  intros Hok Hi. unfold RemoveMsgAtIndex, slice_append, slice_to. rewrite !bool_decide_false by lia.
  pose proof (length_view s Hok) as Hlen. unfold slice_ok in Hok.
  assert (Z.to_nat i + length (drop (S (Z.to_nat i)) (view s)) = sl_len s - 1)%nat as Hn
    by (rewrite length_drop; lia).
  simpl. rewrite Hn. rewrite bool_decide_true by lia. f_equal.
  rewrite delete_take_drop, <- app_assoc. f_equal.
  unfold view. rewrite take_take. f_equal. lia.
Qed.

Lemma RemoveMsgAtIndex_ok (s : slice A) i : slice_ok s -> slice_ok (RemoveMsgAtIndex s i).
Proof.
  intros Hok. destruct (decide (0 <= i < Z.of_nat (sl_len s))) as [Hi|Hi].
  - rewrite RemoveMsgAtIndex_in by done. pose proof (length_view s Hok) as Hlen.
    assert (Z.to_nat i < length (view s))%nat as Hlt by lia.
    apply lookup_lt_is_Some_2 in Hlt.
    unfold slice_ok in *. simpl. rewrite length_app, length_delete, length_drop by done. lia.
  - rewrite RemoveMsgAtIndex_out by lia. done.
Qed.

Lemma view_RemoveMsgAtIndex (s : slice A) i :
  slice_ok s -> 0 <= i < Z.of_nat (sl_len s) ->
  view (RemoveMsgAtIndex s i) = delete (Z.to_nat i) (view s).
Proof.
  intros Hok Hi. rewrite RemoveMsgAtIndex_in by done. unfold view at 1. simpl.
  pose proof (length_view s Hok) as Hlen.
  assert (length (delete (Z.to_nat i) (view s)) = sl_len s - 1)%nat as Hd.
  { rewrite length_delete by (apply lookup_lt_is_Some_2; lia). lia. }
  rewrite take_app_le by lia. rewrite take_ge by lia. done.
Qed.

(** RemoveMsgAtIndex drops exactly the message at an index inside the
    batch and leaves the batch alone for any other index.  It works in place
    on the backing array: the caller's old slice header, read after the call,
    shows the remaining messages followed by a second copy of the last one. *)
Theorem RemoveMsgAtIndex_correct (s : slice A) i :
  slice_ok s ->
  (0 <= i < Z.of_nat (sl_len s) ->
     view (RemoveMsgAtIndex s i) = delete (Z.to_nat i) (view s) /\
     exists m, last (view s) = Some m /\
       take (sl_len s) (sl_arr (RemoveMsgAtIndex s i)) = delete (Z.to_nat i) (view s) ++ [m]) /\
  (i < 0 \/ Z.of_nat (sl_len s) <= i -> RemoveMsgAtIndex s i = s).
Proof.
  intros Hok. split; [|apply RemoveMsgAtIndex_out]. intros Hi.
  split; [by apply view_RemoveMsgAtIndex|].
  rewrite RemoveMsgAtIndex_in by done. simpl. pose proof (length_view s Hok) as Hlen.
  destruct (sl_len s) as [|n] eqn:Hn; [lia|]. simpl. rewrite Nat.sub_0_r.
  destruct (lookup_lt_is_Some_2 (sl_arr s) n) as [m Hm]; [unfold slice_ok in Hok; lia|].
  exists m. split.
  - rewrite last_lookup, Hlen. simpl. unfold view. rewrite Hn.
    rewrite lookup_take_lt by lia. done.
  - assert (length (delete (Z.to_nat i) (view s)) = n) as Hd.
    { rewrite length_delete by (apply lookup_lt_is_Some_2; lia). lia. }
    change (S n) with (1 + n)%nat.
    rewrite take_app, Hd. rewrite take_ge by lia. replace (1 + n - n)%nat with 1%nat by lia.
    by rewrite (drop_S _ m n).
Qed.

End Remove.

Lemma RemoveMsgAtIndex_correct_witness :
  view (RemoveMsgAtIndex (slice_of [10; 20; 30]) 1) = delete (Z.to_nat 1) [10; 20; 30] /\
  RemoveMsgAtIndex (slice_of [10; 20; 30]) 7 = slice_of [10; 20; 30].
Proof.
  destruct (RemoveMsgAtIndex_correct (slice_of [10; 20; 30]) 1 (slice_of_ok _)) as [H1 _].
  destruct (RemoveMsgAtIndex_correct (slice_of [10; 20; 30]) 7 (slice_of_ok _)) as [_ H2].
  split; [apply H1; simpl; lia|apply H2; simpl; lia].
Defined.

(** ** Reading the failed index from the error *)

(** The error the node returns when message [i] of a transaction fails, as
    FailedMessageIndex documents it. *)
Definition sdkExecError (i : N) (reason : string) : error :=
  "rpc error: code = Unknown desc = failed to execute message; message index: "
  +:+ pretty i +:+ (": " +:+ reason).

Lemma FindMessageIndex_here s d : match_here s = Some d -> FindMessageIndex s = Some d.
Proof. intros H. destruct s; cbn [FindMessageIndex]; by rewrite H. Qed.

Lemma FindMessageIndex_step c s :
  match_here (String c s) = None -> FindMessageIndex (String c s) = FindMessageIndex s.
Proof. intros H. cbn [FindMessageIndex]. by rewrite H. Qed.

Lemma FindMessageIndex_sdk i reason : FindMessageIndex (sdkExecError i reason) = Some (pretty i).
Proof.
  unfold sdkExecError.
  assert (match_here ("message index: " +:+ pretty i +:+ (": " +:+ reason)) = Some (pretty i)) as Hm.
  { apply match_here_index. intros c r H. injection H as <- _. reflexivity. }
  set (t := pretty i +:+ (": " +:+ reason)) in *. clearbody t.
  cbn [String.app]. repeat (rewrite FindMessageIndex_step by reflexivity).
  change (FindMessageIndex ("message index: " +:+ t) = Some (pretty i)).
  by apply FindMessageIndex_here.
Qed.

Lemma Atoi_digits (i : N) :
  Atoi (pretty i) = v ← ParseUint (pretty i) 64; if bool_decide (v < 2 ^ 63) then Some v else None.
Proof.
  destruct (pretty_N_dec i) as (Hd & _ & He). unfold Atoi.
  destruct (pretty i) as [|c s] eqn:Hs; [done|].
  simpl in Hd. apply andb_true_iff in Hd as [Hc _].
  by destruct c as [[] [] [] [] [] [] [] []]; try (vm_compute in Hc; discriminate Hc).
Qed.

Lemma Atoi_pretty (i : N) : Z.of_N i < 2 ^ 63 -> Atoi (pretty i) = Some (Z.of_N i).
Proof.
  intros Hi. rewrite Atoi_digits, ParseUint_pretty by lia. cbn [mbind option_bind].
  by rewrite bool_decide_true.
Qed.

Lemma Atoi_pretty_overflow (i : N) : ~ Z.of_N i < 2 ^ 63 -> Atoi (pretty i) = None.
Proof.
  intros Hi. rewrite Atoi_digits. destruct (decide (Z.of_N i < 2 ^ 64)) as [Hb|Hb].
  - rewrite ParseUint_pretty by lia. cbn [mbind option_bind]. by rewrite bool_decide_false.
  - by rewrite ParseUint_pretty_overflow by lia.
Qed.

Lemma FailedMessageIndex_exec (i : N) reason :
  Z.of_N i < 2 ^ 63 -> FailedMessageIndex (sdkExecError i reason) = Some (Z.of_N i).
Proof.
  intros Hi. unfold FailedMessageIndex. rewrite FindMessageIndex_sdk. by apply Atoi_pretty.
Qed.

(** FailedMessageIndex recovers the index from the node's error for every
    message index and every reason, whatever the reason's text contains; an
    index that is no int is refused. *)
Theorem FailedMessageIndex_sdk (i : N) reason :
  FailedMessageIndex (sdkExecError i reason) =
  if bool_decide (Z.of_N i < 2 ^ 63) then Some (Z.of_N i) else None.
Proof.
  case_bool_decide as Hi; [by apply FailedMessageIndex_exec|].
  unfold FailedMessageIndex. rewrite FindMessageIndex_sdk. by apply Atoi_pretty_overflow.
Qed.

(** The cases of TestFailedMessageIndex. *)
Example FailedMessageIndex_tests :
  FailedMessageIndex "transaction failed: message index: 2" = Some 2 /\
  FailedMessageIndex "message index:    15 " = Some 15 /\
  FailedMessageIndex "some unrelated error" = None /\
  FailedMessageIndex "message index: abc" = None /\
  FailedMessageIndex "" = None /\
  FailedMessageIndex "failed op: message index: 4; message index: 9" = Some 4.
Proof. vm_compute. auto 10. Qed.

(** ** Converting the node's answers *)

Section Conversions.
Context `{BL : BtcLib}.

(** The integer fields are what their Go types say. *)
Definition resp_in_range (r : BTCDelegationResponse) : Prop :=
  0 <= dr_UnbondingTime r < 2 ^ 32 /\ 0 <= dr_TotalSat r < 2 ^ 64 /\
  0 <= dr_StakingTime r < 2 ^ 32.

Lemma u16_id z : 0 <= z <= MaxUint16 -> u16 z = z.
Proof. unfold u16, MaxUint16. intros H. apply Z.mod_small. lia. Qed.

Lemma i64_id z : 0 <= z <= MaxInt64 -> i64 z = z.
Proof. unfold i64, MaxInt64. intros H. rewrite Z.mod_small; lia. Qed.

Lemma toAdaptorSigInfo_Ok x y :
  toAdaptorSigInfo x = Ok y <->
  MustToBTCPK (ca_CovPk x) = Ok (cas_Pk y) /\ cas_Sigs y = ca_AdaptorSigs x.
Proof.
  unfold toAdaptorSigInfo. rewrite res_bind_Ok. destruct y as [pk sigs]. simpl. naive_solver.
Qed.

Lemma mapM_toAdaptorSigInfo l k :
  mapM toAdaptorSigInfo l = Ok k <->
  Forall2 (fun x y => MustToBTCPK (ca_CovPk x) = Ok (cas_Pk y) /\ cas_Sigs y = ca_AdaptorSigs x) l k.
Proof.
  rewrite mapM_res_Ok. by split; intros H; eapply Forall2_impl; try exact H; intros x y; apply toAdaptorSigInfo_Ok.
Qed.

(** A covenant signature of a response and the one it stands for. *)
Definition sameAdaptorSig (x : CovenantAdaptorSignatures) (y : CovenantAdaptorSigInfo) : Prop :=
  MustToBTCPK (ca_CovPk x) = Ok (cas_Pk y) /\ cas_Sigs y = ca_AdaptorSigs x.
Definition sameSchnorrSig (x : SignatureInfo) (y : CovenantSchnorrSigInfo) : Prop :=
  MustToBTCPK (si_Pk x) = Ok (css_Pk y) /\ ToBTCSig (si_Sig x) = Ok (css_Sig y).

(** The undelegation [ud] is the one a response describes: both transactions
    are there and are its own, the signatures are the decoded ones in their
    order, the transaction that spent the stake is the reported one or empty,
    and the delegator's signature is never filled in. *)
Record UndelegationOf (u : BTCUndelegationResponse) (ud : Undelegation) : Prop := {
  uo_present : ur_UnbondingTxHex u <> "" /\ ur_SlashingTxHex u <> "";
  uo_unbonding : ud_UnbondingTxHex ud = ur_UnbondingTxHex u;
  uo_slashing : ud_SlashingTxHex ud = ur_SlashingTxHex u;
  uo_unbonding_sigs : Forall2 sameSchnorrSig (ur_CovenantUnbondingSigList u) (ud_CovenantUnbondingSigs ud);
  uo_slashing_sigs : Forall2 sameAdaptorSig (ur_CovenantSlashingSigs u) (ud_CovenantSlashingSigs ud);
  uo_spent : match ur_DelegatorUnbondingInfoResponse u with
             | Some hex => ud_SpendStakeTxHex ud = hex
             | None => ud_SpendStakeTxHex ud = ""
             end;
  uo_delegator : ud_DelegatorUnbondingSig ud = None
}.

Lemma mapM_toSchnorrSigInfo l k : mapM toSchnorrSigInfo l = Ok k <-> Forall2 sameSchnorrSig l k.
Proof.
  rewrite mapM_res_Ok. assert (forall x y, toSchnorrSigInfo x = Ok y <-> sameSchnorrSig x y) as He.
  { intros x [pk sig]. unfold toSchnorrSigInfo, sameSchnorrSig. repeat setoid_rewrite res_bind_Ok. simpl. naive_solver. }
  split; intros Hf; (eapply Forall2_impl; [exact Hf|]); intros x y; by apply He.
Qed.

Lemma UndelegationResp_Ok u ud : UndelegationRespToUndelegation u = Ok ud <-> UndelegationOf u ud.
Proof.
  unfold UndelegationRespToUndelegation. split.
  - intros Hr. do 2 (case_bool_decide; [done|]).
    apply res_bind_Ok in Hr as (us & Hus%mapM_toSchnorrSigInfo & Hr).
    apply res_bind_Ok in Hr as (ss & Hss%mapM_toAdaptorSigInfo & [= <-]).
    split; simpl; try done. by destruct (ur_DelegatorUnbondingInfoResponse u).
  - intros [[H1 H2] H3 H4 Hus%mapM_toSchnorrSigInfo Hss%mapM_toAdaptorSigInfo H5 H6].
    do 2 (rewrite bool_decide_false by done). rewrite Hus. simpl. rewrite Hss. simpl.
    destruct ud; simpl in *. f_equal. subst. by destruct (ur_DelegatorUnbondingInfoResponse u); subst.
Qed.

(** The conversion of the optional undelegation. *)
Lemma optUndelegation_Ok ur u :
  match ur with Some u => Some <$> UndelegationRespToUndelegation u | None => Ok None end = Ok u <->
  match ur, u with
  | None, None => True
  | Some x, Some y => UndelegationOf x y
  | _, _ => False
  end.
Proof.
  destruct ur as [x|], u as [y|]; simpl; try (split; naive_solver).
  - rewrite <- UndelegationResp_Ok. destruct (UndelegationRespToUndelegation x); simpl; naive_solver.
  - destruct (UndelegationRespToUndelegation x); simpl; naive_solver.
Qed.

(** The two fields of a stake expansion, taken over when there is one. *)
Definition sameStakeExpansion (x : option StakeExpansionResponse) (y : option DelegationStakeExpansion) : Prop :=
  match x, y with
  | None, None => True
  | Some x, Some y => PreviousStakingTxHashHex y = sx_PreviousStakingTxHashHex x /\
                      OtherFundingTxOutHex y = sx_OtherFundingTxOutHex x
  | _, _ => False
  end.

Lemma toStakeExpansion_same x y : y = toStakeExpansion <$> x <-> sameStakeExpansion x y.
Proof.
  destruct x as [x|], y as [[a b]|]; simpl; try (split; done). unfold toStakeExpansion. simpl. naive_solver.
Qed.

(** C26: a response is converted exactly when its transactions, those of its
    undelegation included, are not empty, its keys and signatures decode, and
    the narrowed integers fit; the converted delegation then carries the same
    values (no truncation), the decoded keys, and an undelegation and a stake
    expansion exactly when the response does, field by field. *)
Theorem DelegationResp_faithful r d :
  resp_in_range r ->
  DelegationRespToDelegation r = Ok d <->
  (dr_StakingTxHex r <> "" /\ dr_SlashingTxHex r <> "" /\
   dr_UnbondingTime r <= MaxUint16 /\ dr_TotalSat r <= MaxInt64) /\
  Forall2 sameAdaptorSig (dr_CovenantSigs r) (del_CovenantSigs d) /\
  (match dr_UndelegationResponse r, del_BtcUndelegation d with
   | None, None => True
   | Some u, Some ud => UndelegationOf u ud
   | _, _ => False
   end) /\
  Forall2 (fun x y => MustToBTCPK x = Ok y) (dr_FpBtcPkList r) (del_FpBtcPks d) /\
  MustToBTCPK (dr_BtcPk r) = Ok (del_BtcPk d) /\
  (del_StakingTime d = dr_StakingTime r /\ del_StartHeight d = dr_StartHeight r /\
   del_EndHeight d = dr_EndHeight r /\ del_TotalSat d = dr_TotalSat r /\
   del_StakingTxHex d = dr_StakingTxHex r /\ del_StakingOutputIdx d = dr_StakingOutputIdx r /\
   del_SlashingTxHex d = dr_SlashingTxHex r /\ del_UnbondingTime d = dr_UnbondingTime r /\
   del_ParamsVersion d = dr_ParamsVersion r /\
   sameStakeExpansion (dr_StkExp r) (del_StakeExpansion d)).
Proof.
  intros (Hu & Ht & Hst). unfold DelegationRespToDelegation. split.
  - intros H. do 2 (case_bool_decide; [done|]).
    apply res_bind_Ok in H as (sigs & Hsigs%mapM_toAdaptorSigInfo & H).
    apply res_bind_Ok in H as (ud & Hud%optUndelegation_Ok & H).
    apply res_bind_Ok in H as (fps & Hfps%mapM_res_Ok & H).
    do 2 (case_bool_decide; [done|]).
    apply res_bind_Ok in H as (pk & Hpk & H). simplify_eq/=.
    rewrite u16_id, i64_id by lia. split_and!; try done; [lia..|]. by apply toStakeExpansion_same.
  - intros ((H1 & H2 & H3 & H4) & Hsigs%mapM_toAdaptorSigInfo & Hud%optUndelegation_Ok
            & Hfps%mapM_res_Ok & Hpk & Hf).
    do 2 (rewrite bool_decide_false by done). rewrite Hsigs, Hud, Hfps. simpl.
    do 2 (rewrite bool_decide_false by lia). rewrite Hpk. simpl. rewrite u16_id, i64_id by lia.
    rewrite <- toStakeExpansion_same in Hf. destruct d. simpl in *. f_equal. naive_solver.
Qed.

End Conversions.

(** ** Staking parameters *)

Section Params.
Context `{BL : BtcLib} {W : Type} `{BC : !BbnClient W}.

(** When the node answers both queries, the parameters are accepted exactly
    if the covenant keys decode and the staking time bounds fit in 16 bits, and
    are then the node's, nothing truncated; the process is left as the second
    query left it. *)
Theorem QueryStakingParams_faithful version s w1 w2 c sp p s' :
  BTCCheckpointParams (world s) = (w1, Ok c) ->
  BTCStakingParamsByVersion version w1 = (w2, Ok sp) ->
  0 <= sp_MinStakingTimeBlocks sp -> 0 <= sp_MaxStakingTimeBlocks sp ->
  bc_QueryStakingParamsByVersion version s = (s', Ok p) <->
  s' = set_world w2 s /\
  Forall2 (fun x y => ToBTCPK x = Ok y) (sp_CovenantPks sp) (CovenantPks p) /\
  sp_MinStakingTimeBlocks sp <= MaxUint16 /\ sp_MaxStakingTimeBlocks sp <= MaxUint16 /\
  p = {| ComfirmationTimeBlocks := BtcConfirmationDepth c;
         FinalizationTimeoutBlocks := CheckpointFinalizationTimeout c;
         MinSlashingTxFeeSat := sp_MinSlashingTxFeeSat sp;
         CovenantPks := CovenantPks p;
         SlashingPkScript := sp_SlashingPkScript sp;
         CovenantQuorum := sp_CovenantQuorum sp;
         SlashingRate := sp_SlashingRate sp;
         MinComissionRate := sp_MinCommissionRate sp;
         UnbondingTimeBlocks := sp_UnbondingTimeBlocks sp;
         UnbondingFee := sp_UnbondingFeeSat sp;
         MinStakingTime := sp_MinStakingTimeBlocks sp;
         MaxStakingTime := sp_MaxStakingTimeBlocks sp;
         MinStakingValue := sp_MinStakingValueSat sp;
         MaxStakingValue := sp_MaxStakingValueSat sp |}.
Proof.
  intros Hc Hsp Hmin Hmax. unfold bc_QueryStakingParamsByVersion.
  erewrite bind_run_Ok; [|unfold wrapErrM, ext; by rewrite Hc].
  erewrite bind_run_Ok; [|unfold wrapErrM, ext; simpl; by rewrite Hsp].
  rewrite <- mapM_res_Ok. unfold mbind at 1, M_bind, lift.
  destruct (mapM ToBTCPK (sp_CovenantPks sp)) as [pks|e|m|]; simpl;
    try (split; [done|intros (_ & ? & _); done]).
  repeat case_bool_decide; simpl; try (split; [done|lia]).
  rewrite !u16_id by lia. split.
  - intros [= <- <-]. split_and!; try done; lia.
  - intros (-> & [= ->] & _ & _ & ->). done.
Qed.

End Params.
