(* ===== verification/SubmitProps.v ===== *)
(** * Theorems about submitting covenant signatures

    reliablySendMsgsResendingOnMsgErr and SubmitCovenantSigs of
    clientcontroller/babylon.go, against a chain that executes a transaction
    atomically and reports the first message that fails. *)
From S2P Require Import Prelude GoStd BtcLib Types Env ClientController ControllerProps.
Local Open Scope Z_scope.

Section Resend.
Context `{BL : BtcLib} {W : Type} `{BC : !BbnClient W}.

(** Why the chain refuses a message; [None] for a message that executes. *)
Variable verdict : Msg -> option error.
(** The messages the chain has executed, oldest first. *)
Variable delivered : W -> list Msg.

Definition accepted (m : Msg) : Prop := verdict m = None.

#[export] Instance accepted_dec m : Decision (accepted m).
Proof. unfold accepted. destruct (verdict m); [by right|by left]. Defined.

(** The first message of a transaction that fails, with the reason. *)
Fixpoint first_bad (i : nat) (msgs : list Msg) : option (nat * error) :=
  match msgs with
  | [] => None
  | m :: msgs =>
      match verdict m with
      | Some reason => Some (i, reason)
      | None => first_bad (S i) msgs
      end
  end.

(** The reasons of the messages that fail, in order. *)
Definition reasons (msgs : list Msg) : list error := omap verdict msgs.

(** ReliablySendMsgs: all the messages of a transaction are executed, or none
    is and the error names the first one that failed.  The verdict on a message
    is an idealisation: it does not depend on what was executed before, where
    the chain would refuse a message it has executed already as a duplicate. *)
Record AtomicChain : Prop := {
  chain_ok : forall msgs w, first_bad 0 msgs = None ->
    exists w' r, ReliablySendMsgs msgs [] unrecoverableErrors w = (w', Ok r) /\
      delivered w' = delivered w ++ msgs;
  chain_bad : forall msgs w i reason, first_bad 0 msgs = Some (i, reason) ->
    exists w', ReliablySendMsgs msgs [] unrecoverableErrors w
                 = (w', Err (sdkExecError (N.of_nat i) reason)) /\
      delivered w' = delivered w
}.

(** ** Lemmas *)

Lemma first_bad_None k msgs :
  first_bad k msgs = None -> filter accepted msgs = msgs /\ reasons msgs = [].
Proof.
  revert k. induction msgs as [|m msgs IH]; intros k; [done|]. simpl. unfold reasons. simpl.
  destruct (verdict m) as [r|] eqn:Hv; [done|]. intros [H1 H2]%IH.
  rewrite filter_cons_True by done. by rewrite H1.
Qed.

Lemma first_bad_Some k msgs i reason :
  first_bad k msgs = Some (i, reason) ->
  (k <= i < k + length msgs)%nat /\
  filter accepted (delete (i - k)%nat msgs) = filter accepted msgs /\
  reasons msgs = reason :: reasons (delete (i - k)%nat msgs).
Proof.
  revert k. induction msgs as [|m msgs IH]; intros k; [done|]. simpl. unfold reasons. simpl.
  destruct (verdict m) as [r|] eqn:Hv.
  - intros; simplify_eq. rewrite Nat.sub_diag. simpl. split; [lia|]. split; [|done].
    rewrite filter_cons_False; [done|]. unfold accepted. by rewrite Hv.
  - intros (Hi & Hf & Hr)%IH. split; [lia|].
    replace (i - k)%nat with (S (i - S k)) by lia. simpl. rewrite !Hv. unfold reasons in Hr.
    rewrite !filter_cons_True by done. by rewrite Hf, Hr.
Qed.

Lemma sdkExecError_index i reason : Contains (sdkExecError i reason) "message index: " = true.
Proof.
  unfold sdkExecError.
  apply (Contains_mid "rpc error: code = Unknown desc = failed to execute message; " "message index: ").
Qed.

Lemma sdkExecError_reason i reason sub :
  Contains reason sub = true -> Contains (sdkExecError i reason) sub = true.
Proof. intros H. unfold sdkExecError. by do 3 apply Contains_app_r. Qed.

(** One turn of the loop on a batch with a failing message. *)
Lemma resend_turn (AC : AtomicChain) n err msgs s i reason :
  slice_ok msgs -> Z.of_nat (sl_len msgs) < 2 ^ 63 ->
  first_bad 0 (view msgs) = Some (i, reason) ->
  exists s', delivered (world s') = delivered (world s) /\
    resendLoop (S n) err msgs s =
    resendLoop n (Some (Join err (sdkExecError (N.of_nat i) reason)))
      (RemoveMsgAtIndex msgs (Z.of_nat i)) s'.
Proof.
  intros Hok Hlen Hb. destruct (chain_bad AC _ (world s) _ _ Hb) as (w' & Hs & Hd).
  exists (set_world w' s). split; [done|]. cbn [resendLoop].
  erewrite bind_run_Ok; [|unfold attempt, reliablySendMsgs, ext; by rewrite Hs].
  cbv beta iota zeta. rewrite sdkExecError_index.
  destruct (first_bad_Some _ _ _ _ Hb) as (Hi & _). rewrite length_view in Hi by done.
  rewrite FailedMessageIndex_exec by lia. by rewrite nat_N_Z.
Qed.

Lemma resend_remove (msgs : slice Msg) i :
  slice_ok msgs -> (i < sl_len msgs)%nat ->
  slice_ok (RemoveMsgAtIndex msgs (Z.of_nat i)) /\
  view (RemoveMsgAtIndex msgs (Z.of_nat i)) = delete i (view msgs) /\
  sl_len (RemoveMsgAtIndex msgs (Z.of_nat i)) = (sl_len msgs - 1)%nat.
Proof.
  intros Hok Hi. split_and!.
  - by apply RemoveMsgAtIndex_ok.
  - rewrite view_RemoveMsgAtIndex by (done || lia). by rewrite Nat2Z.id.
  - rewrite RemoveMsgAtIndex_in by (done || lia). done.
Qed.

Lemma resendLoop_delivers (AC : AtomicChain) n : forall err msgs s,
  slice_ok msgs -> Z.of_nat (sl_len msgs) < 2 ^ 63 ->
  (length (reasons (view msgs)) < n)%nat ->
  exists s' r, resendLoop n err msgs s = (s', Ok r) /\
    delivered (world s') = delivered (world s) ++ filter accepted (view msgs).
Proof.
  induction n as [|n IH]; intros err msgs s Hok Hlen Hn; [lia|].
  destruct (first_bad 0 (view msgs)) as [[i reason]|] eqn:Hb.
  - destruct (first_bad_Some _ _ _ _ Hb) as (Hi & Hf & Hr). rewrite Nat.sub_0_r in Hf, Hr.
    rewrite length_view in Hi by done.
    destruct (resend_remove msgs i Hok) as (Hok' & Hv & Hl); [lia|].
    destruct (resend_turn AC n err msgs s i reason Hok Hlen Hb) as (s' & Hd & ->).
    destruct (IH (Some (Join err (sdkExecError (N.of_nat i) reason)))
                (RemoveMsgAtIndex msgs (Z.of_nat i)) s' Hok')
      as (s2 & r & Hs2 & Hd2); [lia|rewrite Hv; rewrite Hr in Hn; simpl in Hn; lia|].
    exists s2, r. split; [done|]. by rewrite Hd2, Hd, Hv, Hf.
  - destruct (chain_ok AC _ (world s) Hb) as (w' & r & Hs & Hd).
    destruct (first_bad_None _ _ Hb) as [Hf _]. cbn [resendLoop].
    erewrite bind_run_Ok; [|unfold attempt, reliablySendMsgs, ext; by rewrite Hs].
    rewrite Hf, <- Hd. destruct r as [r|]; by eexists _, _.
Qed.

(** The error joined over the turns of the loop contains every reason seen. *)
Lemma Join_Contains err e sub :
  Contains e sub = true \/ (exists e0, err = Some e0 /\ Contains e0 sub = true) ->
  Contains (Join err e) sub = true.
Proof.
  intros [H|(e0 & -> & H)]; [destruct err; [|done]|]; simpl.
  - by do 2 apply Contains_app_r.
  - by apply Contains_app_l.
Qed.

(** The error the loop has joined after [n] turns. *)
Fixpoint joined (n : nat) (err : option error) (msgs : list Msg) : option error :=
  match n with
  | O => err
  | S n =>
      match first_bad 0 msgs with
      | Some (i, reason) =>
          joined n (Some (Join err (sdkExecError (N.of_nat i) reason))) (delete i msgs)
      | None => err
      end
  end.

Lemma resendLoop_exhausted (AC : AtomicChain) n : forall err msgs s,
  slice_ok msgs -> Z.of_nat (sl_len msgs) < 2 ^ 63 ->
  (n <= length (reasons (view msgs)))%nat ->
  exists s', resendLoop n err msgs s = (s', resendExhausted (joined n err (view msgs))) /\
    delivered (world s') = delivered (world s).
Proof.
  induction n as [|n IH]; intros err msgs s Hok Hlen Hn; [by exists s|].
  destruct (first_bad 0 (view msgs)) as [[i reason]|] eqn:Hb.
  - destruct (first_bad_Some _ _ _ _ Hb) as (Hi & Hf & Hr). rewrite Nat.sub_0_r in Hf, Hr.
    rewrite length_view in Hi by done.
    destruct (resend_remove msgs i Hok) as (Hok' & Hv & Hl); [lia|].
    destruct (resend_turn AC n err msgs s i reason Hok Hlen Hb) as (s' & Hd & ->).
    destruct (IH (Some (Join err (sdkExecError (N.of_nat i) reason)))
                (RemoveMsgAtIndex msgs (Z.of_nat i)) s' Hok')
      as (s2 & Hs2 & Hd2); [lia|rewrite Hv; rewrite Hr in Hn; simpl in Hn; lia|].
    exists s2. cbn [joined]. rewrite Hb, <- Hv, <- Hd. done.
  - destruct (first_bad_None _ _ Hb) as [_ Hr]. rewrite Hr in Hn. simpl in Hn. lia.
Qed.

Lemma joined_Contains n sub : forall err msgs,
  (n <= length (reasons msgs))%nat ->
  (exists e, err = Some e /\ Contains e sub = true) \/
  (exists r, r ∈ take n (reasons msgs) /\ Contains r sub = true) ->
  exists e, joined n err msgs = Some e /\ Contains e sub = true.
Proof.
  induction n as [|n IH]; intros err msgs Hn H; cbn [joined].
  { destruct H as [H|(r & Hr & _)]; [done|]. by apply elem_of_nil in Hr. }
  destruct (first_bad 0 msgs) as [[i reason]|] eqn:Hb.
  - destruct (first_bad_Some _ _ _ _ Hb) as (Hi & Hf & Hr). rewrite Nat.sub_0_r in Hf, Hr.
    rewrite Hr in Hn, H. simpl in Hn, H. apply IH; [lia|].
    destruct H as [H|(r & [->|Hin]%elem_of_cons & H)]; [left..|right].
    + eexists. split; [done|]. apply Join_Contains. by right.
    + eexists. split; [done|]. apply Join_Contains. left. by apply sdkExecError_reason.
    + by exists r.
  - destruct (first_bad_None _ _ Hb) as [_ Hr]. rewrite Hr in Hn. simpl in Hn. lia.
Qed.

(** Sending keeps what every transaction keeps. *)
Lemma keeps_resendLoop (J : Sys W -> Prop) :
  (forall msgs, keeps J (reliablySendMsgs msgs) (fun _ => True)) ->
  forall n err msgs, keeps J (resendLoop n err msgs) (fun _ => True).
Proof.
  intros Hsend. induction n as [|n IH]; intros err msgs; cbn [resendLoop]; [by apply keeps_lift|].
  eapply (keeps_bind _ _ _ (fun _ => True)); [by eapply keeps_attempt|].
  intros [[r|]|e] _; [by apply keeps_ret..|].
  destruct (Contains e "message index: "); [|apply keeps_fail].
  destruct (FailedMessageIndex e); [apply IH|apply keeps_fail].
Qed.

Variable bc : BabylonController.

Lemma keeps_SubmitCovenantSigs (J : Sys W -> Prop) sigs :
  (forall msgs, keeps J (reliablySendMsgs msgs) (fun _ => True)) ->
  keeps J (mustGetTxSigner bc) (fun _ => True) ->
  keeps J (bc_SubmitCovenantSigs bc sigs) (fun _ => True).
Proof.
  intros Hsend Hsigner. eapply keeps_bind; [|intros msgs _; by apply keeps_resendLoop].
  apply keeps_mapM. intros x. eapply keeps_bind; [exact Hsigner|]. intros a _. by apply keeps_ret.
Qed.

(** The number of turns the loop may take. *)
Definition turns (msgs : slice Msg) : nat :=
  Z.to_nat (BatchRetries (view msgs) (MaxRetiresBatchRemovingMsgs bc)).

(** ** Properties *)

(** C10: as long as fewer messages are refused than the loop may take turns, the
    submission succeeds and the chain has executed exactly the messages it
    accepts, once each and in order; the refused ones are dropped one by one
    whatever their positions. *)
Theorem resend_delivers msgs s :
  AtomicChain -> slice_ok msgs -> Z.of_nat (sl_len msgs) < 2 ^ 63 ->
  (length (reasons (view msgs)) < turns msgs)%nat ->
  exists s' r, reliablySendMsgsResendingOnMsgErr bc msgs s = (s', Ok r) /\
    delivered (world s') = delivered (world s) ++ filter accepted (view msgs).
Proof. intros AC Hok Hlen Hn. by apply resendLoop_delivers. Qed.

(** When as many messages are refused as the loop may take turns, nothing
    is delivered, not even the messages the chain accepts, and the outcome is
    decided by the joined errors of all the turns (not by the last error
    alone). *)
Theorem resend_gives_up msgs s :
  AtomicChain -> slice_ok msgs -> Z.of_nat (sl_len msgs) < 2 ^ 63 ->
  (turns msgs <= length (reasons (view msgs)))%nat ->
  exists s', reliablySendMsgsResendingOnMsgErr bc msgs s
               = (s', resendExhausted (joined (turns msgs) None (view msgs))) /\
    delivered (world s') = delivered (world s).
Proof. intros AC Hok Hlen Hn. by apply resendLoop_exhausted. Qed.

(** The emulator skips every delegation of a batch it cannot sign; submitting
    what is left when nothing is. *)
Lemma SubmitCovenantSigs_empty (s : Sys W) :
  bc_SubmitCovenantSigs bc [] s = (s, Err "failed to send batch of msgs: %!w(<nil>)").
Proof.
  change (reliablySendMsgsResendingOnMsgErr bc (slice_of []) s
          = (s, Err "failed to send batch of msgs: %!w(<nil>)")).
  unfold reliablySendMsgsResendingOnMsgErr.
  assert (Z.to_nat (BatchRetries (view (slice_of [])) (MaxRetiresBatchRemovingMsgs bc)) = 0%nat) as ->; [|done].
  unfold BatchRetries. simpl. repeat case_bool_decide; lia.
Qed.

(** C31: when the chain refuses at least as many messages as the resending loop
    has turns, so that the loop gives up without having delivered anything, one
    refusal for a duplicated signature among the refusals of those turns is
    enough for the submission to be reported as a success with an empty
    response: the other refusals, and accepted messages that never got through,
    are masked. *)
Theorem duplicate_masks_refusals msgs s r :
  AtomicChain -> slice_ok msgs -> Z.of_nat (sl_len msgs) < 2 ^ 63 ->
  (turns msgs <= length (reasons (view msgs)))%nat ->
  r ∈ take (turns msgs) (reasons (view msgs)) -> Contains r ErrDuplicatedCovenantSig = true ->
  exists s', reliablySendMsgsResendingOnMsgErr bc msgs s = (s', Ok emptyTxResponse) /\
    delivered (world s') = delivered (world s).
Proof.
  intros AC Hok Hlen Hn Hr Hdup.
  destruct (resendLoop_exhausted AC (turns msgs) None msgs s Hok Hlen Hn) as (s' & Hs' & Hd).
  destruct (joined_Contains (turns msgs) ErrDuplicatedCovenantSig None (view msgs) Hn)
    as (e & He & Hc); [right; by exists r|].
  exists s'. split; [|done].
  change (resendLoop (turns msgs) None msgs s = (s', Ok emptyTxResponse)).
  rewrite Hs'. unfold error in *. rewrite He. simpl. by rewrite Hc.
Qed.

End Resend.
