(* ===== verification/PagingProps.v ===== *)
(** * Theorems about the paged queries of clientcontroller/babylon.go

    queryDelegationsWithStatus and QueryFinalityProviders walk a collection of
    the node page by page.  The node's side is cosmos-sdk's documented
    key-based pagination ([Paginated]): an empty key asks for the first page,
    and the next key of the last page is empty. *)
From S2P Require Import Prelude GoStd BtcLib Types Env ClientController.
Local Open Scope nat_scope.

Section Pagination.
Context `{BL : BtcLib} {W : Type}.

(** [key] is the page key of position [pos]. *)
Definition at_pos (keyAt : nat -> bytes) (key : bytes) (pos : nat) : Prop :=
  (key = [] /\ pos = 0) \/ key = keyAt pos.

(** While the process satisfies [J], [query] pages through [store]. *)
Definition Paginated {A} (J : Sys W -> Prop) (store : list A) (keyAt : nat -> bytes)
    (query : PageRequest -> M (Sys W) (QueryPage A)) : Prop :=
  (forall pos, keyAt pos <> []) /\
  forall s key pos limit, J s -> at_pos keyAt key pos -> 0 < limit ->
    exists s', J s' /\
      query {| pg_Key := key; pg_Limit := Z.of_nat limit |} s =
      (s', Ok {| Items := take limit (drop pos store);
                 Pagination := Some {| NextKey := if bool_decide (pos + limit < length store)
                                                  then keyAt (pos + limit) else [] |} |}).

End Pagination.

(** ** Finality providers *)

Section FinalityProviders.
Context `{BL : BtcLib} {W : Type} `{BC : !BbnClient W}.
Variables (J : Sys W -> Prop) (store : list FinalityProviderResponse) (keyAt : nat -> bytes).
Hypothesis HP : Paginated J store keyAt (fun r => ext (FinalityProviders r)).

Lemma finalityProvidersLoop_all fuel : forall pos key fps s,
  J s -> at_pos keyAt key pos -> length store < pos + 100 * fuel ->
  pos < length store \/ pos = 0 ->
  exists s', J s' /\
    finalityProvidersLoop fuel key fps s = (s', Ok (fps ++ drop pos store)).
Proof.
  destruct HP as [Hne Hq].
  induction fuel as [|fuel IH]; intros pos key fps s Hs Hk Hf Hpos; [lia|].
  destruct (Hq s key pos 100 Hs Hk) as (s1 & Hs1 & Hr); [lia|]. cbn [finalityProvidersLoop].
  change 100%Z with (Z.of_nat 100).
  erewrite bind_run_Ok; [|unfold wrapErrM; by rewrite Hr]. cbn [Items Pagination NextKey].
  case_bool_decide as Hend.
  - rewrite bool_decide_false by apply Hne.
    destruct (IH (pos + 100) (keyAt (pos + 100)) (fps ++ take 100 (drop pos store)) s1 Hs1)
      as (s2 & Hs2 & Hl); [by right|lia|by left|].
    exists s2. split; [done|]. rewrite Hl, <- app_assoc. do 3 f_equal.
    rewrite <- (drop_drop store 100 pos). apply take_drop.
  - rewrite bool_decide_true by done. exists s1. split; [done|].
    rewrite (take_ge (drop pos store)) by (rewrite length_drop; lia). done.
Qed.

(** QueryFinalityProviders ends after one query per started hundred of
    finality providers and returns all of them, once each and in the order of
    the store, also when their number is a multiple of the page size. *)
Theorem QueryFinalityProviders_all fuel s :
  J s -> length store / 100 < fuel ->
  exists s', J s' /\ QueryFinalityProviders fuel s = (s', Ok store).
Proof.
  intros Hs Hf. apply (finalityProvidersLoop_all fuel 0 [] [] s Hs); [by left| |by right].
  pose proof (Nat.div_mod_eq (length store) 100). pose proof (Nat.mod_upper_bound (length store) 100). lia.
Qed.

End FinalityProviders.

(** ** Delegations *)

Section Delegations.
Context `{BL : BtcLib} {W : Type} `{BC : !BbnClient W}.
Variables (J : Sys W -> Prop) (status : BTCDelegationStatus) (keyAt : nat -> bytes).
(** What the node stores under [status], and the same delegations converted. *)
Variables (store : list BTCDelegationResponse) (ds : list Delegation).
(** The filter and the decision it takes on each delegation. *)
Variables (f : FilterFn W) (p : Delegation -> bool).
Hypothesis HP : Paginated J store keyAt (fun r => ext (BTCDelegations status r)).
Hypothesis Hconv : Forall2 (fun r d => DelegationRespToDelegation r = Ok d) store ds.
Hypothesis Hfilter : forall d s, d ∈ ds -> J s -> exists s', J s' /\ f d s = (s', Ok (p d)).

(** The limit asked for, and the page size that follows from it. *)
Variable limit : nat.
Definition pageSize : nat := Nat.min 1000 limit.

Abbreviation want := (Z.of_nat limit).
Abbreviation size := (Z.of_nat pageSize).
Abbreviation yes := (filter (fun d => p d = true)).

(** One page. *)
Lemma pageDelegations_run page : forall chunk dels s,
  J s -> Forall2 (fun r d => DelegationRespToDelegation r = Ok d) page chunk ->
  chunk ⊆ ds -> length dels < limit ->
  exists s', J s' /\
    pageDelegations (Some f) want page dels (Z.of_nat (length dels)) s =
    (s', Ok (if decide (limit <= length (dels ++ yes chunk))
             then inl (take limit (dels ++ yes chunk))
             else inr (dels ++ yes chunk, Z.of_nat (length (dels ++ yes chunk))))).
Proof.
  induction page as [|r page IH]; intros chunk dels s Hs Hc Hin Hlen.
  { inversion Hc; subst. rewrite filter_nil, app_nil_r. exists s. split; [done|].
    case_decide; [lia|done]. }
  inversion Hc as [|? d ? chunk' Hr Hc' ]; subst. cbn [pageDelegations].
  erewrite bind_run_Ok; [|unfold lift; by rewrite Hr].
  destruct (Hfilter d s) as (s1 & Hs1 & Hf); [set_solver|done|].
  erewrite bind_run_Ok by exact Hf.
  destruct (p d) eqn:Hp.
  - rewrite filter_cons_True by done.
    assert (dels ++ d :: yes chunk' = (dels ++ [d]) ++ yes chunk') as -> by (by rewrite <- app_assoc).
    case_bool_decide as Hl.
    + exists s1. split; [done|].
      case_decide as Hd; [|rewrite !length_app in Hd; simpl in Hd; lia].
      rewrite take_app_le by (rewrite length_app; simpl; lia).
      by rewrite take_ge by (rewrite length_app; simpl; lia).
    + replace (Z.of_nat (length dels) + 1)%Z with (Z.of_nat (length (dels ++ [d])))
        by (rewrite length_app; simpl; lia).
      apply IH; [done..|set_solver|]. rewrite length_app. simpl. lia.
  - rewrite filter_cons_False by (by rewrite Hp). apply IH; [done..|set_solver|done].
Qed.

Lemma length_ds : length ds = length store.
Proof. symmetry. by eapply Forall2_length. Qed.

Lemma pageSize_pos : 0 < limit -> 0 < pageSize.
Proof. unfold pageSize. lia. Qed.

(** The delegations accepted from [pos] on, split at the end of the page. *)
Lemma yes_page pos :
  yes (drop pos ds) = yes (take pageSize (drop pos ds)) ++ yes (drop (pos + pageSize) ds).
Proof. rewrite <- filter_app, <- drop_drop, take_drop. done. Qed.

Lemma page_full pos :
  pos <= length store ->
  length (take pageSize (drop pos store)) = pageSize <-> pos + pageSize <= length store.
Proof. intros H. rewrite length_take, length_drop. lia. Qed.

(** One query, at position [pos] of the store. *)
Lemma pagesLoop_step pos key dels s :
  J s -> at_pos keyAt key pos -> 0 < limit -> length dels < limit -> pos <= length store ->
  let dels' := dels ++ yes (take pageSize (drop pos ds)) in
  exists s', J s' /\ forall fuel,
    let r := pagesLoop (S fuel) status (Some f) want size key dels (Z.of_nat (length dels)) s in
    (limit <= length dels' -> r = (s', Ok (take limit dels'))) /\
    (length dels' < limit -> length store < pos + pageSize -> r = (s', Ok dels')) /\
    (length dels' < limit -> pos + pageSize <= length store ->
       r = pagesLoop fuel status (Some f) want size
             (if bool_decide (pos + pageSize < length store) then keyAt (pos + pageSize) else [])
             dels' (Z.of_nat (length dels')) s').
Proof.
  intros Hs Hk Hpos Hlen Hps dels'. destruct HP as [_ Hq].
  destruct (Hq s key pos pageSize Hs Hk) as (s1 & Hs1 & Hr); [by apply pageSize_pos|].
  destruct (pageDelegations_run (take pageSize (drop pos store)) (take pageSize (drop pos ds)) dels s1)
    as (s2 & Hs2 & Hpg); [done|by apply Forall2_take, Forall2_drop| |done|].
  { etrans; [apply subseteq_take|apply subseteq_drop]. }
  exists s2. split; [done|]. intros fuel. cbn [pagesLoop]. rewrite bool_decide_true by lia.
  erewrite bind_run_Ok; [|unfold wrapErrM; by rewrite Hr]. cbn [Items Pagination NextKey].
  erewrite bind_run_Ok by exact Hpg. fold dels'. pose proof (page_full pos Hps) as Hf.
  destruct (decide (limit <= length dels')) as [Hd|Hd]; (split; [intros; lia || done|split; intros; [|]]);
    try lia.
  - by rewrite bool_decide_true by lia.
  - by rewrite (bool_decide_false (_ <> _)) by lia.
Qed.

(** The query ends with this page: it is not full, or enough is collected. *)
Lemma last_page pos key dels s :
  J s -> at_pos keyAt key pos -> 0 < limit -> length dels < limit -> pos <= length store ->
  length store < pos + pageSize \/
    limit <= length (dels ++ yes (take pageSize (drop pos ds))) ->
  exists s', J s' /\ forall fuel,
    pagesLoop (S fuel) status (Some f) want size key dels (Z.of_nat (length dels)) s =
    (s', Ok (take limit (dels ++ yes (drop pos ds)))).
Proof.
  intros Hs Hk Hpos Hlen Hps Hend. pose proof length_ds as Hds.
  destruct (pagesLoop_step pos key dels s Hs Hk Hpos Hlen Hps) as (s1 & Hs1 & Hstep).
  exists s1. split; [done|]. intros fuel. destruct (Hstep fuel) as (H1 & H2 & _).
  rewrite yes_page, app_assoc.
  destruct (decide (limit <= length (dels ++ yes (take pageSize (drop pos ds))))) as [Hd|Hd].
  - rewrite take_app_le by done. by apply H1.
  - rewrite (drop_ge ds (pos + pageSize)) by lia. rewrite filter_nil, app_nil_r, take_ge by lia. apply H2; lia.
Qed.

(** A pass that ends the query: it collects enough, or meets a page that is
    not full. *)
Lemma pass_ends k : forall pos key dels s,
  J s -> at_pos keyAt key pos -> 0 < limit -> length dels < limit ->
  pos <= length store < pos + S k * pageSize ->
  limit <= length (dels ++ yes (drop pos ds)) \/
    (length store - pos) mod pageSize <> 0 \/ length store = pos ->
  exists s', J s' /\ forall fuel,
    pagesLoop (S k + fuel) status (Some f) want size key dels (Z.of_nat (length dels)) s =
    (s', Ok (take limit (dels ++ yes (drop pos ds)))).
Proof.
  induction k as [|k IH]; intros pos key dels s Hs Hk Hpos Hlen Hpg Hend.
  { apply last_page; try done; lia. }
  pose proof length_ds as Hds. pose proof (pageSize_pos Hpos) as Hsz.
  set (dels' := dels ++ yes (take pageSize (drop pos ds))) in *.
  destruct (decide (length store < pos + pageSize \/ limit <= length dels')) as [Hl|Hl].
  { destruct (last_page pos key dels s) as (s1 & Hs1 & Hr); [done..|lia|done|].
    exists s1. split; [done|]. intros fuel. apply (Hr (S k + fuel)). }
  rewrite yes_page, app_assoc in *. fold dels' in Hend |- *.
  destruct (decide (pos + pageSize = length store)) as [Heq|Hneq].
  { rewrite (drop_ge ds (pos + pageSize)), filter_nil, app_nil_r in Hend by lia.
    replace (length store - pos) with pageSize in Hend by lia. rewrite Nat.Div0.mod_same in Hend. lia. }
  destruct (pagesLoop_step pos key dels s) as (s1 & Hs1 & Hstep); [done..|lia|].
  destruct (IH (pos + pageSize) (keyAt (pos + pageSize)) dels' s1 Hs1) as (s2 & Hs2 & Hr);
    [by right|done|lia|simpl in *; lia| |].
  { destruct Hend as [Hend|[Hend|Hend]]; [by left|right; left|lia].
    intros Hm. apply Hend.
    replace (length store - pos) with (length store - (pos + pageSize) + 1 * pageSize) by lia.
    by rewrite Nat.Div0.mod_add. }
  exists s2. split; [done|]. intros fuel. rewrite <- (Hr fuel).
  destruct (Hstep (S k + fuel)) as (_ & _ & Hnext). cbn [Nat.add] in *. fold dels' in Hnext.
  rewrite Hnext by lia.
  by rewrite bool_decide_true by lia.
Qed.

(** A pass over full pages that does not collect enough comes back to the
    first page. *)
Lemma pass_restarts k : forall pos key dels s,
  J s -> at_pos keyAt key pos -> 0 < limit ->
  length (dels ++ yes (drop pos ds)) < limit ->
  length store = pos + S k * pageSize ->
  exists s', J s' /\ forall fuel,
    pagesLoop (S k + fuel) status (Some f) want size key dels (Z.of_nat (length dels)) s =
    pagesLoop fuel status (Some f) want size [] (dels ++ yes (drop pos ds))
      (Z.of_nat (length (dels ++ yes (drop pos ds)))) s'.
Proof.
  induction k as [|k IH]; intros pos key dels s Hs Hk Hpos Hlen Hpg;
    pose proof length_ds as Hds; pose proof (pageSize_pos Hpos) as Hsz;
    rewrite yes_page, app_assoc in Hlen |- *;
    set (dels' := dels ++ yes (take pageSize (drop pos ds))) in *;
    assert (length dels' < limit) as Hd' by (rewrite length_app in Hlen; lia);
    (destruct (pagesLoop_step pos key dels s) as (s1 & Hs1 & Hstep);
      [done..|unfold dels' in Hd'; rewrite length_app in Hd'; lia|simpl in Hpg; lia|]).
  - exists s1. split; [done|]. intros fuel. destruct (Hstep fuel) as (_ & _ & Hnext).
    rewrite (drop_ge ds (pos + pageSize)) by (simpl in Hpg; lia). rewrite filter_nil, app_nil_r.
    cbn [Nat.add]. fold dels' in Hnext. rewrite Hnext by (simpl in *; lia).
    by rewrite bool_decide_false by (simpl in *; lia).
  - destruct (IH (pos + pageSize) (keyAt (pos + pageSize)) dels' s1 Hs1) as (s2 & Hs2 & Hr);
      [by right|done|done|simpl in *; lia|].
    exists s2. split; [done|]. intros fuel. rewrite <- (Hr fuel).
    destruct (Hstep (S k + fuel)) as (_ & _ & Hnext). cbn [Nat.add] in *. fold dels' in Hnext.
    rewrite Hnext by (simpl in *; lia). by rewrite bool_decide_true by (simpl in *; lia).
Qed.

Lemma query_is_loop fuel s :
  queryDelegationsWithStatus fuel status want (Some f) s =
  pagesLoop fuel status (Some f) want size [] [] (Z.of_nat (length (@nil Delegation))) s.
Proof.
  unfold queryDelegationsWithStatus, pageSize, MaxPaginationLimit. by rewrite Nat2Z.inj_min.
Qed.

(** Enough passes over the same pages fill up the answer. *)
Lemma passes_fill k n : forall dels s,
  J s -> length store = S k * pageSize -> yes ds <> [] ->
  length dels < limit -> limit <= length dels + n ->
  exists N s', J s' /\ forall fuel,
    pagesLoop (N + fuel) status (Some f) want size [] dels (Z.of_nat (length dels)) s =
    (s', Ok (take limit (dels ++ concat (replicate n (yes ds))))).
Proof.
  induction n as [|n IH]; intros dels s Hs Hst Hy Hlen Hn; [lia|].
  assert (0 < pageSize) as Hsz by (apply pageSize_pos; lia). simpl concat.
  destruct (decide (limit <= length (dels ++ yes ds))) as [Hl|Hl].
  - destruct (pass_ends (S k) 0 [] dels s) as (s1 & Hs1 & Hr); [done|by left|lia|done|simpl in *; lia|by left|].
    exists (S (S k)), s1. split; [done|]. intros fuel. rewrite (Hr fuel), drop_0.
    by rewrite app_assoc, (take_app_le (dels ++ _)) by done.
  - destruct (pass_restarts k 0 [] dels s) as (s1 & Hs1 & Hr);
      [done|by left|lia|rewrite drop_0; lia|lia|]. rewrite drop_0 in Hr.
    assert (length (yes ds) <> 0) as Hy' by (by intros ?%length_zero_iff_nil).
    destruct (IH (dels ++ yes ds) s1 Hs1) as (N & s2 & Hs2 & HN);
      [done|done|lia|rewrite length_app; lia|].
    exists (S k + N), s2. split; [done|]. intros fuel.
    rewrite <- Nat.add_assoc, (Hr (N + fuel)), HN. by rewrite app_assoc.
Qed.

Lemma pages_run_out K fuel : forall pos k key s,
  length store = S K * pageSize -> J s -> at_pos keyAt key pos -> 0 < limit -> yes ds = [] ->
  length store = pos + S k * pageSize ->
  (pagesLoop fuel status (Some f) want size key [] 0 s).2 = OutOfFuel.
Proof.
  induction fuel as [|fuel IH]; intros pos k key s HK Hs Hk Hpos Hy Hst.
  { cbn [pagesLoop]. by rewrite bool_decide_true by lia. }
  destruct (pagesLoop_step pos key [] s) as (s1 & Hs1 & Hstep); [done..|lia|].
  assert (yes (take pageSize (drop pos ds)) = []) as Hyp.
  { pose proof (yes_page pos) as Hpg. rewrite <- (take_drop pos ds), filter_app in Hy.
    apply app_eq_nil in Hy as [_ Hy]. rewrite Hy in Hpg. symmetry in Hpg.
    by apply app_eq_nil in Hpg as [? _]. }
  destruct (Hstep fuel) as (_ & _ & Hnext). rewrite Hyp in Hnext.
  change 0%Z with (Z.of_nat (length (@nil Delegation))). rewrite Hnext by (simpl in *; lia).
  destruct k as [|k].
  - rewrite bool_decide_false by (simpl in *; lia). apply (IH 0 K); try done. by left.
  - pose proof (pageSize_pos Hpos). rewrite bool_decide_true by (simpl in *; lia).
    apply (IH (pos + pageSize) k); try done; [by right|simpl in *; lia].
Qed.

Lemma queryDelegations_first fuel s :
  J s -> 0 < limit -> length store / pageSize < fuel ->
  limit <= length (yes ds) \/ length store mod pageSize <> 0 \/ store = [] ->
  exists s', J s' /\
    queryDelegationsWithStatus fuel status want (Some f) s = (s', Ok (take limit (yes ds))).
Proof.
  intros Hs Hpos Hf Hend. pose proof (pageSize_pos Hpos) as Hsz.
  set (k := length store / pageSize) in *.
  assert (length store < 0 + S k * pageSize) as Hk.
  { pose proof (Nat.div_mod_eq (length store) pageSize) as Hdm.
    pose proof (Nat.mod_upper_bound (length store) pageSize). fold k in Hdm. lia. }
  destruct (pass_ends k 0 [] [] s) as (s1 & Hs1 & Hr); [done|by left|done|done|lia| |].
  { rewrite drop_0, Nat.sub_0_r. destruct Hend as [?|[?|Hst]]; [by left|by right; left|].
    right; right. by rewrite Hst. }
  exists s1. split; [done|]. rewrite query_is_loop.
  replace fuel with (S k + (fuel - S k)) by lia. by rewrite Hr.
Qed.

(** ** Properties of queryDelegationsWithStatus *)

(** C24: the query returns the first [limit] delegations of the store that the
    filter accepts, in order and without repetition, after at most one query
    per started page, provided the walk ends: the store has enough accepted
    delegations, or does not consist of full pages only. *)
Theorem queryDelegations_correct fuel s :
  J s -> 0 < limit -> length store / pageSize < fuel ->
  limit <= length (yes ds) \/ length store mod pageSize <> 0 \/ store = [] ->
  exists s', J s' /\
    queryDelegationsWithStatus fuel status want (Some f) s = (s', Ok (take limit (yes ds))).
Proof. apply queryDelegations_first. Qed.

(** When the store consists of full pages only (and has at least one), the empty
    next key of the last page is used as the key of the first one: the query
    starts over and returns accepted delegations several times, until the
    limit is reached. *)
Theorem queryDelegations_repeats k s :
  J s -> 0 < limit -> length store = S k * pageSize -> yes ds <> [] ->
  exists N s', J s' /\ forall fuel, N <= fuel ->
    queryDelegationsWithStatus fuel status want (Some f) s =
    (s', Ok (take limit (concat (replicate limit (yes ds))))).
Proof.
  intros Hs Hpos Hst Hy. destruct (passes_fill k limit [] s) as (N & s1 & Hs1 & HN); [done..|].
  exists N, s1. split; [done|]. intros fuel Hf. rewrite query_is_loop.
  replace fuel with (N + (fuel - N)) by lia. by rewrite HN.
Qed.

(** C33: on such a store, a filter that accepts nothing (as when this covenant
    member has signed all pending delegations) makes the query loop for ever:
    no number of pages is enough. *)
Theorem queryDelegations_diverges k fuel s :
  J s -> 0 < limit -> length store = S k * pageSize -> yes ds = [] ->
  (queryDelegationsWithStatus fuel status want (Some f) s).2 = OutOfFuel.
Proof.
  intros Hs Hpos Hst Hy. rewrite query_is_loop. apply (pages_run_out k fuel 0 k); try done. by left.
Qed.

End Delegations.
