(* ===== verification/SystemProps.v ===== *)
(** * The emulator on top of the client controller

    Theorems that join covenant/covenant.go and clientcontroller/babylon.go:
    what becomes of the signatures of a batch. *)
From S2P Require Import Prelude GoStd BtcLib Types Env ClientController Emulator ControllerProps SubmitProps.
Local Open Scope Z_scope.

Section System.
Context `{BL : BtcLib} {W : Type} `{!Clock W} `{BC : !BbnClient W}.
Variables (ce : Emulator W) (bc : BabylonController) (fuel : nat).
Hypothesis Hcc : ce_cc ce = babylonClientController bc fuel.

Lemma submit_is_babylon sigs : SubmitCovenantSigs (ce_cc ce) sigs = bc_SubmitCovenantSigs bc sigs.
Proof. by rewrite Hcc. Qed.

(** A batch in which every delegation is skipped is not a success: the empty
    list of signatures is still submitted, the resending loop makes no turn and
    the handler fails with an error that wraps nil. *)
Theorem nothing_signed_is_an_error btcDels s s1 :
  btcDels <> [] -> signLoop ce btcDels [] s = (s1, Ok []) ->
  (AddCovenantSignatures ce btcDels s).2 = Err "failed to send batch of msgs: %!w(<nil>)".
Proof.
  intros Hne Hs. unfold AddCovenantSignatures. rewrite bool_decide_false by done.
  erewrite bind_run_Ok by exact Hs. rewrite submit_is_babylon.
  erewrite bind_run_Ok; [|unfold attempt; by rewrite SubmitCovenantSigs_empty]. done.
Qed.

(** ** Delivery *)

Variables (verdict : Msg -> option error) (delivered : W -> list Msg) (addr : string).

(** The message for the signatures of one delegation. *)
Definition msgOf (covSig : CovenantSigs) : Msg := AddCovenantSigsMsg {|
  mc_Signer := addr;
  mc_Pk := NewBIP340PubKeyFromBTCPK (cs_PublicKey covSig);
  mc_StakingTxHash := HashString (cs_StakingTxHash covSig);
  mc_SlashingTxSigs := cs_SlashingSigs covSig;
  mc_UnbondingTxSig := NewBIP340SignatureFromBTCSig (cs_UnbondingSig covSig);
  mc_SlashingUnbondingTxSigs := cs_SlashingUnbondingSigs covSig;
  mc_StakeExpansionTxSig := NewBIP340SignatureFromBTCSig <$> cs_StkExpSig covSig |}.

(** The controller's key is in its keyring, and neither reading it nor the
    clock sends anything. *)
Record QuietKeyring : Prop := {
  quiet_signer : forall s : Sys W, exists s', mustGetTxSigner bc s = (s', Ok addr) /\
    delivered (world s') = delivered (world s);
  quiet_clock : forall w, delivered (Now w).1 = delivered w
}.

Lemma mapM_msgOf (QK : QuietKeyring) sigs : forall s : Sys W,
  exists s', mapM (toMsgAddCovenantSigs bc) sigs s = (s', Ok (msgOf <$> sigs)) /\
    delivered (world s') = delivered (world s).
Proof.
  induction sigs as [|x sigs IH]; intros s; [by exists s|].
  destruct (quiet_signer QK s) as (s1 & H1 & Hd1). destruct (IH s1) as (s2 & H2 & Hd2).
  exists s2. split; [|congruence]. simpl.
  erewrite bind_run_Ok.
  2:{ unfold toMsgAddCovenantSigs. erewrite bind_run_Ok by exact H1. reflexivity. }
  erewrite bind_run_Ok by exact H2. done.
Qed.

Lemma handler_delivers btcDels s s1 sigs :
  AtomicChain verdict delivered -> QuietKeyring ->
  btcDels <> [] -> signLoop ce btcDels [] s = (s1, Ok sigs) -> Z.of_nat (length sigs) < 2 ^ 63 ->
  (length (reasons verdict (msgOf <$> sigs)) < turns bc (slice_of (msgOf <$> sigs)))%nat ->
  exists s' r, AddCovenantSignatures ce btcDels s = (s', Ok r) /\
    delivered (world s') = delivered (world s1) ++ filter (accepted verdict) (msgOf <$> sigs).
Proof.
  intros AC QK Hne Hs Hlen Hbad. unfold AddCovenantSignatures. rewrite bool_decide_false by done.
  erewrite bind_run_Ok by exact Hs. rewrite submit_is_babylon.
  destruct (mapM_msgOf QK sigs s1) as (s2 & H2 & Hd2).
  destruct (resendLoop_delivers verdict delivered AC (turns bc (slice_of (msgOf <$> sigs))) None
              (slice_of (msgOf <$> sigs)) s2) as (s3 & r & H3 & Hd3).
  { apply slice_of_ok. }
  { simpl. by rewrite length_fmap. }
  { by rewrite view_slice_of. }
  erewrite bind_run_Ok.
  2:{ unfold attempt, bc_SubmitCovenantSigs. erewrite bind_run_Ok by exact H2.
      unfold reliablySendMsgsResendingOnMsgErr. unfold turns in H3. rewrite H3. reflexivity. }
  unfold timeNow, mbind, M_bind, ext.
  pose proof (quiet_clock QK (world s3)) as Hc. destruct (Now (world s3)) as [w t].
  eexists _, r. split; [reflexivity|]. simpl in *. rewrite Hc, Hd3, Hd2. by rewrite view_slice_of.
Qed.

(** The signatures collected for a batch reach the chain: the handler
    succeeds and exactly the messages the chain accepts are executed, in the
    order of the delegations, as long as fewer are refused than the resending
    loop may take turns. *)
Theorem signatures_are_delivered btcDels s s1 sigs :
  AtomicChain verdict delivered -> QuietKeyring ->
  btcDels <> [] -> signLoop ce btcDels [] s = (s1, Ok sigs) -> Z.of_nat (length sigs) < 2 ^ 63 ->
  (length (reasons verdict (msgOf <$> sigs)) < turns bc (slice_of (msgOf <$> sigs)))%nat ->
  exists s' r, AddCovenantSignatures ce btcDels s = (s', Ok r) /\
    delivered (world s') = delivered (world s1) ++ filter (accepted verdict) (msgOf <$> sigs).
Proof. apply handler_delivers. Qed.

End System.
