(* ===== verification/RoundProps.v ===== *)
(** * A whole round of the emulator

    While the node's answers do not change, a round is a function of them: this
    file computes the signatures of a delegation in the option monad
    ([signedFor]), proves that they are the ones the covenant's rules determine
    and that the loop, the handler and the round of covenant/covenant.go make
    and deliver exactly these. *)
From S2P Require Import Prelude GoStd BtcLib Types Env ParamsCache ClientController Emulator EmulatorProps ControllerProps SubmitProps PagingProps SystemProps.
Local Open Scope Z_scope.

(** ** The handler in a steady environment *)

Definition going {A} (r : res (step A)) : option A :=
  match r with Ok (Go a) => Some a | _ => None end.

Lemma going_Some {A} (r : res (step A)) a : going r = Some a <-> r = Ok (Go a).
Proof. destruct r as [[]| | |]; naive_solver. Qed.

Section Signing.
Context `{BL : BtcLib} {W : Type} `{!Clock W}.
Variable ce : Emulator W.

(** The answers: parameters by version, delegations by staking transaction
    hash, signatures by request; [None] is an error. *)
Variables (params : Z -> option StakingParams) (prevs : string -> option Delegation).
Variable sign : SigningRequest -> option SignaturesResponse.

(** The stake expansion part of the request. *)
Definition stkExpFor (del : Delegation) (se : DelegationStakeExpansion) : option SigningRequestStkExp :=
  out ← okOf (stakeExpValidateBasic del);
  prevDel ← prevs (PreviousStakingTxHashHex se);
  tx ← okOf (NewBTCTxFromHex (del_StakingTxHex prevDel));
  p ← params (del_ParamsVersion prevDel);
  paths ← okOf (pkScriptPathSlashAndUnbond prevDel p (BTCNetParams ce));
  Some {| se_PreviousActiveStakeTx := tx; se_OtherFundingOutput := out;
          se_PreviousStakingOutputIdx := del_StakingOutputIdx prevDel;
          se_PreviousActiveStakeUnbondingPkScriptPath := paths.2 |}.

Definition requestFor (del : Delegation) : option SigningRequest :=
  ud ← del_BtcUndelegation del;
  p ← params (del_ParamsVersion del);
  _ ← going (checkAgainstParams p del);
  base ← going (buildSigningRequest p (BTCNetParams ce) del ud);
  match del_StakeExpansion del with
  | None => Some base
  | Some se => withStakeExp base <$> stkExpFor del se
  end.

Definition signedFor (del : Delegation) : option CovenantSigs :=
  req ← requestFor del; sigsOf ce req <$> sign req.

Abbreviation P := (fun v p => params v = Some p).
Abbreviation D := (fun h d => prevs h = Some d).
Abbreviation R := (fun req resp => sign req = Some resp).

(** These are the requests and the signatures of the rules. *)
Lemma stkExpFor_spec del se e : del_StakeExpansion del = Some se ->
  stkExpFor del se = Some e <-> StkExpFor ce P D del e.
Proof.
  intros Hse. unfold stkExpFor, StkExpFor. split.
  - intros H. do 5 (apply bind_Some in H as (? & ? & H)). injection H as <-.
    repeat match goal with H : okOf _ = Some _ |- _ => apply okOf_Some in H end.
    match goal with H : _ = Ok ?x |- _ => destruct x as [a b] end.
    eexists se, _, _, a. simpl. split_and!; done.
  - intros (se' & prev & p & a & Hse' & H1 & H2 & H3 & H4 & H5 & H6). assert (se' = se) as -> by congruence.
    rewrite H1. simpl. rewrite H2. simpl. rewrite H4. simpl. rewrite H3. simpl. rewrite H6. simpl.
    rewrite <- H5. by destruct e.
Qed.

Lemma requestFor_spec del req : requestFor del = Some req <-> RequestFor ce P D del req.
Proof.
  unfold requestFor, RequestFor. split.
  - intros H. apply bind_Some in H as (ud & Hud & H). apply bind_Some in H as (p & Hp & H).
    apply bind_Some in H as ([] & Hc%going_Some & H). apply bind_Some in H as (base & Hb%going_Some & H).
    exists ud, p, base. pose proof (proj1 (checks_ValidFor p (BTCNetParams ce) del ud base) (conj Hud (conj Hc Hb))) as [_ Hv].
    split_and!; try done. destruct (del_StakeExpansion del) as [se|] eqn:Hse; [|congruence].
    apply fmap_Some in H as (e & He & ->). exists e. by rewrite <- (stkExpFor_spec del se e).
  - intros (ud & p & base & Hud & Hp & Hv & H). rewrite Hud. simpl. rewrite Hp. simpl.
    pose proof (proj2 (checks_ValidFor p (BTCNetParams ce) del ud base) (conj Hud Hv)) as (_ & -> & ->). simpl.
    destruct (del_StakeExpansion del) as [se|] eqn:Hse; [|by subst].
    destruct H as (e & He & ->). apply (stkExpFor_spec del se e Hse) in He as ->. done.
Qed.

Lemma signedFor_spec del sigs : signedFor del = Some sigs <-> SigsFor ce P D R del sigs.
Proof.
  unfold signedFor, SigsFor. rewrite bind_Some. split.
  - intros (req & Hr%requestFor_spec & (resp & Hs & ->)%fmap_Some). by exists req, resp.
  - intros (req & resp & Hr%requestFor_spec & Hs & ->). exists req. by rewrite Hs.
Qed.

(** The delegation comes with known parameters and nothing in its checks
    panics. *)
Record Calm (del : Delegation) : Prop := {
  calm_checks : exists p st, params (del_ParamsVersion del) = Some p /\ checkAgainstParams p del = Ok st /\
    forall ud, del_BtcUndelegation del = Some ud ->
      exists st, buildSigningRequest p (BTCNetParams ce) del ud = Ok st;
  calm_exp : forall se, del_StakeExpansion del = Some se ->
    returns (stakeExpValidateBasic del) /\
    forall prev, prevs (PreviousStakingTxHashHex se) = Some prev ->
      returns (NewBTCTxFromHex (del_StakingTxHex prev)) /\
      forall p, params (del_ParamsVersion prev) = Some p ->
        returns (pkScriptPathSlashAndUnbond prev p (BTCNetParams ce))
}.

(** While [J] holds, the environment gives these answers, the signer to the
    requests in [Pre]. *)
Record Steady (J : Sys W -> Prop) (Pre : SigningRequest -> Prop) : Prop := {
  st_local : Local J;
  st_now : yields J timeNow (fun _ => True);
  st_params : forall v, answers J (Get (ce_paramCache ce) v) (params v);
  st_delegation : forall h, answers J (QueryBTCDelegation (ce_cc ce) h) (prevs h);
  st_sign : forall req, Pre req -> answers J (ext (SignTransactions (ce_signer ce) req)) (sign req)
}.

Section Runs.
Variables (J : Sys W -> Prop) (Pre : SigningRequest -> Prop).
Hypothesis E : Steady J Pre.

#[local] Instance steady_local : Local J := st_local _ _ E.

Lemma yields_log {A} (f : Sys W -> Sys W) (m : M (Sys W) A) Q :
  (forall s, J s -> J (f s)) -> yields J m Q -> yields J (modify f;; m) Q.
Proof. intros Hf Hm. eapply yields_bind; [by apply yields_modify|]. by intros. Qed.

Lemma yields_skip {A} msg : yields J (skip msg) (fun r : option A => r = None).
Proof. apply yields_log; [intros; by apply local_log|]. by apply yields_ret. Qed.

Lemma answers_logged {A} (m : M (Sys W) A) msg o : answers J m o -> answers J (logged m msg) o.
Proof.
  intros Hm. unfold logged. eapply answers_after; [by apply answers_attempt|]. intros r Hr.
  destruct o as [a|]; [subst; apply answers_ret|]. destruct Hr as [e ->]. intros s Hs.
  eexists _, e. split; [done|]. by apply local_log.
Qed.

Lemma answers_buildStkExp del se : Calm del -> del_StakeExpansion del = Some se ->
  answers J (buildStkExpSigningRequest ce del) (stkExpFor del se).
Proof.
  intros [_ Hc] Hse. destruct (Hc se Hse) as [H1 H2]. unfold buildStkExpSigningRequest, stkExpFor. rewrite Hse.
  apply answers_bind; [by apply answers_logged, answers_lift|]. intros out _.
  apply answers_bind; [apply answers_logged, (st_delegation _ _ E)|]. intros prev Hp.
  destruct (H2 prev Hp) as [H3 H4].
  apply answers_bind; [by apply answers_logged, answers_lift|]. intros tx _.
  apply answers_bind; [apply answers_wrapErrM, (st_params _ _ E)|]. intros p Hq.
  apply answers_bind; [by apply answers_lift, H4|]. intros [a b] _. apply answers_ret.
Qed.

Lemma answers_sign req : Pre req -> answers J (ceSignTransactions ce req) (sign req).
Proof.
  intros Hreq. unfold ceSignTransactions.
  eapply answers_after; [apply (st_now _ _ E)|]. intros t1 _.
  eapply answers_after; [apply yields_modify; intros; by apply local_timer|]. intros _ _.
  assert (sign req ≫= Some = sign req) as <- by (by destruct (sign req)).
  apply answers_bind; [by apply (st_sign _ _ E)|]. intros resp _.
  eapply answers_after; [apply (st_now _ _ E)|]. intros t2 _.
  eapply answers_after; [apply yields_modify; intros; by apply local_timer|]. intros _ _.
  eapply answers_after; [apply (st_now _ _ E)|]. intros t3 _.
  eapply answers_after; [apply yields_modify; intros; by apply local_collectors|]. intros _ _. apply answers_ret.
Qed.

(** The signing part, for a delegation whose checks passed. *)
Lemma yields_signRequest del base : Calm del ->
  (forall req, RequestFor ce P D del req -> Pre req) -> forall ud p,
  del_BtcUndelegation del = Some ud -> params (del_ParamsVersion del) = Some p ->
  checkAgainstParams p del = Ok (Go tt) ->
  buildSigningRequest p (BTCNetParams ce) del ud = Ok (Go base) ->
  yields J (signRequest ce del base) (fun r => r = signedFor del).
Proof.
  intros Hcalm HPre ud p Hud Hp Hc Hb.
  assert (requestFor del = match del_StakeExpansion del with
                           | None => Some base
                           | Some se => withStakeExp base <$> stkExpFor del se
                           end) as Hreq.
  { unfold requestFor. rewrite Hud. simpl. rewrite Hp. simpl. rewrite Hc. simpl. by rewrite Hb. }
  unfold signRequest. eapply (yields_bind _ _ _ (fun r => match requestFor del with
    | Some req => r = inl req | None => exists e, r = inr e end)).
  - unfold IsStakeExpansion. rewrite Hreq. destruct (del_StakeExpansion del) as [se|] eqn:Hse.
    + rewrite bool_decide_true by eauto.
      eapply yields_bind; [by apply answers_attempt, (answers_buildStkExp del se)|]. intros r Hr.
      destruct (stkExpFor del se) as [e|]; [subst; by apply yields_ret|].
      destruct Hr as [err ->]. apply yields_ret. by eexists.
    + rewrite bool_decide_false by (by intros [? ?]). by apply yields_ret.
  - intros r Hr. unfold signedFor. destruct (requestFor del) as [req|] eqn:Hrq.
    2:{ destruct Hr as [e ->]. apply yields_skip. }
    subst r. eapply yields_bind; [apply answers_attempt, answers_sign, HPre; by apply requestFor_spec|].
    intros r Hr. simpl. destruct (sign req) as [resp|]; [subst; by apply yields_ret|].
    destruct Hr as [e ->]. apply yields_skip.
Qed.

Lemma yields_signDelegation del : Calm del ->
  (forall req, RequestFor ce P D del req -> Pre req) ->
  yields J (signDelegation ce (Some del)) (fun r => r = signedFor del).
Proof.
  intros Hcalm HPre. destruct (calm_checks _ Hcalm) as (p & st & Hp & Hst & Hb).
  unfold signDelegation. destruct (del_BtcUndelegation del) as [ud|] eqn:Hud.
  2:{ eapply yields_mono; [apply yields_skip|]. intros r ->. unfold signedFor, requestFor. by rewrite Hud. }
  destruct (Hb ud eq_refl) as [st' Hst'].
  eapply (yields_bind _ _ _ (fun q => q = p)).
  { pose proof (answers_wrapErrM J ("failed to get staking params with version "
                             +:+ pretty (del_ParamsVersion del)) _ _ (st_params _ _ E (del_ParamsVersion del))) as H.
    by rewrite Hp in H. }
  intros ? ->. rewrite Hst.
  eapply (yields_bind _ _ _ (fun q => q = st)); [apply (yields_ret _ st); done|]. intros ? ->.
  assert (forall msg, st = Skip msg \/ st' = Skip msg -> signedFor del = None) as Hskip.
  { intros msg H. unfold signedFor, requestFor. rewrite Hud. simpl. rewrite Hp. simpl. rewrite Hst. simpl.
    destruct H as [-> | ->]; [done|]. destruct st; [|done]. simpl. by rewrite Hst'. }
  destruct st as [[]|msg]; [|eapply yields_mono; [apply yields_skip|]; intros r ->; symmetry; eauto].
  rewrite Hst'. eapply (yields_bind _ _ _ (fun q => q = st')); [apply (yields_ret _ st'); done|]. intros ? ->.
  destruct st' as [base|msg]; [|eapply yields_mono; [apply yields_skip|]; intros r ->; symmetry; eauto].
  by apply (yields_signRequest del base Hcalm HPre ud p).
Qed.

(** The loop collects exactly the signatures of the batch. *)
Lemma yields_signLoop dels : forall acc,
  Forall Calm dels -> (forall del req, del ∈ dels -> RequestFor ce P D del req -> Pre req) ->
  yields J (signLoop ce (Some <$> dels) acc) (fun sigs => sigs = acc ++ omap signedFor dels).
Proof.
  induction dels as [|del dels IH]; intros acc Hcalm HPre.
  { apply yields_ret. by rewrite app_nil_r. }
  apply Forall_cons in Hcalm as [Hdel Hdels]. cbn [fmap list_fmap signLoop].
  eapply yields_bind; [apply yields_signDelegation; [done|]; intros req; apply HPre; left|].
  intros r ->. cbn [omap list_omap]. destruct (signedFor del) as [sigs|].
  - eapply yields_mono; [apply IH; [done|]; intros d req ?; apply HPre; by right|].
    intros r ->. by rewrite <- app_assoc.
  - apply IH; [done|]. intros d req ?. apply HPre. by right.
Qed.

End Runs.
End Signing.

(** ** Which pending delegations are taken *)

Section Filter.
Context `{BL : BtcLib} {W : Type} `{!Clock W}.
Variable ce : Emulator W.
Variables (params : Z -> option StakingParams) (prevs : string -> option Delegation).

Abbreviation inCommittee := (fun p : StakingParams => bool_decide (in_committee (ce_pk ce) (CovenantPks p))).

(** What acceptDelegationToSign answers; [None] is an error. *)
Definition acceptable (del : Delegation) : option bool :=
  prev ← match del_StakeExpansion del with
         | Some se => Some <$> prevs (PreviousStakingTxHashHex se)
         | None => Some None
         end;
  if bool_decide (signed_by (ce_pk ce) del) then Some false
  else
  p ← params (del_ParamsVersion del);
  if negb (inCommittee p) then Some false
  else match del_StakeExpansion del, prev with
  | None, _ => Some true
  | Some _, None => None
  | Some se, Some prevDel =>
      tx ← okOf (NewBTCTxFromHex (del_StakingTxHex prevDel));
      if bool_decide (HashString (TxHash tx) <> PreviousStakingTxHashHex se) then None
      else inCommittee <$> params (del_ParamsVersion prevDel)
  end.

Lemma answers_IsKeyInCommittee (J : Sys W -> Prop) del :
  (forall v, answers J (Get (ce_paramCache ce) v) (params v)) ->
  answers J (IsKeyInCommittee (ce_paramCache ce) (SerializePubKey (ce_pk ce)) del)
    (inCommittee <$> params (del_ParamsVersion del)).
Proof.
  intros Hp. unfold IsKeyInCommittee.
  assert (forall o : option StakingParams, inCommittee <$> o = o ≫= (fun p => Some (inCommittee p))) as ->
    by (by intros []).
  apply answers_bind; [apply answers_wrapErrM, Hp|]. intros p _. rewrite keyInCommittee_decides. apply answers_ret.
Qed.

Lemma answers_accept (J : Sys W -> Prop) Pre sign del :
  Steady ce params prevs sign J Pre ->
  (forall se prev, del_StakeExpansion del = Some se -> prevs (PreviousStakingTxHashHex se) = Some prev ->
     returns (NewBTCTxFromHex (del_StakingTxHex prev))) ->
  answers J (acceptDelegationToSign ce del) (acceptable del).
Proof.
  intros E Hcalm. unfold acceptDelegationToSign, acceptable.
  apply answers_bind.
  { unfold IsStakeExpansion, derefStakeExpansion. destruct (del_StakeExpansion del) as [se|].
    - rewrite bool_decide_true by eauto. eapply answers_after; [by apply (yields_ret _ se (fun x => x = se))|].
      intros ? ->. assert (forall o : option Delegation, Some <$> o = o ≫= (fun d => Some (Some d))) as ->
        by (by intros []).
      apply answers_bind; [apply answers_wrapErrM, (st_delegation _ _ _ _ _ _ E)|]. intros d _. apply answers_ret.
    - rewrite bool_decide_false by (by intros [? ?]). apply answers_ret. }
  intros prev Hprev. unfold AcceptDelegationToSign. rewrite AlreadySigned_spec.
  case_bool_decide; [apply answers_ret|].
  assert (forall (o : option StakingParams) (f : bool -> option bool),
    (o ≫= fun p => f (inCommittee p)) = (inCommittee <$> o) ≫= f) as Hf by (by intros []).
  rewrite (Hf _ (fun b => if negb b then _ else _)).
  apply answers_bind;
    [apply answers_wrapErrM, answers_IsKeyInCommittee, (st_params _ _ _ _ _ _ E)|].
  intros b _. destruct b; [|apply answers_ret]. simpl. unfold IsStakeExpansion.
  destruct (del_StakeExpansion del) as [se|] eqn:Hse.
  2:{ rewrite bool_decide_false by (by intros [? ?]). apply answers_ret. }
  rewrite bool_decide_true by eauto. apply fmap_Some in Hprev as (prevDel & Hp & ->).
  unfold ValidateStakeExpansion, derefStakeExpansion. rewrite Hse.
  apply answers_bind.
  { apply answers_lift_wrapErr. by apply (Hcalm se). }
  intros tx _. eapply answers_after; [by apply (yields_ret _ se (fun x => x = se))|]. intros ? ->.
  case_bool_decide; [intros s Hs; by eexists s, _|].
  apply answers_wrapErrM, answers_IsKeyInCommittee, (st_params _ _ _ _ _ _ E).
Qed.

(** It accepts by the rules of [AcceptDelegationToSign_true]. *)
Lemma acceptable_true del : acceptable del = Some true <->
  ~ signed_by (ce_pk ce) del /\
  exists p, params (del_ParamsVersion del) = Some p /\ in_committee (ce_pk ce) (CovenantPks p) /\
    forall se, del_StakeExpansion del = Some se -> exists prev tx q,
      prevs (PreviousStakingTxHashHex se) = Some prev /\ NewBTCTxFromHex (del_StakingTxHex prev) = Ok tx /\
      HashString (TxHash tx) = PreviousStakingTxHashHex se /\
      params (del_ParamsVersion prev) = Some q /\ in_committee (ce_pk ce) (CovenantPks q).
Proof.
  unfold acceptable. split.
  - intros H. apply bind_Some in H as (prev & Hprev & H). case_bool_decide as Hsig; [done|]. split; [done|].
    apply bind_Some in H as (p & Hp & H). case_bool_decide as Hk; [|done]. simpl in H.
    exists p. split; [done|]. split; [done|]. intros se Hse. rewrite Hse in H, Hprev.
    apply fmap_Some in Hprev as (d & Hd & ->). apply bind_Some in H as (tx & Htx%okOf_Some & H).
    case_bool_decide as Hh; [done|]. apply fmap_Some in H as (q & Hq & Hc).
    exists d, tx, q. split_and!; try done. symmetry in Hc. by apply bool_decide_eq_true in Hc.
  - intros (Hsig & p & Hp & Hk & H). rewrite Hp, (bool_decide_false (signed_by _ _)) by done. cbn [mbind option_bind].
    rewrite (bool_decide_true (in_committee _ (CovenantPks p))) by done.
    destruct (del_StakeExpansion del) as [se|]; [|done].
    destruct (H se eq_refl) as (prev & tx & q & Hd & Htx & Hh & Hq & Hc).
    rewrite Hd. simpl. rewrite Htx. simpl. rewrite bool_decide_false by (by intros []).
    rewrite Hq. simpl. by rewrite bool_decide_true.
Qed.

End Filter.

(** ** Delivery *)

Section Round.
Context `{BL : BtcLib} {W : Type} `{!Clock W} `{BC : !BbnClient W}.
Variables (ce : Emulator W) (bc : BabylonController) (fuel : nat).
Variables (params : Z -> option StakingParams) (prevs : string -> option Delegation).
Variable sign : SigningRequest -> option SignaturesResponse.
Variables (verdict : Msg -> option error) (delivered : W -> list Msg) (addr : string).
(** The pending delegations the node stores, by the messages it has executed,
    and what is kept all along. *)
Variables (store : list Msg -> list BTCDelegationResponse) (ds : list Msg -> list Delegation).
Variable keyAt : nat -> bytes.
Variable J : Sys W -> Prop.

Abbreviation Requested := (fun req => exists L del, del ∈ ds L /\
  RequestFor ce (fun v p => params v = Some p) (fun h d => prevs h = Some d) del req).

(** [J] holds and [L] has been delivered. *)
Definition JL (L : list Msg) (s : Sys W) : Prop := J s /\ delivered (world s) = L.

(** The emulator on a node that answers with [params] and [prevs], stores
    [ds L] as pending delegations once it has executed [L], and executes transactions atomically. *)
Record System : Prop := {
  sys_cc : ce_cc ce = babylonClientController bc fuel;
  sys_steady : forall L, Steady ce params prevs sign (JL L) Requested;
  sys_pages : forall L, Paginated (JL L) (store L) keyAt (fun r => ext (BTCDelegations PENDING r));
  sys_conv : forall L, Forall2 (fun r d => DelegationRespToDelegation r = Ok d) (store L) (ds L);
  sys_chain : AtomicChain verdict delivered;
  sys_keyring : QuietKeyring bc delivered addr;
  sys_send : forall msgs, keeps J (reliablySendMsgs msgs) (fun _ => True);
  sys_signer : keeps J (mustGetTxSigner bc) (fun _ => True)
}.

Hypothesis HS : System.

(** The messages the covenant owes the chain for these delegations. *)
Definition messages (dels : list Delegation) : list Msg :=
  msgOf addr <$> omap (signedFor ce params prevs sign) dels.

Lemma messages_app l1 l2 : messages (l1 ++ l2) = messages l1 ++ messages l2.
Proof. unfold messages. by rewrite omap_app, fmap_app. Qed.

(** A batch the resending loop gets through. *)
Definition deliverable (batch : list Delegation) : Prop :=
  Z.of_nat (length (messages batch)) < 2 ^ 63 /\
  (length (reasons verdict (messages batch)) < turns bc (slice_of (messages batch)))%nat.

Lemma keeps_JL {A} (m : M (Sys W) A) Q : (forall L, keeps (JL L) m Q) -> keeps J m Q.
Proof.
  intros H s Hs. destruct (H (delivered (world s)) s (conj Hs eq_refl)) as [[HJ _] HQ]. by split.
Qed.

Lemma J_local : Local J.
Proof.
  split; intros s x Hs.
  - by apply (local_log (Local := st_local _ _ _ _ _ _ (sys_steady HS (delivered (world s)))) s x).
  - by apply (local_timer (Local := st_local _ _ _ _ _ _ (sys_steady HS (delivered (world s)))) s x).
  - by apply (local_collectors (Local := st_local _ _ _ _ _ _ (sys_steady HS (delivered (world s)))) s x).
Qed.

Lemma keeps_handler L0 batch : batch ⊆ ds L0 -> keeps J (AddCovenantSignatures ce (Some <$> batch)) (fun _ => True).
Proof.
  intros Hsub. apply (keeps_AddCovenantSignatures ce (fun v p => params v = Some p) (fun h d => prevs h = Some d)
    (fun req resp => sign req = Some resp)). split.
  - apply J_local.
  - apply keeps_JL. intros L. eapply yields_keeps, (st_now _ _ _ _ _ _ (sys_steady HS L)).
  - intros v. apply keeps_JL. intros L. apply answers_keeps, (st_params _ _ _ _ _ _ (sys_steady HS L)).
  - intros h. apply keeps_JL. intros L. apply answers_keeps, (st_delegation _ _ _ _ _ _ (sys_steady HS L)).
  - intros sigs _. rewrite (sys_cc HS). by apply keeps_SubmitCovenantSigs; [apply (sys_send HS)|apply (sys_signer HS)].
  - intros req (del & Hin & Hreq). apply keeps_JL. intros L. apply answers_keeps, (st_sign _ _ _ _ _ _ (sys_steady HS L)).
    exists L0, del. split; [|done]. apply Hsub. apply list_elem_of_fmap in Hin as (? & [= <-] & ?). done.
Qed.

(** One batch. *)
Lemma handler_run L0 batch s :
  batch ⊆ ds L0 -> Forall (Calm ce params prevs) batch -> batch <> [] -> deliverable batch -> J s ->
  exists s' r, AddCovenantSignatures ce (Some <$> batch) s = (s', Ok r) /\ J s' /\
    delivered (world s') = delivered (world s) ++ filter (accepted verdict) (messages batch).
Proof.
  intros Hsub Hcalm Hne [Hlen Hturns] Hs.
  destruct (yields_signLoop ce params prevs sign _ _ (sys_steady HS (delivered (world s))) batch [] Hcalm)
    with (s := s) as (s1 & sigs & Hl & [Hs1 Hd1] & ->); [|done|].
  { intros del req Hin Hreq. exists L0, del. split; [by apply Hsub|done]. }
  destruct (handler_delivers ce bc fuel (sys_cc HS) verdict delivered addr (Some <$> batch) s s1
              (omap (signedFor ce params prevs sign) batch) (sys_chain HS) (sys_keyring HS))
    as (s' & r & Hr & Hd); [by destruct batch|done|unfold messages in Hlen; by rewrite length_fmap in Hlen|done|].
  exists s', r. split; [done|]. destruct (keeps_handler L0 batch Hsub s Hs) as [HJ _]. rewrite Hr in HJ.
  split; [done|]. by rewrite Hd, Hd1.
Qed.

(** A batch for which nothing was signed: the submission is refused, which
    changes nothing on the chain. *)
Lemma handler_nothing L0 batch s :
  batch ⊆ ds L0 -> Forall (Calm ce params prevs) batch -> messages batch = [] -> J s ->
  exists s' e, AddCovenantSignatures ce (Some <$> batch) s = (s', Err e) /\ J s' /\
    delivered (world s') = delivered (world s).
Proof.
  intros Hsub Hcalm Hnone Hs.
  assert (exists s' e, AddCovenantSignatures ce (Some <$> batch) s = (s', Err e) /\
    delivered (world s') = delivered (world s)) as (s' & e & Hr & Hd).
  { unfold AddCovenantSignatures. case_bool_decide; [by eexists s, _|].
    destruct (yields_signLoop ce params prevs sign _ _ (sys_steady HS (delivered (world s))) batch [] Hcalm)
      with (s := s) as (s1 & sigs & Hl & [_ Hd1] & ->); [|done|].
    { intros del req Hin Hreq. exists L0, del. split; [by apply Hsub|done]. }
    apply fmap_nil_inv in Hnone. rewrite Hnone in Hl. cbn [app] in Hl. erewrite bind_run_Ok by exact Hl.
    rewrite (submit_is_babylon ce bc fuel (sys_cc HS)).
    erewrite bind_run_Ok; [|unfold attempt; by rewrite SubmitCovenantSigs_empty].
    eexists _, _. split; [reflexivity|done]. }
  exists s', e. split_and!; [done| |done]. destruct (keeps_handler L0 batch Hsub s Hs) as [HJ _]. by rewrite Hr in HJ.
Qed.

(** All the batches: each gets through or has nothing to submit. *)
Definition passes (batch : list Delegation) : Prop := deliverable batch \/ messages batch = [].

Lemma submitBatches_run L0 batches : forall s,
  concat batches ⊆ ds L0 -> Forall (Calm ce params prevs) (concat batches) ->
  Forall (fun b => b <> [] /\ passes b) batches -> J s ->
  exists s', submitBatches ce batches s = (s', Ok tt) /\ J s' /\
    delivered (world s') = delivered (world s) ++ filter (accepted verdict) (messages (concat batches)).
Proof.
  induction batches as [|b batches IH]; intros s Hsub Hcalm Hgood Hs.
  { exists s. by rewrite app_nil_r. }
  apply Forall_cons in Hgood as [[Hne Hdel] Hgood]. simpl in Hsub, Hcalm. apply Forall_app in Hcalm as [Hc1 Hc2].
  assert (exists s1 r, attempt (AddCovenantSignatures ce (Some <$> b)) s = (s1, Ok r) /\ J s1 /\
    delivered (world s1) = delivered (world s) ++ filter (accepted verdict) (messages b)) as (s1 & r & H1 & Hs1 & Hd1).
  { unfold attempt. destruct Hdel as [Hdel|Hnone].
    - destruct (handler_run L0 b s) as (s1 & r & -> & Hs1 & Hd1); [set_solver|done..|]. by eexists _, _.
    - destruct (handler_nothing L0 b s) as (s1 & e & -> & Hs1 & Hd1); [set_solver|done..|].
      rewrite Hnone. eexists _, _. split; [done|]. split; [done|]. by rewrite Hd1, filter_nil, app_nil_r. }
  pose proof J_local as HJ.
  assert (exists s1', (r' ← attempt (AddCovenantSignatures ce (Some <$> b));
      match r' with
      | inl _ => mret tt
      | inr _ => logError "failed to submit covenant signatures for BTC delegations"
      end) s = (s1', Ok tt) /\ J s1' /\ delivered (world s1') = delivered (world s1)) as (s1' & H1' & Hs1' & Hd1').
  { erewrite bind_run_Ok by exact H1. destruct r as [r|e]; [by eexists|].
    eexists. split; [reflexivity|]. split; [by apply local_log|done]. }
  destruct (IH s1') as (s2 & H2 & Hs2 & Hd2); [set_solver|done..|].
  exists s2. split_and!; [|done|].
  - cbn [submitBatches]. erewrite bind_run_Ok in H1' by exact H1. erewrite bind_run_Ok by exact H1.
    by erewrite bind_run_Ok by exact H1'.
  - cbn [concat]. by rewrite Hd2, Hd1', Hd1, messages_app, filter_app, app_assoc.
Qed.

(** *** The whole round *)

(** acceptDelegationToSign comes to a decision on the delegation. *)
Definition decided (del : Delegation) : Prop :=
  is_Some (acceptable ce params prevs del) /\
  forall se prev, del_StakeExpansion del = Some se -> prevs (PreviousStakingTxHashHex se) = Some prev ->
    returns (NewBTCTxFromHex (del_StakingTxHex prev)).

(** The acceptable delegations; a round takes up the first [limit]. *)
Definition queue (L : list Msg) : list Delegation :=
  filter (fun d => acceptable ce params prevs d = Some true) (ds L).
Definition taken (L : list Msg) (limit : nat) : list Delegation := take limit (queue L).

Lemma taken_subseteq L limit : taken L limit ⊆ ds L.
Proof.
  unfold taken, queue. intros d Hd. apply elem_of_take in Hd as (i & Hd%list_elem_of_lookup_2 & _).
  by apply list_elem_of_filter in Hd as [_ Hd].
Qed.

(** The settings, and what a round needs of the store: it decides on every
    delegation, the walk over the pages ends, and no check panics on a
    delegation it takes up. *)
Record Settings (limit : nat) : Prop := {
  se_limit : DelegationLimit ce = Z.of_nat limit;
  se_range : (0 < limit)%nat /\ Z.of_nat limit < 2 ^ 63;
  se_batch : 0 < SigsBatchSize ce < 2 ^ 64
}.

Record Walkable (limit : nat) (L : list Msg) : Prop := {
  wk_decided : Forall decided (ds L);
  wk_fuel : (length (store L) / pageSize limit < fuel)%nat;
  wk_ends : (limit <= length (queue L) \/ length (store L) mod pageSize limit <> 0 \/ store L = [])%nat;
  wk_calm : Forall (Calm ce params prevs) (taken L limit)
}.

Lemma pending_run limit L s : Settings limit -> Walkable limit L -> JL L s ->
  exists s', JL L s' /\
    QueryPendingDelegations (ce_cc ce) (DelegationLimit ce) (Some (acceptDelegationToSign ce)) s = (s', Ok (taken L limit)).
Proof.
  intros [Hlim [Hpos _] _] [Hdec Hfuel Hend _] Hs. rewrite Hlim, (sys_cc HS).
  assert (forall l : list Delegation, filter (fun d => default false (acceptable ce params prevs d) = true) l
    = filter (fun d => acceptable ce params prevs d = Some true) l) as Hf.
  { intros l. apply list_filter_iff. intros d. destruct (acceptable ce params prevs d) as [[]|]; naive_solver. }
  destruct (queryDelegations_first (JL L) PENDING keyAt (store _) (ds _) (acceptDelegationToSign ce)
    (fun d => default false (acceptable ce params prevs d)) (sys_pages HS _) (sys_conv HS _)) with (limit := limit) (fuel := fuel) (s := s)
    as (s' & HJ & Hr); [|done..|by rewrite Hf|].
  - intros d s0 Hin Hs0. rewrite Forall_forall in Hdec. destruct (Hdec d Hin) as [[b Hb] Hret].
    apply yields_run; [|done]. pose proof (answers_accept ce params prevs _ _ _ d (sys_steady HS L) Hret) as H.
    by rewrite Hb in H |- *.
  - exists s'. split; [done|]. unfold taken, queue. rewrite <- Hf. exact Hr.
Qed.

(** A round is carried out: whatever the state it starts in, as long as the
    walk over the pages ends and every batch gets through, it takes up the
    first acceptable delegations and delivers for each of them whose checks
    pass and that the signer signs exactly the signatures of its request. *)
Definition batchesPass (dels : list Delegation) : Prop :=
  forall batches, delegationsToBatches (length dels) (SigsBatchSize ce) dels = Ok batches -> Forall passes batches.

Lemma round_run limit L s : Settings limit -> Walkable limit L -> batchesPass (taken L limit) -> JL L s ->
  exists s', submissionRound ce s = (s', Ok tt) /\
    JL (L ++ filter (accepted verdict) (messages (taken L limit))) s'.
Proof.
  intros HSet HW Hgood Hs. unfold submissionRound.
  destruct (pending_run limit L s) as (s1 & [Hs1 Hd1] & Hq); [done..|].
  erewrite bind_run_Ok; [|unfold attempt; by rewrite Hq]. cbv beta iota zeta.
  pose proof J_local as HJ. set (s2 := set_collectors (SetPending (Z.of_nat (length (taken L limit))) (collectors s1)) s1).
  erewrite (bind_run_Ok _ _ _ s2) by done.
  assert (J s2) as Hs2 by (by apply local_collectors). assert (world s2 = world s1) as Hw by done.
  case_bool_decide as Hz.
  - eexists. split; [done|]. split; [by apply local_log|]. simpl. rewrite Hd1.
    apply length_zero_iff_nil in Hz. unfold messages. rewrite Hz. simpl. by rewrite filter_nil, app_nil_r.
  - destruct (batches_partition (SigsBatchSize ce) (taken L limit)) as (batches & Hb & Hcat & Hsz & _);
      [apply (se_batch _ HSet)| |].
    { pose proof (se_range _ HSet). unfold taken. rewrite length_take. lia. }
    erewrite bind_run_Ok; [|unfold lift; by rewrite Hb].
    destruct (submitBatches_run L batches s2) as (s3 & H3 & Hs3 & Hd3).
    + rewrite Hcat. apply taken_subseteq.
    + rewrite Hcat. apply (wk_calm _ _ HW).
    + specialize (Hgood batches Hb). apply Forall_and. split; [|done].
      eapply Forall_impl; [exact Hsz|]. naive_solver.
    + done.
    + exists s3. split; [done|]. split; [done|]. by rewrite Hd3, Hw, Hd1, Hcat.
Qed.

End Round.
