(* ===== verification/Lifecycle.v ===== *)
(** * covenant/covenant.go: construction, start, stop and readiness

    The two goroutines of the emulator, the sync.Once of Start and Stop, the
    quit channel and the wait group, as a step relation over [Daemon].  One
    turn of a loop is one step: the submission loop runs [submissionRound]; a
    round that panics takes the whole process down, and a round that never
    ends ([OutOfFuel]) leaves its goroutine [Hung], where no step is left. *)
From S2P Require Import Prelude GoStd BtcLib Config Types Env ParamsCache Emulator.
Local Open Scope Z_scope.

Section Construction.
Context `{BL : BtcLib} {W : Type} `{RL : RetryLib}.

(** The configuration is read through the pointers it holds: a nil one for the
    metrics is dereferenced by the loop of the metrics. *)
Definition NewEmulator (config : Config) (metrics : MetricsConfig)
    (cc : ClientController W) (signer : Signer W) : M (Sys W) (Emulator W) :=
  pk ← wrapErrM "failed to get signer pub key" (ext (PubKey signer));
  mret {| ce_pk := pk; ce_signer := signer; ce_cc := cc;
          ce_paramCache := NewCacheVersionedParams cc;
          SigsBatchSize := cf_SigsBatchSize config; DelegationLimit := cf_DelegationLimit config;
          BTCNetParams := cf_BTCNetParams config; QueryInterval := cf_QueryInterval config;
          UpdateInterval := mc_UpdateInterval metrics |}.

Definition PublicKeyStr (ce : Emulator W) : string := EncodeToString (SerializePubKey (ce_pk ce)).

End Construction.

Inductive loopState := NotStarted | Spawned | AtSelect | Hung | Exited.
Inductive stopState := StopNotCalled | StopWaiting | StopDone.

Section Lifecycle.
Context `{BL : BtcLib} {W : Type} `{!Clock W}.
Variable ce : Emulator W.

Record Daemon := {
  d_sys : Sys W;
  startOnce : bool;            (* Start has run *)
  stopOnce : stopState;        (* the first call of Stop *)
  quit : bool;                 (* the quit channel is closed *)
  wg : Z;                      (* the counter of the wait group *)
  sigLoop : loopState;         (* covenantSigSubmissionLoop *)
  metLoop : loopState;         (* metricsUpdateLoop *)
  crashed : bool               (* a goroutine has panicked *)
}.

Definition newDaemon (s : Sys W) : Daemon := {|
  d_sys := s; startOnce := false; stopOnce := StopNotCalled; quit := false; wg := 0;
  sigLoop := NotStarted; metLoop := NotStarted; crashed := false |}.

(** Start: the body of startOnce.Do, or nothing *)
Definition Start (d : Daemon) : Daemon :=
  if startOnce d then d
  else {| d_sys := add_log (Log InfoL "Starting Covenant Emulator") (d_sys d);
          startOnce := true; stopOnce := stopOnce d; quit := quit d; wg := wg d + 2;
          sigLoop := Spawned; metLoop := Spawned; crashed := crashed d |}.

(** Stop up to wg.Wait *)
Definition StopBegin (d : Daemon) : Daemon :=
  {| d_sys := add_log (Log InfoL "Stopping Covenant Emulator") (d_sys d);
     startOnce := startOnce d; stopOnce := StopWaiting; quit := true; wg := wg d;
     sigLoop := sigLoop d; metLoop := metLoop d; crashed := crashed d |}.

(** the rest of Stop, once the counter is zero *)
Definition StopEnd (d : Daemon) : Daemon :=
  {| d_sys := add_log (Log DebugL "Covenant Emulator successfully stopped") (d_sys d);
     startOnce := startOnce d; stopOnce := StopDone; quit := quit d; wg := wg d;
     sigLoop := sigLoop d; metLoop := metLoop d; crashed := crashed d |}.

Definition setSig (d : Daemon) (s : Sys W) (l : loopState) (n : Z) (c : bool) : Daemon :=
  {| d_sys := s; startOnce := startOnce d; stopOnce := stopOnce d; quit := quit d; wg := n;
     sigLoop := l; metLoop := metLoop d; crashed := c |}.

Definition setMet (d : Daemon) (s : Sys W) (l : loopState) (n : Z) (c : bool) : Daemon :=
  {| d_sys := s; startOnce := startOnce d; stopOnce := stopOnce d; quit := quit d; wg := n;
     sigLoop := sigLoop d; metLoop := l; crashed := c |}.

(** The case of the ticker in metricsUpdateLoop: the clock is only read after
    the first submission. *)
Definition metricsRound : M (Sys W) unit :=
  mt ← gets metricsTimeKeeper;
  match previousSubmission mt, previousLocalSignStart mt, previousLocalSignFinish mt with
  | Some _, Some _, Some _ =>
      t1 ← timeNow; t2 ← timeNow; t3 ← timeNow;
      onCollectors (UpdatePrometheusMetrics t1 t2 t3 mt)
  | _, _, _ => mret tt
  end.

Inductive dstep : Daemon -> Daemon -> Prop :=
| step_start d : crashed d = false -> dstep d (Start d)
| step_stop d : crashed d = false -> stopOnce d = StopNotCalled -> dstep d (StopBegin d)
| step_stop_end d : crashed d = false -> stopOnce d = StopWaiting -> wg d = 0 -> dstep d (StopEnd d)
| step_tick d s' : crashed d = false -> sigLoop d = AtSelect ->
    submissionRound ce (d_sys d) = (s', Ok tt) -> dstep d (setSig d s' AtSelect (wg d) false)
| step_tick_panic d s' m : crashed d = false -> sigLoop d = AtSelect ->
    submissionRound ce (d_sys d) = (s', Panic m) -> dstep d (setSig d s' AtSelect (wg d) true)
| step_tick_hang d s' : crashed d = false -> sigLoop d = AtSelect ->
    submissionRound ce (d_sys d) = (s', OutOfFuel) -> dstep d (setSig d s' Hung (wg d) false)
| step_sig_quit d : crashed d = false -> sigLoop d = AtSelect -> quit d = true ->
    dstep d (setSig d (add_log (Log DebugL "exiting covenant signature submission loop") (d_sys d))
               Exited (wg d - 1) false)
| step_met_tick d s' : crashed d = false -> metLoop d = AtSelect ->
    metricsRound (d_sys d) = (s', Ok tt) -> dstep d (setMet d s' AtSelect (wg d) false)
| step_met_quit d : crashed d = false -> metLoop d = AtSelect -> quit d = true ->
    dstep d (setMet d (add_log (Log InfoL "exiting metrics update loop") (d_sys d)) Exited (wg d - 1) false)
(** the start of each goroutine: time.NewTicker panics unless its interval is
    positive *)
| step_sig_begin d : crashed d = false -> sigLoop d = Spawned -> 0 < QueryInterval ce ->
    dstep d (setSig d (add_log (Log InfoL "starting signature submission loop") (d_sys d)) AtSelect (wg d) false)
| step_sig_noTicker d : crashed d = false -> sigLoop d = Spawned -> QueryInterval ce <= 0 ->
    dstep d (setSig d (d_sys d) Spawned (wg d) true)
| step_met_begin d : crashed d = false -> metLoop d = Spawned -> 0 < UpdateInterval ce ->
    dstep d (setMet d (add_log (Log InfoL "starting metrics update loop") (d_sys d)) AtSelect (wg d) false)
| step_met_noTicker d : crashed d = false -> metLoop d = Spawned -> UpdateInterval ce <= 0 ->
    dstep d (setMet d (add_log (Log InfoL "starting metrics update loop") (d_sys d)) Spawned (wg d) true).

(** CheckReadiness, on the emulator as it is when it is called *)
Definition onSys {A} (m : M (Sys W) A) : M Daemon A := fun d =>
  let '(s, r) := m (d_sys d) in
  ({| d_sys := s; startOnce := startOnce d; stopOnce := stopOnce d; quit := quit d; wg := wg d;
      sigLoop := sigLoop d; metLoop := metLoop d; crashed := crashed d |}, r).

Definition CheckReadiness : M Daemon unit :=
  stopped ← gets quit;
  if stopped : bool then fail "emulator is not running"
  else
    wrapErrM "failed to get public key from covenant signer" (onSys (ext (PubKey (ce_signer ce))));;
    mret tt.

(** ** Lemmas *)

Definition live (l : loopState) : Z :=
  match l with Spawned | AtSelect | Hung => 1 | NotStarted | Exited => 0 end.

(** The wait group counts the running loops, the loops exist exactly after
    Start, they only leave after the quit channel is closed, and that happens
    exactly when Stop is called. *)
Record dinv (d : Daemon) : Prop := {
  inv_wg : wg d = live (sigLoop d) + live (metLoop d);
  inv_started : startOnce d = false <-> sigLoop d = NotStarted;
  inv_started_met : startOnce d = false <-> metLoop d = NotStarted;
  inv_quit : quit d = true <-> stopOnce d <> StopNotCalled;
  inv_exit : sigLoop d = Exited \/ metLoop d = Exited -> quit d = true
}.

Lemma dinv_step d d' : dinv d -> dstep d d' -> dinv d'.
Proof.
  intros [H1 H2 H3 H4 H5] Hs.
  destruct Hs as [d _|d _ Hn|d _ Hn Hw|d s' _ Hl _|d s' m _ Hl _|d s' _ Hl _|d _ Hl Hq|d s' _ Hl _|d _ Hl Hq
                 |d _ Hl _|d _ Hl _|d _ Hl _|d _ Hl _].
  { unfold Start. destruct (startOnce d) eqn:Hst; [by split; rewrite ?Hst|].
    assert (sigLoop d = NotStarted) as Hsl by tauto. assert (metLoop d = NotStarted) as Hml by tauto.
    rewrite Hsl, Hml in *. split; simpl in *; try done; intuition (lia || discriminate). }
  all: split; simpl; rewrite ?Hl, ?Hn in *; simpl in *; try done; try lia.
  all: intuition discriminate.
Qed.

Lemma dinv_reachable s d : rtc dstep (newDaemon s) d -> dinv d.
Proof.
  intros Hr. assert (dinv (newDaemon s)) as H0 by (split; simpl; [done..|by intros [?|?]]).
  induction Hr as [d|d d1 d2 Hd _ IH]; [done|]. by apply IH, (dinv_step d).
Qed.

(** The steps of the goroutines themselves. *)
Definition loopStep (d d' : Daemon) : Prop :=
  dstep d d' /\ crashed d = false /\ startOnce d' = startOnce d /\ stopOnce d' = stopOnce d /\ quit d' = quit d.

Lemma loopStep_dstep d d' : rtc loopStep d d' -> rtc dstep d d'.
Proof. intros H. eapply (rtc_congruence id); [|exact H]. by intros ? ? [? _]. Qed.

Lemma sig_exits d :
  0 < QueryInterval ce -> crashed d = false -> quit d = true -> sigLoop d <> Hung ->
  exists d1, rtc loopStep d d1 /\ live (sigLoop d1) = 0 /\ metLoop d1 = metLoop d /\
    crashed d1 = false /\ quit d1 = true /\ stopOnce d1 = stopOnce d.
Proof.
  intros Hi Hc Hq Hh.
  assert (forall d, crashed d = false -> quit d = true -> sigLoop d = AtSelect ->
    exists d1, rtc loopStep d d1 /\ live (sigLoop d1) = 0 /\ metLoop d1 = metLoop d /\
      crashed d1 = false /\ quit d1 = true /\ stopOnce d1 = stopOnce d) as Hsel.
  { intros d0 Hc0 Hq0 Hl. eexists. split; [apply rtc_once; split; [by apply step_sig_quit|done]|]. by simpl. }
  destruct (sigLoop d) eqn:Hl; [exists d; by rewrite Hl| |by apply Hsel|done|exists d; by rewrite Hl].
  destruct (Hsel (setSig d (add_log (Log InfoL "starting signature submission loop") (d_sys d)) AtSelect (wg d) false))
    as (d1 & R & ?); [done..|]. exists d1. split; [|done].
  eapply rtc_l; [|exact R]. by split; [apply step_sig_begin|].
Qed.

Lemma met_exits d :
  0 < UpdateInterval ce -> crashed d = false -> quit d = true -> metLoop d <> Hung ->
  exists d1, rtc loopStep d d1 /\ live (metLoop d1) = 0 /\ sigLoop d1 = sigLoop d /\
    crashed d1 = false /\ stopOnce d1 = stopOnce d.
Proof.
  intros Hi Hc Hq Hh.
  assert (forall d, crashed d = false -> quit d = true -> metLoop d = AtSelect ->
    exists d1, rtc loopStep d d1 /\ live (metLoop d1) = 0 /\ sigLoop d1 = sigLoop d /\
      crashed d1 = false /\ stopOnce d1 = stopOnce d) as Hsel.
  { intros d0 Hc0 Hq0 Hl. eexists. split; [apply rtc_once; split; [by apply step_met_quit|done]|]. by simpl. }
  destruct (metLoop d) eqn:Hl; [exists d; by rewrite Hl| |by apply Hsel|done|exists d; by rewrite Hl].
  destruct (Hsel (setMet d (add_log (Log InfoL "starting metrics update loop") (d_sys d)) AtSelect (wg d) false))
    as (d1 & R & ?); [done..|]. exists d1. split; [|done].
  eapply rtc_l; [|exact R]. by split; [apply step_met_begin|].
Qed.

Lemma metLoop_never_hung s d : rtc dstep (newDaemon s) d -> metLoop d <> Hung.
Proof.
  intros Hr. assert (metLoop (newDaemon s) <> Hung) as H0 by done.
  induction Hr as [d|d d1 d2 Hd _ IH]; [done|]. apply IH.
  destruct Hd; simpl; try done. unfold Start. by destruct (startOnce d).
Qed.

(** Once the quit channel is closed both loops can leave. *)
Lemma loops_leave s d :
  0 < QueryInterval ce -> 0 < UpdateInterval ce ->
  rtc dstep (newDaemon s) d -> crashed d = false -> quit d = true -> sigLoop d <> Hung ->
  exists d', rtc loopStep d d' /\ wg d' = 0 /\ stopOnce d' = stopOnce d /\ crashed d' = false.
Proof.
  intros Hqi Hui Hr Hc Hq Hh.
  destruct (sig_exits d Hqi Hc Hq Hh) as (d1 & R1 & L1 & M1 & C1 & Q1 & S1).
  destruct (met_exits d1 Hui C1 Q1) as (d2 & R2 & L2 & M2 & C2 & S2).
  { rewrite M1. by apply (metLoop_never_hung s). }
  exists d2. assert (rtc loopStep d d2) as R by (by etrans). split; [done|].
  assert (rtc dstep (newDaemon s) d2) as Hr2 by (etrans; [exact Hr|by apply loopStep_dstep]).
  pose proof (dinv_reachable s d2 Hr2) as [H1 _ _ _ _]. split; [rewrite H1, M2; lia|]. split; congruence.
Qed.

(** ** Properties *)

(** When Stop returns, both loops have ended: no goroutine of the emulator is
    running, and each loop was started at most once however often Start was
    called (the wait group counts exactly the running loops). *)
Theorem Stop_waits_for_loops s d d' :
  rtc dstep (newDaemon s) d -> dstep d d' -> stopOnce d <> StopDone -> stopOnce d' = StopDone ->
  live (sigLoop d') = 0 /\ live (metLoop d') = 0 /\ wg d' = 0 /\ quit d' = true.
Proof.
  intros Hr Hd Hn Hd'. pose proof (dinv_reachable s d Hr) as [H1 _ _ H4 _].
  destruct Hd as [d _|d _ Hs|d _ Hs Hw| | | | | | | | | |]; simpl in *; try done.
  - unfold Start in Hd'. destruct (startOnce d); done.
  - rewrite Hw in *. assert (quit d = true) as Hq by (apply H4; by rewrite Hs).
    destruct (sigLoop d), (metLoop d); simpl in *; lia || done.
Qed.

(** A Stop that has been called can always complete: from every reachable state
    where it waits, unless a round of the submission loop hangs or the process
    has crashed, the loops can leave and Stop return, for positive intervals. *)
Theorem Stop_can_complete s d :
  0 < QueryInterval ce -> 0 < UpdateInterval ce ->
  rtc dstep (newDaemon s) d -> stopOnce d = StopWaiting -> crashed d = false -> sigLoop d <> Hung ->
  exists d', rtc dstep d d' /\ stopOnce d' = StopDone.
Proof.
  intros Hqi Hui Hr Hs Hc Hh. pose proof (dinv_reachable s d Hr) as [_ _ _ H4 _].
  assert (quit d = true) as Hq by (apply H4; by rewrite Hs).
  destruct (loops_leave s d Hqi Hui Hr Hc Hq Hh) as (d2 & R & Hw & S2 & C2).
  exists (StopEnd d2). split; [|done]. eapply rtc_r; [by apply loopStep_dstep|].
  apply step_stop_end; [done|congruence|done].
Qed.

(** C35: a round that never ends keeps Stop from returning for ever: the wait group
    does not reach zero again. *)
Theorem hung_round_blocks_Stop s d d' :
  rtc dstep (newDaemon s) d -> sigLoop d = Hung -> stopOnce d <> StopDone ->
  rtc dstep d d' -> stopOnce d' <> StopDone /\ sigLoop d' = Hung.
Proof.
  intros Hr Hh Hs Hrtc. revert Hr Hh Hs.
  induction Hrtc as [d|d d1 d2 Hd _ IH]; intros Hr Hh Hs; [done|].
  pose proof (dinv_reachable s d Hr) as [H1 H2 _ _ _].
  assert (rtc dstep (newDaemon s) d1) as Hr1 by (by eapply rtc_r).
  rewrite Hh in H1. apply IH; [done|..]; destruct Hd; simpl in *; try congruence.
  - unfold Start. destruct (startOnce d) eqn:Ho; [done|]. rewrite Hh in H2. by destruct H2 as [H2 _]; discriminate H2.
  - unfold Start. by destruct (startOnce d).
  - destruct (metLoop d); simpl in *; lia.
Qed.

(** C36: with a query interval that is not positive, which configuration loading
    lets through, the submission loop never processes a delegation: it is not
    started, or started and unable to make its ticker; then it crashes the
    process as soon as it runs, and no Stop returns. *)
Theorem nonpositive_interval_crashes s d :
  QueryInterval ce <= 0 -> rtc dstep (newDaemon s) d ->
  (startOnce d = false /\ sigLoop d = NotStarted) \/
  (sigLoop d = Spawned /\ 0 < wg d /\
   (crashed d = true \/ exists d', dstep d d' /\ crashed d' = true)).
Proof.
  intros Hi Hr. pose proof (dinv_reachable s d Hr) as [H1 H2 _ _ _].
  assert (sigLoop d = NotStarted \/ sigLoop d = Spawned) as [Hd|Hd].
  { clear H1 H2. revert d Hr. apply (rtc_ind_r (fun d => sigLoop d = NotStarted \/ sigLoop d = Spawned)); [by left|].
    intros d1 d2 _ Hs IH. destruct Hs; simpl in *; try (destruct IH; congruence || lia); try done; [|by right].
    unfold Start. destruct (startOnce d); [done|by right]. }
  { left. by rewrite H2. }
  right. rewrite Hd in H1. split; [done|]. split; [destruct (metLoop d); simpl in *; lia|].
  destruct (crashed d) eqn:Hc; [by left|]. right. eexists. split; [by apply step_sig_noTicker|done].
Qed.

(** CheckReadiness does not look at the loops: before Start, an emulator
    whose signer answers reports itself ready. *)
Theorem ready_before_Start s w pk :
  PubKey (ce_signer ce) (world s) = (w, Ok pk) ->
  CheckReadiness (newDaemon s) = (newDaemon (set_world w s), Ok tt) /\
  sigLoop (newDaemon s) = NotStarted.
Proof.
  intros H. split; [|done]. unfold CheckReadiness. simpl.
  erewrite bind_run_Ok by reflexivity. simpl. erewrite bind_run_Ok; [reflexivity|].
  unfold wrapErrM, onSys, ext. simpl. by rewrite H.
Qed.

End Lifecycle.
