(* ===== verification/SignerApp.v ===== *)
(** * covenant-signer/: the signing application and its key stores

    signerapp/signer.go, the PrivKeyRetriever interface with its two
    implementations (hardcodedprivkeyretriever.go and
    keystore/cosmos/cosmoskeyretriever.go) and GetChainPrivKey of
    keystore/cosmos/keyringcontroller.go.

    A [*btcec.PrivateKey] is a pointer: keys live in the heap of [SignerSys] and
    are passed around as locations, because Lock zeroes the key that requests
    being served may still hold.  The sdk key that GetChainPrivKey returns is an
    object of its own, whose bytes btcec.PrivKeyFromBytes copies; [keyringKeys]
    lists those objects.  [interfere t] is what other requests do
    before the [t]-th use of the key by a method; the sequential program is the
    one where it is [mret tt] for every [t]. *)
From Stdlib Require Import Strings.String.
From S2P Require Import Prelude GoStd BtcLib.
Local Open Scope Z_scope.

(** ** The cosmos-sdk keyring *)

(** k.GetLocal().PrivKey.GetCachedValue() *)
Inductive CachedKey :=
| Secp256k1PrivKey (Key : bytes)
| OtherKeyType.

Class Keyring : Type := {
  KrRecord : Type;
  (* keyring.Key(uid), which reads the passphrase from its input *)
  KrKey : string -> string -> res KrRecord;
  (* panics when the record is not a local key *)
  LocalCachedKey : KrRecord -> res CachedKey
}.

Section SignerApp.
Context `{BL : BtcLib}.

(** ** State *)

Definition loc : Type := nat.

Record SignerSys := {
  heap : list PrivateKey;          (* the btcec private keys allocated so far *)
  keyringKeys : list bytes;        (* privKey.Key of the sdk keys the keyring decoded *)
  btcecPrivKey : option loc;       (* KeyringRetriever.btcecPrivKey *)
  input : string                   (* ChainKeyringController.input *)
}.

Definition set_heap (h : list PrivateKey) (s : SignerSys) : SignerSys :=
  {| heap := h; keyringKeys := keyringKeys s; btcecPrivKey := btcecPrivKey s; input := input s |}.
Definition set_key (k : option loc) (s : SignerSys) : SignerSys :=
  {| heap := heap s; keyringKeys := keyringKeys s; btcecPrivKey := k; input := input s |}.
Definition set_input (i : string) (s : SignerSys) : SignerSys :=
  {| heap := heap s; keyringKeys := keyringKeys s; btcecPrivKey := btcecPrivKey s; input := i |}.
Definition add_keyringKey (key : bytes) (s : SignerSys) : SignerSys :=
  {| heap := heap s; keyringKeys := keyringKeys s ++ [key]; btcecPrivKey := btcecPrivKey s; input := input s |}.

Definition initSigner : SignerSys := {| heap := []; keyringKeys := []; btcecPrivKey := None; input := "" |}.

(** A new private key object. *)
Definition alloc (k : PrivateKey) : M SignerSys loc := fun s =>
  (set_heap (heap s ++ [k]) s, Ok (length (heap s))).

Definition deref (l : loc) : M SignerSys PrivateKey := fun s =>
  (s, match heap s !! l with
      | Some k => Ok k
      | None => Panic "invalid memory address or nil pointer dereference"
      end).

(** ** signerapp/expected_interfaces.go *)

Record PrivKeyRetriever := {
  PrivKey : M SignerSys loc;
  pkr_Unlock : string -> M SignerSys unit;
  pkr_Lock : M SignerSys unit
}.

(** ** signerapp/hardcodedprivkeyretriever.go *)

Definition hardcoded_PrivKey (privKey : loc) : M SignerSys loc :=
  k ← deref privKey;
  alloc (PrivKeyFromBytes (PrivSerialize k)).

Definition NewHardcodedPrivKeyRetriever (privKey : loc) : PrivKeyRetriever := {|
  PrivKey := hardcoded_PrivKey privKey;
  pkr_Unlock := fun _ => mret tt;
  pkr_Lock := mret tt
|}.

(** ** keystore/cosmos *)

Section Cosmos.
Context `{KR : Keyring}.
Variable keyName : string.

(** The key that is returned is a new object with the bytes of the key. *)
Definition GetChainPrivKey (passphrase : string) : M SignerSys bytes :=
  modify (set_input passphrase);;
  i ← gets input;
  k ← lift (wrapErr "failed to get private key" (KrKey keyName i));
  privKeyCached ← lift (LocalCachedKey k);
  match privKeyCached with
  | Secp256k1PrivKey key => modify (add_keyringKey key);; mret key
  | OtherKeyType => fail "unsupported key type in keyring"
  end.

(** The three methods run under the mutex [k.mu]: each is one atomic step. *)
Definition cosmos_PrivKey : M SignerSys loc :=
  k ← gets btcecPrivKey;
  match k with
  | None => fail "private key is not unlocked. Please call Unlock() first"
  | Some l => mret l
  end.

Definition cosmos_Unlock (passphrase : string) : M SignerSys unit :=
  k ← gets btcecPrivKey;
  match k with
  | Some _ => mret tt
  | None =>
      key ← wrapErrM "failed to unlock the key ring" (GetChainPrivKey passphrase);
      l ← alloc (PrivKeyFromBytes key);
      modify (set_key (Some l))
  end.

Definition cosmos_Lock : M SignerSys unit :=
  k ← gets btcecPrivKey;
  match k with
  | None => mret tt
  | Some l =>
      modify (fun s => set_heap (<[l := ZeroKey]> (heap s)) s);;
      modify (set_key None)
  end.

Definition KeyringRetriever : PrivKeyRetriever := {|
  PrivKey := cosmos_PrivKey;
  pkr_Unlock := cosmos_Unlock;
  pkr_Lock := cosmos_Lock
|}.

End Cosmos.

(** ** signerapp/signer.go *)

Record ParsedSigningRequestStkExp := {
  ps_PreviousActiveStakeTx : MsgTx;
  ps_OtherFundingOutput : TxOut;
  ps_PreviousStakingOutputIdx : Z;
  ps_PreviousActiveStakeUnbondingScript : bytes
}.

Record ParsedSigningRequest := {
  pr_StakingTx : MsgTx;
  pr_SlashingTx : MsgTx;
  pr_UnbondingTx : MsgTx;
  pr_SlashUnbondingTx : MsgTx;
  pr_StakeExp : option ParsedSigningRequestStkExp;
  pr_StakingOutputIdx : Z;
  pr_SlashingScript : bytes;
  pr_UnbondingScript : bytes;
  pr_UnbondingSlashingScript : bytes;
  pr_FpEncKeys : list EncryptionKey
}.

Record ParsedSigningResponse := {
  pp_SlashAdaptorSigs : list bytes;
  pp_UnbondingSig : SchnorrSig;
  pp_SlashUnbondingAdaptorSigs : list bytes;
  pp_StakeExpSig : option SchnorrSig
}.

(** string(bytes) *)
Definition string_of_bytes (b : bytes) : string := string_of_list_byte b.

Definition slashSig (covenantPrivKey : PrivateKey) (req : ParsedSigningRequest)
    (fpEncKey : EncryptionKey) : res AdaptorSig :=
  wrapErr ("failed to sign adaptor slash signature with finality provider public key "
           +:+ string_of_bytes (EncKeyToBytes fpEncKey))
    (EncSignTxWithOneScriptSpendInputStrict (pr_SlashingTx req) (pr_StakingTx req)
       (pr_StakingOutputIdx req) (pr_SlashingScript req) covenantPrivKey fpEncKey).

Definition slashUnbondingSig (covenantPrivKey : PrivateKey) (req : ParsedSigningRequest)
    (fpEncKey : EncryptionKey) : res AdaptorSig :=
  wrapErr ("failed to sign adaptor slash unbonding signature with finality provider public key "
           +:+ string_of_bytes (EncKeyToBytes fpEncKey))
    (EncSignTxWithOneScriptSpendInputStrict (pr_SlashUnbondingTx req) (pr_UnbondingTx req)
       0 (pr_UnbondingSlashingScript req) covenantPrivKey fpEncKey).

Definition unbondSig (covenantPrivKey : PrivateKey) (req : ParsedSigningRequest) : res SchnorrSig :=
  wrapErr "failed to sign unbonding tx"
    (SignTxWithOneScriptSpendInputStrict (pr_UnbondingTx req) (pr_StakingTx req)
       (pr_StakingOutputIdx req) (pr_UnbondingScript req) covenantPrivKey).

Definition stkExpSig (covenantPrivKey : PrivateKey) (req : ParsedSigningRequest)
    (e : ParsedSigningRequestStkExp) : res SchnorrSig :=
  out ← index (tx_TxOut (ps_PreviousActiveStakeTx e)) (ps_PreviousStakingOutputIdx e);
  wrapErr ("failed to sign spend of previous stake "
           +:+ HashString (TxHash (ps_PreviousActiveStakeTx e))
           +:+ " with stake expansion tx " +:+ HashString (TxHash (pr_StakingTx req)))
    (SignTxForFirstScriptSpendWithTwoInputsFromScript (pr_StakingTx req) out
       (ps_OtherFundingOutput e) covenantPrivKey (ps_PreviousActiveStakeUnbondingScript e)).

Section Methods.
Variable pkr : PrivKeyRetriever.
Variable interfere : nat -> M SignerSys unit.

(** The [t]-th call of a library function that uses the key: the other
    requests may have run before it. *)
Definition withKey {A} (t : nat) (l : loc) (f : PrivateKey -> res A) : M SignerSys A :=
  interfere t;;
  k ← deref l;
  lift (f k).

Definition slashUnbondSig (t : nat) (l : loc) (req : ParsedSigningRequest)
    (fpEncKey : EncryptionKey) : M SignerSys (AdaptorSig * AdaptorSig) :=
  s1 ← withKey t l (fun k => slashSig k req fpEncKey);
  s2 ← withKey (S t) l (fun k => slashUnbondingSig k req fpEncKey);
  mret (s1, s2).

Fixpoint slashLoop (t : nat) (l : loc) (req : ParsedSigningRequest) (fpEncKeys : list EncryptionKey)
    (slashSigs slashUnbondingSigs : list bytes) : M SignerSys (list bytes * list bytes) :=
  match fpEncKeys with
  | [] => mret (slashSigs, slashUnbondingSigs)
  | fpEncKey :: fpEncKeys =>
      '(s1, s2) ← slashUnbondSig t l req fpEncKey;
      b1 ← lift (MustMarshal s1);
      b2 ← lift (MustMarshal s2);
      slashLoop (S (S t)) l req fpEncKeys (slashSigs ++ [b1]) (slashUnbondingSigs ++ [b2])
  end.

Definition app_SignTransactions (req : ParsedSigningRequest) : M SignerSys ParsedSigningResponse :=
  privKey ← PrivKey pkr;
  '(slashSigs, slashUnbondingSigs) ← slashLoop 0 privKey req (pr_FpEncKeys req) [] [];
  let t := (2 * length (pr_FpEncKeys req))%nat in
  unbondingSig ← withKey t privKey (fun k => unbondSig k req);
  stakeExpSig ← match pr_StakeExp req with
                | Some e => sig ← withKey (S t) privKey (fun k => stkExpSig k req e); mret (Some sig)
                | None => mret None
                end;
  mret {| pp_SlashAdaptorSigs := slashSigs;
          pp_UnbondingSig := unbondingSig;
          pp_SlashUnbondingAdaptorSigs := slashUnbondingSigs;
          pp_StakeExpSig := stakeExpSig |}.

Definition app_Unlock (passphrase : string) : M SignerSys unit := pkr_Unlock pkr passphrase.

Definition app_Lock : M SignerSys unit := pkr_Lock pkr.

Definition app_PubKey : M SignerSys PublicKey :=
  privKey ← PrivKey pkr;
  withKey 0 privKey (fun k => Ok (PrivPubKey k)).

End Methods.

End SignerApp.
