(* ===== verification/SignerProps.v ===== *)
(** * Theorems about the signing application and its key store *)
From S2P Require Import Prelude GoStd BtcLib SignerApp.
Local Open Scope Z_scope.

Section Signing.
Context `{BL : BtcLib}.

(** ** What is signed: the signatures of a request under one key *)

Definition fpSigs (k : PrivateKey) (req : ParsedSigningRequest) (e : EncryptionKey) :
  res (bytes * bytes) :=
  s1 ← slashSig k req e;
  s2 ← slashUnbondingSig k req e;
  b1 ← MustMarshal s1;
  b2 ← MustMarshal s2;
  Ok (b1, b2).

Definition signSpec (k : PrivateKey) (req : ParsedSigningRequest) : res ParsedSigningResponse :=
  sigs ← mapM (fpSigs k req) (pr_FpEncKeys req);
  u ← unbondSig k req;
  x ← match pr_StakeExp req with
      | Some e => Some <$> stkExpSig k req e
      | None => Ok None
      end;
  Ok {| pp_SlashAdaptorSigs := sigs.*1;
        pp_UnbondingSig := u;
        pp_SlashUnbondingAdaptorSigs := sigs.*2;
        pp_StakeExpSig := x |}.

(** The library refuses to sign with a zeroed key. *)
Record ZeroKeyRefused : Prop := {
  zk_enc : forall a b i scr ek x,
    EncSignTxWithOneScriptSpendInputStrict a b i scr ZeroKey ek <> Ok x;
  zk_sign : forall a b i scr x, SignTxWithOneScriptSpendInputStrict a b i scr ZeroKey <> Ok x;
  zk_two : forall a b c scr x,
    SignTxForFirstScriptSpendWithTwoInputsFromScript a b c ZeroKey scr <> Ok x
}.

(** ** Sequential runs *)

Section Sequential.
Variables (l : loc) (k : PrivateKey) (s : SignerSys).
Hypothesis Hl : heap s !! l = Some k.

Abbreviation idle := (fun _ : nat => mret tt : M SignerSys unit).

Lemma withKey_idle {A} t (f : PrivateKey -> res A) : withKey idle t l f s = (s, f k).
Proof. unfold withKey, mbind, M_bind, mret, M_ret, deref, lift. by rewrite Hl. Qed.

Lemma slashLoop_idle req fps : forall t acc1 acc2,
  slashLoop idle t l req fps acc1 acc2 s =
  (s, sigs ← mapM (fpSigs k req) fps; Ok (acc1 ++ sigs.*1, acc2 ++ sigs.*2)).
Proof.
  induction fps as [|e fps IH]; intros t acc1 acc2.
  { simpl. by rewrite !app_nil_r. }
  cbn [slashLoop mapM]. unfold slashUnbondSig, fpSigs at 2.
  unfold mbind at 1 2 3 4 5, M_bind. rewrite !withKey_idle.
  destruct (slashSig k req e) as [s1| | |]; try done.
  destruct (slashUnbondingSig k req e) as [s2| | |]; try done. simpl. unfold lift.
  destruct (MustMarshal s1) as [b1| | |]; try done. simpl.
  destruct (MustMarshal s2) as [b2| | |]; try done. simpl.
  rewrite IH. destruct (mapM (fpSigs k req) fps) as [sigs| | |]; try done. simpl.
  by rewrite <- !app_assoc.
Qed.

Lemma sign_idle req pkr s0 :
  PrivKey pkr s0 = (s, Ok l) ->
  app_SignTransactions pkr idle req s0 = (s, signSpec k req).
Proof.
  intros Hk. unfold app_SignTransactions, signSpec.
  erewrite bind_run_Ok by exact Hk. unfold mbind at 1, M_bind. rewrite slashLoop_idle.
  destruct (mapM (fpSigs k req) (pr_FpEncKeys req)) as [sigs| | |]; try done. simpl.
  unfold mbind at 1, M_bind. rewrite withKey_idle.
  destruct (unbondSig k req) as [u| | |]; try done. simpl.
  destruct (pr_StakeExp req) as [e|]; [|done].
  unfold mbind, M_bind. rewrite withKey_idle. by destruct (stkExpSig k req e).
Qed.

End Sequential.

(** ** Concurrent runs *)

Section Interleaved.
Variables (l : loc) (k : PrivateKey) (interfere : nat -> M SignerSys unit).

(** The cell of the key holds the key or, after a Lock, zero. *)
Definition holds (s : SignerSys) : Prop := heap s !! l = Some k \/ heap s !! l = Some ZeroKey.

Hypothesis Hint : forall t, keeps holds (interfere t) (fun _ => True).
Hypothesis HZ : ZeroKeyRefused.

Lemma keeps_withKey {A} t (f : PrivateKey -> res A) :
  (forall a, f ZeroKey <> Ok a) ->
  keeps holds (withKey interfere t l f) (fun a => f k = Ok a).
Proof.
  intros Hf. unfold withKey. eapply keeps_bind; [apply Hint|]. intros _ _.
  eapply (keeps_bind _ _ _ (fun x => x = k \/ x = ZeroKey)).
  - intros s Hs. split; [done|]. simpl. destruct Hs as [-> | ->]; naive_solver.
  - intros x Hx. apply keeps_lift. intros a Ha. destruct Hx as [-> | ->]; [done|].
    by destruct (Hf a).
Qed.

Lemma zero_slashSig req e a : slashSig ZeroKey req e <> Ok a.
Proof. unfold slashSig. rewrite wrapErr_Ok. apply (zk_enc HZ). Qed.

Lemma zero_slashUnbondingSig req e a : slashUnbondingSig ZeroKey req e <> Ok a.
Proof. unfold slashUnbondingSig. rewrite wrapErr_Ok. apply (zk_enc HZ). Qed.

Lemma zero_unbondSig req a : unbondSig ZeroKey req <> Ok a.
Proof. unfold unbondSig. rewrite wrapErr_Ok. apply (zk_sign HZ). Qed.

Lemma zero_stkExpSig req e a : stkExpSig ZeroKey req e <> Ok a.
Proof.
  unfold stkExpSig. rewrite res_bind_Ok. intros (o & _ & H). rewrite wrapErr_Ok in H. by apply (zk_two HZ) in H.
Qed.

Lemma keeps_slashLoop req fps : forall t acc1 acc2,
  keeps holds (slashLoop interfere t l req fps acc1 acc2)
    (fun r => exists sigs, mapM (fpSigs k req) fps = Ok sigs /\
                r = (acc1 ++ sigs.*1, acc2 ++ sigs.*2)).
Proof.
  induction fps as [|e fps IH]; intros t acc1 acc2; cbn [slashLoop].
  { apply keeps_ret. exists []. simpl. by rewrite !app_nil_r. }
  eapply (keeps_bind _ _ _ (fun r => slashSig k req e = Ok r.1 /\ slashUnbondingSig k req e = Ok r.2)).
  { eapply keeps_bind; [apply keeps_withKey, zero_slashSig|]. intros s1 H1.
    eapply keeps_bind; [apply keeps_withKey, zero_slashUnbondingSig|]. intros s2 H2.
    by apply keeps_ret. }
  intros [s1 s2] [H1 H2]. simpl in H1, H2.
  eapply (keeps_bind _ _ _ (fun b => MustMarshal s1 = Ok b)); [by apply keeps_lift|]. intros b1 Hb1.
  eapply (keeps_bind _ _ _ (fun b => MustMarshal s2 = Ok b)); [by apply keeps_lift|]. intros b2 Hb2.
  eapply keeps_mono; [apply IH|]. intros r (sigs & Hs & ->). exists ((b1, b2) :: sigs).
  assert (fpSigs k req e = Ok (b1, b2)) as Hf.
  { unfold fpSigs. rewrite H1. simpl. rewrite H2. simpl. rewrite Hb1. simpl. by rewrite Hb2. }
  simpl. rewrite Hf. simpl. rewrite Hs. simpl. by rewrite <- !app_assoc.
Qed.

Lemma sign_interleaved pkr req s s1 s' resp :
  PrivKey pkr s = (s1, Ok l) -> holds s1 ->
  app_SignTransactions pkr interfere req s = (s', Ok resp) -> signSpec k req = Ok resp.
Proof.
  intros Hk Hs. unfold app_SignTransactions. erewrite bind_run_Ok by exact Hk.
  intros Hr. match type of Hr with ?m s1 = _ =>
    enough (keeps holds m (fun resp => signSpec k req = Ok resp)) as H end.
  { destruct (H s1 Hs) as [_ HQ]. apply HQ. by rewrite Hr. }
  eapply keeps_bind; [apply keeps_slashLoop|]. intros [a b] (sigs & Hsigs & [= -> ->]).
  eapply keeps_bind; [apply keeps_withKey, zero_unbondSig|]. intros u Hu.
  eapply (keeps_bind _ _ _ (fun x => match pr_StakeExp req with
    | Some e => Some <$> stkExpSig k req e | None => Ok None end = Ok x)).
  { destruct (pr_StakeExp req) as [e|]; [|by apply keeps_ret].
    eapply keeps_bind; [apply keeps_withKey, zero_stkExpSig|]. intros x Hx. apply keeps_ret. by rewrite Hx. }
  intros x Hx. apply keeps_ret. unfold signSpec. rewrite Hsigs. simpl. rewrite Hu. simpl. by rewrite Hx.
Qed.

End Interleaved.
End Signing.

(** ** The cosmos key store *)

Section KeyStore.
Context `{BL : BtcLib} `{KR : Keyring}.
Variable keyName : string.

Abbreviation store := (KeyringRetriever keyName).

(** What a request does to the key store. *)
Inductive KeyOp := OpUnlock (passphrase : string) | OpLock | OpPrivKey.

Definition key_op (op : KeyOp) (s : SignerSys) : SignerSys :=
  match op with
  | OpUnlock p => (app_Unlock store p s).1
  | OpLock => (app_Lock store s).1
  | OpPrivKey => (PrivKey store s).1
  end.

Definition key_step (s s' : SignerSys) : Prop := exists op, s' = key_op op s.

(** Other requests running in between: any sequence of operations. *)
Definition run_ops (ops : list KeyOp) : M SignerSys unit :=
  modify (fun s => foldl (fun s op => key_op op s) s ops).

(** No btcec key but the unlocked one is left, and that one is there, made from
    the bytes of an sdk key. *)
Definition hygiene (s : SignerSys) : Prop :=
  (forall l k, heap s !! l = Some k -> k = ZeroKey \/ btcecPrivKey s = Some l) /\
  (forall l, btcecPrivKey s = Some l ->
     exists key, key ∈ keyringKeys s /\ heap s !! l = Some (PrivKeyFromBytes key)).

(** What each operation does, on a locked and on an unlocked store. *)
Lemma Unlock_unlocked p s l : btcecPrivKey s = Some l -> cosmos_Unlock keyName p s = (s, Ok tt).
Proof. intros H. unfold cosmos_Unlock, mbind, M_bind, gets. by rewrite H. Qed.

Lemma Unlock_locked p s :
  btcecPrivKey s = None ->
  (exists key,
     (exists rec, KrKey keyName p = Ok rec /\ LocalCachedKey rec = Ok (Secp256k1PrivKey key)) /\
     cosmos_Unlock keyName p s =
       ({| heap := heap s ++ [PrivKeyFromBytes key]; keyringKeys := keyringKeys s ++ [key];
           btcecPrivKey := Some (length (heap s)); input := p |}, Ok tt)) \/
  ((cosmos_Unlock keyName p s).1 = set_input p s /\ (cosmos_Unlock keyName p s).2 <> Ok tt /\
   forall rec key, KrKey keyName p = Ok rec -> LocalCachedKey rec <> Ok (Secp256k1PrivKey key)).
Proof.
  intros H. unfold cosmos_Unlock, GetChainPrivKey, wrapErrM, mbind, M_bind, gets, modify, lift, alloc.
  rewrite H. simpl. destruct (KrKey keyName p) as [rec| | |]; simpl; try (right; by split_and!).
  destruct (LocalCachedKey rec) as [[key|]| | |] eqn:Hc; simpl;
    try (right; split_and!; [done|done|congruence]).
  left. exists key. split; [by exists rec|done].
Qed.

Lemma Lock_locked s : btcecPrivKey s = None -> cosmos_Lock s = (s, Ok tt).
Proof. intros H. unfold cosmos_Lock, mbind, M_bind, gets. by rewrite H. Qed.

Lemma Lock_unlocked s l :
  btcecPrivKey s = Some l ->
  cosmos_Lock s =
    ({| heap := <[l := ZeroKey]> (heap s); keyringKeys := keyringKeys s; btcecPrivKey := None; input := input s |},
     Ok tt).
Proof. intros H. unfold cosmos_Lock, mbind, M_bind, gets. by rewrite H. Qed.

Lemma PrivKey_state s : (cosmos_PrivKey s).1 = s.
Proof. unfold cosmos_PrivKey, mbind, M_bind, gets. by destruct (btcecPrivKey s). Qed.

(** The heap after an operation: unchanged, one key more, or one key zeroed. *)
Lemma key_op_heap op s :
  heap (key_op op s) = heap s \/ (exists k, heap (key_op op s) = heap s ++ [k]) \/
  (exists l, heap (key_op op s) = <[l := ZeroKey]> (heap s)).
Proof.
  destruct op as [p| |]; simpl.
  - destruct (btcecPrivKey s) as [l|] eqn:Hl; unfold app_Unlock; simpl.
    + rewrite (Unlock_unlocked p s l) by done. by left.
    + destruct (Unlock_locked p s Hl) as [(key & _ & ->)|[-> _]]; [right; left; by eexists|by left].
  - unfold app_Lock. simpl. destruct (btcecPrivKey s) as [l|] eqn:Hl.
    + rewrite (Lock_unlocked s l) by done. right; right. by exists l.
    + rewrite Lock_locked by done. by left.
  - rewrite PrivKey_state. by left.
Qed.

Lemma key_op_holds l k op s : holds l k s -> holds l k (key_op op s).
Proof.
  unfold holds. intros H. destruct (key_op_heap op s) as [->|[[x ->]|[l' ->]]]; [done| |].
  - destruct H as [H|H]; [left|right]; by apply lookup_app_l_Some.
  - destruct (decide (l' = l)) as [->|Hne].
    + right. rewrite list_lookup_insert_eq; [done|]. apply lookup_lt_is_Some_1. destruct H; eauto.
    + by rewrite list_lookup_insert_ne.
Qed.

Lemma run_ops_holds l k ops : keeps (holds l k) (run_ops ops) (fun _ => True).
Proof.
  apply keeps_modify; [|done]. intros s. revert s.
  induction ops as [|op ops IH]; intros s Hs; [done|]. simpl. by apply IH, key_op_holds.
Qed.

Lemma key_op_hygiene op s : hygiene s -> hygiene (key_op op s).
Proof.
  intros Hy. pose proof Hy as [H1 H2]. destruct op as [p| |]; simpl; unfold app_Unlock, app_Lock; simpl.
  - destruct (btcecPrivKey s) as [l|] eqn:Hl.
    { by rewrite (Unlock_unlocked p s l). }
    destruct (Unlock_locked p s Hl) as [(key & _ & ->)|[-> _]].
    + split; simpl.
      * intros l k [Hk|[Hge Hk]]%lookup_app_Some; [left|right].
        { destruct (H1 l k Hk) as [?|?]; [done|congruence]. }
        apply list_lookup_singleton_Some in Hk as [Hk _]. f_equal. lia.
      * intros l [= <-]. exists key. split; [|by apply list_lookup_middle]. set_solver.
    + split; simpl; [|by rewrite Hl]. intros l k Hk. rewrite Hl. by apply H1.
  - destruct (btcecPrivKey s) as [l|] eqn:Hl; [|by rewrite Lock_locked].
    rewrite (Lock_unlocked s l) by done. split; simpl; [|done].
    intros l' k Hk. left. destruct (decide (l = l')) as [->|Hne].
    + apply list_lookup_insert_Some in Hk as [(_ & <- & _)|[? _]]; done.
    + rewrite list_lookup_insert_ne in Hk by done. destruct (H1 l' k Hk) as [?|?]; congruence.
  - by rewrite PrivKey_state.
Qed.

Lemma reachable_hygiene s : rtc key_step initSigner s -> hygiene s.
Proof.
  intros Hr. assert (hygiene initSigner) as H by done.
  induction Hr as [s|s s1 s2 [op ->] _ IH]; [done|]. by apply IH, key_op_hygiene.
Qed.

Lemma PrivKey_unlocked s l : btcecPrivKey s = Some l -> cosmos_PrivKey s = (s, Ok l).
Proof. intros H. unfold cosmos_PrivKey, mbind, M_bind, gets. by rewrite H. Qed.

Lemma PrivKey_locked s :
  btcecPrivKey s = None ->
  cosmos_PrivKey s = (s, Err "private key is not unlocked. Please call Unlock() first").
Proof. intros H. unfold cosmos_PrivKey, mbind, M_bind, gets. by rewrite H. Qed.

Lemma Lock_result s : cosmos_Lock s = ((cosmos_Lock s).1, Ok tt) /\ btcecPrivKey (cosmos_Lock s).1 = None.
Proof.
  destruct (btcecPrivKey s) as [l|] eqn:Hl.
  - by rewrite (Lock_unlocked s l).
  - by rewrite Lock_locked.
Qed.

(** ** Properties *)

(** On an unlocked store with no other request running, SignTransactions
    answers exactly what the specification [signSpec] gives for the unlocked
    key: two adaptor signatures per finality provider in the order of the
    request, the unbonding signature, the stake expansion signature exactly
    for a stake expansion, or the first error; the store is left as it was. *)
Theorem SignTransactions_refines req s l k :
  btcecPrivKey s = Some l -> heap s !! l = Some k ->
  app_SignTransactions store (fun _ => mret tt) req s = (s, signSpec k req).
Proof. intros Hl Hk. apply (sign_idle l k s Hk). by apply PrivKey_unlocked. Qed.

(** Whatever Unlock, Lock and PrivKey calls other requests make between its
    uses of the key, a SignTransactions that succeeds has signed everything
    with the key that was unlocked when it started: a Lock in between can only
    make it fail, as the library refuses a zeroed key. *)
Theorem SignTransactions_race_safe (schedule : nat -> list KeyOp) req s s' l k resp :
  ZeroKeyRefused -> btcecPrivKey s = Some l -> heap s !! l = Some k ->
  app_SignTransactions store (fun t => run_ops (schedule t)) req s = (s', Ok resp) ->
  signSpec k req = Ok resp.
Proof.
  intros HZ Hl Hk. apply (sign_interleaved l k) with (s1 := s); [|done|by apply PrivKey_unlocked|by left].
  intros t. apply run_ops_holds.
Qed.

(** C11: what Lock erases and what it does not.  In every state the key store
    can reach, every btcec private key it has made is zeroed except the
    unlocked one.  Lock zeroes that one too, so that no btcec key is left and
    signing and the public key are refused until the next Unlock; but the sdk
    keys read from the keyring stay as they are, and one of them holds the
    bytes of the key that was unlocked. *)
Theorem Lock_zeroes_btcec_keys s interfere req :
  rtc key_step initSigner s ->
  (forall l k, heap s !! l = Some k -> k = ZeroKey \/ btcecPrivKey s = Some l) /\
  exists s', cosmos_Lock s = (s', Ok tt) /\ Forall (fun k => k = ZeroKey) (heap s') /\
    (forall l, btcecPrivKey s = Some l ->
       exists key, key ∈ keyringKeys s' /\ heap s !! l = Some (PrivKeyFromBytes key)) /\
    app_SignTransactions store interfere req s' =
      (s', Err "private key is not unlocked. Please call Unlock() first") /\
    app_PubKey store interfere s' =
      (s', Err "private key is not unlocked. Please call Unlock() first").
Proof.
  intros Hr. pose proof (reachable_hygiene s Hr) as Hy. split; [apply Hy|].
  destruct (Lock_result s) as [H1 H2]. exists (cosmos_Lock s).1. split; [done|]. split; [|split; [|split]].
  - destruct (key_op_hygiene OpLock s Hy) as [Hz _]. apply Forall_lookup_2. intros i k Hi.
    destruct (Hz i k Hi) as [?|Hn]; [done|]. unfold key_op, app_Lock in Hn. simpl in Hn. congruence.
  - intros l Hl. rewrite (Lock_unlocked s l) by done. by apply Hy.
  - unfold app_SignTransactions. apply bind_run_Err. by apply PrivKey_locked.
  - unfold app_PubKey. apply bind_run_Err. by apply PrivKey_locked.
Qed.

(** On a locked store, Unlock succeeds exactly when the keyring opens under
    the passphrase and the entry is a secp256k1 key, and then that key is the
    unlocked one; on an unlocked store it succeeds with any passphrase, without
    looking at it. *)
Theorem Unlock_correct p s s' :
  cosmos_Unlock keyName p s = (s', Ok tt) <->
  (is_Some (btcecPrivKey s) /\ s' = s) \/
  (btcecPrivKey s = None /\ exists rec key,
     KrKey keyName p = Ok rec /\ LocalCachedKey rec = Ok (Secp256k1PrivKey key) /\
     s' = {| heap := heap s ++ [PrivKeyFromBytes key]; keyringKeys := keyringKeys s ++ [key];
             btcecPrivKey := Some (length (heap s)); input := p |}).
Proof.
  destruct (btcecPrivKey s) as [l|] eqn:Hl.
  - rewrite (Unlock_unlocked p s l) by done. naive_solver.
  - destruct (Unlock_locked p s Hl) as [(key & (rec & Hr & Hc) & ->)|(_ & Hne & Hno)].
    + split; [intros [= <-]; right; split; [done|]; by exists rec, key|].
      intros [[[? ?] _]|(_ & rec' & key' & ? & ? & ->)]; [done|]. congruence.
    + split; [intros H; by rewrite H in Hne|].
      intros [[[? ?] _]|(_ & rec' & key' & ? & ? & _)]; [done|]. by destruct (Hno rec' key').
Qed.

(** C37: the public key has no such protection: a Lock that runs between reading
    the pointer and using it makes PubKey answer the public key of the zeroed
    private key instead of an error. *)
Theorem PubKey_race s l k :
  btcecPrivKey s = Some l -> heap s !! l = Some k ->
  (app_PubKey store (fun _ => run_ops [OpLock]) s).2 = Ok (PrivPubKey ZeroKey).
Proof.
  intros Hl Hk. unfold app_PubKey. erewrite bind_run_Ok by (by apply PrivKey_unlocked).
  unfold withKey, run_ops, mbind, M_bind, modify, deref, lift. simpl. unfold app_Lock. simpl.
  rewrite (Lock_unlocked s l) by done. simpl.
  rewrite list_lookup_insert_eq by (by eapply lookup_lt_Some). done.
Qed.

End KeyStore.
