(* ===== verification/Keyrings.v ===== *)
(** * The keyrings

    keyring/ of the emulator and covenant-signer/keystore/cosmos of the signer:
    opening a cosmos-sdk keyring, creating the covenant key in it and loading
    it again.  The two Go packages share most of their text; what differs is
    written twice.  The keyring itself, bip39 and the key output of the SDK are
    a parameter ([KeyringLib]).

    A keyring asks for its passphrase on the reader it was opened with, and the
    controller feeds that reader: [KrSys] is the world and what the reader
    still holds. *)
From Stdlib Require Import Strings.Ascii Strings.String.
From S2P Require Import Prelude GoStd JsonText GoNet GoPath SignerConfig BtcLib SignerApp.

Section KrState.
Context {W : Type}.

Record KrSys := { krWorld : W; krInput : string }.

Definition onWorld {A} (m : M W A) : M KrSys A := fun s =>
  let '(w, r) := m (krWorld s) in ({| krWorld := w; krInput := krInput s |}, r).

(** strings.NewReader(text), Reader.Reset(text) *)
Definition setReader (text : string) : M KrSys unit :=
  modify (fun s => {| krWorld := krWorld s; krInput := text |}).

End KrState.
Arguments KrSys W : clear implicits.

(** ** cosmos-sdk/crypto/keyring, client/keys and go-bip39 *)

Class KeyringLib (W : Type) : Type := {
  KrHandle : Type;                                  (* keyring.Keyring *)
  KrRec : Type;                                     (* keyring.Record *)
  SigningAlgo : Type;
  AccAddr : Type;                                   (* sdk.AccAddress *)
  KeyOutput : Type;                                 (* keys.KeyOutput *)
  kr_New : string -> string -> string -> M W KrHandle;   (* app name, backend, directory *)
  SupportedAlgorithms : KrHandle -> list SigningAlgo;
  NewSigningAlgoFromString : string -> list SigningAlgo -> res SigningAlgo;
  NewEntropy : Z -> M W bytes;
  NewMnemonic : bytes -> res string;
  (* name, mnemonic, bip39 passphrase, hd path, algorithm *)
  kr_NewAccount : KrHandle -> string -> string -> string -> string -> SigningAlgo -> M (KrSys W) KrRec;
  kr_Key : KrHandle -> string -> M (KrSys W) KrRec;
  CachedValue : KrRec -> res CachedKey;             (* GetLocal().PrivKey.GetCachedValue() *)
  rec_GetAddress : KrRec -> res AccAddr;
  AccAddressString : AccAddr -> string;
  MkAccKeyOutput : KrRec -> res KeyOutput;
  ko_Address : KeyOutput -> string
}.

(** What the SDK's documentation promises of a keyring on disk, for a
    passphrase of one line.  [stored w l name p rec] says that in the world [w]
    the keyring at [l] (application, backend, directory) holds [rec] under
    [name], readable with [p]. *)
Section Laws.
Context {W : Type} `{KL : !KeyringLib W}.

Definition Place : Type := string * string * string.

Definition opened (l : Place) (h : KrHandle) : Prop :=
  exists w w', kr_New l.1.1 l.1.2 l.2 w = (w', Ok h).

Definition newline : ascii := "010".

Class KeyringLaws (stored : W -> Place -> string -> string -> KrRec -> Prop) : Prop := {
  kl_created : forall l h name mnemonic bip39pass hdPath algo p w s rec,
    opened l h -> l.1.2 <> "memory" -> noChar newline p ->
    kr_NewAccount h name mnemonic bip39pass hdPath algo
      {| krWorld := w; krInput := p +:+ String newline p |} = (s, Ok rec) ->
    stored (krWorld s) l name p rec;
  (* opening a keyring removes nothing *)
  kl_kept : forall l name p rec a b d w,
    stored w l name p rec -> stored (kr_New a b d w).1 l name p rec;
  (* the passphrase is asked for once *)
  kl_read : forall l h name p rec w,
    opened l h -> stored w l name p rec ->
    exists s, kr_Key h name {| krWorld := w; krInput := p |} = (s, Ok rec) /\
              exists s', kr_Key h name s = (s', Ok rec);
  kl_output : forall rec ko, MkAccKeyOutput rec = Ok ko ->
    exists a, rec_GetAddress rec = Ok a /\ AccAddressString a = ko_Address ko
}.

End Laws.

Definition secp256k1Type : string := "secp256k1".
Definition mnemonicEntropySize : Z := 256.

Section Keyrings.
Context `{BL : BtcLib} {W : Type} `{OS : !Os W} `{KL : !KeyringLib W}.

(** ** keyring/keyring.go *)

(** client.Context, as far as it is filled in *)
Record ClientCtx := { cx_ChainID : string; cx_KeyringDir : string }.

Definition CreateClientCtx (keyringDir chainID : string) : res ClientCtx :=
  keyringDir ← (if bool_decide (keyringDir = "") then
                  homeDir ← os_UserHomeDir;
                  Ok (Join2 homeDir ".covenant-emulator")
                else Ok keyringDir);
  Ok {| cx_ChainID := chainID; cx_KeyringDir := keyringDir |}.

(** ** keyring/keyringcontroller.go *)

(** The third field of the struct is the reader in the state. *)
Record ChainKeyringController := { kc_kr : KrHandle; kc_keyName : string }.

Definition NewChainKeyringController (ctx : ClientCtx) (name keyringBackend : string)
  : M (KrSys W) ChainKeyringController :=
  if bool_decide (name = "") then fail "the key name should not be empty"
  else if bool_decide (keyringBackend = "") then fail "the keyring backend should not be empty"
  else
    setReader "";;
    kr ← wrapErrM "failed to create keyring"
           (onWorld (kr_New (cx_ChainID ctx) keyringBackend (cx_KeyringDir ctx)));
    mret {| kc_kr := kr; kc_keyName := name |}.

(** types/chainkey.go *)
Record ChainKeyInfo := {
  ki_KeyOutput : KeyOutput;
  ki_PublicKey : PublicKey;
  ki_PrivateKey : PrivateKey
}.

Definition NewChainKeyInfo (k : KrRec) (pk : PublicKey) (sk : PrivateKey) : res ChainKeyInfo :=
  keyOut ← MkAccKeyOutput k;
  Ok {| ki_KeyOutput := keyOut; ki_PublicKey := pk; ki_PrivateKey := sk |}.

(** The algorithm, the mnemonic and the new account, with which both packages
    begin; the passphrase is fed twice because the keyring asks again. *)
Definition newAccount (kc : ChainKeyringController) (passphrase hdPath : string)
  : M (KrSys W) (string * KrRec) :=
  algo ← lift (NewSigningAlgoFromString secp256k1Type (SupportedAlgorithms (kc_kr kc)));
  entropySeed ← onWorld (NewEntropy mnemonicEntropySize);
  mnemonic ← lift (NewMnemonic entropySeed);
  setReader (passphrase +:+ String newline passphrase);;
  record ← kr_NewAccount (kc_kr kc) (kc_keyName kc) mnemonic passphrase hdPath algo;
  mret (mnemonic, record).

Definition CreateChainKey (kc : ChainKeyringController) (passphrase hdPath : string)
  : M (KrSys W) ChainKeyInfo :=
  '(_, record) ← newAccount kc passphrase hdPath;
  privKey ← lift (CachedValue record);
  match privKey with
  | Secp256k1PrivKey key =>
      let sk := PrivKeyFromBytes key in
      lift (NewChainKeyInfo record (PrivPubKey sk) sk)
  | OtherKeyType => fail "unsupported key type in keyring"
  end.

Definition kc_GetChainPrivKey (kc : ChainKeyringController) (passphrase : string) : M (KrSys W) bytes :=
  setReader passphrase;;
  k ← wrapErrM "failed to get private key" (kr_Key (kc_kr kc) (kc_keyName kc));
  privKeyCached ← lift (CachedValue k);
  match privKeyCached with
  | Secp256k1PrivKey key => mret key
  | OtherKeyType => fail "unsupported key type in keyring"
  end.

Definition kc_KeyRecord (kc : ChainKeyringController) : M (KrSys W) KrRec :=
  kr_Key (kc_kr kc) (kc_keyName kc).

Definition CreateCovenantKey (keyringDir chainID keyName backend passphrase hdPath : string)
  : M (KrSys W) ChainKeyInfo :=
  sdkCtx ← lift (CreateClientCtx keyringDir chainID);
  krController ← NewChainKeyringController sdkCtx keyName backend;
  CreateChainKey krController passphrase hdPath.

(** ** covenant-signer/keystore/cosmos *)

(** The signer has its own copies of CreateClientCtx and of the controller
    over the same library; GetChainPrivKey is in [SignerApp]. *)
Definition cosmos_CreateClientCtx (keyringDir chainID : string) : res ClientCtx :=
  keyringDir ← (if bool_decide (keyringDir = "") then
                  homeDir ← os_UserHomeDir;
                  Ok (Join2 homeDir ".covenant-emulator")
                else Ok keyringDir);
  Ok {| cx_ChainID := chainID; cx_KeyringDir := keyringDir |}.

Definition cosmos_NewChainKeyringController (ctx : ClientCtx) (name keyringBackend : string)
  : M (KrSys W) ChainKeyringController :=
  if bool_decide (name = "") then fail "the key name should not be empty"
  else if bool_decide (keyringBackend = "") then fail "the keyring backend should not be empty"
  else
    setReader "";;
    kr ← wrapErrM "failed to create keyring"
           (onWorld (kr_New (cx_ChainID ctx) keyringBackend (cx_KeyringDir ctx)));
    mret {| kc_kr := kr; kc_keyName := name |}.

Definition NewChainKeyringControllerWithKeyring (kr : KrHandle) (name : string)
  : res ChainKeyringController :=
  if bool_decide (name = "") then Err "the key name should not be empty"
  else Ok {| kc_kr := kr; kc_keyName := name |}.

Record CosmosChainKeyInfo := {
  ci_Name : string;
  ci_Address : AccAddr;
  ci_Mnemonic : string;
  ci_PublicKey : PublicKey;
  ci_PrivateKey : PrivateKey
}.

Definition cosmos_CreateChainKey (kc : ChainKeyringController) (passphrase hdPath : string)
  : M (KrSys W) CosmosChainKeyInfo :=
  '(mnemonic, record) ← newAccount kc passphrase hdPath;
  addr ← lift (rec_GetAddress record);
  privKey ← lift (CachedValue record);
  match privKey with
  | Secp256k1PrivKey key =>
      let sk := PrivKeyFromBytes key in
      mret {| ci_Name := kc_keyName kc; ci_Address := addr; ci_Mnemonic := mnemonic;
              ci_PublicKey := PrivPubKey sk; ci_PrivateKey := sk |}
  | OtherKeyType => fail "unsupported key type in keyring"
  end.

Definition cosmos_CreateCovenantKey (keyringDir chainID keyName backend passphrase hdPath : string)
  : M (KrSys W) CosmosChainKeyInfo :=
  sdkCtx ← lift (cosmos_CreateClientCtx keyringDir chainID);
  krController ← cosmos_NewChainKeyringController sdkCtx keyName backend;
  cosmos_CreateChainKey krController passphrase hdPath.

Definition CreateKeyring (keyringDir chainID backend : string) : M W KrHandle :=
  ctx ← lift (cosmos_CreateClientCtx keyringDir chainID);
  if bool_decide (backend = "") then fail "the keyring backend should not be empty"
  else wrapErrM "failed to create keyring" (kr_New (cx_ChainID ctx) backend (cx_KeyringDir ctx)).

(** The key store of [SignerApp] over a keyring that was opened in [w]. *)
Definition openedKeyring (kr : KrHandle) (w : W) : Keyring := {|
  KrRecord := KrRec;
  KrKey := fun name input => (kr_Key kr name {| krWorld := w; krInput := input |}).2;
  LocalCachedKey := CachedValue
|}.

(** A nil configuration is dereferenced. *)
Definition NewCosmosKeyringRetriever (cfg : option CosmosKeyStoreConfig) : M W PrivKeyRetriever :=
  match cfg with
  | None => lift (Panic "invalid memory address or nil pointer dereference")
  | Some cfg =>
      kr ← wrapErrM "failed to create keyring"
             (CreateKeyring (ck_KeyDirectory cfg) (ck_ChainID cfg) (ck_KeyringBackend cfg));
      kc ← lift (NewChainKeyringControllerWithKeyring kr (ck_KeyName cfg));
      w ← gets id;
      mret (KeyringRetriever (KR := openedKeyring (kc_kr kc) w) (kc_keyName kc))
  end.

(** ** Lemmas *)

(** Where a keyring is opened for a directory setting. *)
Definition placeOf (keyringDir chainID backend : string) (l : Place) : Prop :=
  exists ctx, CreateClientCtx keyringDir chainID = Ok ctx /\ l = (cx_ChainID ctx, backend, cx_KeyringDir ctx).

Lemma onWorld_Ok {A} (m : M W A) s s' a :
  onWorld m s = (s', Ok a) <-> m (krWorld s) = (krWorld s', Ok a) /\ krInput s' = krInput s.
Proof.
  unfold onWorld. destruct (m (krWorld s)) as [w r]. split; [by intros [= <- ->]|].
  destruct s', s. simpl. by intros [[= -> ->] ->].
Qed.

Lemma NewChainKeyringController_Ok ctx name backend s s' kc :
  NewChainKeyringController ctx name backend s = (s', Ok kc) ->
  name <> "" /\ backend <> "" /\ kc_keyName kc = name /\
  kr_New (cx_ChainID ctx) backend (cx_KeyringDir ctx) (krWorld s) = (krWorld s', Ok (kc_kr kc)).
Proof.
  unfold NewChainKeyringController. case_bool_decide; [done|]. case_bool_decide; [done|]. intros Hr.
  inv_bind Hr. injection Hm as <- _. inv_bind Hr. injection Hr as <- <-.
  apply wrapErrM_Ok, onWorld_Ok in Hm as [Hm _]. done.
Qed.

Lemma newAccount_Ok kc passphrase hdPath s s' mnemonic rec :
  newAccount kc passphrase hdPath s = (s', Ok (mnemonic, rec)) ->
  exists w algo, kr_NewAccount (kc_kr kc) (kc_keyName kc) mnemonic passphrase hdPath algo
    {| krWorld := w; krInput := passphrase +:+ String newline passphrase |} = (s', Ok rec).
Proof.
  unfold newAccount. intros Hr. do 5 inv_bind Hr. injection Hr as -> -> ->.
  injection Hm2 as <- _. simpl in Hm3. eauto.
Qed.

Lemma CreateKeyring_Ok dir chain backend w w' h :
  CreateKeyring dir chain backend w = (w', Ok h) ->
  backend <> "" /\ exists ctx, CreateClientCtx dir chain = Ok ctx /\
    kr_New (cx_ChainID ctx) backend (cx_KeyringDir ctx) w = (w', Ok h).
Proof.
  unfold CreateKeyring. intros Hr. inv_bind Hr. injection Hm as -> Hc. case_bool_decide; [done|].
  apply wrapErrM_Ok in Hr. eauto.
Qed.

Section RoundTrip.
Context (stored : W -> Place -> string -> string -> KrRec -> Prop) `{LW : !KeyringLaws stored}.

(** An account made through a controller is in the keyring the controller was
    opened on. *)
Lemma newAccount_stored ctx name backend passphrase hdPath s s1 s2 kc mnemonic rec :
  NewChainKeyringController ctx name backend s = (s1, Ok kc) ->
  newAccount kc passphrase hdPath s1 = (s2, Ok (mnemonic, rec)) ->
  backend <> "memory" -> noChar newline passphrase ->
  stored (krWorld s2) (cx_ChainID ctx, backend, cx_KeyringDir ctx) name passphrase rec.
Proof.
  intros (_ & _ & <- & Hn)%NewChainKeyringController_Ok (w & algo & Ha)%newAccount_Ok Hb Hp.
  eapply kl_created; [by eexists _, _|done|done|exact Ha].
Qed.

Lemma cosmos_CreateCovenantKey_Ok dir chain name backend passphrase hdPath s s' info :
  cosmos_CreateCovenantKey dir chain name backend passphrase hdPath s = (s', Ok info) ->
  exists ctx rec key, CreateClientCtx dir chain = Ok ctx /\ CachedValue rec = Ok (Secp256k1PrivKey key) /\
    name <> "" /\ ci_PublicKey info = PrivPubKey (PrivKeyFromBytes key) /\
    (backend <> "memory" -> noChar newline passphrase ->
     stored (krWorld s') (cx_ChainID ctx, backend, cx_KeyringDir ctx) name passphrase rec).
Proof.
  unfold cosmos_CreateCovenantKey, cosmos_CreateChainKey. intros Hr. inv_bind Hr. injection Hm as <- Hc.
  inv_bind Hr. inv_bind Hr. destruct a1 as [mnemonic rec]. inv_bind Hr. injection Hm1 as -> Ha.
  inv_bind Hr. injection Hm1 as -> Hk. destruct a2 as [key|]; [|done]. injection Hr as <- <-.
  pose proof (NewChainKeyringController_Ok _ _ _ _ _ _ Hm) as (Hname & _).
  exists a, rec, key. split_and!; [done..|]. intros. by eapply newAccount_stored.
Qed.

(** Unlocking a key store whose keyring holds a secp256k1 key. *)
Lemma unlock_stored name passphrase l h w rec key :
  opened l h -> stored w l name passphrase rec -> CachedValue rec = Ok (Secp256k1PrivKey key) ->
  cosmos_Unlock (KR := openedKeyring h w) name passphrase initSigner =
    ({| heap := [PrivKeyFromBytes key]; keyringKeys := [key]; btcecPrivKey := Some 0; input := passphrase |}, Ok tt).
Proof.
  intros Ho Hs Hk. destruct (kl_read l h name passphrase rec w Ho Hs) as (s & Hr & _).
  unfold cosmos_Unlock, GetChainPrivKey, wrapErrM, mbind, M_bind, gets, modify, lift. simpl.
  rewrite Hr. simpl. by rewrite Hk.
Qed.

(** A key store opened on the place where a key is stored. *)
Lemma retriever_unlocks dir chain name backend passphrase ctx rec key w w' pkr :
  CreateClientCtx dir chain = Ok ctx -> name <> "" ->
  stored w (cx_ChainID ctx, backend, cx_KeyringDir ctx) name passphrase rec ->
  CachedValue rec = Ok (Secp256k1PrivKey key) ->
  NewCosmosKeyringRetriever
    (Some {| ck_ChainID := chain; ck_KeyDirectory := dir; ck_KeyringBackend := backend; ck_KeyName := name |})
    w = (w', Ok pkr) ->
  exists h v, pkr = KeyringRetriever (KR := openedKeyring h v) name /\
    cosmos_Unlock (KR := openedKeyring h v) name passphrase initSigner =
      ({| heap := [PrivKeyFromBytes key]; keyringKeys := [key]; btcecPrivKey := Some 0; input := passphrase |}, Ok tt).
Proof.
  intros Hc Hname Hst Hk Hn. unfold NewCosmosKeyringRetriever in Hn. simpl in Hn. inv_bind Hn.
  apply wrapErrM_Ok, CreateKeyring_Ok in Hm as (_ & ctx' & Hc' & Hnew). assert (ctx' = ctx) as -> by congruence.
  unfold NewChainKeyringControllerWithKeyring in Hn. rewrite bool_decide_false in Hn by done.
  injection Hn as <- <-. pose proof (kl_kept _ _ _ _ (cx_ChainID ctx) backend (cx_KeyringDir ctx) _ Hst) as Hst'.
  rewrite Hnew in Hst'. simpl in Hst'. exists a, s. split; [done|].
  apply (unlock_stored name passphrase (cx_ChainID ctx, backend, cx_KeyringDir ctx) a s rec key); [by eexists _, _|done|done].
Qed.

(** A covenant key created in the signer's keyring is the key the signer
    uses: opening a key store with the same settings and unlocking it with the
    passphrase of the creation succeeds, and the public key the application
    then reports is the one the creation returned. *)
Theorem created_key_unlocks dir chain name backend passphrase hdPath s s' info w' pkr :
  cosmos_CreateCovenantKey dir chain name backend passphrase hdPath s = (s', Ok info) ->
  backend <> "memory" -> noChar newline passphrase ->
  NewCosmosKeyringRetriever
    (Some {| ck_ChainID := chain; ck_KeyDirectory := dir; ck_KeyringBackend := backend; ck_KeyName := name |})
    (krWorld s') = (w', Ok pkr) ->
  exists s1, app_Unlock pkr passphrase initSigner = (s1, Ok tt) /\
    app_PubKey pkr (fun _ => mret tt) s1 = (s1, Ok (ci_PublicKey info)).
Proof.
  intros (ctx & rec & key & Hc & Hk & Hname & Hpk & Hst)%cosmos_CreateCovenantKey_Ok Hb Hp Hn.
  destruct (retriever_unlocks _ _ _ _ _ _ _ _ _ _ _ Hc Hname (Hst Hb Hp) Hk Hn) as (h & v & -> & Hu).
  eexists. split; [exact Hu|]. unfold app_PubKey, withKey, mbind, M_bind. simpl. by rewrite Hpk.
Qed.

End RoundTrip.

(** Nothing is opened for an empty key name or backend. *)
Lemma controller_refuses ctx name backend s :
  name = "" \/ backend = "" -> exists e, NewChainKeyringController ctx name backend s = (s, Err e).
Proof.
  unfold NewChainKeyringController. intros [-> | ->]; [by eexists|]. case_bool_decide; by eexists.
Qed.

End Keyrings.
