(* ===== verification/WireTypes.v ===== *)
(** * The wire format between the emulator and the remote signer

    covenant-signer/utils/btc.go, covenant-signer/signerservice/types/
    signtransactions.go and the conversions of remotesigner/signer.go, with
    the round-trip theorems: what the emulator asks for is what the signer
    application sees, and its answer is what the emulator gets back. *)
From S2P Require Import Prelude GoStd BtcLib Env SignerApp.
Local Open Scope Z_scope.

Section Wire.
Context `{BL : BtcLib}.

(** ** covenant-signer/utils/btc.go *)

Definition NewBTCTxFromBytes (txBytes : bytes) : res MsgTx := TxDeserialize txBytes.

Definition utils_NewBTCTxFromHex (txHex : string) : res (MsgTx * bytes) :=
  txBytes ← DecodeString txHex;
  parsed ← NewBTCTxFromBytes txBytes;
  Ok (parsed, txBytes).

Definition SerializeBTCTx (tx : MsgTx) : res bytes := TxSerialize tx.

Definition SerializeBTCTxToHex (tx : MsgTx) : res string :=
  b ← SerializeBTCTx tx;
  Ok (EncodeToString b).

Definition PubKeyFromHex (hexString : string) : res PublicKey :=
  b ← DecodeString hexString;
  SchnorrParsePubKey b.

Definition SchnorSignatureFromHex (hexString : string) : res SchnorrSig :=
  b ← DecodeString hexString;
  ParseSignature b.

(** ** signerservice/types/signtransactions.go *)

Record StakeExpansionRequest := {
  PreviousActiveStakeTxHex : string;
  OtherFundingOutputHex : string;
  PrevStakingOutputIdx : Z;
  PreviousActiveStakeUnbondingScriptHex : string
}.

Record SignTransactionsRequest := {
  StakingTxHex : string;
  SlashingTxHex : string;
  UnbondingTxHex : string;
  SlashUnbondingTxHex : string;
  StakingOutputIdx : Z;
  SlashingScriptHex : string;
  UnbondingScriptHex : string;
  UnbondingSlashingScriptHex : string;
  FpEncKeys : list string;
  StakeExpansion : option StakeExpansionRequest
}.

Record SignTransactionsResponse := {
  SlashingTransactionsAdaptorSignatures : list string;
  UnbondingTransactionSignature : string;
  SlashUnbondingTransactionsAdaptorSignatures : list string;
  StakeExpansionTransactionSignature : string
}.

(** hex.DecodeString, then the check that the script is not empty *)
Definition decodeScript (name hexString : string) : res bytes :=
  script ← wrapErr ("invalid " +:+ name +:+ " in request") (DecodeString hexString);
  if bool_decide (script = []) then Err (name +:+ " is empty") else Ok script.

Definition parseFpEncKey (key : string) : res EncryptionKey :=
  encKeyBytes ← wrapErr "invalid fp encryption key in request" (DecodeString key);
  wrapErr "invalid fp encryption key in request" (NewEncryptionKeyFromBytes encKeyBytes).

Definition parseStakeExpansion (se : StakeExpansionRequest) : res ParsedSigningRequestStkExp :=
  previousActiveStakeTx ←
    wrapErr ("invalid previous active staking transaction " +:+ PreviousActiveStakeTxHex se
             +:+ " in request") (utils_NewBTCTxFromHex (PreviousActiveStakeTxHex se));
  otherFundingTxOutBz ←
    wrapErr ("invalid other funding output hex " +:+ OtherFundingOutputHex se +:+ " in request")
      (DecodeString (OtherFundingOutputHex se));
  otherFundingTxOut ←
    wrapErr ("failed to deserialize other funding output from hex " +:+ OtherFundingOutputHex se
             +:+ " in request") (DeserializeTxOut otherFundingTxOutBz);
  prevStakeUnbondScriptBz ←
    wrapErr ("invalid previous active stake unbonding script hex "
             +:+ PreviousActiveStakeUnbondingScriptHex se +:+ " in request")
      (DecodeString (PreviousActiveStakeUnbondingScriptHex se));
  Ok {| ps_PreviousActiveStakeTx := previousActiveStakeTx.1;
        ps_OtherFundingOutput := otherFundingTxOut;
        ps_PreviousStakingOutputIdx := PrevStakingOutputIdx se;
        ps_PreviousActiveStakeUnbondingScript := prevStakeUnbondScriptBz |}.

Definition ParseSigningRequest (req : SignTransactionsRequest) : res ParsedSigningRequest :=
  stakingTx ← wrapErr "invalid staking transaction in request" (utils_NewBTCTxFromHex (StakingTxHex req));
  slashingTx ← wrapErr "invalid slashing transaction in request"
                 (utils_NewBTCTxFromHex (SlashingTxHex req));
  unbondingTx ← wrapErr "invalid unbonding transaction in request"
                  (utils_NewBTCTxFromHex (UnbondingTxHex req));
  slashUnbondingTx ← wrapErr "invalid slash unbonding transaction in request"
                       (utils_NewBTCTxFromHex (SlashUnbondingTxHex req));
  slashingScript ← decodeScript "slashing script" (SlashingScriptHex req);
  unbondingScript ← decodeScript "unbonding script" (UnbondingScriptHex req);
  unbondingSlashingScript ← decodeScript "unbonding slashing script" (UnbondingSlashingScriptHex req);
  fpEncKeys ← mapM parseFpEncKey (FpEncKeys req);
  stakeExp ← match StakeExpansion req with
             | Some se => Some <$> parseStakeExpansion se
             | None => Ok None
             end;
  Ok {| pr_StakingTx := stakingTx.1;
        pr_SlashingTx := slashingTx.1;
        pr_UnbondingTx := unbondingTx.1;
        pr_SlashUnbondingTx := slashUnbondingTx.1;
        pr_StakeExp := stakeExp;
        pr_StakingOutputIdx := StakingOutputIdx req;
        pr_SlashingScript := slashingScript;
        pr_UnbondingScript := unbondingScript;
        pr_UnbondingSlashingScript := unbondingSlashingScript;
        pr_FpEncKeys := fpEncKeys |}.

Definition toStakeExpansionRequest (e : ParsedSigningRequestStkExp) : res StakeExpansionRequest :=
  pasTxHex ← wrapErr "failed to serialize previous active stake transaction"
               (SerializeBTCTxToHex (ps_PreviousActiveStakeTx e));
  ofoBz ← wrapErr "failed to serialize other funding output"
            (SerializeTxOut (ps_OtherFundingOutput e));
  Ok {| PreviousActiveStakeTxHex := pasTxHex;
        OtherFundingOutputHex := EncodeToString ofoBz;
        PrevStakingOutputIdx := ps_PreviousStakingOutputIdx e;
        PreviousActiveStakeUnbondingScriptHex :=
          EncodeToString (ps_PreviousActiveStakeUnbondingScript e) |}.

Definition ToSignTransactionRequest (p : ParsedSigningRequest) : res SignTransactionsRequest :=
  stakingTxHex ← wrapErr "failed to serialize staking transaction" (SerializeBTCTxToHex (pr_StakingTx p));
  slashingTxHex ← wrapErr "failed to serialize slashing transaction"
                    (SerializeBTCTxToHex (pr_SlashingTx p));
  unbondingTxHex ← wrapErr "failed to serialize unbonding transaction"
                     (SerializeBTCTxToHex (pr_UnbondingTx p));
  slashUnbondingTxHex ← wrapErr "failed to serialize slash unbonding transaction"
                          (SerializeBTCTxToHex (pr_SlashUnbondingTx p));
  stakeExpansion ← match pr_StakeExp p with
                   | Some e => Some <$> toStakeExpansionRequest e
                   | None => Ok None
                   end;
  Ok {| StakingTxHex := stakingTxHex;
        SlashingTxHex := slashingTxHex;
        UnbondingTxHex := unbondingTxHex;
        SlashUnbondingTxHex := slashUnbondingTxHex;
        StakingOutputIdx := pr_StakingOutputIdx p;
        SlashingScriptHex := EncodeToString (pr_SlashingScript p);
        UnbondingScriptHex := EncodeToString (pr_UnbondingScript p);
        UnbondingSlashingScriptHex := EncodeToString (pr_UnbondingSlashingScript p);
        FpEncKeys := (fun key => EncodeToString (EncKeyToBytes key)) <$> pr_FpEncKeys p;
        StakeExpansion := stakeExpansion |}.

Definition ToResponse (response : ParsedSigningResponse) : SignTransactionsResponse :=
  {| SlashingTransactionsAdaptorSignatures := EncodeToString <$> pp_SlashAdaptorSigs response;
     UnbondingTransactionSignature := EncodeToString (SigSerialize (pp_UnbondingSig response));
     SlashUnbondingTransactionsAdaptorSignatures :=
       EncodeToString <$> pp_SlashUnbondingAdaptorSigs response;
     StakeExpansionTransactionSignature :=
       match pp_StakeExpSig response with
       | Some sig => EncodeToString (SigSerialize sig)
       | None => ""
       end |}.

Definition ToParsedSigningResponse (response : SignTransactionsResponse) : res ParsedSigningResponse :=
  if bool_decide (SlashingTransactionsAdaptorSignatures response = []) then
    Err "no slashing transactions adaptor signatures in response"
  else if bool_decide (SlashUnbondingTransactionsAdaptorSignatures response = []) then
    Err "no slash unbonding transactions adaptor signatures in response"
  else
  slashAdaptorSigs ←
    mapM (fun sig => wrapErr "invalid slashing transactions adaptor signature in response"
                       (DecodeString sig)) (SlashingTransactionsAdaptorSignatures response);
  unbondingSigBytes ← wrapErr "invalid unbonding transaction signature in response"
                        (DecodeString (UnbondingTransactionSignature response));
  unbondingSig ← wrapErr "invalid unbonding transaction signature in response"
                   (ParseSignature unbondingSigBytes);
  slashUnbondingAdaptorSigs ←
    mapM (fun sig => wrapErr "invalid slash unbonding transactions adaptor signature in response"
                       (DecodeString sig)) (SlashUnbondingTransactionsAdaptorSignatures response);
  let h := StakeExpansionTransactionSignature response in
  stakeExpSig ←
    (if bool_decide (h <> "") then
       stakeExpSigBytes ← wrapErr ("invalid stake expansion signature " +:+ h +:+ " in response")
                            (DecodeString h);
       Some <$> wrapErr ("invalid parse of stake expansion signature " +:+ h +:+ " in response")
                  (ParseSignature stakeExpSigBytes)
     else Ok None);
  Ok {| pp_SlashAdaptorSigs := slashAdaptorSigs;
        pp_UnbondingSig := unbondingSig;
        pp_SlashUnbondingAdaptorSigs := slashUnbondingAdaptorSigs;
        pp_StakeExpSig := stakeExpSig |}.

(** ** remotesigner/signer.go: conversions *)

Definition covenantRequestToSignerRequestStkExp (req : SigningRequestStkExp) : ParsedSigningRequestStkExp :=
  {| ps_PreviousActiveStakeTx := se_PreviousActiveStakeTx req;
     ps_OtherFundingOutput := se_OtherFundingOutput req;
     ps_PreviousStakingOutputIdx := se_PreviousStakingOutputIdx req;
     ps_PreviousActiveStakeUnbondingScript := se_PreviousActiveStakeUnbondingPkScriptPath req |}.

Definition covenantRequestToSignerRequest (req : SigningRequest) : ParsedSigningRequest :=
  {| pr_StakingTx := sr_StakingTx req;
     pr_SlashingTx := sr_SlashingTx req;
     pr_UnbondingTx := sr_UnbondingTx req;
     pr_SlashUnbondingTx := sr_SlashUnbondingTx req;
     pr_StakeExp := covenantRequestToSignerRequestStkExp <$> sr_StakeExp req;
     pr_StakingOutputIdx := sr_StakingOutputIdx req;
     pr_SlashingScript := sr_SlashingPkScriptPath req;
     pr_UnbondingScript := sr_StakingTxUnbondingPkScriptPath req;
     pr_UnbondingSlashingScript := sr_UnbondingTxSlashingPkScriptPath req;
     pr_FpEncKeys := sr_FpEncKeys req |}.

Definition signerResponseToCovenantResponse (resp : ParsedSigningResponse) : SignaturesResponse :=
  {| sp_SlashSigs := pp_SlashAdaptorSigs resp;
     sp_UnbondingSig := pp_UnbondingSig resp;
     sp_StkExtSig := pp_StakeExpSig resp;
     sp_SlashUnbondingSigs := pp_SlashUnbondingAdaptorSigs resp |}.

(** ** Round trips *)

(** A transaction whose serialization reads back as itself (btcd's encoding
    does for every transaction with an input). *)
Definition tx_reads_back (tx : MsgTx) : Prop :=
  forall b, TxSerialize tx = Ok b -> TxDeserialize b = Ok tx.

(** The encodings of keys, outputs and signatures are decoded by their
    decoders; a signature is not empty (it has 64 bytes). *)
Record CodecLaws : Prop := {
  law_enckey : forall k, NewEncryptionKeyFromBytes (EncKeyToBytes k) = Ok k;
  law_txout : forall o b, SerializeTxOut o = Ok b -> DeserializeTxOut b = Ok o;
  law_sig : forall s, ParseSignature (SigSerialize s) = Ok s;
  law_sig_nonempty : forall s, SigSerialize s <> []
}.

Definition request_txs (p : ParsedSigningRequest) : list MsgTx :=
  [pr_StakingTx p; pr_SlashingTx p; pr_UnbondingTx p; pr_SlashUnbondingTx p] ++
  match pr_StakeExp p with Some e => [ps_PreviousActiveStakeTx e] | None => [] end.

Definition scripts_nonempty (p : ParsedSigningRequest) : Prop :=
  pr_SlashingScript p <> [] /\ pr_UnbondingScript p <> [] /\ pr_UnbondingSlashingScript p <> [].

Lemma tx_hex_roundtrip tx h :
  tx_reads_back tx -> SerializeBTCTxToHex tx = Ok h ->
  exists b, utils_NewBTCTxFromHex h = Ok (tx, b).
Proof.
  unfold SerializeBTCTxToHex, utils_NewBTCTxFromHex, SerializeBTCTx, NewBTCTxFromBytes.
  intros Hrb (b & Hb & [= <-])%res_bind_Ok. exists b. rewrite hex_roundtrip. simpl.
  by rewrite (Hrb b Hb).
Qed.

Lemma decodeScript_roundtrip name b :
  decodeScript name (EncodeToString b) = if bool_decide (b = []) then Err (name +:+ " is empty") else Ok b.
Proof. unfold decodeScript. rewrite hex_roundtrip. done. Qed.

Lemma mapM_map_Ok {A B C} (f : B -> res C) (g : A -> B) (h : A -> C) l :
  (forall x, f (g x) = Ok (h x)) -> mapM f (g <$> l) = Ok (h <$> l).
Proof.
  intros H. apply mapM_res_Ok. induction l as [|x l IH]; constructor; [apply H|apply IH].
Qed.

Lemma fpEncKeys_roundtrip (L : CodecLaws) keys :
  mapM parseFpEncKey ((fun key => EncodeToString (EncKeyToBytes key)) <$> keys) = Ok keys.
Proof.
  rewrite (mapM_map_Ok _ _ id); [by rewrite list_fmap_id|]. intros k. unfold parseFpEncKey.
  rewrite hex_roundtrip. simpl. by rewrite (law_enckey L).
Qed.

Lemma stakeExp_roundtrip (L : CodecLaws) e w :
  tx_reads_back (ps_PreviousActiveStakeTx e) ->
  toStakeExpansionRequest e = Ok w -> parseStakeExpansion w = Ok e.
Proof.
  unfold toStakeExpansionRequest. intros Hrb (h & Hh%wrapErr_Ok & H)%res_bind_Ok.
  apply res_bind_Ok in H as (ob & Hob%wrapErr_Ok & [= <-]). unfold parseStakeExpansion. simpl.
  destruct (tx_hex_roundtrip _ _ Hrb Hh) as [b ->]. simpl. rewrite !hex_roundtrip. simpl.
  rewrite (law_txout L _ _ Hob). simpl. by destruct e.
Qed.

Lemma optStakeExp_roundtrip (L : CodecLaws) e w :
  match e with Some e => tx_reads_back (ps_PreviousActiveStakeTx e) | None => True end ->
  match e with Some e => Some <$> toStakeExpansionRequest e | None => Ok None end = Ok w ->
  match w with Some se => Some <$> parseStakeExpansion se | None => Ok None end = Ok e.
Proof.
  destruct e as [e|]; [|by intros _ [= <-]]. intros Hrb.
  destruct (toStakeExpansionRequest e) as [se| | |] eqn:Hse; try done. intros [= <-].
  by rewrite (stakeExp_roundtrip L e se).
Qed.

Lemma request_reads_back p w :
  CodecLaws -> Forall tx_reads_back (request_txs p) -> ToSignTransactionRequest p = Ok w ->
  ParseSigningRequest w = Ok p <-> scripts_nonempty p.
Proof.
  intros L Hrb H. unfold ToSignTransactionRequest in H. unfold request_txs in Hrb.
  rewrite Forall_app, !Forall_cons in Hrb. destruct Hrb as ((R1 & R2 & R3 & R4 & _) & R5).
  apply res_bind_Ok in H as (h1 & H1%wrapErr_Ok & H). apply res_bind_Ok in H as (h2 & H2%wrapErr_Ok & H).
  apply res_bind_Ok in H as (h3 & H3%wrapErr_Ok & H). apply res_bind_Ok in H as (h4 & H4%wrapErr_Ok & H).
  apply res_bind_Ok in H as (e & He & [= <-]).
  destruct (tx_hex_roundtrip _ _ R1 H1) as [b1 E1]. destruct (tx_hex_roundtrip _ _ R2 H2) as [b2 E2].
  destruct (tx_hex_roundtrip _ _ R3 H3) as [b3 E3]. destruct (tx_hex_roundtrip _ _ R4 H4) as [b4 E4].
  assert (match pr_StakeExp p with Some e => tx_reads_back (ps_PreviousActiveStakeTx e) | None => True end)
    as R5' by (destruct (pr_StakeExp p); [by inversion R5|done]).
  unfold ParseSigningRequest. simpl. rewrite E1, E2, E3, E4. simpl.
  rewrite !decodeScript_roundtrip, (fpEncKeys_roundtrip L).
  unfold scripts_nonempty.
  destruct (bool_decide_reflect (pr_SlashingScript p = [])) as [?|N1]; [split; [done|naive_solver]|].
  destruct (bool_decide_reflect (pr_UnbondingScript p = [])) as [?|N2]; [split; [done|naive_solver]|].
  destruct (bool_decide_reflect (pr_UnbondingSlashingScript p = [])) as [?|N3];
    [split; [done|naive_solver]|].
  pose proof (optStakeExp_roundtrip L _ _ R5' He) as Hx. rewrite Hx. simpl. split; [done|].
  intros _. by destruct p.
Qed.

Lemma response_reads_back r :
  CodecLaws ->
  ToParsedSigningResponse (ToResponse r) = Ok r <->
  pp_SlashAdaptorSigs r <> [] /\ pp_SlashUnbondingAdaptorSigs r <> [].
Proof.
  intros L. unfold ToParsedSigningResponse. simpl.
  case_bool_decide as H1; [apply fmap_nil_inv in H1; split; [done|by intros []]|].
  case_bool_decide as H2; [apply fmap_nil_inv in H2; split; [done|by intros []]|].
  rewrite !(mapM_map_Ok _ _ id) by (intros x; by rewrite hex_roundtrip). rewrite !list_fmap_id.
  simpl. rewrite !hex_roundtrip. simpl. rewrite !(law_sig L). simpl.
  assert (pp_SlashAdaptorSigs r <> [] /\ pp_SlashUnbondingAdaptorSigs r <> []) as Hne
    by (split; intros Hr; [apply H1|apply H2]; by rewrite Hr).
  destruct r as [a u b [x|]]; simpl in *; [|done].
  rewrite bool_decide_true by (intros Hx; apply EncodeToString_empty in Hx; by apply (law_sig_nonempty L x)).
  rewrite hex_roundtrip. simpl. rewrite (law_sig L). simpl. done.
Qed.

(** ** Properties *)

(** C13: a request the client can serialize is parsed back by the signer to
    the same request exactly when its three scripts are not empty; the
    serialization itself never checks that. *)
Theorem request_roundtrip p w :
  CodecLaws -> Forall tx_reads_back (request_txs p) -> ToSignTransactionRequest p = Ok w ->
  ParseSigningRequest w = Ok p <-> scripts_nonempty p.
Proof. apply request_reads_back. Qed.

(** The answer of the signer is read back by the client to the same
    signatures exactly when both lists of adaptor signatures are not empty,
    that is when the request named a finality provider. *)
Theorem response_roundtrip r :
  CodecLaws ->
  ToParsedSigningResponse (ToResponse r) = Ok r <->
  pp_SlashAdaptorSigs r <> [] /\ pp_SlashUnbondingAdaptorSigs r <> [].
Proof. apply response_reads_back. Qed.

End Wire.
