(* ===== verification/Bip32.v ===== *)
(** * covenant-signer/keyutils/bip32deriv.go: derivation paths

    Parsing of the five-element derivation path and the derivation of a child
    key; hdkeychain (btcutil) is a parameter. *)
From Stdlib Require Import Strings.Ascii Strings.String.
From S2P Require Import Prelude GoStd JsonText BtcLib.
Local Open Scope Z_scope.

(** ** btcutil/hdkeychain *)
Class HdKeychain `{BL : BtcLib} : Type := {
  ExtendedKey : Type;
  NewKeyFromString : string -> res ExtendedKey;
  Derive : ExtendedKey -> Z -> res ExtendedKey;
  ECPrivKey : ExtendedKey -> res PrivateKey
}.

(** hdkeychain.HardenedKeyStart *)
Definition HardenedKeyStart : Z := 2 ^ 31.

Definition HardenedPostfix : ascii := "h".
Definition ExpectedDerivationDepth : nat := 5.

Definition parseHardened (elem : string) : res Z :=
  if bool_decide (String.length elem < 2)%nat then
    Err ("invalid hardened element: " +:+ elem)
  else
  let number := TrimSuffix elem HardenedPostfix in
  if bool_decide (number = elem) then Err "invalid hardened element"
  else
  match ParseUint number 32 with
  | None => Err "invalid hardened element"
  | Some parsedNum =>
      let numAsUint32 := u32 parsedNum in
      if bool_decide (HardenedKeyStart <= numAsUint32) then
        Err ("hardened index " +:+ pretty numAsUint32 +:+ " exceeds maximum allowed value "
             +:+ pretty (HardenedKeyStart - 1))
      else Ok (u32 (HardenedKeyStart + numAsUint32))
  end.

Definition parseNormal (elem : string) : res Z :=
  if bool_decide (elem = "") then Err "invalid normal element"
  else
  match ParseUint elem 32 with
  | None => Err "invalid normal element"
  | Some parsedNum => Ok (u32 parsedNum)
  end.

Definition ParsePath (path : string) : res (list Z) :=
  let splitted := Split path "/" in
  if bool_decide (length splitted <> ExpectedDerivationDepth) then
    Err "invalid derivation path length"
  else
  match splitted with
  | [e0; e1; e2; e3; e4] =>
      h1 ← wrapErr "invalid derivation path element at index 0" (parseHardened e0);
      h2 ← wrapErr "invalid derivation path element at index 1" (parseHardened e1);
      h3 ← wrapErr "invalid derivation path element at index 2" (parseHardened e2);
      n4 ← wrapErr "invalid derivation path element at index 3" (parseNormal e3);
      n5 ← wrapErr "invalid derivation path element at index 4" (parseNormal e4);
      Ok [h1; h2; h3; n4; n5]
  | _ => Panic "index out of range"
  end.

Record DerivationResult := {
  dres_PrivateKey : string;
  dres_PublicKey : string
}.

Section Derivation.
Context `{HK : HdKeychain}.

Fixpoint derivePath (key : ExtendedKey) (path : list Z) : res ExtendedKey :=
  match path with
  | [] => Ok key
  | elem :: path =>
      key ← wrapErr "failed to derive child key" (Derive key elem);
      derivePath key path
  end.

Definition DeriveChildKey (masterKey childPath : string) : res DerivationResult :=
  parsedMasterKey ← wrapErr "invalid master key" (NewKeyFromString masterKey);
  derivationPath ← wrapErr "invalid derivation path" (ParsePath childPath);
  keyResult ← derivePath parsedMasterKey derivationPath;
  privKey ← wrapErr "failed to get private key" (ECPrivKey keyResult);
  let pubKey := PrivPubKey privKey in
  Ok {| dres_PrivateKey := EncodeToString (PrivSerialize privKey);
        dres_PublicKey := EncodeToString (SerializeCompressed pubKey) |}.

End Derivation.

(** ** Lemmas *)

Lemma TrimSuffix_snoc d c : TrimSuffix (d +:+ String c "") c = d.
Proof.
  induction d as [|x d IH]; [simpl; by destruct (decide (c = c))|].
  rewrite append_cons. destruct d as [|y d].
  - simpl. by destruct (decide (c = c)).
  - rewrite append_cons in IH |- *. cbn [TrimSuffix] in IH |- *. by rewrite IH.
Qed.

(** The character does not occur in the string. *)
Fixpoint lacks (sep : ascii) (s : string) : bool :=
  match s with
  | "" => true
  | String c s => negb (bool_decide (c = sep)) && lacks sep s
  end.

Lemma lacks_digits sep s : is_digit sep = false -> all_digits s = true -> lacks sep s = true.
Proof.
  intros Hs. induction s as [|c s IH]; [done|]. simpl. intros [Hc H]%andb_true_iff.
  rewrite IH by done. rewrite bool_decide_false by congruence. done.
Qed.

Lemma lacks_app sep a b : lacks sep (a +:+ b) = lacks sep a && lacks sep b.
Proof.
  induction a as [|c a IH]; [done|]. rewrite append_cons. simpl. by rewrite IH, andb_assoc.
Qed.

Lemma Split_nil sep d : lacks sep d = true -> Split d sep = [d].
Proof.
  induction d as [|c d IH]; [done|]. simpl. case_bool_decide as Hc; [done|]. intros H.
  destruct (decide (c = sep)); [done|]. by rewrite IH.
Qed.

Lemma Split_lacks_app sep d rest :
  lacks sep d = true -> Split (d +:+ String sep rest) sep = d :: Split rest sep.
Proof.
  induction d as [|c d IH]; [intros _; simpl; by destruct (decide (sep = sep))|].
  rewrite append_cons. simpl. case_bool_decide as Hc; [done|]. intros H.
  destruct (decide (c = sep)); [done|]. by rewrite IH.
Qed.

(** One element of a path, as it is written. *)
Definition hardenedElem (i : N) : string := pretty i +:+ "h".

Lemma length_snoc s c : String.length (s +:+ String c "") = S (String.length s).
Proof. induction s as [|x s IH]; [done|]. rewrite append_cons. simpl. by rewrite IH. Qed.

Lemma parseHardened_elem (i : N) :
  Z.of_N i < 2 ^ 31 -> parseHardened (hardenedElem i) = Ok (HardenedKeyStart + Z.of_N i).
Proof.
  intros Hi. destruct (pretty_N_dec i) as (_ & _ & He). unfold parseHardened, hardenedElem.
  rewrite bool_decide_false.
  2:{ rewrite length_snoc. destruct (pretty i); [done|]. simpl. lia. }
  unfold HardenedPostfix. rewrite TrimSuffix_snoc, ParseUint_pretty by lia.
  rewrite bool_decide_false.
  2:{ intros H. apply (f_equal String.length) in H. rewrite length_snoc in H. lia. }
  assert (u32 (Z.of_N i) = Z.of_N i) as -> by (unfold u32; apply Z.mod_small; lia).
  unfold HardenedKeyStart. rewrite bool_decide_false by lia.
  unfold u32. by rewrite Z.mod_small by lia.
Qed.

Lemma parseNormal_elem (i : N) : Z.of_N i < 2 ^ 32 -> parseNormal (pretty i) = Ok (Z.of_N i).
Proof.
  intros Hi. destruct (pretty_N_dec i) as (_ & _ & He). unfold parseNormal.
  rewrite bool_decide_false, ParseUint_pretty by (done || lia).
  unfold u32. by rewrite Z.mod_small by lia.
Qed.

Lemma parseHardened_bounds s v : parseHardened s = Ok v -> 2 ^ 31 <= v < 2 ^ 32.
Proof.
  unfold parseHardened. repeat case_bool_decide; try done.
  destruct (ParseUint _ 32) as [n|] eqn:Hn; [|done].
  pose proof (ParseUint_bound _ _ _ Hn). pose proof (ParseUint_nonneg _ _ _ Hn).
  case_bool_decide as Hb; [done|]. intros [= <-]. unfold u32, HardenedKeyStart in *.
  rewrite (Z.mod_small n) in * by lia. rewrite Z.mod_small by lia. lia.
Qed.

Lemma parseNormal_bounds s v : parseNormal s = Ok v -> 0 <= v < 2 ^ 32.
Proof.
  unfold parseNormal. case_bool_decide; [done|].
  destruct (ParseUint _ 32) as [n|] eqn:Hn; [|done]. intros [= <-].
  unfold u32. apply Z.mod_pos_bound. lia.
Qed.

(** The written form of a path. *)
Definition printPath (a b c d e : N) : string :=
  hardenedElem a +:+ String "/" (hardenedElem b +:+ String "/" (hardenedElem c +:+
    String "/" (pretty d +:+ String "/" (pretty e)))).

Lemma lacks_pretty (i : N) : lacks "/" (pretty i) = true.
Proof. by apply lacks_digits; [|apply pretty_N_dec]. Qed.

Lemma lacks_hardened (i : N) : lacks "/" (hardenedElem i) = true.
Proof. unfold hardenedElem. by rewrite lacks_app, lacks_pretty. Qed.

Lemma Split_printPath a b c d e :
  Split (printPath a b c d e) "/" =
  [hardenedElem a; hardenedElem b; hardenedElem c; pretty d; pretty e].
Proof.
  unfold printPath. rewrite !Split_lacks_app by (apply lacks_hardened || apply lacks_pretty).
  by rewrite Split_nil by apply lacks_pretty.
Qed.

(** ** Properties *)

(** C27: the written form of a path with hardened indices below 2^31 in the first
    three places is parsed to these indices, hardened by adding 2^31 without
    overflow; the last two places take any 32-bit number, so indices from 2^31
    on, which denote hardened children, are accepted where a normal child is
    expected. *)
Theorem ParsePath_print (a b c d e : N) :
  Z.of_N a < 2 ^ 31 -> Z.of_N b < 2 ^ 31 -> Z.of_N c < 2 ^ 31 ->
  Z.of_N d < 2 ^ 32 -> Z.of_N e < 2 ^ 32 ->
  ParsePath (printPath a b c d e) =
  Ok [2 ^ 31 + Z.of_N a; 2 ^ 31 + Z.of_N b; 2 ^ 31 + Z.of_N c; Z.of_N d; Z.of_N e].
Proof.
  intros. unfold ParsePath. rewrite Split_printPath.
  rewrite !parseHardened_elem by done. simpl. by rewrite !parseNormal_elem by done.
Qed.

Lemma ParsePath_print_witness :
  ParsePath (printPath 84 1 0 0 2147483648) =
  Ok [2 ^ 31 + 84; 2 ^ 31 + 1; 2 ^ 31 + 0; 0; 2147483648].
Proof. apply (ParsePath_print 84 1 0 0 2147483648); reflexivity. Defined.

(** Whatever the text, a parsed path has five elements, the first three
    hardened indices and all of them 32-bit numbers: no addition wraps around. *)
Theorem ParsePath_bounds path l :
  ParsePath path = Ok l ->
  exists a b c d e, l = [a; b; c; d; e] /\
    Forall (fun v => 2 ^ 31 <= v < 2 ^ 32) [a; b; c] /\ Forall (fun v => 0 <= v < 2 ^ 32) [d; e].
Proof.
  unfold ParsePath. destruct (Split path "/") as [|e0 [|e1 [|e2 [|e3 [|e4 [|? ?]]]]]]; try done.
  intros (a & Ha%wrapErr_Ok & (b & Hb%wrapErr_Ok & (c & Hc%wrapErr_Ok & (d & Hd%wrapErr_Ok &
    (e & He%wrapErr_Ok & [= <-])%res_bind_Ok)%res_bind_Ok)%res_bind_Ok)%res_bind_Ok)%res_bind_Ok.
  exists a, b, c, d, e. split; [done|].
  apply parseHardened_bounds in Ha, Hb, Hc. apply parseNormal_bounds in Hd, He.
  split; repeat constructor; lia.
Qed.

Lemma ParsePath_bounds_witness :
  exists a b c d e, [2147483732; 2147483649; 2147483648; 0; 7] = [a; b; c; d; e] /\
    Forall (fun v => 2 ^ 31 <= v < 2 ^ 32) [a; b; c] /\ Forall (fun v => 0 <= v < 2 ^ 32) [d; e].
Proof. apply (ParsePath_bounds "84h/1h/0h/0/7"). vm_compute. reflexivity. Defined.

(** The cases of TestParsePath. *)
Example ParsePath_tests :
  ParsePath "84h/1h/0h/0/0" = Ok [2147483732; 2147483649; 2147483648; 0; 0] /\
  ParsePath "2147483647h/1h/0h/0/0" = Ok [4294967295; 2147483649; 2147483648; 0; 0] /\
  ParsePath "2147483648h/1h/0h/0/0"
    = Err "invalid derivation path element at index 0: hardened index 2147483648 exceeds maximum allowed value 2147483647" /\
  ParsePath "84h/1h/0h/0" = Err "invalid derivation path length".
Proof. vm_compute. auto. Qed.
