(* ===== verification/HmacAuth.v ===== *)
(** * Authentication of the signer service

    covenant-signer/signerservice/middlewares/hmac_auth.go and
    content_length.go, signerservice/types/error.go and addHMACHeader of
    signerservice/client.go.  crypto/sha256 and crypto/hmac are defined here
    from their standards (FIPS 180-4, RFC 2104) so that the middleware is
    executable. *)
From Stdlib Require Import Strings.Byte Strings.Ascii Strings.String.
From S2P Require Import Prelude GoStd JsonText BtcLib Config Types Env.
Local Open Scope Z_scope.

(** ** crypto/sha256 *)

Module Sha256.

Definition rotr (n x : Z) : Z := Z.lor (Z.shiftr x n) (u32 (Z.shiftl x (32 - n))).
Definition not32 (x : Z) : Z := Z.lxor x (2 ^ 32 - 1).
Definition Ch (x y z : Z) : Z := Z.lxor (Z.land x y) (Z.land (not32 x) z).
Definition Maj (x y z : Z) : Z := Z.lxor (Z.lxor (Z.land x y) (Z.land x z)) (Z.land y z).
Definition Sigma0 (x : Z) : Z := Z.lxor (Z.lxor (rotr 2 x) (rotr 13 x)) (rotr 22 x).
Definition Sigma1 (x : Z) : Z := Z.lxor (Z.lxor (rotr 6 x) (rotr 11 x)) (rotr 25 x).
Definition sigma0 (x : Z) : Z := Z.lxor (Z.lxor (rotr 7 x) (rotr 18 x)) (Z.shiftr x 3).
Definition sigma1 (x : Z) : Z := Z.lxor (Z.lxor (rotr 17 x) (rotr 19 x)) (Z.shiftr x 10).

(** The constants: the first 32 bits of the fractional parts of the cube roots
    of the first 64 primes, and of the square roots of the first eight. *)
Definition is_prime (n : Z) : bool :=
  forallb (fun d => negb (Z.eqb (n mod d) 0)) (seqZ 2 (Z.sqrt n - 1)).

Definition primes : list Z := filter (fun n => is_prime n = true) (seqZ 2 310).

(** The integer cube root, below 2^37, bit by bit from the top. *)
Definition cbrt (n : Z) : Z :=
  foldl (fun r b => if bool_decide ((r + 2 ^ b) ^ 3 <= n) then r + 2 ^ b else r) 0
    (reverse (seqZ 0 37)).

Definition K : list Z :=
  Eval vm_compute in (fun p => cbrt (p * 2 ^ 96) mod 2 ^ 32) <$> primes.

Definition H0 : list Z :=
  Eval vm_compute in (fun p => Z.sqrt (p * 2 ^ 64) mod 2 ^ 32) <$> take 8 primes.

Definition zbyte (b : byte) : Z := Z.of_N (Byte.to_N b).
Definition byteOf (z : Z) : byte := default x00 (Byte.of_N (Z.to_N (z mod 256))).

Fixpoint words (b : bytes) : list Z :=
  match b with
  | a :: b :: c :: d :: rest =>
      (zbyte a * 2 ^ 24 + zbyte b * 2 ^ 16 + zbyte c * 2 ^ 8 + zbyte d) :: words rest
  | _ => []
  end.

Definition be32 (w : Z) : bytes :=
  [byteOf (Z.shiftr w 24); byteOf (Z.shiftr w 16); byteOf (Z.shiftr w 8); byteOf w].

(** The next word of the schedule from the last sixteen. *)
Definition nextWord (w : list Z) : Z :=
  let at_ i := nth i w 0 in
  u32 (sigma1 (at_ 14%nat) + at_ 9%nat + sigma0 (at_ 1%nat) + at_ 0%nat).

(** One round for each constant; [w] holds the next sixteen words. *)
Fixpoint rounds (ks : list Z) (w s : list Z) : list Z :=
  match ks, s with
  | k :: ks, [a; b; c; d; e; f; g; h] =>
      let t1 := u32 (h + Sigma1 e + Ch e f g + k + nth 0 w 0) in
      let t2 := u32 (Sigma0 a + Maj a b c) in
      rounds ks (drop 1 w ++ [nextWord w]) [u32 (t1 + t2); a; b; c; u32 (d + t1); e; f; g]
  | _, _ => s
  end.

Definition compress (s block : list Z) : list Z :=
  zip_with (fun x y => u32 (x + y)) s (rounds K block s).

(** The padded message: a one bit, zeros, the length in bits on eight bytes. *)
Definition pad (m : bytes) : bytes :=
  let n := Z.of_nat (length m) in
  let zeros := Z.to_nat ((55 - n) mod 64) in
  m ++ [x80] ++ replicate zeros x00 ++ be32 (n * 8 / 2 ^ 32) ++ be32 (n * 8).

Fixpoint blocks (fuel : nat) (s w : list Z) : list Z :=
  match fuel, w with
  | S fuel, _ :: _ => blocks fuel (compress s (take 16 w)) (drop 16 w)
  | _, _ => s
  end.

Definition sum (m : bytes) : bytes :=
  let w := words (pad m) in
  concat (be32 <$> blocks (length w) H0 w).

End Sha256.

(** ** crypto/hmac *)

Definition xorWith (c : Z) (b : bytes) : bytes :=
  (fun x => Sha256.byteOf (Z.lxor (Sha256.zbyte x) c)) <$> b.

Definition hmacSha256 (key m : bytes) : bytes :=
  let key := if bool_decide (64 < length key)%nat then Sha256.sum key else key in
  let key := key ++ replicate (64 - length key) x00 in
  Sha256.sum (xorWith 0x5c key ++ Sha256.sum (xorWith 0x36 key ++ m)).

(** []byte(s) *)
Definition ascii_bytes (s : string) : bytes := list_byte_of_string s.

(** ** signerservice/types/error.go *)

Definition UninitializedStatusCode : Z := 0.
Definition StatusInternalServerError : Z := 500.
Definition StatusUnauthorized : Z := 401.
Definition StatusRequestEntityTooLarge : Z := 413.
Definition InternalServiceError : string := "INTERNAL_SERVICE_ERROR".
Definition Unauthorized : string := "UNAUTHORIZED".

Record AppError := {
  ae_Err : error;
  ae_StatusCode : Z;
  ae_ErrorCode : string
}.

Definition NewError (statusCode : Z) (errorCode : string) (err : error) : AppError :=
  let statusCode := if bool_decide (statusCode = UninitializedStatusCode)
                    then StatusInternalServerError else statusCode in
  let errorCode := if bool_decide (errorCode = "") then InternalServiceError else errorCode in
  {| ae_Err := err; ae_StatusCode := statusCode; ae_ErrorCode := errorCode |}.

Definition NewErrorWithMsg (statusCode : Z) (errorCode msg : string) : AppError :=
  NewError statusCode errorCode msg.

Definition NewUnauthorizedError (msg : string) : AppError :=
  NewErrorWithMsg StatusUnauthorized Unauthorized msg.

Definition NewInternalServiceError (err : error) : AppError :=
  {| ae_Err := err; ae_StatusCode := StatusInternalServerError; ae_ErrorCode := InternalServiceError |}.

(** ** Requests and responses *)

(** A request body: the bytes it yields, then the end or an error. *)
Record ReqBody := { content : bytes; readErr : option error }.

Record Request := {
  rq_Method : string;
  rq_Path : string;
  rq_HMAC : string;                (* Header.Get(HeaderCovenantHMAC) *)
  rq_ContentLength : Z;            (* -1 when unknown *)
  rq_Body : ReqBody
}.

Record Response := { rs_Status : Z; rs_ContentType : string; rs_Body : bytes }.

Definition Handler (S : Type) : Type := Request -> M S Response.

Definition withBody (r : Request) (b : ReqBody) : Request :=
  {| rq_Method := rq_Method r; rq_Path := rq_Path r; rq_HMAC := rq_HMAC r;
     rq_ContentLength := rq_ContentLength r; rq_Body := b |}.

(** io.ReadAll *)
Definition ReadAll (b : ReqBody) : res bytes :=
  match readErr b with
  | None => Ok (content b)
  | Some e => Err e
  end.

(** http.MaxBytesReader *)
Definition MaxBytesReader (b : ReqBody) (n : Z) : ReqBody :=
  if bool_decide (n < Z.of_nat (length (content b))) then
    {| content := take (Z.to_nat n) (content b); readErr := Some "http: request body too large" |}
  else b.

(** ** middlewares *)

(** Writing to a hash never fails (its documentation says so), so the error
    results of GenerateHMAC and ValidateHMAC are always nil and left out. *)
Definition GenerateHMAC (hmacKey : string) (body : bytes) : string :=
  if bool_decide (hmacKey = "") then ""
  else EncodeToString (hmacSha256 (ascii_bytes hmacKey) body).

Definition ValidateHMAC (hmacKey : string) (body : bytes) (receivedHMAC : string) : bool :=
  if bool_decide (hmacKey = "") then true
  else if bool_decide (receivedHMAC = "") then false
  else bool_decide (GenerateHMAC hmacKey body = receivedHMAC).

Definition RewindRequestBody (b : ReqBody) : res (bytes * ReqBody) :=
  body ← ReadAll b;
  Ok (body, {| content := body; readErr := None |}).

(** The body RespondWithError encodes, with the newline of Encoder.Encode.  The
    map always encodes, and a failing write has no reader left to inform. *)
Definition errorBody (code message : string) : bytes :=
  ascii_bytes (print (JObj [("error", JObj [("code", JStr code); ("message", JStr message)])])
               +:+ String "010" "").

Definition RespondWithError (appErr : AppError) : Response :=
  {| rs_Status := ae_StatusCode appErr; rs_ContentType := "application/json";
     rs_Body := errorBody (ae_ErrorCode appErr) (ae_Err appErr) |}.

Section Middlewares.
Context {S : Type}.

(** [global] writes to zerolog's global logger, not to the one of the request.
    ValidateHMAC has no error, so its line is left out too. *)
Definition HMACAuthMiddleware (global : Level -> string -> M S unit) (hmacKey : string) (next : Handler S)
  : Handler S := fun r =>
  if bool_decide (hmacKey = "") then next r
  else if bool_decide (rq_HMAC r = "") then
    global DebugL "Request rejected: Missing HMAC header";;
    mret (RespondWithError (NewUnauthorizedError "missing HMAC authentication header"))
  else
  match RewindRequestBody (rq_Body r) with
  | Err err =>
      global ErrorL "Failed to read request body for HMAC verification";;
      mret (RespondWithError (NewInternalServiceError err))
  | Panic m => lift (Panic m)
  | OutOfFuel => lift OutOfFuel
  | Ok (body, newBody) =>
      if ValidateHMAC hmacKey body (rq_HMAC r) then next (withBody r newBody)
      else
        global DebugL "Request rejected: Invalid HMAC";;
        mret (RespondWithError (NewUnauthorizedError "invalid HMAC authentication"))
  end.

Definition ContentLengthMiddleware (maxBytes : Z) (h : Handler S) : Handler S := fun r =>
  if bool_decide (maxBytes < rq_ContentLength r) then
    mret {| rs_Status := StatusRequestEntityTooLarge; rs_ContentType := "text/plain; charset=utf-8";
            rs_Body := ascii_bytes ("Request Entity Too Large" +:+ String "010" "") |}
  else h (withBody r (MaxBytesReader (rq_Body r) maxBytes)).

End Middlewares.

(** ** signerservice/client.go: addHMACHeader *)

Definition addHMACHeader (req : Request) (hmacKey : string) (body : bytes) : Request :=
  if bool_decide (hmacKey = "") then req
  else
    let hmacValue := GenerateHMAC hmacKey body in
    if bool_decide (hmacValue <> "") then
      {| rq_Method := rq_Method req; rq_Path := rq_Path req; rq_HMAC := hmacValue;
         rq_ContentLength := rq_ContentLength req; rq_Body := rq_Body req |}
    else req.

(** The middlewares of server.go that look at the request, in their order. *)
Definition signerChain {S} (global : Level -> string -> M S unit) (maxBytes : Z) (hmacKey : string)
    (routes : Handler S) : Handler S :=
  ContentLengthMiddleware maxBytes
    (if bool_decide (hmacKey <> "") then HMACAuthMiddleware global hmacKey routes else routes).

(** FIPS 180-4: the digests of the empty message and of abc; RFC 4231: test
    case 2. *)
Example sha256_abc :
  EncodeToString (Sha256.sum (ascii_bytes "abc"))
    = "ba7816bf8f01cfea414140de5dae2223b00361a396177a9cb410ff61f20015ad" /\
  EncodeToString (Sha256.sum [])
    = "e3b0c44298fc1c149afbf4c8996fb92427ae41e4649b934ca495991b7852b855" /\
  GenerateHMAC "Jefe" (ascii_bytes "what do ya want for nothing?")
    = "5bdcc146bf60754e6a042426089575c75a003f089d2739839dec58b964ec3843".
Proof. vm_compute. auto. Qed.

(** ** Lemmas *)

Lemma rounds_length ks : forall w s, length s = 8%nat -> length (Sha256.rounds ks w s) = 8%nat.
Proof.
  induction ks as [|k ks IH]; intros w s Hs; cbn [Sha256.rounds]; [done|].
  destruct s as [|? [|? [|? [|? [|? [|? [|? [|? [|? ?]]]]]]]]]; try discriminate Hs. by apply IH.
Qed.

Lemma compress_length s b : length s = 8%nat -> length (Sha256.compress s b) = 8%nat.
Proof. intros Hs. unfold Sha256.compress. by rewrite length_zip_with, rounds_length, Hs. Qed.

Lemma blocks_length fuel : forall s w, length s = 8%nat -> length (Sha256.blocks fuel s w) = 8%nat.
Proof.
  induction fuel as [|fuel IH]; intros s w Hs; cbn [Sha256.blocks]; [done|].
  destruct w; [done|]. by apply IH, compress_length.
Qed.

Lemma concat_be32_length ws : length (concat (Sha256.be32 <$> ws)) = (4 * length ws)%nat.
Proof. induction ws as [|w ws IH]; [done|]. cbn [fmap list_fmap concat]. rewrite length_app, IH. simpl. lia. Qed.

(** A digest has 32 bytes. *)
Lemma sum_length m : length (Sha256.sum m) = 32%nat.
Proof. unfold Sha256.sum. by rewrite concat_be32_length, blocks_length. Qed.

Lemma GenerateHMAC_nonempty key body : key <> "" -> GenerateHMAC key body <> "".
Proof.
  intros Hk. unfold GenerateHMAC. rewrite bool_decide_false by done.
  intros H%EncodeToString_empty. apply (f_equal length) in H.
  unfold hmacSha256 in H. by rewrite sum_length in H.
Qed.

Lemma ValidateHMAC_spec key body h :
  key <> "" -> ValidateHMAC key body h = bool_decide (GenerateHMAC key body = h).
Proof.
  intros Hk. unfold ValidateHMAC. rewrite bool_decide_false by done.
  case_bool_decide as Hh; [|done]. subst.
  symmetry. apply bool_decide_eq_false. by apply GenerateHMAC_nonempty.
Qed.

(** The body of a request read to its end and put back. *)
Definition rewound (r : Request) : Request :=
  withBody r {| content := content (rq_Body r); readErr := None |}.

(** The request carries the right header for its readable body. *)
Definition authentic (key : string) (r : Request) : Prop :=
  readErr (rq_Body r) = None /\ rq_HMAC r = GenerateHMAC key (content (rq_Body r)).

Lemma HMAC_passes {S} global key (next : Handler S) r s :
  key <> "" -> authentic key r -> HMACAuthMiddleware global key next r s = next (rewound r) s.
Proof.
  intros Hk [Hb Hh]. unfold HMACAuthMiddleware, RewindRequestBody, ReadAll.
  rewrite bool_decide_false by done. rewrite Hh.
  rewrite bool_decide_false by (by apply GenerateHMAC_nonempty). rewrite Hb. simpl.
  rewrite ValidateHMAC_spec by done. by rewrite bool_decide_true.
Qed.

(** What is written and answered for a request that is not let through. *)
Definition refused (key : string) (r : Request) : Level * string * Response :=
  if bool_decide (rq_HMAC r = "") then
    (DebugL, "Request rejected: Missing HMAC header",
     RespondWithError (NewUnauthorizedError "missing HMAC authentication header"))
  else match readErr (rq_Body r) with
  | Some e => (ErrorL, "Failed to read request body for HMAC verification",
               RespondWithError (NewInternalServiceError e))
  | None => (DebugL, "Request rejected: Invalid HMAC",
             RespondWithError (NewUnauthorizedError "invalid HMAC authentication"))
  end.

Lemma HMAC_refuses {S} global key (next : Handler S) r s :
  key <> "" -> ~ authentic key r ->
  HMACAuthMiddleware global key next r s =
    (let '(l, msg, resp) := refused key r in global l msg;; mret resp) s.
Proof.
  intros Hk Hna. unfold HMACAuthMiddleware, refused, RewindRequestBody, ReadAll. rewrite bool_decide_false by done.
  case_bool_decide as Hh; [done|]. destruct (readErr (rq_Body r)) as [e|] eqn:Hb; [done|].
  simpl. rewrite ValidateHMAC_spec by done. case_bool_decide as Hv; [by destruct Hna|done].
Qed.

(** The request as it comes out of the length check. *)
Definition limited (maxBytes : Z) (r : Request) : Request := withBody r (MaxBytesReader (rq_Body r) maxBytes).

(** The chain refuses a request for want of a valid HMAC. *)
Definition rejected (maxBytes : Z) (key : string) (r : Request) : Prop :=
  key <> "" /\ rq_ContentLength r <= maxBytes /\ ~ authentic key (limited maxBytes r).

#[export] Instance authentic_dec key r : Decision (authentic key r).
Proof. unfold authentic. apply _. Defined.

(** A request is answered by the length check, reaches the routes, or is
    rejected, and which of these does not depend on the state. *)
Lemma signerChain_cases maxBytes key r :
  (~ rejected maxBytes key r /\ exists resp, forall S global (routes : Handler S) s,
     signerChain global maxBytes key routes r s = (s, Ok resp)) \/
  (~ rejected maxBytes key r /\ exists r', forall S global (routes : Handler S) s,
     signerChain global maxBytes key routes r s = routes r' s) \/
  (rejected maxBytes key r /\ forall S global (routes : Handler S) s,
     signerChain global maxBytes key routes r s =
     (let '(l, msg, resp) := refused key (limited maxBytes r) in global l msg;; mret resp) s).
Proof.
  unfold rejected, signerChain, ContentLengthMiddleware. fold (limited maxBytes r).
  destruct (decide (maxBytes < rq_ContentLength r)) as [Hl|Hl].
  { left. split; [intros (_ & ? & _); lia|]. eexists. intros. by rewrite bool_decide_true by done. }
  right. destruct (decide (key = "")) as [->|Hk].
  { left. split; [by intros [? _]|]. eexists. intros. rewrite bool_decide_false by done.
    by rewrite bool_decide_false by (intros H; by apply H). }
  destruct (decide (authentic key (limited maxBytes r))) as [Ha|Ha]; [left|right].
  - split; [by intros (_ & _ & ?)|]. eexists. intros. rewrite bool_decide_false by done.
    rewrite bool_decide_true by done. by apply HMAC_passes.
  - split; [split_and!; [done|lia|done]|]. intros. rewrite bool_decide_false by done.
    rewrite bool_decide_true by done. by apply HMAC_refuses.
Qed.

(** ** Properties *)

(** C14: with a key configured, a handler behind the middleware runs exactly on the
    requests whose body can be read and whose header is the HMAC of that body
    under the key, and it sees the whole body again; every other request is
    answered with 401, or with 500 if its body cannot be read, and does nothing
    but write one line to the global log. *)
Theorem HMAC_gates_handler {S} global key (next : Handler S) r s :
  key <> "" ->
  (authentic key r -> HMACAuthMiddleware global key next r s = next (rewound r) s) /\
  (~ authentic key r -> exists l msg resp,
     HMACAuthMiddleware global key next r s = (global l msg;; mret resp) s /\
     (rs_Status resp = 401 \/ rs_Status resp = 500 /\ is_Some (readErr (rq_Body r)))).
Proof.
  intros Hk. split; [by apply HMAC_passes|]. intros Hna.
  destruct (refused key r) as [[l msg] resp] eqn:Hr. exists l, msg, resp.
  rewrite HMAC_refuses, Hr by done. split; [done|]. unfold refused in Hr.
  case_bool_decide; [simplify_eq; by left|]. destruct (readErr (rq_Body r)); simplify_eq; [right|left]; by eauto.
Qed.

Lemma HMAC_gates_handler_witness :
  HMACAuthMiddleware (fun _ _ => mret tt) "k"
    (fun _ n => (S n, Ok {| rs_Status := 200; rs_ContentType := ""; rs_Body := [] |}))
    {| rq_Method := "POST"; rq_Path := "/v1/lock"; rq_HMAC := GenerateHMAC "k" [x7b; x7d];
       rq_ContentLength := 2; rq_Body := {| content := [x7b; x7d]; readErr := None |} |} 0%nat
  = (1%nat, Ok {| rs_Status := 200; rs_ContentType := ""; rs_Body := [] |}).
Proof. apply HMAC_gates_handler; done. Defined.

(** A request the client signs with the key of the server, of an allowed
    length, passes the chain and reaches the routes with its body; without a
    key on both sides it does too. *)
Lemma client_request_passes {S} global maxBytes key (routes : Handler S) r body s :
  rq_Body r = {| content := body; readErr := None |} ->
  rq_ContentLength r <= maxBytes -> Z.of_nat (length body) <= maxBytes ->
  signerChain global maxBytes key routes (addHMACHeader r key body) s = routes (addHMACHeader r key body) s.
Proof.
  intros Hb Hl Hm. unfold signerChain, ContentLengthMiddleware.
  assert (rq_Body (addHMACHeader r key body) = rq_Body r /\
          rq_ContentLength (addHMACHeader r key body) = rq_ContentLength r) as [E1 E2]
    by (unfold addHMACHeader; by repeat case_bool_decide).
  rewrite E2, E1, (bool_decide_false (_ < rq_ContentLength _)) by lia. unfold MaxBytesReader.
  rewrite Hb. simpl content. rewrite (bool_decide_false (_ < Z.of_nat _)) by lia.
  destruct (decide (key = "")) as [->|Hk].
  - rewrite bool_decide_false by (intros H; by apply H). unfold addHMACHeader.
    rewrite bool_decide_true by done. destruct r. simpl in *. by subst.
  - rewrite bool_decide_true by done. unfold addHMACHeader. rewrite bool_decide_false by done.
    rewrite bool_decide_true by (by apply GenerateHMAC_nonempty).
    rewrite HMAC_passes; [|done|by split]. destruct r. simpl in *. by subst.
Qed.

(** Routes that answer with the path and the body they were asked for. *)
Definition echo : Handler unit := fun r n =>
  (n, Ok {| rs_Status := 200; rs_ContentType := rq_Path r; rs_Body := content (rq_Body r) |}).

(** C38: the header is bound to the body only: the header of a request without a
    body (GET /v1/public-key) authenticates an empty request to any method and
    path, such as POST /v1/lock. *)
Theorem HMAC_not_bound_to_route {S} global maxBytes key (routes : Handler S) get method path s :
  key <> "" -> 0 <= maxBytes -> rq_Body get = {| content := []; readErr := None |} ->
  let stolen := rq_HMAC (addHMACHeader get key []) in
  let req := {| rq_Method := method; rq_Path := path; rq_HMAC := stolen; rq_ContentLength := 0;
                rq_Body := {| content := []; readErr := None |} |} in
  signerChain global maxBytes key routes req s = routes req s.
Proof.
  intros Hk Hm Hg stolen req. unfold signerChain, ContentLengthMiddleware.
  rewrite bool_decide_false by (simpl; lia). unfold MaxBytesReader. simpl.
  rewrite (bool_decide_false (maxBytes < _)) by lia. rewrite bool_decide_true by done.
  rewrite HMAC_passes; [done|done|]. split; [done|]. simpl. unfold stolen, addHMACHeader.
  rewrite bool_decide_false by done. by rewrite bool_decide_true by (by apply GenerateHMAC_nonempty).
Qed.

Definition publicKeyRequest : Request :=
  {| rq_Method := "GET"; rq_Path := "/v1/public-key"; rq_HMAC := ""; rq_ContentLength := 0;
     rq_Body := {| content := []; readErr := None |} |}.

Lemma HMAC_not_bound_to_route_witness :
  signerChain (fun _ _ => mret tt) 10 "k" echo
    {| rq_Method := "POST"; rq_Path := "/v1/lock";
       rq_HMAC := rq_HMAC (addHMACHeader publicKeyRequest "k" []); rq_ContentLength := 0;
       rq_Body := {| content := []; readErr := None |} |} tt
  = (tt, Ok {| rs_Status := 200; rs_ContentType := "/v1/lock"; rs_Body := [] |}).
Proof. apply (HMAC_not_bound_to_route _ 10 "k" echo publicKeyRequest); [done|lia|done]. Defined.

(** A body longer than the limit, sent without a content length, is answered
    with 500 and the text of the internal error when a key is configured. *)
Lemma oversize_body_is_500 {S} global maxBytes key (routes : Handler S) r s :
  key <> "" -> rq_HMAC r <> "" -> rq_ContentLength r <= maxBytes ->
  maxBytes < Z.of_nat (length (content (rq_Body r))) ->
  signerChain global maxBytes key routes r s =
  (global ErrorL "Failed to read request body for HMAC verification";;
   mret {| rs_Status := 500; rs_ContentType := "application/json";
           rs_Body := errorBody InternalServiceError "http: request body too large" |}) s.
Proof.
  intros Hk Hh Hl Hm. unfold signerChain, ContentLengthMiddleware.
  rewrite bool_decide_false by lia. unfold MaxBytesReader. rewrite (bool_decide_true (maxBytes < _)) by lia.
  rewrite bool_decide_true by done. unfold HMACAuthMiddleware. simpl.
  by rewrite !bool_decide_false by done.
Qed.
