(* ===== verification/Daemon.v ===== *)
(** * covenant/service: the daemon and its Prometheus endpoint

    server.go (CovenantServer.RunUntilShutdown) as a step relation over the
    process, on top of the goroutines of [Lifecycle], and the endpoints of
    prometheus.go.  The goroutine of the Prometheus server either serves or
    ends the process: a failing ListenAndServe is logged with Fatal, which
    exits. *)
From Stdlib Require Import Strings.Byte Strings.Ascii Strings.String.
From S2P Require Import Prelude GoStd BtcLib Config Types Env ParamsCache Emulator Lifecycle HmacAuth.
Local Open Scope Z_scope.

(** ** prometheus.go *)

(** http.Error *)
Definition httpError (msg : string) (code : Z) : Response :=
  {| rs_Status := code; rs_ContentType := "text/plain; charset=utf-8";
     rs_Body := ascii_bytes (msg +:+ String "010" "") |}.

Definition StatusServiceUnavailable : Z := 503.

Section Prometheus.
Context {S : Type}.

(** PrometheusServer: the readiness checker, and the handler of /metrics,
    which belongs to the Prometheus library. *)
Record PrometheusServer := {
  pr_addr : string;
  pr_interval : Z;
  pr_readinessChecker : option (M S unit);
  pr_healthRegistered : bool;
  pr_metricsHandler : Handler S
}.

Definition NewPrometheusServer (addr : string) (interval : Z) (promhttpHandler : Handler S) : PrometheusServer :=
  {| pr_addr := addr; pr_interval := interval; pr_readinessChecker := None;
     pr_healthRegistered := false; pr_metricsHandler := promhttpHandler |}.

(** ServeMux.HandleFunc panics on a pattern that is registered already. *)
Definition SetReadinessChecker (rc : M S unit) (ps : PrometheusServer) : res PrometheusServer :=
  if pr_healthRegistered ps then Panic "http: multiple registrations for /health"
  else Ok {| pr_addr := pr_addr ps; pr_interval := pr_interval ps; pr_readinessChecker := Some rc;
             pr_healthRegistered := true; pr_metricsHandler := pr_metricsHandler ps |}.

Definition readinessHandler (ps : PrometheusServer) : Handler S := fun _ =>
  match pr_readinessChecker ps with
  | None => mret (httpError "Readiness checker not configured" 500)
  | Some check =>
      r ← attempt check;
      match r with
      | inr err => mret (httpError err StatusServiceUnavailable)
      | inl _ => mret {| rs_Status := 200; rs_ContentType := "text/plain; charset=utf-8";
                         rs_Body := ascii_bytes "Healthy" |}
      end
  end.

(** The mux of the server *)
Definition prometheusMux (ps : PrometheusServer) : Handler S := fun r =>
  if bool_decide (rq_Path r = "/metrics") then pr_metricsHandler ps r
  else if pr_healthRegistered ps && bool_decide (rq_Path r = "/health") then readinessHandler ps r
  else mret (httpError "404 page not found" 404).

End Prometheus.
Arguments PrometheusServer S : clear implicits.

(** ** server.go *)

Section Server.
Context `{BL : BtcLib} {W : Type} `{CK : !Clock W}.
Variable ce : Emulator W.
Variable metricsCfg : MetricsConfig.            (* ce.Config().Metrics *)

Inductive promState := PromNone | PromServing | PromStopped.
Inductive runState := RunIdle | RunWaiting | RunStopping | RunReturned (r : res unit).

Record Process := {
  p_started : Z;               (* CovenantServer.started, an int32 *)
  p_run : runState;            (* where the first call of RunUntilShutdown is *)
  p_prom : promState;
  p_signal : bool;             (* the shutdown channel is closed *)
  p_exited : bool;             (* os.Exit *)
  p_daemon : Daemon (W := W)
}.

Definition i32 (z : Z) : Z := (z + 2 ^ 31) mod 2 ^ 32 - 2 ^ 31.

Definition newProcess (s : Sys W) : Process :=
  {| p_started := 0; p_run := RunIdle; p_prom := PromNone; p_signal := false; p_exited := false;
     p_daemon := newDaemon s |}.

(** The Prometheus server RunUntilShutdown sets up: its readiness checker is
    the emulator, by pointer, so a request sees the daemon as it then is. *)
Definition setupPrometheus (promhttpHandler : Handler Daemon) : res (PrometheusServer Daemon) :=
  promAddr ← Address metricsCfg;
  SetReadinessChecker (CheckReadiness ce)
    (NewPrometheusServer promAddr (mc_UpdateInterval metricsCfg) promhttpHandler).

Definition alive (p : Process) : Prop := p_exited p = false /\ crashed (p_daemon p) = false.

Definition goOn (p : Process) (started : Z) (run : runState) (prom : promState) (d : Daemon) : Process :=
  {| p_started := started; p_run := run; p_prom := prom; p_signal := p_signal p; p_exited := p_exited p;
     p_daemon := d |}.

Inductive pstep (p : Process) : Process -> Prop :=
(** the call: the metrics address, the two servers, Start *)
| run_call addr : alive p -> p_run p = RunIdle -> i32 (p_started p + 1) = 1 ->
    Address metricsCfg = Ok addr ->
    pstep p (goOn p (i32 (p_started p + 1)) RunWaiting PromServing (Start (p_daemon p)))
| run_badAddress e : alive p -> p_run p = RunIdle -> i32 (p_started p + 1) = 1 ->
    Address metricsCfg = Err e ->
    pstep p (goOn p (i32 (p_started p + 1)) (RunReturned (Err e)) (p_prom p) (p_daemon p))
(** another call returns nil at once *)
| run_again : alive p -> i32 (p_started p + 1) <> 1 ->
    pstep p (goOn p (i32 (p_started p + 1)) (p_run p) (p_prom p) (p_daemon p))
| run_listenFails : alive p -> p_prom p = PromServing ->
    pstep p {| p_started := p_started p; p_run := p_run p; p_prom := p_prom p; p_signal := p_signal p;
               p_exited := true; p_daemon := p_daemon p |}
| run_emulator d' : alive p -> loopStep ce (p_daemon p) d' ->
    pstep p (goOn p (p_started p) (p_run p) (p_prom p) d')
| run_signal : alive p ->
    pstep p {| p_started := p_started p; p_run := p_run p; p_prom := p_prom p; p_signal := true;
               p_exited := p_exited p; p_daemon := p_daemon p |}
(** the deferred function: ps.Stop, then ce.Stop up to its wait *)
| run_shutdown : alive p -> p_run p = RunWaiting -> p_signal p = true -> stopOnce (p_daemon p) = StopNotCalled ->
    pstep p (goOn p (p_started p) RunStopping PromStopped (StopBegin (p_daemon p)))
| run_return : alive p -> p_run p = RunStopping -> stopOnce (p_daemon p) = StopWaiting -> wg (p_daemon p) = 0 ->
    pstep p (goOn p (p_started p) (RunReturned (Ok tt)) (p_prom p) (StopEnd (p_daemon p))).

(** ** Lemmas *)

(** What is running at each point of RunUntilShutdown. *)
Definition runInv (p : Process) : Prop :=
  match p_run p with
  | RunIdle => p_prom p = PromNone /\ startOnce (p_daemon p) = false /\ stopOnce (p_daemon p) = StopNotCalled
  | RunWaiting => p_prom p = PromServing /\ stopOnce (p_daemon p) = StopNotCalled
  | RunStopping => p_prom p = PromStopped /\ stopOnce (p_daemon p) = StopWaiting
  | RunReturned (Ok _) => p_prom p = PromStopped /\ stopOnce (p_daemon p) = StopDone /\
      live (sigLoop (p_daemon p)) = 0 /\ live (metLoop (p_daemon p)) = 0
  | RunReturned (Err e) => Address metricsCfg = Err e /\ p_prom p = PromNone /\ startOnce (p_daemon p) = false
  | RunReturned _ => False
  end.

Lemma live_0_wg (d : Daemon (W := W)) : dinv d -> wg d = 0 -> live (sigLoop d) = 0 /\ live (metLoop d) = 0.
Proof. intros [H _ _ _ _] Hw. rewrite Hw in H. destruct (sigLoop d), (metLoop d); simpl in *; lia || done. Qed.

(** Goroutines that have ended do not come back. *)
Lemma loopStep_idle d d' : loopStep ce d d' -> live (sigLoop d) = 0 -> live (metLoop d) = 0 ->
  live (sigLoop d') = 0 /\ live (metLoop d') = 0.
Proof.
  intros (Hs & _ & Hst & _) H1 H2.
  destruct Hs as [d _|d _ Hn|d _ Hn Hw|d s' _ Hl _|d s' m _ Hl _|d s' _ Hl _|d _ Hl _|d s' _ Hl _|d _ Hl _
                 |d _ Hl _|d _ Hl _|d _ Hl _|d _ Hl _];
    simpl in *; try done; try (by rewrite Hl in *).
  unfold Start in *. destruct (startOnce d) eqn:Ho; done.
Qed.

Lemma runInv_step p p' : dinv (p_daemon p) -> runInv p -> pstep p p' -> runInv p'.
Proof.
  unfold runInv. intros Hd H Hs.
  destruct Hs as [addr _ Hr _ Ha|e _ Hr _ Ha| | |d' _ He| |_ Hr _ Hn|_ Hr Hw Hz]; simpl in *; try done.
  - rewrite Hr in H. unfold Start. destruct H as (_ & -> & ?). done.
  - rewrite Hr in H. naive_solver.
  - pose proof He as (_ & _ & -> & -> & _). destruct (p_run p) as [| | |[[]| | |]]; try done.
    destruct H as (? & ? & ? & ?). split_and!; [done|done|..]; by apply (loopStep_idle (p_daemon p)).
  - rewrite Hr in H. destruct (live_0_wg _ Hd Hz). naive_solver.
Qed.

Lemma daemon_step p p' : pstep p p' -> rtc (dstep ce) (p_daemon p) (p_daemon p').
Proof.
  intros [addr [_ Hc] _ _ _|e _ _ _ _|_ _|_ _|d' _ [Hd _]|_|[_ Hc] _ _ Hn|[_ Hc] _ Hw Hz]; simpl; try done.
  - by apply rtc_once, step_start.
  - by apply rtc_once.
  - by apply rtc_once, step_stop.
  - by apply rtc_once, step_stop_end.
Qed.

Definition pInv (s : Sys W) (p : Process) : Prop := runInv p /\ rtc (dstep ce) (newDaemon s) (p_daemon p).

Lemma pInv_steps s p p' : pInv s p -> rtc pstep p p' -> pInv s p'.
Proof.
  intros H Hr. induction Hr as [p|p p1 p2 Hs _ IH]; [done|]. apply IH. destruct H as [Hi Hd].
  split; [by apply (runInv_step p); [apply (dinv_reachable ce s)|..]|]. etrans; [exact Hd|by apply daemon_step].
Qed.

Lemma pInv_reachable s p : rtc pstep (newProcess s) p -> pInv s p.
Proof. apply pInv_steps. by split. Qed.

(** Steps of the goroutines are steps of the process. *)
Lemma loop_rtc p d' : p_exited p = false -> rtc (loopStep ce) (p_daemon p) d' ->
  rtc pstep p (goOn p (p_started p) (p_run p) (p_prom p) d').
Proof.
  intros He Hr. remember (p_daemon p) as d eqn:E. revert p He E.
  induction Hr as [d|d d1 d2 Hs _ IH]; intros p He ->; [by destruct p|].
  etrans; [apply rtc_once, (run_emulator p d1); [split; [done|apply Hs]|done]|].
  apply (IH (goOn p (p_started p) (p_run p) (p_prom p) d1)); done.
Qed.

(** ** Properties *)


(** C17: a shutdown signal can always be carried out: from every reachable
    state in which RunUntilShutdown waits and the signal has come, unless the
    process has exited or crashed or a round of the submission loop hangs, the
    loops can leave and the call can return nil, for positive intervals. *)
Theorem shutdown_completes s p :
  0 < QueryInterval ce -> 0 < UpdateInterval ce ->
  rtc pstep (newProcess s) p -> p_run p = RunWaiting -> p_signal p = true -> alive p ->
  sigLoop (p_daemon p) <> Hung ->
  exists p', rtc pstep p p' /\ p_run p' = RunReturned (Ok tt).
Proof.
  intros Hqi Hui Hr Hw Hsig Ha Hh. pose proof Ha as [He Hc].
  destruct (pInv_reachable s p Hr) as [Hi Hd]. pose proof Hi as Hi'. unfold runInv in Hi'.
  rewrite Hw in Hi'. destruct Hi' as [_ Hn].
  pose (p1 := goOn p (p_started p) RunStopping PromStopped (StopBegin (p_daemon p))).
  assert (pstep p p1) as Hs1 by (by apply run_shutdown).
  assert (rtc (dstep ce) (newDaemon s) (p_daemon p1)) as Hd1
    by (etrans; [exact Hd|by apply daemon_step]).
  destruct (loops_leave ce s (p_daemon p1) Hqi Hui Hd1) as (d2 & R2 & W2 & S2 & C2); [done|done|done|].
  pose proof (loop_rtc p1 d2 He R2) as R.
  eexists. split; [eapply rtc_l; [exact Hs1|]; eapply rtc_r; [exact R|]|].
  - apply run_return; [by split|done|by simpl; rewrite S2|done].
  - done.
Qed.

(** C19: the /health endpoint answers 200 exactly when the emulator, at the time
    of the request, has not been stopped and its signer answers with a public
    key, and 503 with the reason otherwise. *)
Theorem health_is_readiness promhttp ps req d :
  setupPrometheus promhttp = Ok ps -> rq_Path req = "/health" ->
  let answer := (PubKey (ce_signer ce) (world (d_sys d))).2 in
  (forall m, answer <> Panic m) -> answer <> OutOfFuel ->
  exists d' resp, prometheusMux ps req d = (d', Ok resp) /\
    (rs_Status resp = 200 \/ rs_Status resp = 503) /\
    (rs_Status resp = 200 <-> quit d = false /\ exists pk, answer = Ok pk).
Proof.
  intros (addr & _ & [= <-])%res_bind_Ok Hp answer Hnp Hno. subst answer. unfold prometheusMux. rewrite Hp. simpl.
  unfold readinessHandler, attempt, mbind, M_bind. simpl. unfold CheckReadiness, gets, mbind, M_bind.
  destruct (quit d) eqn:Hq; simpl.
  { eexists _, _. split; [reflexivity|]. split; [by right|]. split; [done|by intros [? _]]. }
  unfold wrapErrM, onSys, ext. destruct (PubKey (ce_signer ce) (world (d_sys d))) as [w [pk|e|m|]]; simpl in *.
  - eexists _, _. split; [reflexivity|]. split; [by left|]. split; [by eauto|done].
  - eexists _, _. split; [reflexivity|]. split; [by right|]. split; [done|]. by intros (_ & pk & ?).
  - by destruct (Hnp m).
  - done.
Qed.

End Server.
