(* ===== verification/SignerServer.v ===== *)
(** * covenant-signer/signerservice: the HTTP service of the signer

    handlers/, http_response.go, server.go, the logging middleware, the metrics
    of observability/metrics/signer.go and the payloads of types/, over the
    signing application of [SignerApp].  The chi router is a parameter
    ([ChiLib]) with its documented behaviour in [ChiLaws]; net/http hands each
    request to the handler and closes the connection when the handler
    panics. *)
From Stdlib Require Import Strings.Byte Strings.Ascii Strings.String.
From S2P Require Import Prelude GoStd JsonText JsonCodec BtcLib Env SignerConfig SignerApp WireTypes HmacAuth.
Local Open Scope Z_scope.

(** ** Payloads: signerservice/types *)

Record UnlockRequest := { Passphrase : string }.
Record GetPublicKeyResponse := { PublicKeyHex : string }.

(** UnlockResponse and LockResponse: structs without fields *)
Definition UnlockResponse : Json := JObj [].
Definition LockResponse : Json := JObj [].

Definition num (z : Z) : Json := JNum (pretty (Z.to_N z)).
Definition strs (l : list string) : Json := JArr (JStr <$> l).

Definition stakeExpNames : list string :=
  ["previous_active_stake_tx_hex"; "other_funding_output_hex"; "previous_staking_output_idx";
   "previous_active_stake_unbonding_script_hex"].

Definition zeroStakeExp : StakeExpansionRequest :=
  {| PreviousActiveStakeTxHex := ""; OtherFundingOutputHex := ""; PrevStakingOutputIdx := 0;
     PreviousActiveStakeUnbondingScriptHex := "" |}.

Definition decStakeExp : dec StakeExpansionRequest := decStruct (fun l old =>
  let f {A} := @field A stakeExpNames in
  tx <~ f "previous_active_stake_tx_hex" decString l (PreviousActiveStakeTxHex old);
  out <~ f "other_funding_output_hex" decString l (OtherFundingOutputHex old);
  idx <~ f "previous_staking_output_idx" decUint32 l (PrevStakingOutputIdx old);
  script <~ f "previous_active_stake_unbonding_script_hex" decString l
              (PreviousActiveStakeUnbondingScriptHex old);
  ({| PreviousActiveStakeTxHex := tx; OtherFundingOutputHex := out; PrevStakingOutputIdx := idx;
      PreviousActiveStakeUnbondingScriptHex := script |}, false)).

Definition stakeExpJson (e : StakeExpansionRequest) : Json := JObj
  [("previous_active_stake_tx_hex", JStr (PreviousActiveStakeTxHex e));
   ("other_funding_output_hex", JStr (OtherFundingOutputHex e));
   ("previous_staking_output_idx", num (PrevStakingOutputIdx e));
   ("previous_active_stake_unbonding_script_hex", JStr (PreviousActiveStakeUnbondingScriptHex e))].

Definition requestNames : list string :=
  ["staking_tx_hex"; "slashing_tx_hex"; "unbonding_tx_hex"; "slash_unbonding_tx_hex";
   "staking_output_idx"; "slashing_script_hex"; "unbonding_script_hex";
   "unbonding_slashing_script_hex"; "fp_enc_keys"; "stake_expansion"].

(** The payload of a handler is decoded onto a new struct, so the slice starts
    as nil. *)
Definition decRequest : dec SignTransactionsRequest := decStruct (fun l old =>
  let f {A} := @field A requestNames in
  a <~ f "staking_tx_hex" decString l (StakingTxHex old);
  b <~ f "slashing_tx_hex" decString l (SlashingTxHex old);
  c <~ f "unbonding_tx_hex" decString l (UnbondingTxHex old);
  d <~ f "slash_unbonding_tx_hex" decString l (SlashUnbondingTxHex old);
  idx <~ f "staking_output_idx" decUint32 l (StakingOutputIdx old);
  s1 <~ f "slashing_script_hex" decString l (SlashingScriptHex old);
  s2 <~ f "unbonding_script_hex" decString l (UnbondingScriptHex old);
  s3 <~ f "unbonding_slashing_script_hex" decString l (UnbondingSlashingScriptHex old);
  keys <~ f "fp_enc_keys" decSlice l (slice_of (FpEncKeys old));
  e <~ f "stake_expansion" (decPtr zeroStakeExp decStakeExp) l (StakeExpansion old);
  ({| StakingTxHex := a; SlashingTxHex := b; UnbondingTxHex := c; SlashUnbondingTxHex := d;
      StakingOutputIdx := idx; SlashingScriptHex := s1; UnbondingScriptHex := s2;
      UnbondingSlashingScriptHex := s3; FpEncKeys := view keys; StakeExpansion := e |}, false)).

#[export] Instance requestType : JsonType SignTransactionsRequest := {
  toJson r := JObj
    ([("staking_tx_hex", JStr (StakingTxHex r)); ("slashing_tx_hex", JStr (SlashingTxHex r));
      ("unbonding_tx_hex", JStr (UnbondingTxHex r));
      ("slash_unbonding_tx_hex", JStr (SlashUnbondingTxHex r));
      ("staking_output_idx", num (StakingOutputIdx r));
      ("slashing_script_hex", JStr (SlashingScriptHex r));
      ("unbonding_script_hex", JStr (UnbondingScriptHex r));
      ("unbonding_slashing_script_hex", JStr (UnbondingSlashingScriptHex r));
      ("fp_enc_keys", strs (FpEncKeys r))] ++
     match StakeExpansion r with Some e => [("stake_expansion", stakeExpJson e)] | None => [] end);
  fromJson := decRequest;
  zeroValue := {| StakingTxHex := ""; SlashingTxHex := ""; UnbondingTxHex := ""; SlashUnbondingTxHex := "";
                  StakingOutputIdx := 0; SlashingScriptHex := ""; UnbondingScriptHex := "";
                  UnbondingSlashingScriptHex := ""; FpEncKeys := []; StakeExpansion := None |}
}.

(** The response as a variable being decoded: its slices keep their backing
    arrays. *)
Record RawResponse := {
  raw_slash : slice string; raw_unbonding : string; raw_slashUnbonding : slice string; raw_stakeExp : string
}.

Definition zeroRaw : RawResponse :=
  {| raw_slash := nilSlice; raw_unbonding := ""; raw_slashUnbonding := nilSlice; raw_stakeExp := "" |}.

Definition ofRaw (r : RawResponse) : SignTransactionsResponse :=
  {| SlashingTransactionsAdaptorSignatures := view (raw_slash r);
     UnbondingTransactionSignature := raw_unbonding r;
     SlashUnbondingTransactionsAdaptorSignatures := view (raw_slashUnbonding r);
     StakeExpansionTransactionSignature := raw_stakeExp r |}.

Definition responseNames : list string :=
  ["slashing_transactions_signatures"; "unbonding_transaction_signature";
   "slash_unbonding_transactions_signatures"; "stake_expansion_transaction_signature"].

Definition decResponse : dec RawResponse := decStruct (fun l old =>
  let f {A} := @field A responseNames in
  a <~ f "slashing_transactions_signatures" decSlice l (raw_slash old);
  u <~ f "unbonding_transaction_signature" decString l (raw_unbonding old);
  b <~ f "slash_unbonding_transactions_signatures" decSlice l (raw_slashUnbonding old);
  x <~ f "stake_expansion_transaction_signature" decString l (raw_stakeExp old);
  ({| raw_slash := a; raw_unbonding := u; raw_slashUnbonding := b; raw_stakeExp := x |}, false)).

Definition responseJson (r : SignTransactionsResponse) : Json := JObj
  [("slashing_transactions_signatures", strs (SlashingTransactionsAdaptorSignatures r));
   ("unbonding_transaction_signature", JStr (UnbondingTransactionSignature r));
   ("slash_unbonding_transactions_signatures", strs (SlashUnbondingTransactionsAdaptorSignatures r));
   ("stake_expansion_transaction_signature", JStr (StakeExpansionTransactionSignature r))].

(** omitempty *)
#[export] Instance unlockRequestType : JsonType UnlockRequest := {
  toJson r := JObj (if bool_decide (Passphrase r = "") then [] else [("passphrase", JStr (Passphrase r))]);
  fromJson := decStruct (fun l old =>
    p <~ field ["passphrase"] "passphrase" decString l (Passphrase old); ({| Passphrase := p |}, false));
  zeroValue := {| Passphrase := "" |}
}.

#[export] Instance publicKeyType : JsonType GetPublicKeyResponse := {
  toJson r := JObj [("public_key_hex", JStr (PublicKeyHex r))];
  fromJson := decStruct (fun l old =>
    p <~ field ["public_key_hex"] "public_key_hex" decString l (PublicKeyHex old);
    ({| PublicKeyHex := p |}, false));
  zeroValue := {| PublicKeyHex := "" |}
}.

(** ** handlers/handler.go *)

Record Result := { Data : Json; Status : Z }.

(** PublicResponse[T], encoded and decoded *)
Definition publicResponse (data : Json) : Json := JObj [("data", data)].

Definition decPublicResponse {A} (d : dec A) : dec A := decStruct (fun l old => field ["data"] "data" d l old).

Definition StatusOK : Z := 200.
Definition StatusBadRequest : Z := 400.
Definition BadRequest : string := "BAD_REQUEST".

Definition NewResult (data : Json) : Result := {| Data := publicResponse data; Status := StatusOK |}.

(** ** observability/metrics/signer.go *)

Record SignerMetrics := {
  ReceivedSigningRequests : Z;
  SuccessfulSigningRequests : Z;
  FailedSigningRequests : Z;
  SignerUnlockStatus : Z;
  SignerFailedUnlockRequests : Z
}.

Definition NewCovenantSignerMetrics : SignerMetrics :=
  {| ReceivedSigningRequests := 0; SuccessfulSigningRequests := 0; FailedSigningRequests := 0;
     SignerUnlockStatus := 0; SignerFailedUnlockRequests := 0 |}.

Definition IncReceivedSigningRequests (m : SignerMetrics) : SignerMetrics :=
  {| ReceivedSigningRequests := ReceivedSigningRequests m + 1;
     SuccessfulSigningRequests := SuccessfulSigningRequests m;
     FailedSigningRequests := FailedSigningRequests m; SignerUnlockStatus := SignerUnlockStatus m;
     SignerFailedUnlockRequests := SignerFailedUnlockRequests m |}.

Definition IncSuccessfulSigningRequests (m : SignerMetrics) : SignerMetrics :=
  {| ReceivedSigningRequests := ReceivedSigningRequests m;
     SuccessfulSigningRequests := SuccessfulSigningRequests m + 1;
     FailedSigningRequests := FailedSigningRequests m; SignerUnlockStatus := SignerUnlockStatus m;
     SignerFailedUnlockRequests := SignerFailedUnlockRequests m |}.

Definition IncFailedSigningRequests (m : SignerMetrics) : SignerMetrics :=
  {| ReceivedSigningRequests := ReceivedSigningRequests m;
     SuccessfulSigningRequests := SuccessfulSigningRequests m;
     FailedSigningRequests := FailedSigningRequests m + 1; SignerUnlockStatus := SignerUnlockStatus m;
     SignerFailedUnlockRequests := SignerFailedUnlockRequests m |}.

Definition setUnlockStatus (v : Z) (m : SignerMetrics) : SignerMetrics :=
  {| ReceivedSigningRequests := ReceivedSigningRequests m;
     SuccessfulSigningRequests := SuccessfulSigningRequests m;
     FailedSigningRequests := FailedSigningRequests m; SignerUnlockStatus := v;
     SignerFailedUnlockRequests := SignerFailedUnlockRequests m |}.

Definition SetSignerUnlocked : SignerMetrics -> SignerMetrics := setUnlockStatus 1.
Definition SetSignerLocked : SignerMetrics -> SignerMetrics := setUnlockStatus 0.

Definition IncFailedUnlockRequests (m : SignerMetrics) : SignerMetrics :=
  {| ReceivedSigningRequests := ReceivedSigningRequests m;
     SuccessfulSigningRequests := SuccessfulSigningRequests m;
     FailedSigningRequests := FailedSigningRequests m; SignerUnlockStatus := SignerUnlockStatus m;
     SignerFailedUnlockRequests := SignerFailedUnlockRequests m + 1 |}.

(** ** chi *)

Record Route (S : Type) := { rt_Method : string; rt_Pattern : string; rt_Handler : Handler S }.
Arguments rt_Method {S} r.
Arguments rt_Pattern {S} r.
Arguments rt_Handler {S} r.

Class ChiLib : Type := { chi_ServeHTTP : forall S, list (Route S) -> Handler S }.
Arguments chi_ServeHTTP {_} {S} routes.

(** The documented behaviour, for patterns without parameters: a request goes
    to the route of its method and path; where there is none it is answered
    with 404 or 405 and no handler runs. *)
Class ChiLaws `{ChiLib} : Prop := {
  chi_match : forall S (routes : list (Route S)) rt r,
    NoDup ((fun rt => (rt_Method rt, rt_Pattern rt)) <$> routes) -> rt ∈ routes ->
    rq_Method r = rt_Method rt -> rq_Path r = rt_Pattern rt ->
    chi_ServeHTTP routes r = rt_Handler rt r;
  chi_nomatch : forall S (routes : list (Route S)) r s,
    (forall rt, rt ∈ routes -> rq_Method r <> rt_Method rt \/ rq_Path r <> rt_Pattern rt) ->
    exists resp, chi_ServeHTTP routes r s = (s, Ok resp) /\ (rs_Status resp = 404 \/ rs_Status resp = 405)
}.

Section Server.
Context `{BL : BtcLib}.

(** ** The state of the service *)

Record ServerSys := { sv_app : SignerSys; sv_metrics : SignerMetrics; sv_log : list LogEntry }.

Definition onApp {A} (m : M SignerSys A) : M ServerSys A := fun s =>
  let '(a, r) := m (sv_app s) in ({| sv_app := a; sv_metrics := sv_metrics s; sv_log := sv_log s |}, r).
Definition onMetrics (f : SignerMetrics -> SignerMetrics) : M ServerSys unit :=
  modify (fun s => {| sv_app := sv_app s; sv_metrics := f (sv_metrics s); sv_log := sv_log s |}).
Definition slog (l : Level) (msg : string) : M ServerSys unit :=
  modify (fun s => {| sv_app := sv_app s; sv_metrics := sv_metrics s; sv_log := sv_log s ++ [Log l msg] |}).

(** ** handlers/signtransactions.go *)

(** The Go results [*Result, *types.Error]. *)
Definition HandlerResult : Type := option Result * option AppError.

Definition ok (r : Result) : HandlerResult := (Some r, None).
Definition ko (e : AppError) : HandlerResult := (None, Some e).

(** json.NewDecoder(request.Body).Decode(payload) *)
Definition decodePayload {A} (d : dec A) (zero : A) (r : Request) : option A :=
  Decode d zero (string_of_bytes (content (rq_Body r))) (bool_decide (is_Some (readErr (rq_Body r)))).

Section Handlers.
Variable pkr : PrivKeyRetriever.
Variable interfere : nat -> M SignerSys unit.

Definition h_SignTransactions (request : Request) : M ServerSys HandlerResult :=
  match decodePayload decRequest zeroValue request with
  | None => mret (ko (NewErrorWithMsg StatusBadRequest BadRequest "invalid request payload"))
  | Some payload =>
      parsed ← attempt (lift (ParseSigningRequest payload));
      match parsed with
      | inr err => mret (ko (NewErrorWithMsg StatusBadRequest BadRequest err))
      | inl parsedRequest =>
          onMetrics IncReceivedSigningRequests;;
          sig ← attempt (onApp (app_SignTransactions pkr interfere parsedRequest));
          match sig with
          | inr err =>
              onMetrics IncFailedSigningRequests;;
              mret (ko (NewErrorWithMsg StatusInternalServerError InternalServiceError err))
          | inl sig =>
              let resp := ToResponse sig in
              onMetrics IncSuccessfulSigningRequests;;
              mret (ok (NewResult (responseJson resp)))
          end
      end
  end.

Definition h_GetPublicKey (request : Request) : M ServerSys HandlerResult :=
  pubKey ← attempt (onApp (app_PubKey pkr interfere));
  match pubKey with
  | inr err => mret (ko (NewErrorWithMsg StatusInternalServerError InternalServiceError err))
  | inl pubKey =>
      let resp := {| PublicKeyHex := EncodeToString (SerializeCompressed pubKey) |} in
      mret (ok (NewResult (toJson resp)))
  end.

Definition h_Unlock (request : Request) : M ServerSys HandlerResult :=
  match decodePayload fromJson zeroValue request with
  | None => mret (ko (NewErrorWithMsg StatusBadRequest BadRequest "invalid request payload"))
  | Some payload =>
      r ← attempt (onApp (app_Unlock pkr (Passphrase payload)));
      match r with
      | inr err =>
          onMetrics IncFailedUnlockRequests;;
          mret (ko (NewErrorWithMsg StatusBadRequest BadRequest err))
      | inl _ =>
          onMetrics SetSignerUnlocked;;
          mret (ok (NewResult UnlockResponse))
      end
  end.

Definition h_Lock (request : Request) : M ServerSys HandlerResult :=
  r ← attempt (onApp (app_Lock pkr));
  match r with
  | inr err => mret (ko (NewErrorWithMsg StatusBadRequest BadRequest err))
  | inl _ =>
      onMetrics SetSignerLocked;;
      mret (ok (NewResult LockResponse))
  end.

(** ** http_response.go *)

Record HTTPResponseError := { he_ErrorCode : string; he_Message : string }.

Definition errorJson (e : HTTPResponseError) : Json :=
  JObj [("errorCode", JStr (he_ErrorCode e)); ("message", JStr (he_Message e))].

Definition newInternalServiceError : HTTPResponseError :=
  {| he_ErrorCode := InternalServiceError; he_Message := "Internal service error" |}.

(** http.StatusText(code) != "" *)
Definition knownStatus (code : Z) : bool :=
  bool_decide (code ∈ (seqZ 100 4 ++ seqZ 200 9 ++ [226] ++ seqZ 300 6 ++ [307; 308] ++ seqZ 400 19
                       ++ seqZ 421 6 ++ [428; 429; 431; 451] ++ seqZ 500 9 ++ [510; 511])).

(** The values written always marshal. *)
Definition writeResponse (statusCode : Z) (res : Json) : Response :=
  {| rs_Status := statusCode; rs_ContentType := "application/json"; rs_Body := ascii_bytes (print res) |}.

Definition registerHandler (handlerFunc : Request -> M ServerSys HandlerResult) : Handler ServerSys := fun r =>
  res ← handlerFunc r;
  match res with
  | (_, Some err) =>
      statusCode ← (if knownStatus (ae_StatusCode err) then mret (ae_StatusCode err)
                    else slog ErrorL "invalid status code";; mret StatusInternalServerError);
      let errorResponse := {| he_ErrorCode := ae_ErrorCode err; he_Message := ae_Err err |} in
      errorResponse ←
        (if bool_decide (StatusInternalServerError <= statusCode) then
           slog ErrorL "request failed with 5xx error";;
           mret {| he_ErrorCode := he_ErrorCode errorResponse; he_Message := "Internal service error" |}
         else mret errorResponse);
      mret (writeResponse statusCode (errorJson errorResponse))
  | (Some result, None) =>
      if knownStatus (Status result) then mret (writeResponse (Status result) (Data result))
      else
        slog ErrorL "invalid success response, error returned";;
        mret (writeResponse StatusInternalServerError (errorJson newInternalServiceError))
  | (None, None) =>
      slog ErrorL "invalid success response, error returned";;
      mret (writeResponse StatusInternalServerError (errorJson newInternalServiceError))
  end.

(** ** server.go *)

Definition SetupRoutes : list (Route ServerSys) := [
  {| rt_Method := "POST"; rt_Pattern := "/v1/sign-transactions";
     rt_Handler := registerHandler h_SignTransactions |};
  {| rt_Method := "POST"; rt_Pattern := "/v1/unlock"; rt_Handler := registerHandler h_Unlock |};
  {| rt_Method := "POST"; rt_Pattern := "/v1/lock"; rt_Handler := registerHandler h_Lock |};
  {| rt_Method := "GET"; rt_Pattern := "/v1/public-key"; rt_Handler := registerHandler h_GetPublicKey |}
].

(** middlewares/logging.go; the trace identifier and the duration are fields
    of the lines *)
Definition LoggingMiddleware (next : Handler ServerSys) : Handler ServerSys := fun r =>
  slog DebugL "request received";;
  resp ← next r;
  slog InfoL "Request completed";;
  mret resp.

(** The handler New installs; the tracing middleware in front of it only adds
    an identifier to the request's context. *)
Definition New `{ChiLib} (cfg : ParsedServerConfig) : Handler ServerSys :=
  LoggingMiddleware
    (signerChain slog (psc_MaxContentLength cfg) (psc_HMACKey cfg) (chi_ServeHTTP SetupRoutes)).

(** http.Server.Addr *)
Definition serverAddr (cfg : ParsedServerConfig) : string := psc_Host cfg +:+ ":" +:+ pretty (psc_Port cfg).

End Handlers.

Definition newServer : ServerSys :=
  {| sv_app := initSigner; sv_metrics := NewCovenantSignerMetrics; sv_log := [] |}.

End Server.
