(* ===== verification/SignerClient.v ===== *)
(** * The client of the signer service

    covenant-signer/signerservice/client.go and the RemoteSigner of
    remotesigner/signer.go.  Sending a request over the network is a parameter
    ([HttpClient]); reading the answer, its limit, its status and its JSON are
    the code's own. *)
From Stdlib Require Import Strings.Byte Strings.Ascii Strings.String.
From S2P Require Import Prelude GoStd JsonText JsonCodec BtcLib Config Env SignerApp WireTypes HmacAuth SignerServer.
Local Open Scope Z_scope.

(** ** net/http *)

(** A request as http.NewRequestWithContext and Header.Set make it. *)
Record HttpRequest := {
  hr_Method : string;
  hr_URL : string;
  hr_ContentType : string;
  hr_HMAC : string;                (* the header X-Covenant-HMAC, empty when not set *)
  hr_Body : bytes
}.

(** An answer: its body is read later and may break. *)
Record HttpResponse := { hp_StatusCode : Z; hp_Body : ReqBody }.

Class HttpClient (W : Type) : Type := {
  http_NewRequest : string -> string -> res unit;          (* whether method and URL are accepted *)
  http_Do : Z -> HttpRequest -> M W HttpResponse;          (* http.Client{Timeout}.Do *)
  json_Error : bytes -> error                              (* the text of Unmarshal's error *)
}.

Definition maxResponseSize : Z := 1048576.

Section Client.
Context `{BL : BtcLib} {W : Type} `{!HttpClient W}.

(** addHMACHeader of [HmacAuth] on a client request *)
Definition withHMAC (req : HttpRequest) (hmacKey : string) (body : bytes) : HttpRequest :=
  if bool_decide (hmacKey = "") then req
  else
    let hmacValue := GenerateHMAC hmacKey body in
    if bool_decide (hmacValue <> "") then
      {| hr_Method := hr_Method req; hr_URL := hr_URL req; hr_ContentType := hr_ContentType req;
         hr_HMAC := hmacValue; hr_Body := hr_Body req |}
    else req.

(** NewRequestWithContext, the headers, client.Do and the bounded reading of
    the body, which the four functions share; the first result is the status. *)
Definition exchange (method url contentType : string) (body : bytes) (timeout : Z) (hmacKey : string)
  : M W (Z * bytes) :=
  lift (http_NewRequest method url);;
  let httpRequest := {| hr_Method := method; hr_URL := url; hr_ContentType := contentType;
                        hr_HMAC := ""; hr_Body := body |} in
  res ← http_Do timeout (withHMAC httpRequest hmacKey body);
  resBody ← lift (ReadAll (MaxBytesReader (hp_Body res) maxResponseSize));
  mret (hp_StatusCode res, resBody).

Definition statusError (what : string) (status : Z) (body : bytes) : error :=
  what +:+ " request failed. status code: " +:+ pretty status +:+ ", message: " +:+ string_of_bytes body.

Definition RequestCovenantSignaure (signerURL : string) (timeout : Z) (preq : ParsedSigningRequest)
    (hmacKey : string) : M W ParsedSigningResponse :=
  req ← lift (ToSignTransactionRequest preq);
  let marshalled := ascii_bytes (Marshal req) in
  let route := signerURL +:+ "/v1/sign-transactions" in
  '(status, resBody) ← exchange "POST" route "application/json" marshalled timeout hmacKey;
  if bool_decide (status = StatusOK) then
    match Unmarshal (decPublicResponse decResponse) zeroRaw (string_of_bytes resBody) with
    | None => fail (json_Error resBody)
    | Some response => lift (ToParsedSigningResponse (ofRaw response))
    end
  else fail (statusError "signing" status resBody).

Definition GetPublicKey (signerURL : string) (timeout : Z) (hmacKey : string) : M W PublicKey :=
  let route := signerURL +:+ "/v1/public-key" in
  '(status, resBody) ← exchange "GET" route "" [] timeout hmacKey;
  if bool_decide (status = StatusOK) then
    match Unmarshal (decPublicResponse fromJson) zeroValue (string_of_bytes resBody) with
    | None => fail (json_Error resBody)
    | Some response =>
        pubKey ← lift (DecodeString (PublicKeyHex response));
        lift (ParsePubKey pubKey)
    end
  else fail (statusError "public key" status resBody).

Definition Unlock (signerURL : string) (timeout : Z) (passphrase hmacKey : string) : M W unit :=
  let route := signerURL +:+ "/v1/unlock" in
  let marshalled := ascii_bytes (Marshal {| Passphrase := passphrase |}) in
  '(status, resBody) ← exchange "POST" route "application/json" marshalled timeout hmacKey;
  if bool_decide (status = StatusOK) then mret tt
  else fail (statusError "unlocking" status resBody).

Definition Lock (signerURL : string) (timeout : Z) (hmacKey : string) : M W unit :=
  let route := signerURL +:+ "/v1/lock" in
  '(status, resBody) ← exchange "POST" route "application/json" [] timeout hmacKey;
  if bool_decide (status = StatusOK) then mret tt
  else fail (statusError "locking" status resBody).

(** ** remotesigner/signer.go: RemoteSigner *)

Definition rs_PubKey (cfg : RemoteSignerCfg) : M W PublicKey :=
  GetPublicKey (rc_URL cfg) (rc_Timeout cfg) (rc_HMACKey cfg).

Definition rs_SignTransactions (cfg : RemoteSignerCfg) (req : SigningRequest) : M W SignaturesResponse :=
  resp ← RequestCovenantSignaure (rc_URL cfg) (rc_Timeout cfg) (covenantRequestToSignerRequest req)
           (rc_HMACKey cfg);
  mret (signerResponseToCovenantResponse resp).

Definition NewRemoteSigner (cfg : RemoteSignerCfg) : Signer W :=
  {| SignTransactions := rs_SignTransactions cfg; PubKey := rs_PubKey cfg |}.

(** ** The service at the other end *)

(** What the server is handed for a request of the client to its [path]. *)
Definition serverView (path : string) (req : HttpRequest) : Request :=
  {| rq_Method := hr_Method req; rq_Path := path; rq_HMAC := hr_HMAC req;
     rq_ContentLength := Z.of_nat (length (hr_Body req));
     rq_Body := {| content := hr_Body req; readErr := None |} |}.

(** The service [serve] answers under [url]: requests arrive as they are sent
    and answers arrive in time; [get] and [set] are its state in the world.
    When the handler panics, the connection is closed without an answer. *)
Record Connected (url : string) (serve : Handler ServerSys) (get : W -> ServerSys)
    (set : ServerSys -> W -> W) : Prop := {
  conn_url : forall method path, http_NewRequest method (url +:+ path) = Ok tt;
  conn_get_set : forall s w, get (set s w) = s;
  conn_do : forall timeout path req w, hr_URL req = url +:+ path -> String.prefix "/" path = true ->
    exists e,
    http_Do timeout req w =
      let '(s, r) := serve (serverView path req) (get w) in
      (set s w, match r with
                | Ok resp => Ok {| hp_StatusCode := rs_Status resp;
                                   hp_Body := {| content := rs_Body resp; readErr := None |} |}
                | _ => Err e
                end)
}.

End Client.
