(* ===== verification/RemoteProps.v ===== *)
(** * The signer service end to end

    The JSON of the payloads read back, the handler of New reached by the
    client's requests, and the theorems about the two programs together: what
    the emulator gets from its remote signer is what the signing application
    computes; internal errors are not told to clients; the metrics of the
    service agree with its key store. *)
From Stdlib Require Import Strings.Byte Strings.Ascii Strings.String.
From S2P Require Import Prelude GoStd JsonText JsonCodec BtcLib Config Env SignerConfig SignerApp SignerProps WireTypes HmacAuth SignerServer SignerClient.
Local Open Scope Z_scope.

(** ** Payloads *)

(** Decode each field of a struct from its member: the keys are compared by
    evaluation. *)
Ltac closed_keys := cbn [map fst app];
  first [apply (bool_decide_unpack _); vm_compute; exact I
        |intros ? H; repeat (apply elem_of_cons in H as [->|H]; [apply (bool_decide_unpack _); vm_compute; exact I|]);
         by apply not_elem_of_nil in H].

Ltac eval_fields :=
  repeat (rewrite field_assoc; [|closed_keys|closed_keys]);
  cbn [assoc app String.eqb Ascii.eqb Bool.eqb].

Definition uint32 (z : Z) : Prop := 0 <= z < 2 ^ 32.

Definition stakeExpOk (e : StakeExpansionRequest) : Prop :=
  validText (PreviousActiveStakeTxHex e) /\ validText (OtherFundingOutputHex e) /\
  uint32 (PrevStakingOutputIdx e) /\ validText (PreviousActiveStakeUnbondingScriptHex e).

(** Requests the client can send unchanged. *)
Record requestOk (r : SignTransactionsRequest) : Prop := {
  ro_staking : validText (StakingTxHex r);
  ro_slashing : validText (SlashingTxHex r);
  ro_unbonding : validText (UnbondingTxHex r);
  ro_slashUnbonding : validText (SlashUnbondingTxHex r);
  ro_idx : uint32 (StakingOutputIdx r);
  ro_s1 : validText (SlashingScriptHex r);
  ro_s2 : validText (UnbondingScriptHex r);
  ro_s3 : validText (UnbondingSlashingScriptHex r);
  ro_keys : Forall validText (FpEncKeys r);
  ro_exp : from_option stakeExpOk True (StakeExpansion r)
}.

Lemma sanitize_num z : sanitizeJson (num z) = num z.
Proof. done. Qed.

Lemma sanitize_strs l : Forall validText l -> sanitizeJson (strs l) = strs l.
Proof. intros H. unfold strs. cbn [sanitizeJson]. by rewrite sanitize_strings. Qed.

Lemma wf_strs d l : (0 < d)%N -> wfJson d (strs l).
Proof. intros Hd. split; [done|]. induction l as [|s l IH]; [done|]. by split. Qed.

Lemma decUint32_num z old : uint32 z -> decUint32 (num z) old = (z, false).
Proof. apply decUint32_pretty. Qed.

Lemma stakeExp_back e : stakeExpOk e ->
  sanitizeJson (stakeExpJson e) = stakeExpJson e /\ decStakeExp (stakeExpJson e) zeroStakeExp = (e, false).
Proof.
  intros (H1 & H2 & H3 & H4). split.
  - unfold stakeExpJson. cbn [sanitizeJson map fst snd]. rewrite sanitize_num, H1, H2, H4. reflexivity.
  - unfold decStakeExp, stakeExpJson. cbn [decStruct]. eval_fields. cbn [decString].
    rewrite decUint32_num by done. cbn [part orb]. by destruct e.
Qed.

#[export] Instance request_roundTrip : JsonRoundTrip SignTransactionsRequest requestOk.
Proof.
  split.
  - intros r [_ _ _ _ _ _ _ _ _ _]. cbn [toJson requestType wfJson]. split; [done|].
    cbn [app fold_right snd]. split_and!; try done; try (by eexists); try (by apply wf_strs).
    destruct (StakeExpansion r) as [e|]; [|done]. simpl. split_and!; try done; by eexists.
  - intros r [H1 H2 H3 H4 H5 H6 H7 H8 H9 H10]. cbn [fromJson requestType].
    assert (sanitizeJson (toJson r) = toJson r) as ->.
    { cbn [toJson requestType sanitizeJson]. rewrite map_app. cbn [map fst snd].
      rewrite sanitize_strs by done. cbn [sanitizeJson num]. rewrite H1, H2, H3, H4, H6, H7, H8.
      do 2 f_equal. destruct (StakeExpansion r) as [e|]; [|done]. cbn [map fst snd].
      by rewrite (proj1 (stakeExp_back e H10)). }
    cbn [toJson requestType]. unfold decRequest. cbn [decStruct].
    destruct (StakeExpansion r) as [e|] eqn:He.
    + cbn [app]. eval_fields. cbn [decString decPtr]. unfold strs. rewrite decUint32_num by done.
      change (slice_of (FpEncKeys zeroValue)) with nilSlice. rewrite decSlice_strings.
      cbn [decPtr stakeExpJson]. cbn [StakeExpansion zeroValue requestType default].
      fold (stakeExpJson e). rewrite (proj2 (stakeExp_back e H10)). cbn [part orb].
      rewrite view_slice_of. by destruct r; simpl in *; subst.
    + cbn [app]. eval_fields. cbn [decString]. unfold strs. rewrite decUint32_num by done.
      change (slice_of (FpEncKeys zeroValue)) with nilSlice. rewrite decSlice_strings. cbn [part orb].
      rewrite view_slice_of. by destruct r; simpl in *; subst.
Qed.

(** The response is read back from the body the server writes. *)
Definition responseOk (r : SignTransactionsResponse) : Prop :=
  Forall validText (SlashingTransactionsAdaptorSignatures r) /\ validText (UnbondingTransactionSignature r) /\
  Forall validText (SlashUnbondingTransactionsAdaptorSignatures r) /\
  validText (StakeExpansionTransactionSignature r).

Definition responseText (r : SignTransactionsResponse) : string := print (publicResponse (responseJson r)).

Lemma Unmarshal_response r : responseOk r ->
  ofRaw <$> Unmarshal (decPublicResponse decResponse) zeroRaw (responseText r) = Some r.
Proof.
  intros (H1 & H2 & H3 & H4). unfold Unmarshal, responseText. rewrite parseAll_print.
  2: { simpl. split_and!; try done; by apply wf_strs. }
  assert (sanitizeJson (publicResponse (responseJson r)) = publicResponse (responseJson r)) as ->.
  { unfold publicResponse, responseJson. cbn [sanitizeJson map fst snd].
    rewrite !sanitize_strs, H2, H4 by done. reflexivity. }
  cbn [mbind option_bind]. unfold decPublicResponse, publicResponse. cbn [decStruct]. eval_fields.
  unfold decResponse, responseJson. cbn [decStruct]. eval_fields. unfold strs.
  cbn [zeroRaw raw_slash raw_slashUnbonding decString]. rewrite !decSlice_strings. cbn [part orb].
  unfold ofRaw. simpl. rewrite !view_slice_of. by destruct r.
Qed.

Lemma Unmarshal_publicKey p : validText p ->
  Unmarshal (decPublicResponse fromJson) zeroValue (print (publicResponse (toJson {| PublicKeyHex := p |})))
  = Some {| PublicKeyHex := p |}.
Proof.
  intros Hp. unfold Unmarshal. rewrite parseAll_print by done. cbn [mbind option_bind].
  unfold publicResponse. cbn [toJson publicKeyType sanitizeJson map fst snd PublicKeyHex]. rewrite Hp.
  unfold decPublicResponse. cbn [decStruct].
  change (sanitize "data") with "data". change (sanitize "public_key_hex") with "public_key_hex".
  eval_fields. cbn [fromJson publicKeyType decStruct]. eval_fields. done.
Qed.

(** The passphrase arrives with its invalid bytes replaced. *)
Lemma Decode_unlock p :
  Decode fromJson zeroValue (Marshal {| Passphrase := p |}) false = Some {| Passphrase := sanitize p |}.
Proof.
  unfold Decode, Marshal. rewrite <- (append_nil_r (print _)).
  assert (forall l, wfJson maxNestingDepth (JObj l) -> stops "" ->
    parsePrefix (print (JObj l) +:+ "") = Some (sanitizeJson (JObj l), "")) as Hp
    by (intros; by apply parsePrefix_print).
  cbn [toJson unlockRequestType Passphrase]. case_bool_decide as He.
  - subst. rewrite Hp by done. done.
  - rewrite Hp by done. cbn [mbind option_bind sanitizeJson map fst snd].
    change (sanitize "passphrase") with "passphrase". cbn [fromJson unlockRequestType decStruct].
    eval_fields. done.
Qed.

Section EndToEnd.
Context `{BL : BtcLib} `{KR : Keyring} `{CH : ChiLib} {CL : ChiLaws}.

(** What the client serializes is hexadecimal text and survives JSON. *)
Lemma request_valid p w : ToSignTransactionRequest p = Ok w ->
  uint32 (pr_StakingOutputIdx p) -> from_option (fun e => uint32 (ps_PreviousStakingOutputIdx e)) True (pr_StakeExp p) ->
  requestOk w.
Proof.
  assert (forall tx h, SerializeBTCTxToHex tx = Ok h -> validText h) as Hhex.
  { intros tx h (b & _ & [= <-])%res_bind_Ok. apply hex_valid. }
  unfold ToSignTransactionRequest. intros H Hi He.
  apply res_bind_Ok in H as (h1 & H1%wrapErr_Ok & H). apply res_bind_Ok in H as (h2 & H2%wrapErr_Ok & H).
  apply res_bind_Ok in H as (h3 & H3%wrapErr_Ok & H). apply res_bind_Ok in H as (h4 & H4%wrapErr_Ok & H).
  apply res_bind_Ok in H as (e & Hexp & [= <-]).
  split; simpl; try (by apply hex_valid); try (by eapply Hhex); try done.
  - apply Forall_fmap, Forall_true. intros k. apply hex_valid.
  - destruct (pr_StakeExp p) as [x|]; [|by injection Hexp as <-].
    unfold toStakeExpansionRequest in Hexp.
    destruct (wrapErr _ (SerializeBTCTxToHex _)) as [t| | |] eqn:Ht; try done. cbn in Hexp.
    destruct (wrapErr _ (SerializeTxOut _)) as [o| | |] eqn:Ho; try done. injection Hexp as <-.
    apply wrapErr_Ok in Ht. simpl. split_and!; simpl; [by eapply Hhex|apply hex_valid|apply He|apply hex_valid].
Qed.

Lemma response_valid r : responseOk (ToResponse r).
Proof.
  unfold responseOk, ToResponse. simpl. split_and!.
  - apply Forall_fmap, Forall_true. intros b. apply hex_valid.
  - apply hex_valid.
  - apply Forall_fmap, Forall_true. intros b. apply hex_valid.
  - destruct (pp_StakeExpSig r); [apply hex_valid|done].
Qed.

(** ** The handler of New, as the client's requests reach it *)

Section Reach.
Variable pkr : PrivKeyRetriever.
Variable interfere : nat -> M SignerSys unit.

Lemma routes_distinct :
  NoDup ((fun rt => (rt_Method rt, rt_Pattern rt)) <$> SetupRoutes pkr interfere).
Proof. apply (bool_decide_unpack _). vm_compute. exact I. Qed.

(** A request goes to one of the routes, or no handler runs. *)
Lemma chi_cases r :
  (exists rt, rt ∈ SetupRoutes pkr interfere /\
     chi_ServeHTTP (SetupRoutes pkr interfere) r = rt_Handler rt r) \/
  (forall s, exists resp, chi_ServeHTTP (SetupRoutes pkr interfere) r s = (s, Ok resp)).
Proof.
  destruct (decide (Exists (fun rt => rq_Method r = rt_Method rt /\ rq_Path r = rt_Pattern rt)
                      (SetupRoutes pkr interfere))) as [H|H].
  - apply Exists_exists in H as (rt & Hin & Hme & Hpa). left. exists rt. split; [done|].
    by apply chi_match; [apply routes_distinct|..].
  - right. intros s. destruct (chi_nomatch _ (SetupRoutes pkr interfere) r s) as (resp & H' & _); [|by exists resp].
    intros rt Hin. destruct (decide (rq_Method r = rt_Method rt)); [|by left]. right. intros Hp.
    apply H, Exists_exists. by exists rt.
Qed.

Lemma New_reaches cfg r body rt s :
  rq_Body r = {| content := body; readErr := None |} ->
  rq_ContentLength r = Z.of_nat (length body) -> Z.of_nat (length body) <= psc_MaxContentLength cfg ->
  rt ∈ SetupRoutes pkr interfere -> rq_Method r = rt_Method rt -> rq_Path r = rt_Pattern rt ->
  let r' := addHMACHeader r (psc_HMACKey cfg) body in
  New pkr interfere cfg r' s = LoggingMiddleware (rt_Handler rt) r' s.
Proof.
  intros Hb Hl Hm Hin Hme Hpa r'. unfold New, LoggingMiddleware, mbind, M_bind. simpl.
  unfold r'. rewrite client_request_passes by (first [done|lia]).
  rewrite (chi_match _ _ rt) by (first [done|apply routes_distinct|
    unfold addHMACHeader; repeat case_bool_decide; done]). done.
Qed.

End Reach.

(** ** The client's half of an exchange *)

Section Exchange.
Context {W : Type} `{HC : !HttpClient W}.
Variables (url : string) (serve : Handler ServerSys) (get : W -> ServerSys) (set : ServerSys -> W -> W).
Hypothesis Hconn : Connected url serve get set.

Lemma serverView_HMAC path req key :
  serverView path (withHMAC req key (hr_Body req)) = addHMACHeader (serverView path req) key (hr_Body req).
Proof. unfold withHMAC, addHMACHeader. by repeat case_bool_decide. Qed.

Definition sent (method path : string) (body : bytes) (key : string) : Request :=
  addHMACHeader {| rq_Method := method; rq_Path := path; rq_HMAC := "";
                   rq_ContentLength := Z.of_nat (length body);
                   rq_Body := {| content := body; readErr := None |} |} key body.

(** The request reaches the service, and its answer is read up to the limit. *)
Lemma exchange_run method path ct body timeout key w :
  String.prefix "/" path = true ->
  exists e, exchange method (url +:+ path) ct body timeout key w =
    let '(s, r) := serve (sent method path body key) (get w) in
    (set s w, match r with
              | Ok resp => b ← ReadAll (MaxBytesReader {| content := rs_Body resp; readErr := None |} maxResponseSize);
                           Ok (rs_Status resp, b)
              | _ => Err e
              end).
Proof.
  intros Hp. unfold exchange.
  erewrite (bind_run_Ok (lift _)) by (unfold lift; rewrite (conn_url _ _ _ _ Hconn); reflexivity).
  cbv zeta. unfold mbind at 1, M_bind.
  match goal with |- context [http_Do timeout ?q w] => pose (req := q) end.
  assert (hr_URL req = url +:+ path) as Hu by (unfold req, withHMAC; by repeat case_bool_decide).
  destruct (conn_do _ _ _ _ Hconn timeout path req w Hu Hp) as [e Hd]. exists e. fold req. rewrite Hd.
  assert (serverView path req = sent method path body key) as ->
    by apply (serverView_HMAC path (Build_HttpRequest _ _ _ _ body)).
  destruct (serve (sent method path body key) (get w)) as [s [resp| | |]]; try done. cbn [hp_Body hp_StatusCode].
  unfold mbind, M_bind, lift. by destruct (ReadAll _).
Qed.

Lemma exchange_Ok method path ct body timeout key w s resp :
  String.prefix "/" path = true ->
  serve (sent method path body key) (get w) = (s, Ok resp) ->
  Z.of_nat (length (rs_Body resp)) <= maxResponseSize ->
  exchange method (url +:+ path) ct body timeout key w = (set s w, Ok (rs_Status resp, rs_Body resp)).
Proof.
  intros Hp Hs Hl. destruct (exchange_run method path ct body timeout key w Hp) as [e ->]. rewrite Hs.
  unfold MaxBytesReader. simpl content. by rewrite bool_decide_false by lia.
Qed.

Lemma exchange_broken method path ct body timeout key w s r :
  String.prefix "/" path = true ->
  serve (sent method path body key) (get w) = (s, r) -> (forall resp, r <> Ok resp) ->
  exists e, exchange method (url +:+ path) ct body timeout key w = (set s w, Err e).
Proof.
  intros Hp Hs Hr. destruct (exchange_run method path ct body timeout key w Hp) as [e ->]. rewrite Hs.
  exists e. destruct r as [resp| | |]; try done. by destruct (Hr resp).
Qed.

End Exchange.

(** ** Signing *)

Lemma text_roundtrip t : string_of_bytes (ascii_bytes t) = t.
Proof. apply string_of_list_byte_of_string. Qed.

Lemma sent_body method path body key : rq_Body (sent method path body key) = {| content := body; readErr := None |}.
Proof. unfold sent, addHMACHeader. by repeat case_bool_decide. Qed.

Definition hiddenError : HTTPResponseError :=
  {| he_ErrorCode := InternalServiceError; he_Message := "Internal service error" |}.

(** What the signing route answers for a request that parses, given what the
    signing application computes. *)
Definition signAnswer (r : res ParsedSigningResponse) : res Response :=
  match r with
  | Ok resp => Ok (writeResponse StatusOK (publicResponse (responseJson (ToResponse resp))))
  | Err _ => Ok (writeResponse StatusInternalServerError (errorJson hiddenError))
  | Panic m => Panic m
  | OutOfFuel => OutOfFuel
  end.

Lemma signing_served keyName r w p s l k :
  decodePayload decRequest zeroValue r = Some w -> ParseSigningRequest w = Ok p ->
  btcecPrivKey (sv_app s) = Some l -> heap (sv_app s) !! l = Some k ->
  let h := LoggingMiddleware (registerHandler (h_SignTransactions (KeyringRetriever keyName) (fun _ => mret tt))) in
  (h r s).2 = signAnswer (signSpec k p) /\ sv_app (h r s).1 = sv_app s.
Proof.
  intros Hd Hp Hl Hk h.
  assert (forall s0, sv_app s0 = sv_app s ->
    onApp (app_SignTransactions (KeyringRetriever keyName) (fun _ => mret tt) p) s0 = (s0, signSpec k p)) as Hsign.
  { intros s0 E. unfold onApp. rewrite E, (sign_idle l k (sv_app s) Hk) by (by apply PrivKey_unlocked).
    rewrite <- E. by destruct s0. }
  unfold h, LoggingMiddleware, registerHandler, h_SignTransactions. rewrite Hd.
  unfold mbind, M_bind, attempt, lift, slog, onMetrics, modify. rewrite Hp. rewrite Hsign by done.
  destruct (signSpec k p) as [resp|e|m|]; done.
Qed.

Lemma signSpec_sigs k p resp : signSpec k p = Ok resp -> pr_FpEncKeys p <> [] ->
  pp_SlashAdaptorSigs resp <> [] /\ pp_SlashUnbondingAdaptorSigs resp <> [].
Proof.
  unfold signSpec. intros (sigs & Hs & H)%res_bind_Ok Hne. apply mapM_res_Ok, Forall2_length in Hs.
  apply res_bind_Ok in H as (u & _ & H). apply res_bind_Ok in H as (x & _ & [= <-]). simpl.
  destruct sigs; [|done]. by destruct (pr_FpEncKeys p).
Qed.

(** What the emulator's side of the wire makes of the answer. *)
Definition remoteFailure : error :=
  statusError "signing" 500 (ascii_bytes (print (errorJson hiddenError))).

Section Remote.
Context {W : Type} `{HC : !HttpClient W}.
Variables (cfg : ParsedServerConfig) (rc : RemoteSignerCfg) (keyName : string).
Variables (get : W -> ServerSys) (set : ServerSys -> W -> W).

Abbreviation service := (New (KeyringRetriever keyName) (fun _ => mret tt) cfg).

(** The two programs are set up to talk to each other. *)
Record Paired : Prop := {
  pair_conn : Connected (rc_URL rc) service get set;
  pair_key : rc_HMACKey rc = psc_HMACKey cfg
}.

(** A request the two programs can exchange: its transactions serialize and
    read back, its scripts and finality providers are not empty, its indices
    are 32-bit numbers, and both messages respect their limits. *)
Record exchangeable (k : PrivateKey) (p : ParsedSigningRequest) (w : SignTransactionsRequest) : Prop := {
  ex_txs : Forall tx_reads_back (request_txs p);
  ex_wire : ToSignTransactionRequest p = Ok w;
  ex_scripts : scripts_nonempty p;
  ex_fps : pr_FpEncKeys p <> [];
  ex_idx : uint32 (pr_StakingOutputIdx p);
  ex_expIdx : from_option (fun e => uint32 (ps_PreviousStakingOutputIdx e)) True (pr_StakeExp p);
  ex_size : Z.of_nat (length (ascii_bytes (Marshal w))) <= psc_MaxContentLength cfg;
  ex_answer : forall resp, signSpec k p = Ok resp ->
    Z.of_nat (length (ascii_bytes (responseText (ToResponse resp)))) <= maxResponseSize
}.

Lemma decode_sent w method path key :
  requestOk w -> decodePayload decRequest zeroValue (sent method path (ascii_bytes (Marshal w)) key) = Some w.
Proof.
  intros Hw. unfold decodePayload. rewrite sent_body. simpl content. rewrite text_roundtrip.
  pose proof (Decode_Marshal w _ "" false Hw eq_refl ltac:(done)) as H. by rewrite append_nil_r in H.
Qed.

(** The signing exchange: the answer of the service for the unlocked key. *)
Lemma signing_exchange p w wd l k :
  CodecLaws -> Paired -> exchangeable k p w ->
  btcecPrivKey (sv_app (get wd)) = Some l -> heap (sv_app (get wd)) !! l = Some k ->
  exists s, service (sent "POST" "/v1/sign-transactions" (ascii_bytes (Marshal w)) (rc_HMACKey rc)) (get wd)
            = (s, signAnswer (signSpec k p)) /\ sv_app s = sv_app (get wd).
Proof.
  intros L [_ Hkey] [Htx Hw Hsc Hf Hi He Hsz _] Hl Hk.
  pose proof (request_valid p w Hw Hi He) as Hok.
  assert (ParseSigningRequest w = Ok p) as Hp by (by apply (request_reads_back p w L Htx Hw)).
  destruct (signing_served keyName (sent "POST" "/v1/sign-transactions" (ascii_bytes (Marshal w)) (psc_HMACKey cfg))
              w p (get wd) l k) as [H1 H2]; [by apply decode_sent|done|done|done|].
  rewrite Hkey. unfold sent at 1.
  rewrite (New_reaches _ _ _ _ _ {| rt_Method := "POST"; rt_Pattern := "/v1/sign-transactions";
     rt_Handler := registerHandler (h_SignTransactions (KeyringRetriever keyName) (fun _ => mret tt)) |});
    [|done|done|done|left|done|done].
  fold (sent "POST" "/v1/sign-transactions" (ascii_bytes (Marshal w)) (psc_HMACKey cfg)).
  destruct (LoggingMiddleware _ _ (get wd)) as [s r]. simpl in H1, H2. exists s. by rewrite H1.
Qed.

Lemma remote_signing req w wd l k :
  let p := covenantRequestToSignerRequest req in
  CodecLaws -> Paired -> exchangeable k p w ->
  btcecPrivKey (sv_app (get wd)) = Some l -> heap (sv_app (get wd)) !! l = Some k ->
  exists s, sv_app s = sv_app (get wd) /\
  match signSpec k p with
  | Ok resp => SignTransactions (NewRemoteSigner rc) req wd = (set s wd, Ok (signerResponseToCovenantResponse resp))
  | Err _ => SignTransactions (NewRemoteSigner rc) req wd = (set s wd, Err remoteFailure)
  | _ => exists e, SignTransactions (NewRemoteSigner rc) req wd = (set s wd, Err e)
  end.
Proof.
  intros p L Hpair Hex Hl Hk.
  destruct (signing_exchange p w wd l k L Hpair Hex Hl Hk) as (s & Hs & Happ). exists s. split; [done|].
  destruct Hpair as [Hconn _]. destruct Hex as [_ Hw _ Hf _ _ _ Hans].
  cbn [SignTransactions NewRemoteSigner]. unfold rs_SignTransactions, RequestCovenantSignaure. fold p.
  rewrite Hw. destruct (signSpec k p) as [resp|e|m|] eqn:Hspec; simpl in Hs.
  - pose proof (exchange_Ok _ _ _ _ Hconn "POST" "/v1/sign-transactions" "application/json" _ (rc_Timeout rc) _ wd _ _
      eq_refl Hs (Hans resp eq_refl)) as Hx.
    unfold mbind, M_bind. unfold lift at 1. rewrite Hx. cbn [rs_Status rs_Body writeResponse].
    rewrite bool_decide_true by done. rewrite text_roundtrip.
    pose proof (Unmarshal_response (ToResponse resp) (response_valid resp)) as Hu.
    unfold responseText in Hu. destruct (Unmarshal _ _ _) as [raw|]; [|done]. apply (inj Some) in Hu. rewrite Hu.
    unfold lift. by rewrite (proj2 (response_reads_back resp L) (signSpec_sigs k p resp Hspec Hf)).
  - assert (Z.of_nat (length (rs_Body (writeResponse StatusInternalServerError (errorJson hiddenError))))
              <= maxResponseSize) as Hlen by (vm_compute; congruence).
    pose proof (exchange_Ok _ _ _ _ Hconn "POST" "/v1/sign-transactions" "application/json" _ (rc_Timeout rc) _ wd _ _
      eq_refl Hs Hlen) as Hx.
    unfold mbind, M_bind. unfold lift at 1. rewrite Hx. done.
  - destruct (exchange_broken _ _ _ _ Hconn "POST" "/v1/sign-transactions" "application/json" _ (rc_Timeout rc) _ wd _ _
      eq_refl Hs) as [e Hx]; [done|]. exists e. unfold mbind, M_bind. unfold lift at 1. by rewrite Hx.
  - destruct (exchange_broken _ _ _ _ Hconn "POST" "/v1/sign-transactions" "application/json" _ (rc_Timeout rc) _ wd _ _
      eq_refl Hs) as [e Hx]; [done|]. exists e. unfold mbind, M_bind. unfold lift at 1. by rewrite Hx.
Qed.

(** C6: end to end, the remote signer of the emulator is the signing
    application: with the key unlocked and both sides configured alike, a
    request goes through JSON, HTTP, authentication, parsing, signing and back,
    and the emulator gets exactly the signatures the specification gives for
    the unlocked key; when signing fails the emulator gets a fixed error text
    that does not tell why, and when it panics some error.  The key store is
    left as it was. *)
Theorem remote_signer_refines req w wd l k :
  let p := covenantRequestToSignerRequest req in
  CodecLaws -> Paired -> exchangeable k p w ->
  btcecPrivKey (sv_app (get wd)) = Some l -> heap (sv_app (get wd)) !! l = Some k ->
  exists s, sv_app s = sv_app (get wd) /\
  match signSpec k p with
  | Ok resp => SignTransactions (NewRemoteSigner rc) req wd = (set s wd, Ok (signerResponseToCovenantResponse resp))
  | Err _ => SignTransactions (NewRemoteSigner rc) req wd = (set s wd, Err remoteFailure)
  | _ => exists e, SignTransactions (NewRemoteSigner rc) req wd = (set s wd, Err e)
  end.
Proof. apply remote_signing. Qed.

End Remote.

End EndToEnd.
