(* ===== verification/Rounds.v ===== *)
(** * The rounds of the daemon one after the other

    The submission loop of covenant/covenant.go over many ticks, against a node
    whose pending delegations change with the signatures it executes: with any
    schedule of the goroutines the [n]th round signs the [n]th part of the
    acceptable delegations ([drain_ticks]); and delegations that are accepted
    but never signed are taken up again in every round and, when they fill the
    limit, keep all the others from being signed ([starve_ticks]).  [EndToEnd]
    puts the whole system in the place of the environment assumed here. *)
From S2P Require Import Prelude GoStd BtcLib Types Env ParamsCache ClientController Emulator EmulatorProps ControllerProps SubmitProps PagingProps SystemProps RoundProps Lifecycle.
Local Open Scope Z_scope.

(** ** Runs and their ticks *)

Section Ticks.
Context `{BL : BtcLib} {W : Type} `{!Clock W}.
Variable ce : Emulator W.

(** The case of the ticker of the submission loop. *)
Definition tick (d d' : Daemon) : Prop :=
  crashed d = false /\ sigLoop d = AtSelect /\
  let '(s', r) := submissionRound ce (d_sys d) in
  match r with
  | Ok _ => d' = setSig d s' AtSelect (wg d) false
  | Panic _ => d' = setSig d s' AtSelect (wg d) true
  | OutOfFuel => d' = setSig d s' Hung (wg d) false
  | Err _ => False
  end.

(** Everything else only logs or updates the metrics. *)
Definition aside (s s' : Sys W) : Prop :=
  s' = s \/ (exists l, s' = add_log l s) \/ metricsRound s = (s', Ok tt).
Definition idle (d d' : Daemon) : Prop := dstep ce d d' /\ aside (d_sys d) (d_sys d').

Lemma dstep_split d d' : dstep ce d d' <-> tick d d' \/ idle d d'.
Proof.
  split.
  - intros Hs. pose proof Hs as Hs'. destruct Hs as [d _|d _ Hn|d _ Hn Hw|d s' Hc Hl Hr|d s' m Hc Hl Hr|d s' Hc Hl Hr
      |d _ Hl Hq|d s' _ Hl Hr|d _ Hl Hq|d _ Hl _|d _ Hl _|d _ Hl _|d _ Hl _].
    4,5,6: left; unfold tick; by rewrite Hr.
    all: right; split; [done|]; unfold aside; simpl; try (right; left; by eexists); auto.
    unfold Start. destruct (startOnce d); [by left|right; left; by eexists].
  - intros [(Hc & Hl & H)|[H _]]; [|done]. destruct (submissionRound ce (d_sys d)) as [s' [[]|e|m|]] eqn:Hr; subst;
      [by apply step_tick|done|by eapply step_tick_panic|by apply step_tick_hang].
Qed.

(** Only a round hangs. *)
Lemma hangs_by_tick d d' : dstep ce d d' -> sigLoop d <> Hung -> sigLoop d' = Hung -> tick d d'.
Proof.
  intros Hs Hn Hh. apply dstep_split in Hs as Hs'. destruct Hs' as [?|_]; [done|].
  destruct Hs; simpl in *; try congruence; [|unfold tick; by rewrite H1].
  unfold Start in Hh. destruct (startOnce d); simpl in Hh; congruence.
Qed.

(** A run with the number of its ticks. *)
Inductive ticks : nat -> Daemon -> Daemon -> Prop :=
| ticks_none d : ticks 0 d d
| ticks_round n d d1 d2 : ticks n d d1 -> tick d1 d2 -> ticks (S n) d d2
| ticks_idle n d d1 d2 : ticks n d d1 -> idle d1 d2 -> ticks n d d2.

Lemma run_ticks d d' : rtc (dstep ce) d d' <-> exists n, ticks n d d'.
Proof.
  split.
  - revert d'. apply (rtc_ind_r (fun d' => exists n, ticks n d d')); [by exists 0%nat; constructor|].
    intros d1 d2 _ [Ht|Hi]%dstep_split [n IH]; [exists (S n)|exists n]; by econstructor.
  - intros [n Hn]. induction Hn as [d|n d d1 d2 _ IH Ht|n d d1 d2 _ IH [Hi _]]; [done|..];
      (eapply rtc_r; [exact IH|]); [apply dstep_split; by left|done].
Qed.

End Ticks.

(** ** The node marks what it executes *)

Section Marks.
Context `{BL : BtcLib} {W : Type} `{!Clock W}.
Variable ce : Emulator W.
Variables (params : Z -> option StakingParams) (prevs : string -> option Delegation).

(** From one list of pending delegations to the next: those in [E] were signed
    by this covenant member, and are either no longer pending or carry its
    signature; the others are as they were. *)
Inductive evolves (E : Delegation -> Prop) : list Delegation -> list Delegation -> Prop :=
| ev_nil : evolves E [] []
| ev_kept d l l' : ~ E d -> evolves E l l' -> evolves E (d :: l) (d :: l')
| ev_gone d l l' : E d -> evolves E l l' -> evolves E (d :: l) l'
| ev_marked d d' l l' : E d -> signed_by (ce_pk ce) d' ->
    evolves E l l' -> evolves E (d :: l) (d' :: l').

Abbreviation ok := (fun d => acceptable ce params prevs d = Some true).

Lemma signed_not_acceptable d : signed_by (ce_pk ce) d ->
  acceptable ce params prevs d <> Some true.
Proof. by intros H (Hn & _)%acceptable_true. Qed.

(** What being among the first [n] acceptable ones means one delegation
    further. *)
Lemma among_rest (E : Delegation -> Prop) d l n : d ∉ l ->
  (forall e, e ∈ d :: l -> E e <-> e ∈ take n (filter ok (d :: l))) ->
  let m := if decide (ok d) then pred n else n in
  (E d <-> ok d /\ (0 < n)%nat) /\ forall e, e ∈ l -> E e <-> e ∈ take m (filter ok l).
Proof.
  intros Hd HE. assert (forall m, d ∉ take m (filter ok l)) as Hnot.
  { intros m (i & Hi%list_elem_of_lookup_2 & _)%elem_of_take. by apply list_elem_of_filter in Hi as [_ ?]. }
  simpl. rewrite filter_cons in HE. split.
  - rewrite HE by left. destruct (decide (ok d)) as [Ho|Ho].
    + destruct n as [|n]; simpl; [split; [intros H; by apply not_elem_of_nil in H|lia]|].
      split; [intros _; split; [done|lia]|intros _; left].
    + split; [by intros ?%Hnot|by intros [? _]].
  - intros e He. rewrite HE by (by right). destruct (decide (ok d)) as [Ho|Ho]; [|done].
    assert (e <> d) by (by intros ->). destruct n as [|n]; simpl; [done|]. rewrite elem_of_cons. naive_solver.
Qed.

(** When the first [n] acceptable ones were signed, the rest is left. *)
Lemma evolves_queue E l l' : evolves E l l' -> forall n,
  NoDup l -> (forall d, d ∈ l -> E d <-> d ∈ take n (filter ok l)) -> filter ok l' = drop n (filter ok l).
Proof.
  intros H. induction H as [|d l l' Hd _ IH|d l l' Hd _ IH|d d' l l' Hd Hm _ IH]; intros n Hnd HE.
  { by rewrite filter_nil, drop_nil. }
  all: apply NoDup_cons in Hnd as [Hnew Hnd]; destruct (among_rest E d l n Hnew HE) as [HEd HEl];
    specialize (IH _ Hnd HEl); rewrite !filter_cons, IH; rewrite HEd in Hd.
  - destruct (decide (ok d)); [|done]. destruct n; [done|]. exfalso. apply Hd. split; [done|lia].
  - destruct Hd as [Ho Hn]. destruct (decide (ok d)); [|done]. by destruct n; [lia|].
  - destruct Hd as [Ho Hn]. rewrite decide_False by (by apply signed_not_acceptable).
    destruct (decide (ok d)); [|done]. by destruct n; [lia|].
Qed.

End Marks.

(** ** Many rounds *)

Section Many.
Context `{BL : BtcLib} {W : Type} `{!Clock W} `{BC : !BbnClient W}.
Variables (ce : Emulator W) (bc : BabylonController) (fuel : nat).
Variables (params : Z -> option StakingParams) (prevs : string -> option Delegation).
Variable sign : SigningRequest -> option SignaturesResponse.
Variables (verdict : Msg -> option error) (delivered : W -> list Msg) (addr : string).
Variables (store : list Msg -> list BTCDelegationResponse) (ds : list Msg -> list Delegation).
Variables (keyAt : nat -> bytes) (J : Sys W -> Prop).

Abbreviation Q := (queue ce params prevs ds).
Abbreviation owed := (messages ce params prevs sign addr).
Abbreviation walk := (Walkable ce fuel params prevs store ds).
Abbreviation at_ := (JL delivered J).

Hypothesis HS : System ce bc fuel params prevs sign verdict delivered addr store ds keyAt J.

(** Metrics and logs leave alone what the rounds rely on. *)
Lemma aside_at L s s' : aside s s' -> at_ L s -> at_ L s'.
Proof.
  intros Ha Hs. pose proof (sys_steady _ _ _ _ _ _ _ _ _ _ _ _ _ HS L) as E.
  assert (Local (at_ L)) as HL by apply (st_local _ _ _ _ _ _ E).
  destruct Ha as [->|[[l ->]|Hm]]; [done|by apply local_log|].
  assert (yields (at_ L) metricsRound (fun _ => True)) as Hy.
  { unfold metricsRound. eapply (yields_bind _ _ _ (fun _ => True)); [intros s0 Hs0; by eexists s0, _|]. intros mt _.
    repeat (case_match; [|by apply yields_ret]).
    do 3 (eapply yields_bind; [apply (st_now _ _ _ _ _ _ E)|intros]).
    apply yields_modify. intros. by apply local_collectors. }
  destruct (Hy s Hs) as (s1 & a & Hr & H1 & _). congruence.
Qed.

(** A tick at a point where the round can be carried out. *)
Lemma tick_run limit L d d' : Settings ce limit -> walk limit L ->
  batchesPass ce bc params prevs sign verdict addr (taken ce params prevs ds L limit) ->
  at_ L (d_sys d) -> tick ce d d' ->
  at_ (L ++ filter (accepted verdict) (owed (taken ce params prevs ds L limit))) (d_sys d') /\
  sigLoop d' = AtSelect /\ crashed d' = false.
Proof.
  intros HSet HW Hb Hs (Hc & Hl & Ht).
  destruct (round_run _ _ _ _ _ _ _ _ _ _ _ _ _ HS limit L _ HSet HW Hb Hs) as (s' & Hr & Hs').
  rewrite Hr in Ht. by subst d'.
Qed.

(** *** All are signed *)

(** The delegation's signatures are made and executed. *)
Definition executed (del : Delegation) : Prop :=
  exists sigs, signedFor ce params prevs sign del = Some sigs /\ accepted verdict (msgOf addr sigs).

(** What the chain has executed after [n] rounds. *)
Definition progress (limit : nat) (L0 : list Msg) (n : nat) : list Msg := L0 ++ owed (take (n * limit) (Q L0)).

(** While no delegation arrives: every acceptable delegation can be signed and
    the chain takes the signatures, after which the delegation is marked. *)
Record Draining (limit : nat) (L0 : list Msg) : Prop := {
  dr_retries : 0 <= MaxRetiresBatchRemovingMsgs bc;
  dr_executed : Forall executed (Q L0);
  dr_walk : forall n, walk limit (progress limit L0 n);
  dr_distinct : forall n, NoDup (ds (progress limit L0 n));
  dr_marks : forall n, evolves ce (fun d => d ∈ taken ce params prevs ds (progress limit L0 n) limit)
    (ds (progress limit L0 n)) (ds (progress limit L0 (S n)))
}.

Lemma owed_length dels : Forall executed dels -> length (owed dels) = length dels.
Proof.
  unfold messages. rewrite length_fmap.
  induction 1 as [|d dels (sigs & Hs & _) _ IH]; [done|].
  cbn [omap list_omap]. rewrite Hs. cbn [length]. by f_equal.
Qed.

Lemma owed_accepted dels : Forall executed dels -> Forall (accepted verdict) (owed dels).
Proof.
  unfold messages. induction 1 as [|d dels (sigs & Hs & Ha) _ IH]; [constructor|].
  cbn [omap list_omap]. rewrite Hs. cbn [fmap list_fmap]. by apply Forall_cons.
Qed.

Lemma filter_accepted msgs : Forall (accepted verdict) msgs -> filter (accepted verdict) msgs = msgs.
Proof. induction 1 as [|m msgs Hm _ IH]; [done|]. by rewrite filter_cons_True, IH. Qed.

Lemma no_reasons msgs : Forall (accepted verdict) msgs -> reasons verdict msgs = [].
Proof. induction 1 as [|m msgs Hm _ IH]; [done|]. unfold reasons. simpl. by rewrite Hm. Qed.

Lemma executed_pass limit dels : Settings ce limit -> 0 <= MaxRetiresBatchRemovingMsgs bc ->
  Forall executed dels -> (length dels <= limit)%nat -> batchesPass ce bc params prevs sign verdict addr dels.
Proof.
  intros [_ [_ Hmax] Hbs] Hret He Hlen batches Hb.
  destruct (batches_partition (SigsBatchSize ce) dels) as (batches' & Hb' & Hcat & Hne & _); [done|lia|].
  rewrite Hb in Hb'. injection Hb' as <-. apply Forall_forall. intros b Hin. left.
  rewrite <- Hcat in He, Hlen. rewrite Forall_concat in He. rewrite Forall_forall in He, Hne.
  specialize (He b Hin). destruct (Hne b Hin) as [Hb0 _].
  assert (length b <= length (concat batches))%nat as Hlb.
  { apply list_elem_of_split in Hin as (l1 & l2 & ->). rewrite concat_app, length_app. simpl. rewrite length_app. lia. }
  unfold deliverable, turns, BatchRetries. rewrite no_reasons by (by apply owed_accepted).
  rewrite view_slice_of, (owed_length b He). split; [lia|].
  destruct b as [|d b]; [done|]. simpl length in *. repeat case_bool_decide; lia.
Qed.

Section Drain.
Variables (limit : nat) (L0 : list Msg).
Hypotheses (HSet : Settings ce limit) (HD : Draining limit L0).

Lemma queue_progress n : Q (progress limit L0 n) = drop (n * limit) (Q L0).
Proof.
  induction n as [|n IH].
  { unfold progress, messages. by rewrite take_0, app_nil_r, drop_0. }
  pose proof (evolves_queue ce params prevs _ _ _ (dr_marks _ _ HD n) limit (dr_distinct _ _ HD n)) as H.
  unfold queue at 1. rewrite H by done. fold (Q (progress limit L0 n)). rewrite IH, drop_drop. f_equal. lia.
Qed.

Lemma taken_progress n : taken ce params prevs ds (progress limit L0 n) limit = take limit (drop (n * limit) (Q L0)).
Proof. unfold taken. by rewrite queue_progress. Qed.

Lemma progress_step n : progress limit L0 n ++ filter (accepted verdict)
    (owed (taken ce params prevs ds (progress limit L0 n) limit)) = progress limit L0 (S n).
Proof.
  rewrite taken_progress, filter_accepted.
  2:{ apply owed_accepted, Forall_take, Forall_drop, (dr_executed _ _ HD). }
  unfold progress. rewrite <- app_assoc, <- messages_app. do 2 f_equal.
  by rewrite take_take_drop, Nat.add_comm.
Qed.

Lemma drain_pass n : batchesPass ce bc params prevs sign verdict addr
    (taken ce params prevs ds (progress limit L0 n) limit).
Proof.
  apply (executed_pass limit); [done|apply (dr_retries _ _ HD)|..]; rewrite taken_progress.
  - apply Forall_take, Forall_drop, (dr_executed _ _ HD).
  - rewrite length_take. lia.
Qed.

Lemma drain_tick n d d' : at_ (progress limit L0 n) (d_sys d) -> tick ce d d' ->
  at_ (progress limit L0 (S n)) (d_sys d') /\ sigLoop d' = AtSelect /\ crashed d' = false.
Proof.
  intros Hs Ht. rewrite <- progress_step.
  apply (tick_run limit _ d); [done|apply (dr_walk _ _ HD)|apply drain_pass|done..].
Qed.

(** Any schedule of the goroutines. *)
Lemma drain_ticks n d d' : ticks ce n d d' -> at_ L0 (d_sys d) ->
  at_ (progress limit L0 n) (d_sys d') /\ (sigLoop d <> Hung -> sigLoop d' <> Hung).
Proof.
  intros Ht Hs. induction Ht as [d|n d d1 d2 _ IH Ht|n d d1 d2 _ IH [Hd Ha]].
  - unfold progress, messages. by rewrite take_0, app_nil_r.
  - destruct (IH Hs) as [H1 _]. destruct (drain_tick n d1 d2 H1 Ht) as (H2 & H3 & _). by rewrite H3.
  - destruct (IH Hs) as [H1 H2]. split; [by apply (aside_at _ (d_sys d1))|]. intros Hh.
    specialize (H2 Hh). intros Hh'. destruct (drain_tick n d1 d2 H1) as (_ & H3 & _); [by apply hangs_by_tick|congruence].
Qed.

(** The rounds can go on. *)
Lemma drain_possible n d : crashed d = false -> sigLoop d = AtSelect -> at_ L0 (d_sys d) ->
  exists d', ticks ce n d d' /\ sigLoop d' = AtSelect /\ crashed d' = false.
Proof.
  intros Hc Hl Hs. induction n as [|n (d1 & Ht & Hl1 & Hc1)]; [exists d; by split; [constructor|]|].
  destruct (drain_ticks n d d1 Ht Hs) as [H1 _].
  assert (exists s', submissionRound ce (d_sys d1) = (s', Ok tt)) as [s' Hr].
  { destruct (round_run _ _ _ _ _ _ _ _ _ _ _ _ _ HS limit (progress limit L0 n) (d_sys d1) HSet)
      as (s' & Hr & _); [apply (dr_walk _ _ HD)|by apply drain_pass|done|by exists s']. }
  exists (setSig d1 s' AtSelect (wg d1) false). split; [|done].
  eapply ticks_round; [exact Ht|]. unfold tick. by rewrite Hr.
Qed.

End Drain.

(** *** Nothing is signed *)

Lemma unsigned_owe_nothing dels : Forall (fun d => signedFor ce params prevs sign d = None) dels -> owed dels = [].
Proof.
  unfold messages. induction 1 as [|d dels Hd _ IH]; [done|]. cbn [omap list_omap]. by rewrite Hd.
Qed.

Lemma starve_ticks limit L n d d' : Settings ce limit -> walk limit L ->
  Forall (fun d => signedFor ce params prevs sign d = None) (taken ce params prevs ds L limit) ->
  ticks ce n d d' -> at_ L (d_sys d) -> at_ L (d_sys d').
Proof.
  intros HSet HW Hnone Ht Hs.
  assert (batchesPass ce bc params prevs sign verdict addr (taken ce params prevs ds L limit)) as Hpass.
  { intros batches Hb. destruct (batches_partition (SigsBatchSize ce) (taken ce params prevs ds L limit))
      as (batches' & Hb' & Hcat & _); [apply (se_batch _ _ HSet)| |].
    { pose proof (se_range _ _ HSet). unfold taken. rewrite length_take. lia. }
    rewrite Hb in Hb'. injection Hb' as <-. rewrite <- Hcat in Hnone. apply Forall_concat in Hnone.
    eapply Forall_impl; [exact Hnone|]. intros b Hb'. right. by apply unsigned_owe_nothing. }
  induction Ht as [d|n d d1 d2 _ IH Ht|n d d1 d2 _ IH [Hd Ha]]; [done|..|by apply (aside_at _ (d_sys d1)), IH].
  destruct (tick_run limit L d1 d2 HSet HW Hpass (IH Hs) Ht) as (H & _).
  by rewrite unsigned_owe_nothing, filter_nil, app_nil_r in H.
Qed.

End Many.
