(* ===== verification/EndToEnd.v ===== *)
(** * The two programs and the node together

    One round of the emulator whose signer is the remote signer: the pending
    delegations of the node go in, and what the chain has executed afterwards
    are the covenant signatures made with the key unlocked in the signer
    service, exactly for the delegations that obey the rules. *)
From Stdlib Require Import Strings.Byte Strings.Ascii Strings.String.
From S2P Require Import Prelude GoStd BtcLib Config Types Env ParamsCache ClientController Emulator EmulatorProps ControllerProps SubmitProps PagingProps SystemProps RoundProps Lifecycle Rounds SignerConfig SignerApp SignerProps WireTypes HmacAuth SignerServer SignerClient RemoteProps.
Local Open Scope Z_scope.

Section Deployment.
Context `{BL : BtcLib} `{KR : Keyring} `{CH : ChiLib} {CL : ChiLaws} `{RL : RetryLib}.
Context {W : Type} `{!Clock W} `{BC : !BbnClient W} `{HC : !HttpClient W}.
(** The emulator and its controller. *)
Variables (ce : Emulator W) (bc : BabylonController) (fuel : nat).
(** The signer service, where its state is in the world, and its key. *)
Variables (cfg : ParsedServerConfig) (rc : RemoteSignerCfg) (keyName : string).
Variables (get : W -> ServerSys) (set : ServerSys -> W -> W) (k : PrivateKey).
(** The node: what is true of it, what it answers, stores and has executed. *)
Variables (node : W -> Prop) (params : Z -> option StakingParams) (prevs : string -> option Delegation).
Variables (verdict : Msg -> option error) (delivered : W -> list Msg) (addr : string).
(** The pending delegations it stores, by the messages it has executed. *)
Variables (store : list Msg -> list BTCDelegationResponse) (ds : list Msg -> list Delegation).
Variable keyAt : nat -> bytes.

(** The signatures of the specification with the key [k]. *)
Definition signWith (req : SigningRequest) : option SignaturesResponse :=
  signerResponseToCovenantResponse <$> okOf (signSpec k (covenantRequestToSignerRequest req)).

(** The service has its key unlocked, and the cache holds what the node says. *)
Definition Running (s : Sys W) : Prop :=
  node (world s) /\
  (exists l, btcecPrivKey (sv_app (get (world s))) = Some l /\ heap (sv_app (get (world s))) !! l = Some k) /\
  map_Forall (fun v p => params v = Some p) (paramsByVersion s).

Abbreviation R_L := (JL delivered Running).
Abbreviation RequestOf := (RequestFor ce (fun v p => params v = Some p) (fun h d => prevs h = Some d)).

Record Deployed : Prop := {
  dp_cc : ce_cc ce = babylonClientController bc fuel;
  dp_cache : ce_paramCache ce = NewCacheVersionedParams (ce_cc ce);
  dp_signer : ce_signer ce = NewRemoteSigner rc;
  dp_paired : Paired cfg rc keyName get set;
  (* the service is not the node *)
  dp_apart : forall st w, (node w -> node (set st w)) /\ delivered (set st w) = delivered w;
  dp_exchange : forall L del req, del ∈ ds L -> RequestOf del req ->
    exists w, exchangeable cfg k (covenantRequestToSignerRequest req) w;
  (* the node answers, and leaves the service alone *)
  dp_now : forall L, yields (R_L L) timeNow (fun _ => True);
  dp_params : forall L v, answers (R_L L) (bc_QueryStakingParamsByVersion v) (params v);
  dp_prevs : forall L h, answers (R_L L) (bc_QueryBTCDelegation h) (prevs h);
  dp_pages : forall L, Paginated (R_L L) (store L) keyAt (fun r => ext (BTCDelegations PENDING r));
  dp_conv : forall L, Forall2 (fun r d => DelegationRespToDelegation r = Ok d) (store L) (ds L);
  dp_chain : AtomicChain verdict delivered;
  dp_keyring : QuietKeyring bc delivered addr;
  dp_send : forall msgs, keeps Running (reliablySendMsgs msgs) (fun _ => True);
  dp_key : keeps Running (mustGetTxSigner bc) (fun _ => True)
}.

Lemma running_local L : Local (R_L L).
Proof. by split; intros s x [H1 H2]; split. Qed.

(** The remote signer in this world. *)
Lemma answers_remote L req w : CodecLaws -> Deployed ->
  exchangeable cfg k (covenantRequestToSignerRequest req) w ->
  answers (R_L L) (ext (SignTransactions (ce_signer ce) req)) (signWith req).
Proof.
  intros CLaws D Hex. rewrite (dp_signer D).
  assert (forall s, R_L L s -> exists st r, SignTransactions (NewRemoteSigner rc) req (world s) = (set st (world s), r) /\
    R_L L (set_world (set st (world s)) s) /\
    match signWith req with Some a => r = Ok a | None => exists e, r = Err e end) as H.
  { intros s [(Hn & (l & Hl & Hk) & Hc) Hd].
    destruct (remote_signing cfg rc keyName get set req w (world s) l k CLaws (dp_paired D) Hex Hl Hk) as (st & Hst & Hr).
    exists st. unfold signWith.
    assert (R_L L (set_world (set st (world s)) s)) as HJ.
    { destruct (dp_apart D st (world s)) as [H1 H2]. split; [|by rewrite <- Hd]. split_and!; [by apply H1| |done].
      exists l. simpl. rewrite (conn_get_set _ _ _ _ (pair_conn _ _ _ _ _ (dp_paired D))). by rewrite Hst. }
    destruct (signSpec k (covenantRequestToSignerRequest req)) as [resp|e|m|]; simpl.
    1,2: eexists; split_and!; [exact Hr|done|by eauto].
    all: destruct Hr as [e Hr]; eexists; split_and!; [exact Hr|done|by eauto]. }
  destruct (signWith req) as [a|]; intros s Hs; destruct (H s Hs) as (st & r & Hr & HJ & Hres); unfold ext; rewrite Hr.
  - subst. by eexists _, a.
  - destruct Hres as [e ->]. by eexists _, e.
Qed.

Lemma deployed_steady `{!RetryLaws} L : CodecLaws -> Deployed ->
  Steady ce params prevs signWith (R_L L) (fun req => exists L del, del ∈ ds L /\ RequestOf del req).
Proof.
  intros CLaws D. split.
  - apply running_local.
  - apply (dp_now D).
  - intros v. rewrite (dp_cache D), (dp_cc D). apply answers_CacheGet; [apply _|..].
    + done.
    + apply (dp_params D).
    + intros p s Hp [(H1 & H2 & H3) H4]. split; [|done]. split_and!; [done..|]. by apply map_Forall_insert_2.
    + intros s p [(_ & _ & Hc) _] Hp. by apply (Hc v).
  - intros h. rewrite (dp_cc D). apply (dp_prevs D).
  - intros req (L0 & del & Hin & Hreq). destruct (dp_exchange D L0 del req Hin Hreq) as [w Hw].
    by apply (answers_remote L req w).
Qed.

Lemma deployed_system `{!RetryLaws} : CodecLaws -> Deployed ->
  System ce bc fuel params prevs signWith verdict delivered addr store ds keyAt Running.
Proof.
  intros CLaws D. pose proof (fun L => deployed_steady L CLaws D). by destruct D.
Qed.

(** What the round signs with is the specification. *)
Lemma signWith_spec del sigs : signedFor ce params prevs signWith del = Some sigs <->
  exists req resp, RequestOf del req /\ signSpec k (covenantRequestToSignerRequest req) = Ok resp /\
    sigs = sigsOf ce req (signerResponseToCovenantResponse resp).
Proof.
  rewrite signedFor_spec. unfold SigsFor, signWith. split.
  - intros (req & resp & Hr & (a & Ha%okOf_Some & ->)%fmap_Some & ->). eauto.
  - intros (req & resp & Hr & Ha & ->). exists req, (signerResponseToCovenantResponse resp). by rewrite Ha.
Qed.

Abbreviation takenUp := (taken ce params prevs ds).
Abbreviation owed := (messages ce params prevs signWith addr).


Abbreviation pendingFor := (queue ce params prevs ds).


(** C32: delegations that are accepted but not signed starve the others.  In
    the same deployment and with a walk over the pending delegations that ends
    and panics on none of them, if none of the first [limit] acceptable delegations can be signed (its checks
    fail, or the signer refuses), then after any number of ticks, whatever the
    schedule, nothing has been signed: every round takes up the same ones
    again, and none of those behind them is signed. *)
Theorem unsigned_starve `{!RetryLaws} limit L n d d' :
  CodecLaws -> Deployed -> Settings ce limit -> Walkable ce fuel params prevs store ds limit L ->
  Forall (fun del => signedFor ce params prevs signWith del = None) (takenUp L limit) ->
  Running (d_sys d) -> delivered (world (d_sys d)) = L -> ticks ce n d d' ->
  Running (d_sys d') /\ delivered (world (d_sys d')) = L /\
  takenUp (delivered (world (d_sys d'))) limit = takenUp L limit.
Proof.
  intros CLaws D HSet HW Hnone Hs HL Ht.
  destruct (starve_ticks _ _ _ _ _ _ _ _ _ _ _ _ _ (deployed_system CLaws D) limit L n d d' HSet HW Hnone Ht) as [H1 H2];
    [done|]. by rewrite H2.
Qed.

End Deployment.
