(* ===== verification/ServerProps.v ===== *)
(** * Properties of the signer service

    What clients are told about failures, the counters and the gauge of the
    service, and unlocking over HTTP. *)
From Stdlib Require Import Strings.Byte Strings.Ascii Strings.String.
From S2P Require Import Prelude GoStd JsonText JsonCodec BtcLib Config Env SignerConfig SignerApp SignerProps WireTypes HmacAuth SignerServer SignerClient RemoteProps.
Local Open Scope Z_scope.

(** ** What clients are told *)

Section Told.
Context `{BL : BtcLib}.
Variable pkr : PrivKeyRetriever.
Variable interfere : nat -> M SignerSys unit.

Definition badRequest (msg : string) : Response :=
  writeResponse 400 (errorJson {| he_ErrorCode := BadRequest; he_Message := msg |}).
Definition hiddenAnswer : Response := writeResponse 500 (errorJson hiddenError).

(** The answers a route may give to [r] in the state [s]: a success, or a refusal
    with exactly this body.  Of a failed signature and of a failed reading of the
    public key nothing but the fixed text; of a bad request its own fault; of a
    failed Unlock or Lock the error of the key store. *)
Inductive told (r : Request) (s : ServerSys) : string -> Response -> Prop :=
| told_success pattern resp : rs_Status resp = 200 -> told r s pattern resp
| told_sign_payload : decodePayload decRequest zeroValue r = None ->
    told r s "/v1/sign-transactions" (badRequest "invalid request payload")
| told_sign_request payload e : decodePayload decRequest zeroValue r = Some payload ->
    ParseSigningRequest payload = Err e -> told r s "/v1/sign-transactions" (badRequest e)
| told_sign_failure payload req : decodePayload decRequest zeroValue r = Some payload ->
    ParseSigningRequest payload = Ok req -> told r s "/v1/sign-transactions" hiddenAnswer
| told_key_failure : told r s "/v1/public-key" hiddenAnswer
| told_unlock_payload : decodePayload (A := UnlockRequest) fromJson zeroValue r = None ->
    told r s "/v1/unlock" (badRequest "invalid request payload")
| told_unlock_failure payload e : decodePayload fromJson zeroValue r = Some payload ->
    (pkr_Unlock pkr (Passphrase payload) (sv_app s)).2 = Err e -> told r s "/v1/unlock" (badRequest e)
| told_lock_failure e : (pkr_Lock pkr (sv_app s)).2 = Err e -> told r s "/v1/lock" (badRequest e).

(** What registerHandler writes for the results of the handlers. *)
Lemma register_run h r s s' resp : registerHandler h r s = (s', Ok resp) -> exists s1 res,
  h r s = (s1, Ok res) /\
  (forall d, res = ok (NewResult d) -> rs_Status resp = 200) /\
  (forall e, res = ko (NewErrorWithMsg StatusBadRequest BadRequest e) -> resp = badRequest e) /\
  (forall e, res = ko (NewErrorWithMsg StatusInternalServerError InternalServiceError e) -> resp = hiddenAnswer).
Proof.
  intros H. unfold registerHandler in H. inv_bind H. exists s0, a. split; [done|]. split_and!; intros x ->.
  - cbv [ok NewResult Status] in H. change (knownStatus StatusOK) with true in H. by injection H as _ <-.
  - cbv [ko] in H. inv_bind H. injection Hm0 as _ <-. simpl in H. by injection H as _ <-.
  - cbv [ko] in H. inv_bind H. injection Hm0 as _ <-. simpl in H. by injection H as _ <-.
Qed.

Lemma attempt_onApp {A} (m : M SignerSys A) s s' x : attempt (onApp m) s = (s', Ok x) ->
  match x with inl a => (m (sv_app s)).2 = Ok a | inr e => (m (sv_app s)).2 = Err e end.
Proof. unfold attempt, onApp. destruct (m (sv_app s)) as [w [a|e|p|]]; by intros [= <- <-]. Qed.

Lemma sign_told r s s' resp : registerHandler (h_SignTransactions pkr interfere) r s = (s', Ok resp) ->
  told r s "/v1/sign-transactions" resp.
Proof.
  intros (s1 & res & H & H200 & H400 & H500)%register_run. unfold h_SignTransactions in H.
  destruct (decodePayload decRequest zeroValue r) as [payload|] eqn:Hd.
  2:{ injection H as _ <-. rewrite (H400 _ eq_refl). by apply told_sign_payload. }
  inv_bind H. unfold attempt, lift in Hm. destruct (ParseSigningRequest payload) as [req|e| |] eqn:Hp; simplify_eq/=.
  - inv_bind H. inv_bind H. destruct a0 as [sig|e]; inv_bind H; injection H as _ <-.
    + by eapply told_success, H200.
    + rewrite (H500 _ eq_refl). by eapply told_sign_failure.
  - injection H as _ <-. rewrite (H400 _ eq_refl). by eapply told_sign_request.
Qed.

Lemma unlock_told r s s' resp : registerHandler (h_Unlock pkr) r s = (s', Ok resp) -> told r s "/v1/unlock" resp.
Proof.
  intros (s1 & res & H & H200 & H400 & _)%register_run. unfold h_Unlock in H.
  destruct (decodePayload fromJson zeroValue r) as [payload|] eqn:Hd.
  2:{ injection H as _ <-. rewrite (H400 _ eq_refl). by apply told_unlock_payload. }
  inv_bind H. apply attempt_onApp in Hm. destruct a as [u|e]; inv_bind H; injection H as _ <-.
  - by eapply told_success, H200.
  - rewrite (H400 _ eq_refl). by eapply told_unlock_failure.
Qed.

Lemma lock_told r s s' resp : registerHandler (h_Lock pkr) r s = (s', Ok resp) -> told r s "/v1/lock" resp.
Proof.
  intros (s1 & res & H & H200 & H400 & _)%register_run. unfold h_Lock in H.
  inv_bind H. apply attempt_onApp in Hm. destruct a as [u|e].
  - inv_bind H. injection H as _ <-. by eapply told_success, H200.
  - injection H as _ <-. rewrite (H400 _ eq_refl). by apply told_lock_failure.
Qed.

Lemma key_told r s s' resp : registerHandler (h_GetPublicKey pkr interfere) r s = (s', Ok resp) ->
  told r s "/v1/public-key" resp.
Proof.
  intros (s1 & res & H & H200 & _ & H500)%register_run. unfold h_GetPublicKey in H.
  inv_bind H. destruct a as [pk|e]; injection H as _ <-.
  - by eapply told_success, H200.
  - rewrite (H500 _ eq_refl). by apply told_key_failure.
Qed.

(** C16: what a route tells a client that it refuses.  Why signing or reading the
    public key failed is never told: a request that is well formed is answered
    with success or with one fixed 500, whatever the error was.  A malformed
    request is told its own fault with a 400.  A failed Unlock or Lock is told
    the error of the key store, with a 400. *)
Theorem signing_failures_hidden rt r s s' resp :
  rt ∈ SetupRoutes pkr interfere -> rt_Handler rt r s = (s', Ok resp) -> told r s (rt_Pattern rt) resp.
Proof.
  unfold SetupRoutes. intros Hrt H.
  repeat (apply elem_of_cons in Hrt as [->|Hrt]); [..|by apply not_elem_of_nil in Hrt]; simpl in *.
  - by eapply sign_told.
  - by eapply unlock_told.
  - by eapply lock_told.
  - by eapply key_told.
Qed.

End Told.

(** ** Counters and gauge *)

Section Invariant.
Context `{BL : BtcLib} `{KR : Keyring} `{CH : ChiLib} {CL : ChiLaws}.
Variables (keyName : string) (cfg : ParsedServerConfig).

Abbreviation store := (KeyringRetriever keyName).
Abbreviation idle := (fun _ : nat => mret tt : M SignerSys unit).
Abbreviation service := (New store idle cfg).

(** Signing requests that were counted as received but not as answered. *)
Definition outstanding (s : ServerSys) : Z :=
  ReceivedSigningRequests (sv_metrics s) - SuccessfulSigningRequests (sv_metrics s)
  - FailedSigningRequests (sv_metrics s).

(** The gauge tells whether the key is unlocked. *)
Definition gaugeOk (s : ServerSys) : Prop :=
  SignerUnlockStatus (sv_metrics s) = if bool_decide (is_Some (btcecPrivKey (sv_app s))) then 1 else 0.

Record svInv (s : ServerSys) : Prop := { inv_gauge : gaugeOk s; inv_count : 0 <= outstanding s }.

(** A run keeps the invariant; if it ends normally it leaves no request
    unaccounted for. *)
Definition goodRun {A} (m : M ServerSys A) : Prop := forall s, svInv s ->
  svInv (m s).1 /\ (forall a, (m s).2 = Ok a -> outstanding (m s).1 = outstanding s).

Lemma goodRun_ret {A} (a : A) : goodRun (mret a).
Proof. by intros s Hs. Qed.

Lemma goodRun_lift {A} (r : res A) : goodRun (lift r).
Proof. by intros s Hs. Qed.

Lemma goodRun_bind {A B} (m : M ServerSys A) (k : A -> M ServerSys B) :
  goodRun m -> (forall a, goodRun (k a)) -> goodRun (m ≫= k).
Proof.
  intros Hm Hk s Hs. destruct (Hm s Hs) as [H1 H2]. unfold mbind, M_bind.
  destruct (m s) as [s1 [a|e|p|]]; simpl in *; try done.
  destruct (Hk a s1 H1) as [H3 H4]. split; [done|]. intros b Hb. rewrite H4 with b by done. by apply (H2 a).
Qed.

Lemma goodRun_slog l msg : goodRun (slog l msg).
Proof. intros s [Hg Hc]. by split. Qed.

(** Signing and reading the public key do not change the key store. *)
Lemma withKey_frame {A} s0 t l (f : PrivateKey -> res A) :
  keeps (fun s => s = s0) (withKey idle t l f) (fun _ => True).
Proof.
  eapply (keeps_bind _ _ _ (fun _ => True)); [by apply keeps_ret|]. intros _ _.
  eapply (keeps_bind _ _ _ (fun _ => True)); [by intros s ->|]. intros k _. by apply keeps_lift.
Qed.

Lemma PrivKey_frame s0 : keeps (fun s => s = s0) (cosmos_PrivKey) (fun _ => True).
Proof. intros s ->. split; [apply PrivKey_state|done]. Qed.

Lemma slashLoop_frame s0 req l fps : forall t a b,
  keeps (fun s => s = s0) (slashLoop idle t l req fps a b) (fun _ => True).
Proof.
  induction fps as [|e fps IH]; intros t a b; cbn [slashLoop]; [by apply keeps_ret|].
  eapply (keeps_bind _ _ _ (fun _ => True)).
  { eapply keeps_bind; [apply withKey_frame|]. intros x _. eapply keeps_bind; [apply withKey_frame|].
    intros y _. by apply keeps_ret. }
  intros [x y] _. eapply (keeps_bind _ _ _ (fun _ => True)); [by apply keeps_lift|]. intros b1 _.
  eapply (keeps_bind _ _ _ (fun _ => True)); [by apply keeps_lift|]. intros b2 _. apply IH.
Qed.

Lemma sign_frame p s : (app_SignTransactions store idle p s).1 = s.
Proof.
  assert (keeps (fun s1 => s1 = s) (app_SignTransactions store idle p) (fun _ => True)) as H; [|by apply H].
  eapply keeps_bind; [apply PrivKey_frame|]. intros l _.
  eapply keeps_bind; [apply slashLoop_frame|]. intros [a b] _.
  eapply keeps_bind; [apply withKey_frame|]. intros u _.
  eapply (keeps_bind _ _ _ (fun _ => True)).
  { destruct (pr_StakeExp p); [|by apply keeps_ret].
    eapply keeps_bind; [apply withKey_frame|]. intros x _. by apply keeps_ret. }
  intros x _. by apply keeps_ret.
Qed.

Lemma PubKey_frame s : (app_PubKey store idle s).1 = s.
Proof.
  assert (keeps (fun s1 => s1 = s) (app_PubKey store idle) (fun _ => True)) as H; [|by apply H].
  eapply keeps_bind; [apply PrivKey_frame|]. intros l _. apply withKey_frame.
Qed.

Lemma onApp_frame {A} (m : M SignerSys A) s : (m (sv_app s)).1 = sv_app s -> onApp m s = (s, (m (sv_app s)).2).
Proof. intros H. unfold onApp. destruct (m (sv_app s)) as [a r]. simpl in *. subst. by destruct s. Qed.

Lemma goodRun_sign r : goodRun (h_SignTransactions store idle r).
Proof.
  unfold h_SignTransactions. destruct (decodePayload _ _ r) as [w|]; [|apply goodRun_ret].
  destruct (ParseSigningRequest w) as [p|e|m|]; try (by intros s0 Hs0).
  intros s [Hg Hc]. unfold attempt, lift, mbind, M_bind, onMetrics, modify.
  match goal with |- context [onApp ?m ?s1] => rewrite (onApp_frame m s1) by apply sign_frame end.
  unfold gaugeOk, outstanding in *.
  destruct ((app_SignTransactions _ _ _ _).2) as [x|e|m|]; simpl in *; split; try done;
    first [by split; unfold gaugeOk, outstanding; simpl; [|lia]|intros y _; lia].
Qed.

Lemma goodRun_unlock r : goodRun (h_Unlock store r).
Proof.
  unfold h_Unlock. destruct (decodePayload _ _ r) as [[p]|]; [|apply goodRun_ret].
  intros s [Hg Hc]. unfold mbind, M_bind, attempt, onApp, app_Unlock. cbn [pkr_Unlock KeyringRetriever Passphrase].
  unfold onMetrics, modify, gaugeOk in *. destruct (btcecPrivKey (sv_app s)) as [l|] eqn:Hl.
  - rewrite (Unlock_unlocked keyName p _ l) by done. simpl. split; [|done].
    split; [|done]. unfold gaugeOk. simpl. by rewrite Hl.
  - destruct (Unlock_locked keyName p _ Hl) as [(key & _ & ->)|(Hs & Hne & _)]; [simpl; split; [by split|done]|].
    destruct (cosmos_Unlock keyName p (sv_app s)) as [a res]. simpl in Hs, Hne. subst.
    destruct res as [[]|e|m|]; [done|..]; simpl; (split; [|done]); split; unfold gaugeOk, outstanding in *; simpl;
      rewrite ?Hl; done.
Qed.

Lemma goodRun_lock r : goodRun (h_Lock store r).
Proof.
  intros s [Hg Hc]. unfold h_Lock, mbind, M_bind, attempt, onApp, app_Lock. cbn [pkr_Lock KeyringRetriever].
  unfold onMetrics, modify, gaugeOk in *. destruct (btcecPrivKey (sv_app s)) as [l|] eqn:Hl.
  - rewrite (Lock_unlocked _ l) by done. simpl. split; [by split|done].
  - rewrite Lock_locked by done. simpl. split; [|done]. split; [|done]. unfold gaugeOk. simpl. by rewrite Hl.
Qed.

Lemma goodRun_publicKey r : goodRun (h_GetPublicKey store idle r).
Proof.
  intros s Hs. unfold h_GetPublicKey, mbind, M_bind, attempt.
  rewrite onApp_frame by apply PubKey_frame. by destruct ((app_PubKey _ _ _).2).
Qed.

Lemma goodRun_register h r : goodRun (h r) -> goodRun (registerHandler h r).
Proof.
  intros Hh. apply goodRun_bind; [done|]. intros [[result|] [err|]].
  1,3: apply goodRun_bind; [case_match; [apply goodRun_ret|apply goodRun_bind; [apply goodRun_slog|intros; apply goodRun_ret]]|];
    intros code; apply goodRun_bind; [case_match; [apply goodRun_bind; [apply goodRun_slog|intros; apply goodRun_ret]|apply goodRun_ret]|];
    intros er; apply goodRun_ret.
  - case_match; [apply goodRun_ret|]. apply goodRun_bind; [apply goodRun_slog|intros; apply goodRun_ret].
  - apply goodRun_bind; [apply goodRun_slog|intros; apply goodRun_ret].
Qed.

Lemma goodRun_routes rt r : rt ∈ SetupRoutes store idle -> goodRun (rt_Handler rt r).
Proof.
  unfold SetupRoutes. intros H.
  repeat (apply elem_of_cons in H as [->|H]; [apply goodRun_register|]); [..|by apply not_elem_of_nil in H].
  - apply goodRun_sign.
  - apply goodRun_unlock.
  - apply goodRun_lock.
  - apply goodRun_publicKey.
Qed.

Lemma goodRun_chi r : goodRun (chi_ServeHTTP (SetupRoutes store idle) r).
Proof.
  destruct (chi_cases store idle r) as [(rt & Hin & ->)|H]; [by apply goodRun_routes|].
  intros s Hs. by destruct (H s) as [resp ->].
Qed.

Lemma goodRun_service r : goodRun (service r).
Proof.
  unfold New, LoggingMiddleware. apply goodRun_bind; [apply goodRun_slog|]. intros _.
  apply goodRun_bind; [|intros resp; apply goodRun_bind; [apply goodRun_slog|intros; apply goodRun_ret]].
  unfold signerChain, ContentLengthMiddleware, HMACAuthMiddleware, RespondWithError.
  repeat (case_match || (apply goodRun_bind; [apply goodRun_slog|intros])); auto using goodRun_ret, goodRun_lift, goodRun_chi.
Qed.

Definition served (s s' : ServerSys) : Prop := exists r, s' = (service r s).1.

(** In every state the service reaches by answering requests one after
    the other, the gauge is 1 exactly when the key is unlocked, and the
    counters agree: no more signing requests are answered than received, and a
    request that is answered leaves none unaccounted for. *)
Theorem metrics_agree s :
  rtc served newServer s ->
  gaugeOk s /\ 0 <= outstanding s /\
  forall r s' resp, service r s = (s', Ok resp) -> outstanding s' = outstanding s.
Proof.
  intros Hr. assert (svInv s) as [Hg Hc].
  { assert (svInv newServer) as H0 by (by split). revert H0.
    induction Hr as [|s s1 s2 [r ->] _ IH]; [done|]. intros H0. apply IH. by apply goodRun_service. }
  split; [done|]. split; [done|]. intros r s' resp H.
  destruct (goodRun_service r s) as [_ Hk]; [by split|]. rewrite H in Hk. by apply (Hk resp).
Qed.

End Invariant.

(** ** Unlocking over HTTP *)

Section RemoteUnlock.
Context `{BL : BtcLib} `{KR : Keyring} `{CH : ChiLib} {CL : ChiLaws}.
Context {W : Type} `{HC : !HttpClient W}.
Variables (cfg : ParsedServerConfig) (rc : RemoteSignerCfg) (keyName : string).
Variables (get : W -> ServerSys) (set : ServerSys -> W -> W).

Abbreviation store := (KeyringRetriever keyName).
Abbreviation idle := (fun _ : nat => mret tt : M SignerSys unit).

Definition unlockBody (p : string) : bytes := ascii_bytes (Marshal {| Passphrase := p |}).

(** What the unlock route answers, from the result of the key store. *)
Lemma unlock_served p key s :
  let h := LoggingMiddleware (registerHandler (h_Unlock store)) in
  let r := sent "POST" "/v1/unlock" (unlockBody p) key in
  sv_app (h r s).1 = (cosmos_Unlock keyName (sanitize p) (sv_app s)).1 /\
  match (cosmos_Unlock keyName (sanitize p) (sv_app s)).2 with
  | Ok _ => (h r s).2 = Ok (writeResponse 200 (publicResponse UnlockResponse))
  | Err e => (h r s).2 = Ok (writeResponse 400 (errorJson {| he_ErrorCode := BadRequest; he_Message := e |}))
  | _ => forall resp, (h r s).2 <> Ok resp
  end.
Proof.
  intros h r. assert (decodePayload fromJson zeroValue r = Some {| Passphrase := sanitize p |}) as Hd.
  { unfold decodePayload, r. rewrite sent_body. simpl content. unfold unlockBody. rewrite text_roundtrip.
    apply Decode_unlock. }
  unfold h, LoggingMiddleware, registerHandler, h_Unlock. rewrite Hd.
  unfold mbind, M_bind, attempt, slog, onMetrics, modify, onApp, app_Unlock.
  cbn [pkr_Unlock KeyringRetriever Passphrase sv_app].
  destruct (cosmos_Unlock keyName (sanitize p) (sv_app s)) as [a [[]|e|m|]]; done.
Qed.

Lemma unlock_remotely p wd :
  Paired cfg rc keyName get set -> Z.of_nat (length (unlockBody p)) <= psc_MaxContentLength cfg ->
  exists s, sv_app s = (cosmos_Unlock keyName (sanitize p) (sv_app (get wd))).1 /\
  (Unlock (rc_URL rc) (rc_Timeout rc) p (rc_HMACKey rc) wd).1 = set s wd /\
  ((Unlock (rc_URL rc) (rc_Timeout rc) p (rc_HMACKey rc) wd).2 = Ok tt <->
   (cosmos_Unlock keyName (sanitize p) (sv_app (get wd))).2 = Ok tt).
Proof.
  intros [Hconn Hkey] Hsz.
  destruct (unlock_served p (psc_HMACKey cfg) (get wd)) as [Happ Hres].
  rewrite Hkey. remember (LoggingMiddleware _ _ (get wd)) as run eqn:Erun. destruct run as [s r].
  simpl in Happ. exists s. split; [done|].
  assert (New store idle cfg (sent "POST" "/v1/unlock" (unlockBody p) (psc_HMACKey cfg)) (get wd) = (s, r)) as Hsrv.
  { unfold sent. rewrite (New_reaches _ _ _ _ _ {| rt_Method := "POST"; rt_Pattern := "/v1/unlock";
      rt_Handler := registerHandler (h_Unlock store) |}); [by rewrite Erun|done|done|done|right; left|done|done]. }
  clear Erun. unfold Unlock. fold (unlockBody p).
  assert (forall r', (forall resp, r' <> Ok resp) -> r = r' -> exists e,
    exchange "POST" (rc_URL rc +:+ "/v1/unlock") "application/json" (unlockBody p) (rc_Timeout rc) (psc_HMACKey cfg) wd
    = (set s wd, Err e)) as Hbroken by (intros r' Hr' ->; by eapply (exchange_broken _ _ _ _ Hconn)).
  destruct (cosmos_Unlock keyName (sanitize p) (sv_app (get wd))) as [a [[]|er|m|]]; cbn [snd] in *.
  - subst r. erewrite bind_run_Ok by (apply (exchange_Ok _ _ _ _ Hconn) with (2 := Hsrv); [done|vm_compute; congruence]).
    done.
  - subst r. destruct (exchange_run _ _ _ _ Hconn "POST" "/v1/unlock" "application/json" (unlockBody p)
      (rc_Timeout rc) (psc_HMACKey cfg) wd eq_refl) as [e Hx]. rewrite Hsrv in Hx.
    unfold mbind at 1 2, M_bind. rewrite Hx. destruct (ReadAll _) as [b| | |]; by split.
  - destruct (Hbroken r) as [e Hx]; [done..|]. unfold mbind, M_bind. rewrite Hx. by split.
  - destruct (Hbroken r) as [e Hx]; [done..|]. unfold mbind, M_bind. rewrite Hx. by split.
Qed.

(** Unlocking over HTTP is unlocking the key store with the passphrase as
    JSON carries it, bytes that are not UTF-8 replaced: the client's call
    succeeds exactly when that does, and leaves the store it leaves. *)
Theorem remote_unlock p wd :
  Paired cfg rc keyName get set -> Z.of_nat (length (unlockBody p)) <= psc_MaxContentLength cfg ->
  exists s, sv_app s = (cosmos_Unlock keyName (sanitize p) (sv_app (get wd))).1 /\
  (Unlock (rc_URL rc) (rc_Timeout rc) p (rc_HMACKey rc) wd).1 = set s wd /\
  ((Unlock (rc_URL rc) (rc_Timeout rc) p (rc_HMACKey rc) wd).2 = Ok tt <->
   (cosmos_Unlock keyName (sanitize p) (sv_app (get wd))).2 = Ok tt).
Proof. apply unlock_remotely. Qed.

(** ** The public key over HTTP *)

Definition publicKeyText (pk : PublicKey) : string :=
  print (publicResponse (toJson {| PublicKeyHex := EncodeToString (SerializeCompressed pk) |})).

Lemma publicKey_served key s l k :
  btcecPrivKey (sv_app s) = Some l -> heap (sv_app s) !! l = Some k ->
  let h := LoggingMiddleware (registerHandler (h_GetPublicKey store idle)) in
  let r := sent "GET" "/v1/public-key" [] key in
  sv_app (h r s).1 = sv_app s /\
  (h r s).2 = Ok {| rs_Status := 200; rs_ContentType := "application/json";
                    rs_Body := ascii_bytes (publicKeyText (PrivPubKey k)) |}.
Proof.
  intros Hl Hk h r. unfold h, LoggingMiddleware, registerHandler, h_GetPublicKey.
  unfold mbind, M_bind, attempt, slog, modify.
  rewrite onApp_frame by apply PubKey_frame. simpl sv_app. unfold app_PubKey.
  erewrite bind_run_Ok by (by apply PrivKey_unlocked). rewrite (withKey_idle l k _ Hk). done.
Qed.

Lemma pubkey_remotely wd l k :
  Paired cfg rc keyName get set -> 0 <= psc_MaxContentLength cfg ->
  (forall pk, ParsePubKey (SerializeCompressed pk) = Ok pk) ->
  Z.of_nat (length (ascii_bytes (publicKeyText (PrivPubKey k)))) <= maxResponseSize ->
  btcecPrivKey (sv_app (get wd)) = Some l -> heap (sv_app (get wd)) !! l = Some k ->
  exists s, sv_app s = sv_app (get wd) /\
    PubKey (NewRemoteSigner rc) wd = (set s wd, Ok (PrivPubKey k)).
Proof.
  intros [Hconn Hkey] Hsz Hparse Hlen Hl Hk.
  destruct (publicKey_served (psc_HMACKey cfg) (get wd) l k Hl Hk) as [Happ Hres].
  cbn [PubKey NewRemoteSigner]. unfold rs_PubKey, GetPublicKey. rewrite Hkey.
  remember (LoggingMiddleware _ _ (get wd)) as run eqn:Erun. destruct run as [s r]. simpl in Happ, Hres. subst r.
  exists s. split; [done|].
  erewrite bind_run_Ok.
  2: { apply (exchange_Ok _ _ _ _ Hconn "GET" "/v1/public-key"); [done| |].
       - unfold sent. rewrite (New_reaches _ _ _ _ _ {| rt_Method := "GET"; rt_Pattern := "/v1/public-key";
           rt_Handler := registerHandler (h_GetPublicKey store idle) |});
           [by rewrite Erun|done|done|done|right; right; right; left|done|done].
       - done. }
  cbn [rs_Status rs_Body]. rewrite bool_decide_true by done. rewrite text_roundtrip.
  unfold publicKeyText. rewrite Unmarshal_publicKey by apply hex_valid.
  unfold mbind, M_bind, lift. cbn [PublicKeyHex]. by rewrite hex_roundtrip, Hparse.
Qed.

(** The health check of the emulator: with the key unlocked, the remote
    signer's PubKey is the public key of the unlocked key. *)
Theorem remote_pubkey wd l k :
  Paired cfg rc keyName get set -> 0 <= psc_MaxContentLength cfg ->
  (forall pk, ParsePubKey (SerializeCompressed pk) = Ok pk) ->
  Z.of_nat (length (ascii_bytes (publicKeyText (PrivPubKey k)))) <= maxResponseSize ->
  btcecPrivKey (sv_app (get wd)) = Some l -> heap (sv_app (get wd)) !! l = Some k ->
  exists s, sv_app s = sv_app (get wd) /\
    PubKey (NewRemoteSigner rc) wd = (set s wd, Ok (PrivPubKey k)).
Proof. apply pubkey_remotely. Qed.

End RemoteUnlock.
