(* ===== verification/Tracing.v ===== *)
(** * The request logs of the signer

    observability/tracing/tracing.go, middlewares/tracing.go and
    middlewares/logging.go with the contexts they pass on: a context is the
    chain of the values attached to it, and the lines of the log carry the
    fields of the logger they were written with.  [SignerServer.New] is the
    same server without the fields; [traced_same] relates the two. *)
From Stdlib Require Import Strings.Byte Strings.Ascii Strings.String.
From S2P Require Import Prelude GoStd JsonText JsonCodec BtcLib Env SignerConfig SignerApp WireTypes HmacAuth SignerServer RemoteProps ServerProps.
Local Open Scope Z_scope.

(** ** tracing.go *)

Definition TraceContextKey : Type := string.
Definition TraceInfoKey : TraceContextKey := "requestTracingInfo".
Definition TraceIDKey : TraceContextKey := "requestTraceId".

Record SpanDetail := { sd_Name : string; sd_Duration : Z }.
Record TraceInfo := { SpanDetails : list SpanDetail }.

Inductive CtxValue := TraceID (id : string) | Tracing (info : TraceInfo).

(** The fields of a zerolog logger made with With() *)
Record Logger := { lg_path : string; lg_traceID : option CtxValue }.

(** context.WithValue and the logger's WithContext: the newest value first. *)
Inductive CtxEntry := WithValue (k : TraceContextKey) (v : CtxValue) | WithLogger (l : Logger).
Definition Ctx : Type := list CtxEntry.

Fixpoint ctx_Value (ctx : Ctx) (k : TraceContextKey) : option CtxValue :=
  match ctx with
  | [] => None
  | WithValue k' v :: ctx => if bool_decide (k' = k) then Some v else ctx_Value ctx k
  | WithLogger _ :: ctx => ctx_Value ctx k
  end.

(** zerolog.Ctx: without a logger in the context nothing is written. *)
Fixpoint ctx_Logger (ctx : Ctx) : option Logger :=
  match ctx with
  | [] => None
  | WithLogger l :: _ => Some l
  | WithValue _ _ :: ctx => ctx_Logger ctx
  end.

(** A line of the log with the fields that are set; without a logger it was
    written by the global one. *)
Record Line := {
  ln_entry : LogEntry;
  ln_logger : option Logger;
  ln_tracingInfo : option CtxValue;
  ln_requestDuration : option Z
}.

(** uuid.New().String() *)
Class Uuid (W : Type) : Type := { uuid_New : W -> W * string }.

Section Tracing.
Context `{BL : BtcLib} {W : Type} `{CK : !Clock W} `{UU : !Uuid W}.

Record Traced := { tr_server : ServerSys; tr_lines : list Line; tr_world : W }.

Definition onServer {A} (m : M ServerSys A) : M Traced A := fun s =>
  let '(sv, r) := m (tr_server s) in
  ({| tr_server := sv; tr_lines := tr_lines s; tr_world := tr_world s |}, r).
Definition onHost {A} (f : W -> W * A) : M Traced A := fun s =>
  let '(w, a) := f (tr_world s) in
  ({| tr_server := tr_server s; tr_lines := tr_lines s; tr_world := w |}, Ok a).

Definition emit (l : Line) : M Traced unit :=
  modify (fun s => {| tr_server := tr_server s; tr_lines := tr_lines s ++ [l]; tr_world := tr_world s |});;
  onServer (slog (log_level (ln_entry l)) (log_msg (ln_entry l))).

Definition plainLine (logger : option Logger) (e : LogEntry) : Line :=
  {| ln_entry := e; ln_logger := logger; ln_tracingInfo := None; ln_requestDuration := None |}.

(** log.Debug() and log.Error() of the package zerolog/log *)
Definition emitGlobal (l : Level) (msg : string) : M Traced unit := emit (plainLine None (Log l msg)).

(** A handler behind the middlewares: it gets the request with its context. *)
Definition CtxHandler : Type := Ctx -> Request -> M Traced Response.

(** A handler of the service under a context: what it logs, it logs with the
    logger of the context. *)
Definition serveWith (h : Handler ServerSys) : CtxHandler := fun ctx r s =>
  let '(sv, res) := h r (tr_server s) in
  let written := drop (length (sv_log (tr_server s))) (sv_log sv) in
  let lines := match ctx_Logger ctx with Some l => plainLine (Some l) <$> written | None => [] end in
  ({| tr_server := sv; tr_lines := tr_lines s ++ lines; tr_world := tr_world s |}, res).

Definition AttachTracingIntoContext (ctx : Ctx) : M Traced Ctx :=
  traceID ← onHost uuid_New;
  let ctx := WithValue TraceIDKey (TraceID traceID) :: ctx in
  mret (WithValue TraceInfoKey (Tracing {| SpanDetails := [] |}) :: ctx).

(** middlewares/tracing.go *)
Definition TracingMiddleware (next : CtxHandler) : CtxHandler := fun ctx r =>
  ctx ← AttachTracingIntoContext ctx;
  next ctx r.

(** middlewares/logging.go; times are in nanoseconds. *)
Definition traced_LoggingMiddleware (next : CtxHandler) : CtxHandler := fun ctx r =>
  startTime ← onHost Now;
  let logger :=
    {| lg_path := rq_Path r; lg_traceID := ctx_Value ctx TraceIDKey |} in
  emit (plainLine (Some logger) (Log DebugL "request received"));;
  let ctx := WithLogger logger :: ctx in
  resp ← next ctx r;
  now ← onHost Now;
  let requestDuration := Z.quot (now - startTime) 1000000 in
  emit {| ln_entry := Log InfoL "Request completed"; ln_logger := Some logger;
          ln_tracingInfo := ctx_Value ctx TraceInfoKey; ln_requestDuration := Some requestDuration |};;
  mret resp.

Section Server.
Context `{CH : ChiLib} {CL : ChiLaws}.
Variables (pkr : PrivKeyRetriever) (interfere : nat -> M SignerSys unit) (cfg : ParsedServerConfig).

(** server.go: New, with the context net/http gives to a request *)
Definition traced_New : CtxHandler :=
  TracingMiddleware (traced_LoggingMiddleware (fun ctx =>
    signerChain emitGlobal (psc_MaxContentLength cfg) (psc_HMACKey cfg)
      (serveWith (chi_ServeHTTP (SetupRoutes pkr interfere)) ctx))).

(** ** The service only adds to its log *)

Definition appends {A} (m : M ServerSys A) : Prop := forall s, sv_log s `prefix_of` sv_log (m s).1.

Lemma appends_ret {A} (a : A) : appends (mret a).
Proof. by intros s. Qed.

Lemma appends_lift {A} (r : res A) : appends (lift r).
Proof. by intros s. Qed.

Lemma appends_bind {A B} (m : M ServerSys A) (k : A -> M ServerSys B) :
  appends m -> (forall a, appends (k a)) -> appends (m ≫= k).
Proof.
  intros Hm Hk s. specialize (Hm s). unfold mbind, M_bind. destruct (m s) as [s1 [a|e|p|]]; simpl in *; [|done..].
  etrans; [exact Hm|apply Hk].
Qed.

Lemma appends_attempt {A} (m : M ServerSys A) : appends m -> appends (attempt m).
Proof. intros Hm s. specialize (Hm s). unfold attempt. by destruct (m s) as [s1 [a|e|p|]]. Qed.

Lemma appends_onApp {A} (m : M SignerSys A) : appends (onApp m).
Proof. intros s. unfold onApp. by destruct (m (sv_app s)). Qed.

Lemma appends_onMetrics f : appends (onMetrics f).
Proof. by intros s. Qed.

Lemma appends_slog l msg : appends (slog l msg).
Proof. intros s. by eexists. Qed.

Create HintDb appends.
#[local] Hint Resolve appends_ret appends_lift appends_bind appends_attempt appends_onApp appends_onMetrics
  appends_slog : appends.

Ltac appends := repeat (case_match || (apply appends_bind; [|intros]) || solve [auto with appends]).

Lemma appends_register h r : appends (h r) -> appends (registerHandler h r).
Proof. intros H. unfold registerHandler. appends. Qed.

Lemma appends_routes rt r : rt ∈ SetupRoutes pkr interfere -> appends (rt_Handler rt r).
Proof.
  unfold SetupRoutes. intros H.
  repeat (apply elem_of_cons in H as [->|H]; [apply appends_register|]); [..|by apply not_elem_of_nil in H].
  - unfold h_SignTransactions. appends.
  - unfold h_Unlock. appends.
  - unfold h_Lock. appends.
  - unfold h_GetPublicKey. appends.
Qed.

Lemma appends_chi r : appends (chi_ServeHTTP (SetupRoutes pkr interfere) r).
Proof.
  destruct (chi_cases pkr interfere r) as [(rt & Hin & ->)|H]; [by apply appends_routes|].
  intros s. by destruct (H s) as [resp ->].
Qed.

(** *** The middlewares around a handler *)

Abbreviation key := (psc_HMACKey cfg).
Abbreviation limit := (psc_MaxContentLength cfg).
Abbreviation routes := (chi_ServeHTTP (SetupRoutes pkr interfere)).

(** The logger of a request. *)
Definition own (r : Request) (s : Traced) : Logger :=
  {| lg_path := rq_Path r; lg_traceID := Some (TraceID (uuid_New (tr_world s)).2) |}.

(** What the chain under the logging middleware does: it serves as the chain
    without fields does, and adds lines for the entries it adds to the log. *)
Lemma chain_lines ctx l r s : ctx_Logger ctx = Some l ->
  exists sv res mid,
    signerChain emitGlobal limit key (serveWith routes ctx) r s =
      ({| tr_server := sv; tr_lines := tr_lines s ++ mid; tr_world := tr_world s |}, res) /\
    signerChain slog limit key routes r (tr_server s) = (sv, res) /\
    sv_log sv = sv_log (tr_server s) ++ (ln_entry <$> mid) /\
    (~ rejected limit key r -> Forall (fun x => ln_logger x = Some l) mid) /\
    (rejected limit key r -> res = Ok (refused key (limited limit r)).2 /\
       mid = [plainLine None (Log (refused key (limited limit r)).1.1 (refused key (limited limit r)).1.2)]).
Proof.
  intros Hctx. destruct (signerChain_cases limit key r) as [(Hn & resp & H)|[(Hn & r' & H)|(Hr & H)]]; rewrite !H.
  - exists (tr_server s), (Ok resp), []. rewrite !app_nil_r. split; [by destruct s|]. by split_and!.
  - unfold serveWith. destruct (appends_chi r' (tr_server s)) as [new Hnew].
    destruct (routes r' (tr_server s)) as [sv res]. simpl in Hnew. rewrite Hctx, Hnew, drop_app_length.
    exists sv, res, (plainLine (Some l) <$> new). split; [done|]. split; [done|].
    rewrite <- list_fmap_compose, list_fmap_id. split; [done|]. split; [|done].
    intros _. rewrite Forall_fmap. by apply Forall_true.
  - destruct (refused key (limited limit r)) as [[lv msg] resp]. cbn. by eexists _, _, [_].
Qed.

(** With contexts, trace identifiers and fields the server answers and changes
    its state as [New] does. *)
Lemma traced_same ctx r s :
  (tr_server (traced_New ctx r s).1, (traced_New ctx r s).2) = New pkr interfere cfg r (tr_server s).
Proof.
  unfold traced_New, TracingMiddleware, AttachTracingIntoContext, traced_LoggingMiddleware, New, LoggingMiddleware.
  unfold mbind, M_bind, onHost, emit, onServer, slog, modify. simpl.
  destruct (uuid_New (tr_world s)) as [w id]. simpl. destruct (Now w) as [w1 t0]. simpl.
  match goal with |- context [signerChain emitGlobal _ _ (serveWith _ ?c) r ?s0] =>
    destruct (chain_lines c _ r s0 eq_refl) as (sv & res & mid & -> & Hs & _) end.
  simpl in Hs. unfold slog, modify in Hs. simpl in Hs. rewrite Hs.
  destruct res as [resp| | |]; simpl; [|done..]. by destruct (Now w1) as [w2 t1].
Qed.

(** C29: the lines of the log a request leaves.  Every line written while it is
    served, by the logging middleware and by the handlers, carries its path and
    the trace identifier drawn for it, with one exception: when the HMAC
    middleware rejects the request, the line in the middle, which says why, is
    written by the global logger and carries neither.  The lines are all that
    the log gains, and when the request is answered the last one is that of its
    completion, with the trace and the duration. *)
Theorem request_log_lines ctx r s :
  let '(s', res) := traced_New ctx r s in
  exists lines, tr_lines s' = tr_lines s ++ lines /\
    sv_log (tr_server s') = sv_log (tr_server s) ++ (ln_entry <$> lines) /\
    (~ rejected limit key r -> Forall (fun l => ln_logger l = Some (own r s)) lines) /\
    (rejected limit key r -> exists received why completed, lines = [received; why; completed] /\
       ln_logger received = Some (own r s) /\ ln_logger completed = Some (own r s) /\ ln_logger why = None /\
       ln_entry why = Log (refused key (limited limit r)).1.1 (refused key (limited limit r)).1.2) /\
    (forall resp, res = Ok resp -> exists l, last lines = Some l /\ ln_entry l = Log InfoL "Request completed" /\
       ln_tracingInfo l = Some (Tracing {| SpanDetails := [] |}) /\ is_Some (ln_requestDuration l)).
Proof.
  unfold traced_New, TracingMiddleware, AttachTracingIntoContext, traced_LoggingMiddleware.
  unfold mbind, M_bind, onHost, emit, onServer, slog, modify, own. simpl.
  destruct (uuid_New (tr_world s)) as [w id]. simpl. destruct (Now w) as [w1 t0]. simpl.
  match goal with |- context [signerChain emitGlobal _ _ (serveWith _ ?c) r ?s0] =>
    destruct (chain_lines c _ r s0 eq_refl) as (sv & res & mid & -> & _ & Hlog & Hown & Hrej) end.
  simpl in Hlog. destruct res as [resp|e|m|]; simpl; [destruct (Now w1) as [w2 t1]; simpl|..];
    rewrite Hlog, <- !app_assoc; (eexists; split; [reflexivity|]); rewrite ?fmap_app; (split; [done|]);
    (split; [intros Hn; rewrite ?Forall_app, ?Forall_singleton; by auto|]); (split; [|try done]).
  - intros Hr. destruct (Hrej Hr) as [_ ->]. by eexists _, _, _.
  - intros ? [= <-]. eexists. split; [by rewrite app_assoc, last_snoc|]. by eauto.
  - intros Hr. by destruct (Hrej Hr).
  - intros Hr. by destruct (Hrej Hr).
  - intros Hr. by destruct (Hrej Hr).
Qed.

End Server.
End Tracing.
