(* ===== verification/SignerConcurrency.v ===== *)
(** * The signer service under concurrent requests

    net/http runs every request in a goroutine of its own, over one key store
    and one set of metrics.  A handler is a program of atomic actions ([Prog]):
    a method of the key store under its mutex, one use of the key by a library
    function, one update of a metric, one line of the log.  [cstep] interleaves
    the programs of any number of requests.  The programs are the handlers of
    [SignerServer]: run without interruption they do the same
    ([uninterrupted_is_sequential]). *)
From Stdlib Require Import Strings.Byte Strings.String.
From S2P Require Import Prelude GoStd JsonText JsonCodec BtcLib Config Env SignerConfig SignerApp SignerProps WireTypes HmacAuth SignerServer SignerClient RemoteProps ServerProps.
Local Open Scope Z_scope.

(** ** Programs of atomic actions *)

Section Programs.
Context {S : Type}.

Inductive Prog (A : Type) : Type :=
| Done (r : res A)
| Act (B : Type) (m : M S B) (k : res B -> Prog A).

#[global] Arguments Done {A} r.
#[global] Arguments Act {A B} m k.

#[export] Instance Prog_ret : MRet Prog := fun A a => Done (Ok a).

#[export] Instance Prog_bind : MBind Prog := fun A B f =>
  fix go (p : Prog A) : Prog B :=
    match p with
    | Done (Ok a) => f a
    | Done (Err e) => Done (Err e)
    | Done (Panic m) => Done (Panic m)
    | Done OutOfFuel => Done OutOfFuel
    | Act m k => Act m (fun r => go (k r))
    end.

Fixpoint c_attempt {A} (p : Prog A) : Prog (A + error) :=
  match p with
  | Done (Ok a) => Done (Ok (inl a))
  | Done (Err e) => Done (Ok (inr e))
  | Done (Panic m) => Done (Panic m)
  | Done OutOfFuel => Done OutOfFuel
  | Act m k => Act m (fun r => c_attempt (k r))
  end.

Definition atom {A} (m : M S A) : Prog A := Act m Done.

(** The program run without interruption. *)
Fixpoint run {A} (p : Prog A) : M S A := fun s =>
  match p with
  | Done r => (s, r)
  | Act m k => let '(s', r) := m s in run (k r) s'
  end.

(** Computations that do the same from every state. *)
#[export] Instance M_equiv {A} : Equiv (M S A) := fun m m' => forall s, m s = m' s.

#[export] Instance M_equivalence {A} : Equivalence (≡@{M S A}).
Proof.
  split; [by intros m s|intros m m' H s; by rewrite H|intros m1 m2 m3 H1 H2 s; by rewrite H1].
Qed.

#[export] Instance bind_proper {A B} :
  Proper (pointwise_relation A (≡) ==> (≡) ==> (≡)) (@mbind (M S) _ A B).
Proof. intros k k' Hk m m' Hm s. unfold mbind, M_bind. rewrite Hm. destruct (m' s) as [s1 []]; try done. apply Hk. Qed.

#[export] Instance attempt_proper {A} : Proper ((≡) ==> (≡)) (@attempt S A).
Proof. intros m m' H s. unfold attempt. by rewrite H. Qed.

Lemma run_bind {A B} (p : Prog A) (k : A -> Prog B) : run (p ≫= k) ≡ (run p ≫= fun a => run (k a)).
Proof.
  induction p as [[a|e|m|]|B' m c IH]; intros s; try done. cbn. unfold mbind, M_bind. simpl.
  destruct (m s) as [s1 r]. apply (IH r s1).
Qed.

Lemma run_attempt {A} (p : Prog A) : run (c_attempt p) ≡ attempt (run p).
Proof.
  induction p as [[a|e|m|]|B' m c IH]; intros s; try done. cbn. unfold attempt. simpl.
  destruct (m s) as [s1 r]. apply (IH r s1).
Qed.

Lemma run_atom {A} (m : M S A) : run (atom m) ≡ m.
Proof. intros s. simpl. by destruct (m s). Qed.

Lemma run_ret {A} (a : A) : run (mret a) ≡ mret a.
Proof. done. Qed.

(** *** What a program does among others *)

(** Between its actions the others only move the state along [le] and keep
    [I]; so does every action, and the program ends with a result in [Q]. *)
Section Sound.
Variables (I : S -> Prop) (le : S -> S -> Prop).
Context `{!PreOrder le}.

Fixpoint sound {A} (Q : S -> res A -> Prop) (s : S) (p : Prog A) : Prop :=
  match p with
  | Done r => Q s r
  | Act m k => forall s1, le s s1 -> I s1 ->
      le s1 (m s1).1 /\ I (m s1).1 /\ sound Q (m s1).1 (k (m s1).2)
  end.

Definition stable {A} (Q : S -> res A -> Prop) : Prop := forall s s' r, le s s' -> Q s r -> Q s' r.

Lemma sound_le {A} (Q : S -> res A -> Prop) s s' p : stable Q -> le s s' -> sound Q s p -> sound Q s' p.
Proof.
  intros HQ Hle. destruct p as [r|B m k]; simpl; [by apply HQ|]. intros H s1 H1. apply H. by trans s'.
Qed.

Lemma sound_bind {A B} (Q : S -> res A -> Prop) (R : S -> res B -> Prop) (p : Prog A) (k : A -> Prog B) s :
  sound Q s p -> (forall s' a, le s s' -> Q s' (Ok a) -> sound R s' (k a)) ->
  (forall s' r, (forall b, r <> Ok b) -> R s' r) -> sound R s (p ≫= k).
Proof.
  revert s. induction p as [[a|e|m|]|B' m c IH]; intros s Hp Hk HR.
  - by apply Hk.
  - by apply HR.
  - by apply HR.
  - by apply HR.
  - intros s1 H1 HI. destruct (Hp s1 H1 HI) as (H2 & H3 & H4). split_and!; [done..|].
    apply (IH _ _ H4); [|done]. intros s' a Hle. apply Hk. trans s1; [done|]. by trans (m s1).1.
Qed.

Lemma sound_mono {A} (Q R : S -> res A -> Prop) p : forall s,
  sound Q s p -> (forall s' r, le s s' -> Q s' r -> R s' r) -> sound R s p.
Proof.
  induction p as [r|B m k IH]; intros s Hp HR; [by apply HR|]. intros s1 H1 HI.
  destruct (Hp s1 H1 HI) as (H2 & H3 & H4). split_and!; [done..|]. apply (IH _ _ H4).
  intros s' r Hle. apply HR. trans s1; [done|]. by trans (m s1).1.
Qed.

Lemma sound_attempt {A} (Q : S -> res A -> Prop) p : forall s,
  sound Q s p -> sound (fun s' r => match r with
    | Ok (inl a) => Q s' (Ok a) | Ok (inr e) => Q s' (Err e) | Err e => False
    | Panic m => Q s' (Panic m) | OutOfFuel => Q s' OutOfFuel end) s (c_attempt p).
Proof.
  induction p as [[a|e|m|]|B m k IH]; intros s Hp; try done. intros s1 H1 HI.
  destruct (Hp s1 H1 HI) as (H2 & H3 & H4). split_and!; [done..|]. by apply IH.
Qed.

End Sound.

End Programs.

Arguments Prog S A : clear implicits.

(** ** The handlers as programs *)

Section Service.
Context `{BL : BtcLib} `{KR : Keyring}.
Variable keyName : string.

Abbreviation store := (KeyringRetriever keyName).
Abbreviation idle := (fun _ : nat => mret tt : M SignerSys unit).
Abbreviation Prog := (Prog ServerSys).

(** One use of the key by the library. *)
Definition c_withKey {A} (l : loc) (f : PrivateKey -> res A) : Prog A :=
  atom (onApp (k ← deref l; lift (f k))).

Fixpoint c_slashLoop (l : loc) (req : ParsedSigningRequest) (fpEncKeys : list EncryptionKey)
    (slashSigs slashUnbondingSigs : list bytes) : Prog (list bytes * list bytes) :=
  match fpEncKeys with
  | [] => mret (slashSigs, slashUnbondingSigs)
  | fpEncKey :: fpEncKeys =>
      s1 ← c_withKey l (fun k => slashSig k req fpEncKey);
      s2 ← c_withKey l (fun k => slashUnbondingSig k req fpEncKey);
      b1 ← Done (MustMarshal s1);
      b2 ← Done (MustMarshal s2);
      c_slashLoop l req fpEncKeys (slashSigs ++ [b1]) (slashUnbondingSigs ++ [b2])
  end.

Definition c_SignTransactions (req : ParsedSigningRequest) : Prog ParsedSigningResponse :=
  privKey ← atom (onApp (PrivKey store));
  '(slashSigs, slashUnbondingSigs) ← c_slashLoop privKey req (pr_FpEncKeys req) [] [];
  unbondingSig ← c_withKey privKey (fun k => unbondSig k req);
  stakeExpSig ← match pr_StakeExp req with
                | Some e => sig ← c_withKey privKey (fun k => stkExpSig k req e); mret (Some sig)
                | None => mret None
                end;
  mret {| pp_SlashAdaptorSigs := slashSigs;
          pp_UnbondingSig := unbondingSig;
          pp_SlashUnbondingAdaptorSigs := slashUnbondingSigs;
          pp_StakeExpSig := stakeExpSig |}.

Definition ch_SignTransactions (request : Request) : Prog HandlerResult :=
  match decodePayload decRequest zeroValue request with
  | None => mret (ko (NewErrorWithMsg StatusBadRequest BadRequest "invalid request payload"))
  | Some payload =>
      parsed ← c_attempt (Done (ParseSigningRequest payload));
      match parsed with
      | inr err => mret (ko (NewErrorWithMsg StatusBadRequest BadRequest err))
      | inl parsedRequest =>
          atom (onMetrics IncReceivedSigningRequests);;
          sig ← c_attempt (c_SignTransactions parsedRequest);
          match sig with
          | inr err =>
              atom (onMetrics IncFailedSigningRequests);;
              mret (ko (NewErrorWithMsg StatusInternalServerError InternalServiceError err))
          | inl sig =>
              let resp := ToResponse sig in
              atom (onMetrics IncSuccessfulSigningRequests);;
              mret (ok (NewResult (responseJson resp)))
          end
      end
  end.

Definition ch_GetPublicKey (request : Request) : Prog HandlerResult :=
  pubKey ← c_attempt (l ← atom (onApp (PrivKey store)); c_withKey l (fun k => Ok (PrivPubKey k)));
  match pubKey with
  | inr err => mret (ko (NewErrorWithMsg StatusInternalServerError InternalServiceError err))
  | inl pubKey =>
      let resp := {| PublicKeyHex := EncodeToString (SerializeCompressed pubKey) |} in
      mret (ok (NewResult (toJson resp)))
  end.

Definition ch_Unlock (request : Request) : Prog HandlerResult :=
  match decodePayload fromJson zeroValue request with
  | None => mret (ko (NewErrorWithMsg StatusBadRequest BadRequest "invalid request payload"))
  | Some payload =>
      r ← c_attempt (atom (onApp (app_Unlock store (Passphrase payload))));
      match r with
      | inr err =>
          atom (onMetrics IncFailedUnlockRequests);;
          mret (ko (NewErrorWithMsg StatusBadRequest BadRequest err))
      | inl _ =>
          atom (onMetrics SetSignerUnlocked);;
          mret (ok (NewResult UnlockResponse))
      end
  end.

Definition ch_Lock (request : Request) : Prog HandlerResult :=
  r ← c_attempt (atom (onApp (app_Lock store)));
  match r with
  | inr err => mret (ko (NewErrorWithMsg StatusBadRequest BadRequest err))
  | inl _ =>
      atom (onMetrics SetSignerLocked);;
      mret (ok (NewResult LockResponse))
  end.

(** registerHandler: the answer of the handler is written, with its log lines. *)
Definition c_registerHandler (h : Prog HandlerResult) : Prog Response :=
  res ← h;
  match res with
  | (_, Some err) =>
      statusCode ← (if knownStatus (ae_StatusCode err) then mret (ae_StatusCode err)
                    else atom (slog ErrorL "invalid status code");; mret StatusInternalServerError);
      let errorResponse := {| he_ErrorCode := ae_ErrorCode err; he_Message := ae_Err err |} in
      errorResponse ←
        (if bool_decide (StatusInternalServerError <= statusCode) then
           atom (slog ErrorL "request failed with 5xx error");;
           mret {| he_ErrorCode := he_ErrorCode errorResponse; he_Message := "Internal service error" |}
         else mret errorResponse);
      mret (writeResponse statusCode (errorJson errorResponse))
  | (Some result, None) =>
      if knownStatus (Status result) then mret (writeResponse (Status result) (Data result))
      else
        atom (slog ErrorL "invalid success response, error returned");;
        mret (writeResponse StatusInternalServerError (errorJson newInternalServiceError))
  | (None, None) =>
      atom (slog ErrorL "invalid success response, error returned");;
      mret (writeResponse StatusInternalServerError (errorJson newInternalServiceError))
  end.

(** A request at one of the routes, the middlewares passed. *)
Inductive Endpoint := SignE | UnlockE | LockE | PublicKeyE.

Definition c_handler (e : Endpoint) : Request -> Prog HandlerResult :=
  match e with
  | SignE => ch_SignTransactions
  | UnlockE => ch_Unlock
  | LockE => ch_Lock
  | PublicKeyE => ch_GetPublicKey
  end.

Definition c_serve (e : Endpoint) (r : Request) : Prog Response :=
  atom (slog DebugL "request received");;
  resp ← c_registerHandler (c_handler e r);
  atom (slog InfoL "Request completed");;
  mret resp.

Definition endpointHandler (e : Endpoint) : Request -> M ServerSys HandlerResult :=
  match e with
  | SignE => h_SignTransactions store idle
  | UnlockE => h_Unlock store
  | LockE => h_Lock store
  | PublicKeyE => h_GetPublicKey store idle
  end.

(** *** They are the handlers *)

#[local] Instance onApp_proper {A} : Proper ((≡) ==> (≡)) (@onApp BL A).
Proof. intros m m' H s. unfold onApp. by rewrite H. Qed.

Lemma onApp_bind {A B} (m : M SignerSys A) (k : A -> M SignerSys B) :
  onApp (m ≫= k) ≡ (onApp m ≫= fun a => onApp (k a)).
Proof. intros s. unfold onApp, mbind, M_bind. by destruct (m (sv_app s)) as [a [x|e|p|]]. Qed.

(** A use of the key only reads the heap. *)
Definition useKey {A} (l : loc) (f : PrivateKey -> res A) (s : SignerSys) : res A :=
  match heap s !! l with
  | Some k => f k
  | None => Panic "invalid memory address or nil pointer dereference"
  end.

Lemma withKey_run {A} t l (f : PrivateKey -> res A) s : withKey idle t l f s = (s, useKey l f s).
Proof. unfold withKey, useKey, deref, lift, mbind, M_bind. simpl. by destruct (heap s !! l). Qed.

Lemma c_withKey_act {A} l (f : PrivateKey -> res A) s :
  onApp (k ← deref l; lift (f k)) s = (s, useKey l f (sv_app s)).
Proof.
  unfold onApp, useKey, deref, lift, mbind, M_bind. destruct s as [a m g]. simpl. by destruct (heap a !! l).
Qed.

Lemma run_withKey {A} t l (f : PrivateKey -> res A) : run (c_withKey l f) ≡ onApp (withKey idle t l f).
Proof.
  intros s. unfold c_withKey. rewrite run_atom, c_withKey_act. unfold onApp. rewrite withKey_run. by destruct s.
Qed.

(** A run that starts with a use of the key. *)
Definition after {A B} (r : res A) (s : SignerSys) (k : A -> SignerSys * res B) : SignerSys * res B :=
  match r with
  | Ok a => k a
  | Err e => (s, Err e)
  | Panic m => (s, Panic m)
  | OutOfFuel => (s, OutOfFuel)
  end.

Lemma run_withKey_bind {A B} l (f : PrivateKey -> res A) (k : A -> Prog B) s m g :
  run (c_withKey l f ≫= k) {| sv_app := s; sv_metrics := m; sv_log := g |} =
  match useKey l f s with
  | Ok a => run (k a) {| sv_app := s; sv_metrics := m; sv_log := g |}
  | Err e => ({| sv_app := s; sv_metrics := m; sv_log := g |}, Err e)
  | Panic p => ({| sv_app := s; sv_metrics := m; sv_log := g |}, Panic p)
  | OutOfFuel => ({| sv_app := s; sv_metrics := m; sv_log := g |}, OutOfFuel)
  end.
Proof.
  rewrite run_bind. unfold mbind, M_bind. unfold c_withKey. rewrite run_atom, c_withKey_act. cbn [sv_app].
  by destruct (useKey l f s).
Qed.

Lemma slashLoop_cons t l req e fps a b s :
  slashLoop idle t l req (e :: fps) a b s =
  after (useKey l (fun k => slashSig k req e) s) s (fun s1 =>
  after (useKey l (fun k => slashUnbondingSig k req e) s) s (fun s2 =>
  after (MustMarshal s1) s (fun b1 => after (MustMarshal s2) s (fun b2 =>
    slashLoop idle (Datatypes.S (Datatypes.S t)) l req fps (a ++ [b1]) (b ++ [b2]) s)))).
Proof.
  cbn [slashLoop]. unfold slashUnbondSig, mbind, M_bind. rewrite !withKey_run. unfold after.
  destruct (useKey l (fun k => slashSig k req e) s) as [s1| | |]; try done.
  destruct (useKey l (fun k => slashUnbondingSig k req e) s) as [s2| | |]; try done.
Qed.

Lemma run_slashLoop l req fps : forall t a b,
  run (c_slashLoop l req fps a b) ≡ onApp (slashLoop idle t l req fps a b).
Proof.
  induction fps as [|e fps IH]; intros t a b [s m g]; [done|]. cbn [c_slashLoop].
  unfold onApp. cbn [sv_app sv_metrics sv_log]. rewrite slashLoop_cons, run_withKey_bind. unfold after.
  destruct (useKey l (fun k => slashSig k req e) s) as [s1| | |]; try done. rewrite run_withKey_bind.
  destruct (useKey l (fun k => slashUnbondingSig k req e) s) as [s2| | |]; try done.
  destruct (MustMarshal s1) as [b1| | |]; try done. destruct (MustMarshal s2) as [b2| | |]; try done.
  apply (IH (Datatypes.S (Datatypes.S t))).
Qed.

Lemma run_sign req : run (c_SignTransactions req) ≡ onApp (app_SignTransactions store idle req).
Proof.
  intros s. unfold c_SignTransactions, app_SignTransactions. rewrite run_bind, onApp_bind.
  apply bind_proper; [|by apply run_atom]. intros l s1. rewrite run_bind, onApp_bind.
  apply bind_proper; [|by apply run_slashLoop]. intros [a b] s2. rewrite run_bind, onApp_bind.
  apply bind_proper; [|by apply run_withKey]. intros u s3. rewrite run_bind, onApp_bind.
  apply bind_proper; [intros x s4; by destruct s4|]. destruct (pr_StakeExp req) as [e|]; [|by intros []].
  intros s4. rewrite run_bind, onApp_bind. apply bind_proper; [intros x s5; by destruct s5|by apply run_withKey].
Qed.

Lemma run_handler e r : run (c_handler e r) ≡ endpointHandler e r.
Proof.
  destruct e; cbn [c_handler endpointHandler].
  - unfold ch_SignTransactions, h_SignTransactions. destruct (decodePayload _ _ r) as [w|]; [|done].
    intros s. rewrite run_bind. apply bind_proper; [|intros s0; simpl; by destruct (ParseSigningRequest w)].
    intros [p|err] s1; [|done]. rewrite run_bind. apply bind_proper; [|intros s0; apply run_atom].
    intros [] s2. rewrite run_bind. apply bind_proper.
    2:{ rewrite run_attempt. by rewrite run_sign. }
    intros [sig|err] s3; rewrite run_bind; (apply bind_proper; [done|intros s0; apply run_atom]).
  - unfold ch_Unlock, h_Unlock. destruct (decodePayload _ _ r) as [w|]; [|done].
    intros s. rewrite run_bind. apply bind_proper; [|by rewrite run_attempt, run_atom].
    intros [x|err] s3; rewrite run_bind; (apply bind_proper; [done|intros s0; apply run_atom]).
  - intros s. unfold ch_Lock, h_Lock. rewrite run_bind. apply bind_proper; [|by rewrite run_attempt, run_atom].
    intros [x|err] s3; [|done]. rewrite run_bind; (apply bind_proper; [done|intros s0; apply run_atom]).
  - intros s. unfold ch_GetPublicKey, h_GetPublicKey. rewrite run_bind. apply bind_proper; [by intros [x|err]|].
    rewrite run_attempt. apply attempt_proper. intros s1. unfold app_PubKey. rewrite run_bind, onApp_bind.
    apply bind_proper; [intros l; apply run_withKey|by apply run_atom].
Qed.

Lemma run_registerHandler (p : Prog HandlerResult) h r :
  run p ≡ h r -> run (c_registerHandler p) ≡ registerHandler h r.
Proof.
  intros Hp. intros s. unfold c_registerHandler, registerHandler. rewrite run_bind. apply bind_proper; [|done].
  intros [[result|] [err|]] s1.
  2: by case_match.
  3: done.
  all: rewrite run_bind; apply bind_proper; [|by case_match].
  all: intros code s2; rewrite run_bind; apply bind_proper; [done|by case_match].
Qed.

Lemma run_serve e r : run (c_serve e r) ≡ LoggingMiddleware (registerHandler (endpointHandler e)) r.
Proof.
  intros s. unfold c_serve, LoggingMiddleware. rewrite run_bind.
  apply bind_proper; [|intros s0; apply run_atom]. intros [] s1. rewrite run_bind.
  apply bind_proper; [done|]. apply run_registerHandler, run_handler.
Qed.

(** ** Interleaving *)

Record Thread := { th_endpoint : Endpoint; th_request : Request; th_prog : Prog Response }.
Record Pool := { pl_sys : ServerSys; pl_threads : list Thread }.

Definition emptyPool : Pool := {| pl_sys := newServer; pl_threads := [] |}.

Definition spawn (e : Endpoint) (r : Request) : Thread :=
  {| th_endpoint := e; th_request := r; th_prog := c_serve e r |}.

Definition continue (t : Thread) (p : Prog Response) : Thread :=
  {| th_endpoint := th_endpoint t; th_request := th_request t; th_prog := p |}.

Inductive cstep : Pool -> Pool -> Prop :=
(* a request arrives *)
| cs_arrive c e r :
    cstep c {| pl_sys := pl_sys c; pl_threads := pl_threads c ++ [spawn e r] |}
(* one of the goroutines takes its next action *)
| cs_act c i t B (m : M ServerSys B) k :
    pl_threads c !! i = Some t -> th_prog t = Act m k ->
    cstep c {| pl_sys := (m (pl_sys c)).1;
               pl_threads := <[i := continue t (k (m (pl_sys c)).2)]> (pl_threads c) |}.

(** A thread left alone finishes, with the run of its program. *)
Lemma thread_runs p : forall c i t,
  pl_threads c !! i = Some t -> th_prog t = p ->
  rtc cstep c {| pl_sys := (run p (pl_sys c)).1;
                 pl_threads := <[i := continue t (Done (run p (pl_sys c)).2)]> (pl_threads c) |}.
Proof.
  induction p as [r|B m k IH]; intros c i t Hi Hp.
  - assert (continue t (Done (run (Done r) (pl_sys c)).2) = t) as -> by (destruct t; simpl in *; by subst).
    rewrite list_insert_id by done. by destruct c.
  - eapply rtc_l; [by apply (cs_act c i t B m k)|].
    set (c1 := {| pl_sys := (m (pl_sys c)).1; pl_threads := _ |}).
    pose proof (IH (m (pl_sys c)).2 c1 i (continue t (k (m (pl_sys c)).2))) as H.
    cbn [run]. destruct (m (pl_sys c)) as [s1 x]. cbn [fst snd] in *. simpl in H.
    rewrite list_insert_insert_eq in H. apply H; [|done].
    apply list_lookup_insert_eq. by eapply lookup_lt_Some.
Qed.

(** *** The counters *)

(** The program takes its request's share of the outstanding requests from [a]
    to [b], or to [e] if it ends with an error; a panic leaves it anywhere. *)
Fixpoint shifts {A} (a b e : Z) (p : Prog A) : Prop :=
  0 <= a <= 1 /\
  match p with
  | Done (Ok _) => a = b
  | Done (Err _) => a = e
  | Done _ => True
  | Act m k => forall s, shifts (a + (outstanding (m s).1 - outstanding s)) b e (k (m s).2)
  end.

Lemma shifts_bound {A} a b e (p : Prog A) : shifts a b e p -> 0 <= a <= 1.
Proof. by destruct p; intros [H _]. Qed.

Lemma shifts_bind {A B} b e b' (p : Prog A) (k : A -> Prog B) : forall a,
  shifts a b e p -> (forall x, shifts b b' e (k x)) -> shifts a b' e (p ≫= k).
Proof.
  induction p as [[x|er|m|]|B' m c IH]; intros a [Ha Hp] Hk; try (by split).
  - subst. apply Hk.
  - split; [done|]. intros s. by apply IH.
Qed.

Lemma shifts_attempt {A} b e' (p : Prog A) : forall a, shifts a b b p -> shifts a b e' (c_attempt p).
Proof.
  induction p as [[x|er|m|]|B' m c IH]; intros a [Ha Hp]; try (by split). split; [done|]. intros s. by apply IH.
Qed.

Lemma shifts_ret {A} a e (x : A) : 0 <= a <= 1 -> shifts a a e (mret x).
Proof. by split. Qed.

(** Actions that do not touch the counters. *)
Lemma shifts_quiet {A} a (m : M ServerSys A) :
  0 <= a <= 1 -> (forall s, outstanding (m s).1 = outstanding s) -> shifts a a a (atom m).
Proof.
  intros Ha Hm. split; [done|]. intros s. rewrite Hm.
  replace (a + (outstanding s - outstanding s)) with a by lia. split; [done|]. by destruct (m s).2.
Qed.

Lemma shifts_app {A} a (m : M SignerSys A) : 0 <= a <= 1 -> shifts a a a (atom (onApp m)).
Proof. intros Ha. apply shifts_quiet; [done|]. intros s. unfold onApp. by destruct (m (sv_app s)). Qed.

Lemma shifts_slog a e l msg : 0 <= a <= 1 -> shifts a a e (atom (slog l msg)).
Proof.
  intros Ha. split; [done|]. intros s. unfold outstanding. simpl.
  match goal with |- context [a + ?d] => replace (a + d) with a by lia end. by split.
Qed.

Lemma shifts_metrics a d e f :
  0 <= a <= 1 -> 0 <= a + d <= 1 ->
  (forall m, ReceivedSigningRequests (f m) - SuccessfulSigningRequests (f m) - FailedSigningRequests (f m)
    = ReceivedSigningRequests m - SuccessfulSigningRequests m - FailedSigningRequests m + d) ->
  shifts a (a + d) e (atom (onMetrics f)).
Proof.
  intros Ha Hd Hf. split; [done|]. intros s. unfold outstanding. simpl. rewrite Hf.
  match goal with |- context [a + ?x] => replace (a + x) with (a + d) by lia end. by split.
Qed.

Lemma shifts_sign p : shifts 1 1 1 (c_SignTransactions p).
Proof.
  assert (forall l fps a b, shifts 1 1 1 (c_slashLoop l p fps a b)) as Hloop.
  { intros l fps. induction fps as [|e fps IH]; intros a b; cbn [c_slashLoop]; [by apply shifts_ret|].
    eapply shifts_bind; [by apply shifts_app|]. intros s1. eapply shifts_bind; [by apply shifts_app|]. intros s2.
    eapply shifts_bind; [split; [done|by destruct (MustMarshal s1)]|]. intros b1.
    eapply shifts_bind; [split; [done|by destruct (MustMarshal s2)]|]. intros b2. apply IH. }
  eapply shifts_bind; [by apply shifts_app|]. intros l. eapply shifts_bind; [apply Hloop|]. intros [a b].
  eapply shifts_bind; [by apply shifts_app|]. intros u. eapply (shifts_bind 1); [|intros; by apply shifts_ret].
  destruct (pr_StakeExp p); [|by apply shifts_ret].
  eapply shifts_bind; [by apply shifts_app|]. intros; by apply shifts_ret.
Qed.

Lemma shifts_handler e r : shifts 0 0 0 (c_handler e r).
Proof.
  assert (forall f x, (forall m, ReceivedSigningRequests (f m) = ReceivedSigningRequests m /\
    SuccessfulSigningRequests (f m) = SuccessfulSigningRequests m /\
    FailedSigningRequests (f m) = FailedSigningRequests m) ->
    shifts 0 0 0 (atom (onMetrics f);; mret x : Prog HandlerResult)) as Hq.
  { intros f x Hf. eapply shifts_bind; [|intros; by apply shifts_ret]. apply (shifts_metrics 0 0); [done..|].
    intros m. destruct (Hf m) as (-> & -> & ->). lia. }
  destruct e; cbn [c_handler].
  - unfold ch_SignTransactions. destruct (decodePayload _ _ r) as [w|]; [|by apply shifts_ret].
    eapply (shifts_bind 0); [destruct (ParseSigningRequest w); by split|]. intros [p|err]; [|by apply shifts_ret].
    eapply shifts_bind; [apply (shifts_metrics 0 1); [done..|]; intros m; simpl; lia|]. intros _. change (0 + 1) with 1.
    eapply (shifts_bind 1); [apply shifts_attempt, shifts_sign|].
    intros [sig|err]; (eapply shifts_bind;
      [apply (shifts_metrics 1 (-1)); [done..|]; intros m; simpl; lia|intros; by apply shifts_ret]).
  - unfold ch_Unlock. destruct (decodePayload _ _ r) as [w|]; [|by apply shifts_ret].
    eapply (shifts_bind 0); [by apply shifts_attempt, shifts_app|]. intros [x|err]; by apply Hq.
  - unfold ch_Lock. eapply (shifts_bind 0); [by apply shifts_attempt, shifts_app|].
    intros [x|err]; [by apply Hq|by apply shifts_ret].
  - unfold ch_GetPublicKey. eapply (shifts_bind 0); [|intros [x|err]; by apply shifts_ret].
    apply shifts_attempt. eapply shifts_bind; [by apply shifts_app|]. intros l. by apply shifts_app.
Qed.

Lemma shifts_serve e r : shifts 0 0 0 (c_serve e r).
Proof.
  assert (forall l msg (x : Response), shifts 0 0 0 (atom (slog l msg);; mret x : Prog Response)) as Hl.
  { intros l msg x. eapply shifts_bind; [by apply shifts_slog|]. intros; by apply shifts_ret. }
  unfold c_serve. eapply shifts_bind; [by apply shifts_slog|]. intros _.
  eapply (shifts_bind 0); [|intros resp; apply Hl]. unfold c_registerHandler.
  eapply shifts_bind; [apply shifts_handler|].
  assert (forall err, shifts 0 0 0 (c_registerHandler (mret (None, Some err)))) as Herr.
  { intros err. unfold c_registerHandler. cbn [mbind Prog_bind mret Prog_ret].
    eapply (shifts_bind 0); [case_match; [by apply shifts_ret|eapply shifts_bind; [by apply shifts_slog|intros; by apply shifts_ret]]|].
    intros code. eapply (shifts_bind 0); [case_match; [eapply shifts_bind; [by apply shifts_slog|intros; by apply shifts_ret]|by apply shifts_ret]|].
    intros er. by apply shifts_ret. }
  intros [[result|] [err|]]; [apply (Herr err)| |apply (Herr err)|apply Hl].
  case_match; [by apply shifts_ret|apply Hl].
Qed.

Definition total (ns : list Z) : Z := foldr Z.add 0 ns.

Lemma total_app ns n : total (ns ++ [n]) = total ns + n.
Proof. unfold total. induction ns as [|x ns IH]; simpl; [lia|]. rewrite IH. lia. Qed.

Lemma total_insert ns i n n' : ns !! i = Some n -> total (<[i := n']> ns) = total ns - n + n'.
Proof.
  unfold total. revert i. induction ns as [|x ns IH]; intros [|i] H; simplify_eq/=; [lia|]. rewrite (IH i) by done. lia.
Qed.

(** Every thread accounts for its share of the outstanding requests. *)
Definition accounted (c : Pool) : Prop :=
  exists ns, Forall2 (fun n t => shifts n 0 0 (th_prog t)) ns (pl_threads c) /\ outstanding (pl_sys c) = total ns.

Lemma cstep_accounted c c' : cstep c c' -> accounted c -> accounted c'.
Proof.
  intros [c0 e r|c0 i t B m k Hi Hp] (ns & Hns & Ho).
  - exists (ns ++ [0]). split; [|simpl; by rewrite total_app, Z.add_0_r].
    apply Forall2_app; [done|]. constructor; [apply shifts_serve|constructor].
  - destruct (Forall2_lookup_r _ _ _ _ _ Hns Hi) as (n & Hn & Hs). rewrite Hp in Hs. destruct Hs as [_ Hs].
    exists (<[i := n + (outstanding (m (pl_sys c0)).1 - outstanding (pl_sys c0))]> ns). split.
    + apply Forall2_insert; [done|]. apply Hs.
    + simpl. rewrite (total_insert _ _ n) by done. lia.
Qed.

Definition answered (t : Thread) : Prop := exists resp, th_prog t = Done (Ok resp).

#[export] Instance answered_dec t : Decision (answered t).
Proof.
  destruct (th_prog t) as [[resp|e|m|]|B m k] eqn:E; [left; by exists resp|right..];
    intros [resp H]; congruence.
Defined.

Lemma total_bound ns ts : Forall2 (fun n t => shifts n 0 0 (th_prog t)) ns ts ->
  0 <= total ns <= Z.of_nat (length (filter (fun t => ~ answered t) ts)).
Proof.
  unfold total. induction 1 as [|n t ns ts Hn _ IH]; [done|]. simpl.
  pose proof (shifts_bound _ _ _ _ Hn) as Hb. destruct (decide (answered t)) as [[resp E]|Ha].
  - rewrite filter_cons_False by (intros H; apply H; by exists resp). rewrite E in Hn. destruct Hn as [_ ->]. lia.
  - rewrite filter_cons_True by done. simpl. lia.
Qed.

(** C9: whatever requests are served at the same time and however their steps
    are interleaved, the counters of the signer are right: the requests
    received and not yet reported as succeeded or failed are never negative and
    never more than the requests that are still being served (or whose handler
    panicked); once every request is answered, received is succeeded plus
    failed. *)
Theorem concurrent_counters c :
  rtc cstep emptyPool c ->
  0 <= outstanding (pl_sys c) <= Z.of_nat (length (filter (fun t => ~ answered t) (pl_threads c))) /\
  (Forall answered (pl_threads c) ->
   ReceivedSigningRequests (sv_metrics (pl_sys c)) =
   SuccessfulSigningRequests (sv_metrics (pl_sys c)) + FailedSigningRequests (sv_metrics (pl_sys c))).
Proof.
  intros Hr. assert (accounted c) as (ns & Hns & Ho).
  { assert (accounted emptyPool) as H0 by (by exists []). revert H0.
    induction Hr as [|c1 c2 c3 Hc _ IH]; [done|]. intros H0. by apply IH, (cstep_accounted c1). }
  assert (0 <= total ns <= Z.of_nat (length (filter (fun t => ~ answered t) (pl_threads c)))) as Hb.
  { by apply total_bound. }
  rewrite Ho. split; [done|]. intros Hall. unfold outstanding in Ho.
  assert (filter (fun t => ~ answered t) (pl_threads c) = []) as E.
  { clear -Hall. induction Hall as [|t ts Ht _ IH]; [done|]. by rewrite filter_cons_False by auto. }
  rewrite E in Hb. simpl in Hb. lia.
Qed.

(** *** Whose signatures *)

(** [k] is a key that the keyring gives out under some passphrase. *)
Definition stored (k : PrivateKey) : Prop :=
  exists p rec key, KrKey keyName p = Ok rec /\ LocalCachedKey rec = Ok (Secp256k1PrivKey key) /\
    k = PrivKeyFromBytes key.

(** Keys in memory come from the keyring or are zeroed. *)
Definition storeOk (s : ServerSys) : Prop :=
  Forall (fun k => k = ZeroKey \/ stored k) (heap (sv_app s)) /\
  forall l, btcecPrivKey (sv_app s) = Some l -> exists k, heap (sv_app s) !! l = Some k /\ stored k.

(** A cell keeps its key until it is zeroed, and stays zeroed. *)
Definition evolves (s s' : ServerSys) : Prop :=
  forall l k, heap (sv_app s) !! l = Some k -> holds l k (sv_app s').

#[local] Instance evolves_preorder : PreOrder evolves.
Proof.
  split; [by left|]. intros s1 s2 s3 H1 H2 l k [H|H]%H1; [by apply H2|].
  destruct (H2 l ZeroKey H); by right.
Qed.

Lemma evolves_holds s s' l k : evolves s s' -> holds l k (sv_app s) -> holds l k (sv_app s').
Proof. intros He [H|H]; [by apply He|]. destruct (He l ZeroKey H); by right. Qed.

Lemma same_app s s' : sv_app s' = sv_app s -> evolves s s' /\ (storeOk s -> storeOk s').
Proof. intros E. unfold evolves, storeOk, holds. rewrite E. split; [by left|done]. Qed.

Abbreviation sound := (sound storeOk evolves).

(** Logging and counting leave the key store alone. *)
Lemma sound_then {A B} (m : M ServerSys A) (p : Prog B) Q s :
  (forall s1, sv_app (m s1).1 = sv_app s1) -> (forall s1, exists a, (m s1).2 = Ok a) ->
  (forall s1, evolves s s1 -> sound Q s1 p) -> sound Q s (atom m;; p).
Proof.
  intros Hm Hok Hp s1 H1 HI. destruct (same_app s1 (m s1).1 (Hm s1)) as [H2 H3].
  split_and!; [done|by apply H3|]. destruct (Hok s1) as [a ->]. apply Hp. by trans s1.
Qed.

(** The key store's methods keep the invariant. *)
Lemma unlock_sound p s1 : storeOk s1 ->
  let s2 := (onApp (app_Unlock store p) s1).1 in evolves s1 s2 /\ storeOk s2.
Proof.
  intros [H1 H2]. unfold onApp, app_Unlock. cbn [pkr_Unlock KeyringRetriever].
  destruct (btcecPrivKey (sv_app s1)) as [l|] eqn:Hl.
  { rewrite (Unlock_unlocked keyName p _ l) by done. destruct (same_app s1 s1 eq_refl) as [He _].
    destruct s1. split; [done|]. split; [done|]. simpl in *. intros l'. rewrite Hl. intros [= <-]. by apply H2. }
  destruct (Unlock_locked keyName p _ Hl) as [(key & (rec & Hr & Hc) & ->)|(E & _ & _)]; simpl.
  - assert (stored (PrivKeyFromBytes key)) as Hk by (by exists p, rec, key). split; [|split; simpl].
    + intros l k Hk'. left. simpl. by apply lookup_app_l_Some.
    + apply Forall_app. split; [done|]. by constructor; [right|].
    + intros l [= <-]. exists (PrivKeyFromBytes key). split; [by apply list_lookup_middle|done].
  - destruct (cosmos_Unlock keyName p (sv_app s1)) as [a r]. simpl in *. subst. split; [by intros l k; left|].
    split; [done|]. simpl. rewrite Hl. done.
Qed.

Lemma lock_sound s1 : storeOk s1 ->
  let s2 := (onApp (app_Lock store) s1).1 in evolves s1 s2 /\ storeOk s2.
Proof.
  intros [H1 H2]. unfold onApp, app_Lock. cbn [pkr_Lock KeyringRetriever].
  destruct (btcecPrivKey (sv_app s1)) as [l|] eqn:Hl.
  - rewrite (Lock_unlocked _ l) by done. simpl. split; [|split; simpl; [|done]].
    + intros l' k Hk. unfold holds. simpl. destruct (decide (l = l')) as [->|Hne].
      * right. rewrite list_lookup_insert_eq; [done|]. by eapply lookup_lt_Some.
      * left. by rewrite list_lookup_insert_ne.
    + apply Forall_insert; [done|by left].
  - rewrite Lock_locked by done. destruct s1. split; [by intros l k; left|]. split; [done|]. simpl in *. by rewrite Hl.
Qed.

(** Reading the pointer. *)
Lemma PrivKey_sound s :
  sound (fun s' r => forall l, r = Ok l -> exists k, stored k /\ holds l k (sv_app s')) s (atom (onApp (PrivKey store))).
Proof.
  intros s1 _ HI. unfold onApp. cbn [PrivKey KeyringRetriever]. pose proof (PrivKey_state (sv_app s1)) as E.
  destruct (cosmos_PrivKey (sv_app s1)) as [a r] eqn:Hp. simpl in E. subst a.
  destruct (same_app s1 {| sv_app := sv_app s1; sv_metrics := sv_metrics s1; sv_log := sv_log s1 |} eq_refl) as [He Hs].
  split_and!; [done|by apply Hs|]. simpl. intros l ->.
  destruct (btcecPrivKey (sv_app s1)) as [l'|] eqn:Hl; [|by rewrite PrivKey_locked in Hp].
  rewrite (PrivKey_unlocked _ l') in Hp by done. injection Hp as <-.
  destruct (proj2 HI l' Hl) as (k & Hk & Hst). exists k. split; [done|by left].
Qed.

(** A use of a key that another request may have zeroed. *)
Lemma withKey_sound {A} l k (f : PrivateKey -> res A) s :
  holds l k (sv_app s) ->
  sound (fun s' r => forall a, r = Ok a -> f k = Ok a \/ f ZeroKey = Ok a) s (c_withKey l f).
Proof.
  intros Hk s1 H1 HI. rewrite c_withKey_act. split_and!; [by apply same_app|done|]. simpl. intros a.
  unfold useKey. destruct (evolves_holds _ _ _ _ H1 Hk) as [-> | ->]; [by left|by right].
Qed.

Section Refused.
Hypothesis HZ : ZeroKeyRefused.

(** The library refuses a zeroed key: what it signs, it signs with [k]. *)
Lemma signing_sound {A} l k (f : PrivateKey -> res A) s :
  (forall a, f ZeroKey <> Ok a) -> holds l k (sv_app s) ->
  sound (fun s' r => forall a, r = Ok a -> f k = Ok a) s (c_withKey l f).
Proof.
  intros Hf Hk. eapply sound_mono; [apply _|by apply withKey_sound|]. simpl. intros s' r _ H a Ha.
  destruct (H a Ha) as [?|Hz]; [done|]. by destruct (Hf a).
Qed.

Lemma slashLoop_sound l k req fps : forall a b s, holds l k (sv_app s) ->
  sound (fun s' r => forall x, r = Ok x -> exists sigs, mapM (fpSigs k req) fps = Ok sigs /\
           x = (a ++ sigs.*1, b ++ sigs.*2)) s (c_slashLoop l req fps a b).
Proof.
  induction fps as [|e fps IH]; intros a b s Hk; cbn [c_slashLoop].
  { intros x [= <-]. exists []. simpl. by rewrite !app_nil_r. }
  eapply sound_bind; [apply _|apply (signing_sound l k); [by apply zero_slashSig|done]| |naive_solver].
  intros s1 x1 He1 H1. eapply sound_bind; [apply _|apply (signing_sound l k);
    [by apply zero_slashUnbondingSig|by eapply evolves_holds]| |naive_solver].
  intros s2 x2 He2 H2. specialize (H1 x1 eq_refl). specialize (H2 x2 eq_refl).
  destruct (MustMarshal x1) as [b1| | |] eqn:Hb1; [|naive_solver..].
  destruct (MustMarshal x2) as [b2| | |] eqn:Hb2; [|naive_solver..].
  cbn [mbind Prog_bind]. eapply sound_mono; [apply _|apply IH; by do 2 (eapply evolves_holds; [done|])|]. simpl.
  intros s3 r _ H x Hx. destruct (H x Hx) as (sigs & Hs & ->). exists ((b1, b2) :: sigs).
  assert (fpSigs k req e = Ok (b1, b2)) as Hf.
  { unfold fpSigs. rewrite H1. simpl. rewrite H2. simpl. rewrite Hb1. simpl. by rewrite Hb2. }
  rewrite Hf. simpl. rewrite Hs. simpl. by rewrite <- !app_assoc.
Qed.

Lemma sign_sound p s :
  sound (fun s' r => forall sig, r = Ok sig -> exists k, stored k /\ signSpec k p = Ok sig) s (c_SignTransactions p).
Proof.
  eapply sound_bind; [apply _|apply PrivKey_sound| |naive_solver].
  intros s1 l He1 H1. destruct (H1 l eq_refl) as (k & Hst & Hk).
  eapply sound_bind; [apply _|by apply (slashLoop_sound l k)| |naive_solver].
  intros s2 [a b] He2 H2. destruct (H2 _ eq_refl) as (sigs & Hsigs & [= -> ->]).
  eapply sound_bind; [apply _|apply (signing_sound l k); [by apply zero_unbondSig|by eapply evolves_holds]| |naive_solver].
  intros s3 u He3 Hu. specialize (Hu u eq_refl).
  eapply (sound_bind _ _ (fun s' r => forall x, r = Ok x -> match pr_StakeExp p with
    | Some e => Some <$> stkExpSig k p e | None => Ok None end = Ok x)); [| |naive_solver].
  - destruct (pr_StakeExp p) as [e|]; [|by intros x [= <-]].
    eapply sound_bind; [apply _|apply (signing_sound l k);
      [by apply zero_stkExpSig|by do 2 (eapply evolves_holds; [done|])]| |naive_solver].
    intros s4 x _ Hx y [= <-]. by rewrite (Hx x eq_refl).
  - intros s4 x _ Hx sig [= <-]. exists k. split; [done|]. unfold signSpec. rewrite Hsigs. simpl. rewrite Hu. simpl.
    by rewrite (Hx x eq_refl).
Qed.

(** What the data of a successful answer is. *)
Definition explained (e : Endpoint) (r : Request) (d : Json) : Prop :=
  match e with
  | SignE => exists w p k sig,
      decodePayload decRequest zeroValue r = Some w /\ ParseSigningRequest w = Ok p /\
      stored k /\ signSpec k p = Ok sig /\ d = responseJson (ToResponse sig)
  | PublicKeyE => exists k, (stored k \/ k = ZeroKey) /\
      d = toJson {| PublicKeyHex := EncodeToString (SerializeCompressed (PrivPubKey k)) |}
  | UnlockE => d = UnlockResponse
  | LockE => d = LockResponse
  end.

Definition goodResult (G : Json -> Prop) (res : HandlerResult) : Prop :=
  (exists d, res = ok (NewResult d) /\ G d) \/
  (exists code c err, (code = 400 \/ code = 500) /\ res = ko (NewErrorWithMsg code c err)).

Abbreviation gives G := (fun (_ : ServerSys) r => forall res, r = Ok res -> goodResult G res).

Lemma gives_ok G d s : G d -> sound (gives G) s (mret (ok (NewResult d))).
Proof. intros Hd res [= <-]. left. by exists d. Qed.

Lemma gives_ko G code c err s : code = 400 \/ code = 500 -> sound (gives G) s (mret (ko (NewErrorWithMsg code c err))).
Proof. intros Hc res [= <-]. right. by exists code, c, err. Qed.

(** A call of the key store whose error is handled. *)
Lemma sound_tried {A B} (m : M ServerSys A) (k : A + error -> Prog B) Q s :
  (forall s1, storeOk s1 -> evolves s1 (m s1).1 /\ storeOk (m s1).1) ->
  (forall s1 x, sound (fun _ r => forall b, r = Ok b -> Q b) s1 (k x)) ->
  sound (fun _ r => forall b, r = Ok b -> Q b) s (c_attempt (atom m) ≫= k).
Proof.
  intros Hm Hk s1 _ HI. destruct (Hm s1 HI) as [H1 H2]. split_and!; [done..|].
  destruct (m s1).2 as [a|e|p|]; simpl; [apply Hk|apply Hk|done|done].
Qed.

Lemma handler_sound e r s : sound (gives (explained e r)) s (c_handler e r).
Proof.
  destruct e; cbn [c_handler].
  - unfold ch_SignTransactions. destruct (decodePayload _ _ r) as [w|] eqn:Hd; [|by apply gives_ko; left].
    destruct (ParseSigningRequest w) as [p|err|m|] eqn:Hp; cbn [c_attempt mbind Prog_bind];
      [|by apply gives_ko; left|done..].
    apply sound_then; [done|by eexists|]. intros s1 _.
    eapply sound_bind; [apply _|apply sound_attempt, sign_sound| |naive_solver].
    intros s2 [sig|err] _ H2; (apply sound_then; [done|by eexists|]); intros s3 _; [|by apply gives_ko; right].
    destruct (H2 sig eq_refl) as (k & Hk & Hs). apply gives_ok. by exists w, p, k, sig.
  - unfold ch_Unlock. destruct (decodePayload _ _ r) as [w|] eqn:Hd; [|by apply gives_ko; left].
    apply (sound_tried _ _ _ s); [intros s1; apply unlock_sound|]. intros s1 [x|err];
      (apply sound_then; [done|by eexists|]); intros s2 _; [by apply gives_ok|by apply gives_ko; left].
  - unfold ch_Lock. apply (sound_tried _ _ _ s); [intros s1; apply lock_sound|]. intros s1 [x|err];
      [apply sound_then; [done|by eexists|]; intros s2 _; by apply gives_ok|by apply gives_ko; left].
  - unfold ch_GetPublicKey. eapply sound_bind; [apply _| | |naive_solver].
    + apply (sound_attempt _ _ (fun _ r => forall pk, r = Ok pk -> exists k, (stored k \/ k = ZeroKey) /\ pk = PrivPubKey k)).
      eapply sound_bind; [apply _|apply PrivKey_sound| |naive_solver]. intros s1 l _ H1.
      destruct (H1 l eq_refl) as (k & Hst & Hk).
      eapply sound_mono; [apply _|by apply (withKey_sound l k)|]. simpl. intros s2 r2 _ H2 pk Hpk.
      destruct (H2 pk Hpk) as [[= <-]|[= <-]]; eexists; (split; [|done]); auto.
    + intros s1 [pk|err] _ H1; [|by apply gives_ko; right]. apply gives_ok. destruct (H1 pk eq_refl) as (k & Hk & ->).
      by exists k.
Qed.

Lemma register_sound G (h : Prog HandlerResult) s : sound (gives G) s h ->
  sound (fun _ r => forall resp, r = Ok resp -> rs_Status resp = 200 ->
    exists d, G d /\ resp = writeResponse 200 (publicResponse d)) s (c_registerHandler h).
Proof.
  intros Hh. unfold c_registerHandler. eapply sound_bind; [apply _|exact Hh| |naive_solver].
  intros s1 res _ H1. destruct (H1 res eq_refl) as [(d & -> & Hd)|(code & c & err & Hc & ->)].
  - intros resp [= <-] _. by exists d.
  - destruct Hc as [-> | ->].
    + by intros resp [= <-].
    + intros s2 _ HI. split_and!; [by apply same_app|by apply (same_app s2)|]. by intros resp [= <-].
Qed.

(** A thread's answer, if it is a success, is explained. *)
Definition Explained (t : Thread) (resp : Response) : Prop :=
  rs_Status resp = 200 ->
  exists d, explained (th_endpoint t) (th_request t) d /\ resp = writeResponse 200 (publicResponse d).

Abbreviation ends t := (fun (_ : ServerSys) r => forall resp, r = Ok resp -> Explained t resp).

Lemma serve_sound e r s : sound (ends (spawn e r)) s (c_serve e r).
Proof.
  apply sound_then; [done|by eexists|]. intros s1 _.
  eapply sound_bind; [apply _|apply register_sound, handler_sound| |naive_solver]. intros s2 resp _ H.
  apply sound_then; [done|by eexists|]. intros s3 _ x [= <-]. exact (H resp eq_refl).
Qed.

Definition poolSound (c : Pool) : Prop :=
  storeOk (pl_sys c) /\ Forall (fun t => sound (ends t) (pl_sys c) (th_prog t)) (pl_threads c).

Lemma cstep_sound c c' : cstep c c' -> poolSound c -> poolSound c'.
Proof.
  intros [c0 e r|c0 i t B m k Hi Hp] [Hs Ht]; split; simpl.
  - done.
  - apply Forall_app. split; [done|]. constructor; [apply serve_sound|constructor].
  - pose proof (Forall_lookup_1 _ _ _ _ Ht Hi) as H. simpl in H. rewrite Hp in H. by apply (H (pl_sys c0)).
  - pose proof (Forall_lookup_1 _ _ _ _ Ht Hi) as H. simpl in H. rewrite Hp in H.
    destruct (H (pl_sys c0)) as (H1 & H2 & H3); [reflexivity|done|].
    apply Forall_insert; [|done]. eapply Forall_impl; [exact Ht|]. simpl. intros t'.
    apply sound_le; [apply _|by intros ????|done].
Qed.

(** C8: whatever requests are served at the same time and however their steps
    are interleaved, every signing request that is answered with success got
    the signatures of its own transactions, all made with one key of the
    keyring (a Lock in between can only make it fail), and every public key
    answered belongs to a key of the keyring or, after a Lock that came in
    between, to the zeroed key. *)
Theorem concurrent_answers c t resp :
  rtc cstep emptyPool c -> t ∈ pl_threads c -> th_prog t = Done (Ok resp) -> rs_Status resp = 200 ->
  exists d, explained (th_endpoint t) (th_request t) d /\ resp = writeResponse 200 (publicResponse d).
Proof.
  intros Hr Ht Hp. assert (poolSound c) as [_ H].
  { assert (poolSound emptyPool) as H0 by (split; [by split; [constructor|]|constructor]). revert H0.
    induction Hr as [|c1 c2 c3 Hc _ IH]; [done|]. intros H0. apply IH; [done..|]. by apply (cstep_sound c1). }
  rewrite Forall_forall in H. specialize (H t Ht). simpl in H. rewrite Hp in H. by apply (H resp).
Qed.

End Refused.

(** *** Without interruption *)

Lemma serve_alone c e r :
  let '(s', res) := LoggingMiddleware (registerHandler (endpointHandler e)) r (pl_sys c) in
  rtc cstep {| pl_sys := pl_sys c; pl_threads := pl_threads c ++ [spawn e r] |}
    {| pl_sys := s'; pl_threads := pl_threads c ++ [continue (spawn e r) (Done res)] |}.
Proof.
  set (c1 := {| pl_sys := pl_sys c; pl_threads := pl_threads c ++ [spawn e r] |}).
  pose proof (thread_runs (c_serve e r) c1 (length (pl_threads c)) (spawn e r)) as H.
  rewrite (run_serve e r (pl_sys c1)) in H. cbn [pl_sys c1] in H.
  destruct (LoggingMiddleware _ _ (pl_sys c)) as [s' res]. simpl in H.
  rewrite insert_app_r_alt, Nat.sub_diag in H by done. apply H; [by apply list_lookup_middle|done].
Qed.

(** The interleaved programs are the handlers of the service: a request
    whose steps are not interrupted is answered, and changes the service, as
    the sequential handler behind the logging middleware does; this can happen
    in any state of the others. *)
Theorem uninterrupted_is_sequential c e r :
  let c1 := {| pl_sys := pl_sys c; pl_threads := pl_threads c ++ [spawn e r] |} in
  let '(s', res) := LoggingMiddleware (registerHandler (endpointHandler e)) r (pl_sys c) in
  cstep c c1 /\
  rtc cstep c1 {| pl_sys := s'; pl_threads := pl_threads c ++ [continue (spawn e r) (Done res)] |}.
Proof.
  intros c1. pose proof (serve_alone c e r) as H. destruct (LoggingMiddleware _ _ (pl_sys c)) as [s' res].
  split; [constructor|exact H].
Qed.

(** *** The gauge *)

Lemma lock_run r s :
  (run (c_serve LockE r) s).2 = Ok (writeResponse 200 (publicResponse LockResponse)) /\
  btcecPrivKey (sv_app (run (c_serve LockE r) s).1) = None.
Proof.
  rewrite (run_serve LockE r s). cbn [endpointHandler]. unfold LoggingMiddleware, registerHandler, h_Lock.
  unfold mbind, M_bind, attempt, slog, modify, onApp, onMetrics, app_Lock. cbn [pkr_Lock KeyringRetriever sv_app].
  destruct (Lock_result (sv_app s)) as [-> H]. by split.
Qed.

(** C39: the gauge is not right under interleaving: from the start of the
    service there is a run of one Unlock and one Lock request, both answered
    with success, after which nothing is running, the key is locked and the
    gauge says 1.  The handlers update it after they have left the mutex of the
    key store. *)
Theorem stale_gauge (ru rl : Request) p :
  decodePayload fromJson zeroValue ru = Some {| Passphrase := p |} ->
  (cosmos_Unlock keyName p initSigner).2 = Ok tt ->
  exists c, rtc cstep emptyPool c /\
    (fun t => th_prog t) <$> pl_threads c =
      [Done (Ok (writeResponse 200 (publicResponse UnlockResponse)));
       Done (Ok (writeResponse 200 (publicResponse LockResponse)))] /\
    btcecPrivKey (sv_app (pl_sys c)) = None /\ SignerUnlockStatus (sv_metrics (pl_sys c)) = 1.
Proof.
  intros Hd Hu. destruct (cosmos_Unlock keyName p initSigner) as [a r] eqn:Ea. simpl in Hu. subst r.
  eapply ex_intro. split.
  - eapply rtc_l; [apply (cs_arrive emptyPool UnlockE ru)|].
    eapply rtc_l; [apply (cs_arrive _ LockE rl)|].
    eapply rtc_l; [eapply (cs_act _ 0); [reflexivity|]|].
    { unfold spawn, c_serve. cbn [th_prog c_handler]. unfold ch_Unlock. rewrite Hd. reflexivity. }
    eapply rtc_l; [eapply (cs_act _ 0); [reflexivity|reflexivity]|].
    etrans; [apply (thread_runs (c_serve LockE rl) _ 1 (spawn LockE rl)); reflexivity|].
    eapply (thread_runs _ _ 0); reflexivity.
  - unfold onApp, app_Unlock. cbn -[c_serve cosmos_Unlock initSigner]. rewrite Ea. cbn -[c_serve].
    change (knownStatus StatusOK) with true. cbv iota.
    match goal with |- context [run (c_serve LockE rl) ?s] => destruct (lock_run rl s) as [-> Hl] end. by split.
Qed.

End Service.
