(* ===== verification/Datagen.v ===== *)
(** * testutil/datagen.go: what the tests of the emulator are run on

    The generators of parameters and staking transactions, over math/rand,
    babylon's datagen and btcd's transaction builder as a class.  A generator
    passed around as [*rand.Rand] and the global source of math/rand are the
    two halves of the state [Gen]: RandRange takes the former and draws from
    the latter. *)
From Stdlib Require Import Strings.Byte Strings.String.
From S2P Require Import Prelude GoStd BtcLib Config Types Env Emulator EmulatorProps.
Local Open Scope Z_scope.

Class GenLib `{BL : BtcLib} : Type := {
  Source : Type;                                            (* *rand.Rand *)
  Intn : Z -> M Source Z;                                   (* rand.Intn; panics unless positive *)
  Int63n : Z -> M Source Z;
  Uint32 : M Source Z;
  GenRandomByteArray : Z -> M Source bytes;
  GenRandomBTCKeyPair : M Source (PrivateKey * PublicKey);
  BTCAddress : Type;
  GenRandomBTCAddress : NetParams -> M Source BTCAddress;
  GenRandomPubKeyHashScript : NetParams -> M Source bytes;
  PayToAddrScript : BTCAddress -> res bytes;
  NonStandardScript : bytes -> bool;                        (* GetScriptClass = NonStandardTy *)
  LegacyNewDecWithPrec : Z -> Z -> LegacyDec;
  zeroDec : LegacyDec;                                      (* the zero value *)
  NewHash : bytes -> Hash;                                  (* of a slice of HashSize bytes *)
  OutPoint : Type;
  mkOutPoint : Hash -> Z -> OutPoint;
  NewMsgTx : Z -> MsgTx;
  AddTxOut : TxOut -> MsgTx -> MsgTx;
  AddTxIn : TxIn -> MsgTx -> MsgTx;
  NewTxOut : Z -> bytes -> TxOut;
  NewTxIn : OutPoint -> TxIn;
  StakingOutput : StakingInfo -> TxOut;
  BuildSlashingTxFromStakingTxStrict :
    MsgTx -> Z -> bytes -> PublicKey -> Z -> Z -> LegacyDec -> NetParams -> res MsgTx;
  NewBTCSlashingTxFromMsgTx : MsgTx -> res SlashingTx
}.

(** math/rand, as documented *)
Class RandLaws `{GL : GenLib} : Prop := {
  Intn_range : forall n (g : Source), 0 < n -> exists g' x, Intn n g = (g', Ok x) /\ 0 <= x < n
}.

(** btcd's transactions as lists of inputs and outputs *)
Class BuilderLaws `{GL : GenLib} : Prop := {
  msgtx_new : forall v, tx_TxIn (NewMsgTx v) = [] /\ tx_TxOut (NewMsgTx v) = [];
  msgtx_out : forall o tx, tx_TxOut (AddTxOut o tx) = tx_TxOut tx ++ [o] /\ tx_TxIn (AddTxOut o tx) = tx_TxIn tx;
  msgtx_in : forall i tx, tx_TxIn (AddTxIn i tx) = tx_TxIn tx ++ [i] /\ tx_TxOut (AddTxIn i tx) = tx_TxOut tx
}.

Section Datagen.
Context `{GL : GenLib} {BN : BtcNets}.

(** The generator passed around and the global source. *)
Record Gen := { gen_r : Source; gen_global : Source }.

Definition onR {A} (m : M Source A) : M Gen A := fun g =>
  let '(r, x) := m (gen_r g) in ({| gen_r := r; gen_global := gen_global g |}, x).
Definition onGlobal {A} (m : M Source A) : M Gen A := fun g =>
  let '(r, x) := m (gen_global g) in ({| gen_r := gen_r g; gen_global := r |}, x).

(** require.NoError and require.False end the test: an error *)

(** datagen.RandomInt(r, n) = uint64(r.Intn(n)) *)
Definition RandomInt (n : Z) : M Gen Z := onR (Intn n).

Definition GenRandomHexStr (length : Z) : M Gen string :=
  randBytes ← onR (GenRandomByteArray length);
  mret (EncodeToString randBytes).

(** testing.F.Add appends to the corpus [f]. *)
Fixpoint addSeeds (Int63 : M Source Z) (num : nat) (f : list Z) : M Source (list Z) :=
  match num with
  | O => mret f
  | S num => x ← Int63; addSeeds Int63 num (f ++ [x])
  end.

Definition AddRandomSeedsToFuzzer (NewSource : Z -> Source) (Int63 : M Source Z) (now : Z) (f : list Z) (num : nat)
  : res (list Z) :=
  (addSeeds Int63 num f (NewSource now)).2.

Definition GenValidSlashingRate : M Gen LegacyDec :=
  x ← RandomInt 41;
  mret (LegacyNewDecWithPrec (i64 (x + 10)) 2).

Definition RandRange (minVal maxVal : Z) : M Gen Z :=
  x ← onGlobal (Intn (maxVal + 1 - minVal));
  mret (x + minVal).

Definition GenBtcPublicKeys (num : nat) : M Gen (list PublicKey) :=
  mapM (fun _ => '(_, covPk) ← onR GenRandomBTCKeyPair; mret covPk) (replicate num tt).

Definition GenRandomParams : M Gen StakingParams :=
  x ← RandomInt 5;
  let covThreshold := x + 1 in
  let covNum := covThreshold * 2 in
  covenantPks ← mapM (fun _ => '(_, covPk) ← onR GenRandomBTCKeyPair; mret covPk)
                  (replicate (Z.to_nat covNum) tt);
  slashingAddr ← onR (GenRandomBTCAddress SimNetParams);
  slashingPkScript ← lift (PayToAddrScript slashingAddr);
  slashingRate ← GenValidSlashingRate;
  mret {| ComfirmationTimeBlocks := 10;
          FinalizationTimeoutBlocks := 100;
          UnbondingTimeBlocks := 101;
          MinSlashingTxFeeSat := 1;
          CovenantPks := covenantPks;
          SlashingPkScript := slashingPkScript;
          CovenantQuorum := u32 covThreshold;
          SlashingRate := slashingRate;
          MinComissionRate := zeroDec;
          UnbondingFee := 1000;
          MinStakingTime := 10;
          MaxStakingTime := MaxUint16;
          MinStakingValue := 10000;
          MaxStakingValue := 10 * (10 * 10 ^ 8) |}.

Record TestStakingSlashingInfo := {
  tsi_StakingTx : MsgTx;
  tsi_SlashingTx : SlashingTx;
  tsi_StakingInfo : StakingInfo
}.

Record spendableOut := { prevOut : OutPoint; amount : Z }.

Definition HashSize : Z := 32.

Definition randOutPoint : M Gen OutPoint :=
  b ← onR (GenRandomByteArray HashSize);
  idx ← onR Uint32;
  mret (mkOutPoint (NewHash b) idx).

Definition makeSpendableOutWithRandOutPoint (amount : Z) : M Gen spendableOut :=
  out ← randOutPoint;
  mret {| prevOut := out; amount := amount |}.

Section Staking.
Variables (btcNet : NetParams) (stakerSK : PrivateKey) (fpPKs covenantPKs : list PublicKey).
Variables (covenantQuorum stakingTimeBlocks stakingValue : Z) (slashingPkScript : bytes).
Variables (slashingRate : LegacyDec) (slashingChangeLockTime : Z).

Definition GenBTCStakingSlashingInfoWithOutPoint (outPoint : OutPoint) : M Gen TestStakingSlashingInfo :=
  stakingInfo ← lift (BuildStakingInfo (PrivPubKey stakerSK) fpPKs covenantPKs covenantQuorum stakingTimeBlocks
                        stakingValue btcNet);
  let tx := NewMsgTx 2 in
  changeAddrScript ← onR (GenRandomPubKeyHashScript btcNet);
  if NonStandardScript changeAddrScript then fail "Should be false"
  else
  let tx := AddTxOut (NewTxOut 10000 changeAddrScript) tx in
  let tx := AddTxIn (NewTxIn outPoint) tx in
  let tx := AddTxOut (StakingOutput stakingInfo) tx in
  slashingMsgTx ← lift (BuildSlashingTxFromStakingTxStrict tx 1 slashingPkScript (PrivPubKey stakerSK)
                          slashingChangeLockTime 2000 slashingRate btcNet);
  slashingTx ← lift (NewBTCSlashingTxFromMsgTx slashingMsgTx);
  mret {| tsi_StakingTx := tx; tsi_SlashingTx := slashingTx; tsi_StakingInfo := stakingInfo |}.

Definition GenBTCStakingSlashingInfo : M Gen TestStakingSlashingInfo :=
  fee ← onR (Int63n 1000);
  let unbondingTxFee := fee + 1 in
  spend ← makeSpendableOutWithRandOutPoint (stakingValue + unbondingTxFee);
  GenBTCStakingSlashingInfoWithOutPoint (prevOut spend).

End Staking.

(** ** Properties *)

(** RandRange draws from the closed range, whatever its generator, which it
    neither reads nor advances: two tests with the same seed differ. *)
Lemma RandRange_range `{RW : !RandLaws} a b g : a <= b ->
  exists g' x, RandRange a b g = (g', Ok x) /\ a <= x <= b /\ gen_r g' = gen_r g /\
    forall r, RandRange a b {| gen_r := r; gen_global := gen_global g |} =
              ({| gen_r := r; gen_global := gen_global g' |}, Ok x).
Proof.
  intros Hab. destruct (Intn_range (b + 1 - a) (gen_global g)) as (s & x & Hx & Hr); [lia|].
  unfold RandRange, onGlobal, mbind, M_bind. rewrite Hx. eexists _, _. split; [done|]. split; [lia|]. split; [done|].
  intros r. simpl. by rewrite Hx.
Qed.

(** The parameters of the tests. *)
Record testParams (p : StakingParams) : Prop := {
  tp_quorum : 1 <= CovenantQuorum p <= 5;
  tp_keys : Z.of_nat (length (CovenantPks p)) = 2 * CovenantQuorum p;
  tp_time : MinStakingTime p = 10 /\ MaxStakingTime p = MaxUint16;
  tp_value : MinStakingValue p = 10000 /\ MaxStakingValue p = 10000000000
}.

Lemma mapM_length {S A B} (f : A -> M S B) l : forall s s' k, mapM f l s = (s', Ok k) -> length k = length l.
Proof.
  induction l as [|x l IH]; intros s s' k Hr; simpl in Hr; [by injection Hr as _ <-|].
  inv_bind Hr. inv_bind Hr. injection Hr as _ <-. simpl. f_equal. by eapply IH.
Qed.

Lemma GenRandomParams_ok `{RW : !RandLaws} g g' p : GenRandomParams g = (g', Ok p) -> testParams p.
Proof.
  unfold GenRandomParams, RandomInt. intros Hrun. inv_bind Hrun.
  destruct (Intn_range 5 (gen_r g)) as (s1 & x & Hx & Hr); [lia|]. unfold onR in Hm. rewrite Hx in Hm.
  injection Hm as _ <-. inv_bind Hrun. apply mapM_length in Hm. rewrite length_replicate in Hm.
  do 3 inv_bind Hrun. injection Hrun as _ <-. unfold u32.
  split; simpl; rewrite ?(Z.mod_small (x + 1)) by lia; try done; lia.
Qed.

(** The inputs the tests draw are ones the emulator accepts: the generated
    parameters have a quorum of 1 to 5 and twice as many covenant keys, drawing
    a staking time and a value from their ranges succeeds, and an unsigned
    delegation with these and the parameters' unbonding time passes the checks
    of the handler against the parameters, without wrap-around or panic. *)
Theorem drawn_inputs_pass `{RW : !RandLaws} g g1 p :
  GenRandomParams g = (g1, Ok p) ->
  1 <= CovenantQuorum p <= 5 /\ Z.of_nat (length (CovenantPks p)) = 2 * CovenantQuorum p /\
  exists g2 t g3 v,
    RandRange (MinStakingTime p) (MaxStakingTime p) g1 = (g2, Ok t) /\
    RandRange (MinStakingValue p) (MaxStakingValue p) g2 = (g3, Ok v) /\
    forall del ud, del_BtcUndelegation del = Some ud -> del_CovenantSigs del = [] ->
      del_StakingTime del = t -> del_TotalSat del = v -> del_UnbondingTime del = UnbondingTimeBlocks p ->
      checkAgainstParams p del = Ok (Go tt).
Proof.
  intros Hp. destruct (GenRandomParams_ok _ _ _ Hp) as [Hq Hk [Ht1 Ht2] [Hv1 Hv2]]. split; [done|]. split; [done|].
  destruct (RandRange_range (MinStakingTime p) (MaxStakingTime p) g1) as (g2 & t & Hr1 & Hb1 & _).
  { rewrite Ht1, Ht2. vm_compute. congruence. }
  destruct (RandRange_range (MinStakingValue p) (MaxStakingValue p) g2) as (g3 & v & Hr2 & Hb2 & _).
  { rewrite Hv1, Hv2. lia. }
  exists g2, t, g3, v. split; [done|]. split; [done|]. intros del ud Hud Hsigs <- <- Hu.
  apply (checkAgainstParams_Go p del ud Hud). rewrite Hsigs. unfold u16, MaxUint16 in *.
  rewrite Ht1, Ht2 in *. rewrite Z.mod_small by lia. split_and!; try done; try lia. left. simpl. lia.
Qed.

(** The staking transaction of the tests: one input, the change, and the
    staking output at index 1, which the slashing transaction spends. *)
Lemma staking_tx_shape `{!BuilderLaws} net sk fps covs q time value script rate lock out g g' info :
  GenBTCStakingSlashingInfoWithOutPoint net sk fps covs q time value script rate lock out g = (g', Ok info) ->
  tx_TxIn (tsi_StakingTx info) = [NewTxIn out] /\
  (exists change, tx_TxOut (tsi_StakingTx info) = [NewTxOut 10000 change; StakingOutput (tsi_StakingInfo info)]) /\
  exists slashing, BuildSlashingTxFromStakingTxStrict (tsi_StakingTx info) 1 script (PrivPubKey sk) lock 2000 rate net
    = Ok slashing /\ NewBTCSlashingTxFromMsgTx slashing = Ok (tsi_SlashingTx info).
Proof.
  unfold GenBTCStakingSlashingInfoWithOutPoint. intros Hr. inv_bind Hr. inv_bind Hr.
  destruct (NonStandardScript a0); [done|]. inv_bind Hr. inv_bind Hr. injection Hr as _ <-. simpl.
  apply lift_Ok in Hm1 as [_ Hs]. apply lift_Ok in Hm2 as [_ Hn].
  destruct (msgtx_new 2) as [Hi0 Ho0].
  rewrite !(proj2 (msgtx_out _ _)), (proj1 (msgtx_in _ _)), (proj2 (msgtx_out _ _)), Hi0.
  rewrite (proj1 (msgtx_out _ _)), (proj2 (msgtx_in _ _)), (proj1 (msgtx_out _ _)), Ho0.
  split; [done|]. split; [by eexists|]. by exists a1.
Qed.

(** The corpus keeps what it had and grows by the number asked for. *)
Lemma AddRandomSeedsToFuzzer_grows NewSource Int63 now f num :
  (forall g, exists g' x, Int63 g = (g', Ok x)) ->
  exists seeds, AddRandomSeedsToFuzzer NewSource Int63 now f num = Ok (f ++ seeds) /\ length seeds = num.
Proof.
  intros Hi. unfold AddRandomSeedsToFuzzer. generalize (NewSource now). revert f.
  induction num as [|num IH]; intros f g; cbn [addSeeds].
  { exists []. by rewrite app_nil_r. }
  destruct (Hi g) as (g' & x & Hg). erewrite bind_run_Ok by exact Hg.
  destruct (IH (f ++ [x]) g') as (seeds & E & Hl). exists (x :: seeds). rewrite E, <- app_assoc. simpl. by rewrite Hl.
Qed.

End Datagen.
