(* ===== verification/NodeHarness.v ===== *)
(** * itest: ports and the Babylon node of the end-to-end tests

    utils.go (AllocateUniquePort, baseDir) and babylon_node_handler.go (the
    child process of a node, its pid file and its data directory).  The
    operating system, net.Listen and math/rand are parameters; a test that
    fails (t.Fatalf, require.NoError) is an error. *)
From Stdlib Require Import Strings.Ascii Strings.String.
From S2P Require Import Prelude GoStd GoPath BtcLib.
Local Open Scope Z_scope.

(** ** utils.go: ports *)

Class TestNet (W : Type) : Type := {
  IntN : Z -> M W Z;                                   (* math/rand/v2 *)
  Listener : Type;
  net_Listen : string -> M W Listener;                 (* net.Listen with tcp *)
  lis_Close : Listener -> M W unit
}.

Definition basePort : Z := 40000.
Definition portRange : Z := 50000.
Definition localURL (port : Z) : string := "127.0.0.1:" +:+ pretty port.

(** What is documented: IntN draws below its bound, and a port of a TCP
    address has 16 bits. *)
Class TestNetLaws (W : Type) `{TestNet W} : Prop := {
  IntN_range : forall n (w w' : W) x, IntN n w = (w', Ok x) -> 0 <= x < n;
  listen_16bit : forall port (w w' : W) l, net_Listen (localURL port) w = (w', Ok l) -> port < 2 ^ 16
}.

Section Ports.
Context {W : Type} `{TN : !TestNet W}.

(** The package variable; its mutex is held from the lookup to the insertion. *)
Record PortSys := { allocatedPorts : gset Z; ps_world : W }.

Definition onNet {A} (m : M W A) : M PortSys A := fun s =>
  let '(w, r) := m (ps_world s) in ({| allocatedPorts := allocatedPorts s; ps_world := w |}, r).

(** The loop, with the number of attempts left. *)
Fixpoint allocateLoop (n : nat) : M PortSys (Z * string) :=
  match n with
  | O => fail ("failed to find an available port in range " +:+ pretty basePort +:+ "-"
               +:+ pretty (basePort + portRange))
  | S n =>
      x ← onNet (IntN portRange);
      let port := basePort + x in
      allocated ← gets allocatedPorts;
      if bool_decide (port ∈ allocated) then allocateLoop n
      else
      let url := localURL port in
      listener ← attempt (onNet (net_Listen url));
      match listener with
      | inr _ => allocateLoop n
      | inl listener =>
          modify (fun s => {| allocatedPorts := {[port]} ∪ allocatedPorts s; ps_world := ps_world s |});;
          r ← attempt (onNet (lis_Close listener));
          match r with
          | inr _ => allocateLoop n
          | inl _ => mret (port, url)
          end
      end
  end.

Definition AllocateUniquePort : M PortSys (Z * string) := allocateLoop 30.

(** Calls one after the other. *)
Fixpoint allocations (k : nat) : M PortSys (list Z) :=
  match k with
  | O => mret []
  | S k => '(port, _) ← AllocateUniquePort; ports ← allocations k; mret (port :: ports)
  end.

Lemma allocations_S k :
  allocations (S k) = ('(port, _) ← AllocateUniquePort; ports ← allocations k; mret (port :: ports)).
Proof. reflexivity. Qed.

(** The set only grows, and what is returned is new. *)
Definition allocates {A} (Q : gset Z -> A -> gset Z -> Prop) (m : M PortSys A) : Prop := forall s s' a,
  m s = (s', Ok a) -> allocatedPorts s ⊆ allocatedPorts s' /\ Q (allocatedPorts s) a (allocatedPorts s').

Lemma onNet_allocated {A} (m : M W A) s s' r : onNet m s = (s', r) -> allocatedPorts s' = allocatedPorts s.
Proof. unfold onNet. destruct (m (ps_world s)) as [w r']. by intros [= <- <-]. Qed.

Lemma allocateLoop_new `{!TestNetLaws W} n : allocates
  (fun before p after => (basePort <= p.1 < 2 ^ 16) /\ (p.1 ∉ before) /\ (p.1 ∈ after) /\ p.2 = localURL p.1) (allocateLoop n).
Proof.
  induction n as [|n IH]; intros s s' p H; [done|]. cbn [allocateLoop] in H.
  inv_bind H. pose proof (onNet_allocated _ _ _ _ Hm) as E0.
  assert (0 <= a) as Hx.
  { unfold onNet in Hm. destruct (IntN portRange (ps_world s)) as [w r] eqn:Hi. injection Hm as <- ->.
    by apply IntN_range in Hi as [? _]. }
  inv_bind H. injection Hm0 as <- <-. case_bool_decide as Hp; [by rewrite <- E0; apply IH|].
  inv_bind H. unfold attempt in Hm0. destruct (onNet (net_Listen _) s0) as [s2 r2] eqn:Hl.
  pose proof (onNet_allocated _ _ _ _ Hl) as E2. assert (allocatedPorts s1 = allocatedPorts s) as E1.
  { rewrite <- E0, <- E2. by destruct r2; simplify_eq. }
  destruct a0 as [l|e]; [|by rewrite <- E1; apply IH].
  assert (basePort + a < 2 ^ 16) as H16.
  { unfold onNet in Hl. destruct (net_Listen _ (ps_world s0)) as [w r] eqn:Hn. injection Hl as <- <-.
    destruct r; [|done..]. by eapply listen_16bit. }
  inv_bind H. injection Hm1 as <- <-. inv_bind H. unfold attempt in Hm1.
  destruct (onNet (lis_Close l) _) as [s4 r4] eqn:Hc. apply onNet_allocated in Hc. simpl in Hc.
  assert (allocatedPorts s3 = {[basePort + a]} ∪ allocatedPorts s) as E3.
  { rewrite <- E1, <- Hc. by destruct r4; simplify_eq. }
  destruct a0 as [|e].
  - injection H as <- <-. rewrite E3. simpl. split; [set_solver|]. split; [unfold basePort in *; lia|].
    split; [by rewrite <- E0|]. split; [set_solver|done].
  - destruct (IH s3 s' p H) as (H1 & H2 & H3 & H4 & H5). rewrite E3 in H1, H3. split; [set_solver|].
    split; [done|]. split; [set_solver|done].
Qed.

Lemma AllocateUniquePort_new `{!TestNetLaws W} s s' p : AllocateUniquePort s = (s', Ok p) ->
  allocatedPorts s ⊆ allocatedPorts s' /\ (basePort <= p.1 < 2 ^ 16) /\ (p.1 ∉ allocatedPorts s) /\
  (p.1 ∈ allocatedPorts s').
Proof. unfold AllocateUniquePort. intros H. destruct (allocateLoop_new _ _ _ _ H) as (H1 & H2 & H3 & H4 & _). done. Qed.

(** Ports are unique: any number of calls of AllocateUniquePort, whatever
    else uses ports on the host, return different ports, none of which was
    given out before, all from 40000 to 65535 although the draws go up to
    89999. *)
Theorem ports_unique `{!TestNetLaws W} k s s' ports :
  allocations k s = (s', Ok ports) ->
  NoDup ports /\ Forall (fun p => basePort <= p < 2 ^ 16 /\ p ∉ allocatedPorts s) ports.
Proof.
  intros H. assert (allocatedPorts s ⊆ allocatedPorts s' /\ NoDup ports /\
    Forall (fun p => basePort <= p < 2 ^ 16 /\ p ∉ allocatedPorts s) ports) as (_ & ?); [|done].
  revert s ports H. induction k as [|k IH]; intros s ports H.
  { injection H as <- <-. split; [done|]. by split; constructor. }
  rewrite allocations_S in H.
  inv_bind H. destruct a as [port url]. inv_bind H. injection H as <- <-.
  apply AllocateUniquePort_new in Hm as (H1 & H2 & H3 & H4). cbn [fst snd] in *.
  destruct (IH _ _ Hm0) as (G1 & G2 & G3). split; [set_solver|].
  split.
  - constructor; [|done]. intros Hin. rewrite Forall_forall in G3. by destruct (G3 port Hin) as [_ ?].
  - constructor; [done|]. eapply Forall_impl; [exact G3|]. intros p [? ?]. split; [done|set_solver].
Qed.

End Ports.
Arguments PortSys W : clear implicits.

(** ** utils.go and babylon_node_handler.go: the node *)

(** exec.Cmd: the words, the environment if it is set, and the file the
    standard output goes to *)
Record Cmd (File : Type) := { cm_Args : list string; cm_Env : option (list string); cm_Stdout : option File }.
Arguments Build_Cmd {File} _ _ _.

Inductive Signal := SigKill | SigInterrupt.

Class TestHost (W : Type) : Type := {
  File : Type;
  os_TempDir : string;
  os_MkdirTemp : string -> string -> M W string;
  os_Chmod : string -> Z -> M W unit;
  os_Create : string -> M W File;
  file_Name : File -> string;
  file_Write : File -> string -> M W unit;
  file_Close : File -> M W unit;
  os_Remove : string -> M W unit;
  os_RemoveAll : string -> M W unit;
  os_Environ : list string;
  GOOS : string;
  cmd_Run : Cmd File -> M W unit;
  cmd_Start : Cmd File -> M W Z;                        (* Start, with Process.Pid *)
  proc_Signal : Z -> Signal -> M W unit;
  cmd_Wait : Z -> M W unit
}.

Section Node.
Context `{BL : BtcLib} {W : Type} `{TH : !TestHost W}.

Definition baseDir (pattern : string) : M W string :=
  tempName ← os_MkdirTemp os_TempDir pattern;
  os_Chmod tempName 493;;                               (* 0755 *)
  mret tempName.

Record babylonNode := {
  bn_cmd : option (Cmd File);                           (* a pointer *)
  bn_process : option Z;                                (* cmd.Process, set by Start *)
  bn_pidFile : string;
  bn_dataDir : string;
  bn_nodeHome : string;
  bn_chainID : string;
  bn_slashingAddr : string;
  bn_covenantPk : BIP340PubKey
}.

Definition newBabylonNode (dataDir nodeHome : string) (cmd : Cmd File) (chainID slashingAddr : string)
    (covenantPk : BIP340PubKey) : babylonNode :=
  {| bn_cmd := Some cmd; bn_process := None; bn_pidFile := ""; bn_dataDir := dataDir; bn_nodeHome := nodeHome;
     bn_chainID := chainID; bn_slashingAddr := slashingAddr; bn_covenantPk := covenantPk |}.

(** A node, what the test logged, and the host. *)
Record NodeSys := { ns_node : babylonNode; ns_log : list string; ns_world : W }.

Definition onHost {A} (m : M W A) : M NodeSys A := fun s =>
  let '(w, r) := m (ns_world s) in ({| ns_node := ns_node s; ns_log := ns_log s; ns_world := w |}, r).
Definition Printf (line : string) : M NodeSys unit :=
  modify (fun s => {| ns_node := ns_node s; ns_log := ns_log s ++ [line]; ns_world := ns_world s |}).
Definition setProcess (pid : Z) : M NodeSys unit := modify (fun s =>
  let n := ns_node s in
  {| ns_node := {| bn_cmd := bn_cmd n; bn_process := Some pid; bn_pidFile := bn_pidFile n; bn_dataDir := bn_dataDir n;
                   bn_nodeHome := bn_nodeHome n; bn_chainID := bn_chainID n; bn_slashingAddr := bn_slashingAddr n;
                   bn_covenantPk := bn_covenantPk n |};
     ns_log := ns_log s; ns_world := ns_world s |}).
Definition setPidFile (name : string) : M NodeSys unit := modify (fun s =>
  let n := ns_node s in
  {| ns_node := {| bn_cmd := bn_cmd n; bn_process := bn_process n; bn_pidFile := name; bn_dataDir := bn_dataDir n;
                   bn_nodeHome := bn_nodeHome n; bn_chainID := bn_chainID n; bn_slashingAddr := bn_slashingAddr n;
                   bn_covenantPk := bn_covenantPk n |};
     ns_log := ns_log s; ns_world := ns_world s |}).

(** start, after the command was started *)
Definition writePidFile (p : Z) : M NodeSys unit :=
  n ← gets ns_node;
  pid ← onHost (os_Create (Join2 (bn_dataDir n) "config.pid"));
  setPidFile (file_Name pid);;
  onHost (file_Write pid (pretty p +:+ String "010" ""));;
  onHost (file_Close pid).

Definition bn_start : M NodeSys unit :=
  n ← gets ns_node;
  match bn_cmd n with
  | None => lift (Panic "invalid memory address or nil pointer dereference")
  | Some cmd =>
      p ← onHost (cmd_Start cmd);
      setProcess p;;
      writePidFile p
  end.

(** The deferred function sets the result to the one of Wait. *)
Definition bn_stop : M NodeSys unit :=
  n ← gets ns_node;
  match bn_cmd n, bn_process n with
  | Some _, Some p =>
      attempt (onHost (proc_Signal p (if bool_decide (GOOS = "windows") then SigKill else SigInterrupt)));;
      onHost (cmd_Wait p)
  | _, _ => mret tt
  end.

Definition bn_cleanup : M NodeSys unit :=
  n ← gets ns_node;
  (if bool_decide (bn_pidFile n <> "") then
     r ← attempt (onHost (os_Remove (bn_pidFile n)));
     match r with
     | inr err => Printf ("unable to remove file " +:+ bn_pidFile n +:+ ": " +:+ err)
     | inl _ => mret tt
     end
   else mret tt);;
  r ← attempt (onHost (os_RemoveAll (bn_dataDir n)));
  match r with
  | inr err => Printf ("Cannot remove dir " +:+ bn_dataDir n +:+ ": " +:+ err)
  | inl _ => mret tt
  end.

Definition bn_shutdown : M NodeSys unit := bn_stop;; bn_cleanup.

(** BabylonNodeHandler, a wrapper of the node *)
Definition bh_Start : M NodeSys unit :=
  r ← attempt bn_start;
  match r with
  | inr err => attempt bn_cleanup;; fail err
  | inl _ => mret tt
  end.

Definition bh_Stop : M NodeSys unit := bn_shutdown.

Definition GetNodeDataDir (n : babylonNode) : string := Join2 (Join2 (bn_dataDir n) "node0") "babylond".
Definition GetCovenantPk (n : babylonNode) : BIP340PubKey := bn_covenantPk n.

(** Decoding the slashing address and its script are btcd's. *)
Variables (BTCAddr : Type) (DecodeAddress : string -> res BTCAddr) (PayToAddr : BTCAddr -> res bytes).

Definition testSlashingAddr : string := "SZtRT4BySL3o4efdGLh3k7Kny8GAnsBrSW".

Definition initTestnetCmd (testDir : string) (pkScript : bytes) (covenantPk : BIP340PubKey) : Cmd File :=
  {| cm_Args := ["babylond"; "testnet"; "--v=1"; "--output-dir=" +:+ testDir; "--starting-ip-address=192.168.10.2";
                 "--keyring-backend=test"; "--chain-id=chain-test"; "--additional-sender-account";
                 "--min-staking-time-blocks=100"; "--min-staking-amount-sat=10000"; "--unbonding-time=21";
                 "--slashing-pk-script=" +:+ EncodeToString pkScript;
                 "--covenant-pks=" +:+ BIP340MarshalHex covenantPk; "--covenant-quorum=1"];
     cm_Env := None; cm_Stdout := None |}.

Definition startNodeCmd (nodeHome : string) (out : File) : Cmd File :=
  {| cm_Args := ["babylond"; "start"; "--home=" +:+ nodeHome; "--log_level=debug"];
     cm_Env := Some (os_Environ ++ ["BABYLON_BLS_PASSWORD=password"]); cm_Stdout := Some out |}.

(** A failure after the directory was made removes it, by the deferred
    function.  What is printed when babylond fails is left out. *)
Definition NewBabylonNodeHandler (covenantPk : BIP340PubKey) : M W babylonNode :=
  testDir ← baseDir "zBabylonTest";
  r ← attempt (
    let nodeHome := Join2 (Join2 testDir "node0") "babylond" in
    decodedAddr ← lift (DecodeAddress testSlashingAddr);
    pkScript ← lift (PayToAddr decodedAddr);
    cmd_Run (initTestnetCmd testDir pkScript covenantPk);;
    f ← os_Create (Join2 testDir "babylon.log");
    mret (newBabylonNode testDir nodeHome (startNodeCmd nodeHome f) "chain-test" testSlashingAddr covenantPk));
  match r with
  | inl n => mret n
  | inr err => os_RemoveAll testDir;; fail err
  end.

(** *** The process and its files *)

(** What os/exec and os promise: a started process runs until it is waited for;
    a signal and work on files do not end or start one by themselves. *)
Class TestHostLaws (running : W -> Z -> Prop) : Prop := {
  th_start : forall c w w' p, cmd_Start c w = (w', Ok p) -> running w' p;
  th_wait : forall p w w', cmd_Wait p w = (w', Ok tt) -> ~ running w' p;
  th_create : forall f w p, running (os_Create f w).1 p <-> running w p;
  th_write : forall f t w p, running (file_Write f t w).1 p <-> running w p;
  th_close : forall f w p, running (file_Close f w).1 p <-> running w p;
  th_remove : forall f w p, running (os_Remove f w).1 p <-> running w p;
  th_removeAll : forall f w p, running (os_RemoveAll f w).1 p <-> running w p
}.

Section Processes.
Context {running : W -> Z -> Prop} {TL : TestHostLaws running}.

(** The process [p] runs, or does not, and is the node's. *)
Definition alive (b : Prop) (p : Z) (s : NodeSys) : Prop := running (ns_world s) p <-> b.

Lemma keeps_onHost {A} b p (m : M W A) :
  (forall w, running (m w).1 p <-> running w p) -> keeps (alive b p) (onHost m) (fun _ => True).
Proof.
  intros Hm s Hs. specialize (Hm (ns_world s)). unfold onHost, alive in *. destruct (m (ns_world s)) as [w r]. simpl in *.
  split; [tauto|by destruct r].
Qed.

Lemma keeps_seq {A B} J (m : M NodeSys A) (k : A -> M NodeSys B) :
  keeps J m (fun _ => True) -> (forall a, keeps J (k a) (fun _ => True)) -> keeps J (m ≫= k) (fun _ => True).
Proof. intros Hm Hk. by apply (keeps_bind _ _ _ (fun _ => True)). Qed.

Lemma keeps_try {A} J (m : M NodeSys A) : keeps J m (fun _ => True) -> keeps J (attempt m) (fun _ => True).
Proof. intros Hm. by apply (keeps_attempt _ _ (fun _ => True)). Qed.

Lemma attempt_state {A} (m : M NodeSys A) s : (attempt m s).1 = (m s).1.
Proof. unfold attempt. by destruct (m s) as [s' [a|e|p|]]. Qed.

Lemma attempt_no_Err {A} (m : M NodeSys A) s e : (attempt m s).2 <> Err e.
Proof. unfold attempt. by destruct (m s) as [s' [a|?|p|]]. Qed.

Lemma cleanup_no_Err s e : (bn_cleanup s).2 <> Err e.
Proof.
  unfold bn_cleanup. erewrite bind_run_Ok by reflexivity.
  assert (forall A B (m : M NodeSys A) (k : A + error -> M NodeSys B) s,
    (forall x s, (k x s).2 <> Err e) -> ((attempt m ≫= k) s).2 <> Err e) as Hb.
  { intros A B m k s0 Hk. unfold mbind, M_bind. pose proof (attempt_no_Err m s0 e) as Ha.
    destruct (attempt m s0) as [s' [x|e'|p|]]; simpl in *; [apply Hk|congruence..]. }
  assert (forall (m k : M NodeSys unit) s, (forall s, (m s).2 <> Err e) -> (forall s, (k s).2 <> Err e) ->
    ((m;; k) s).2 <> Err e) as Hseq.
  { intros m k s0 Hm Hk. unfold mbind, M_bind. specialize (Hm s0).
    destruct (m s0) as [s' [x|e'|p|]]; simpl in *; [apply Hk|congruence..]. }
  apply Hseq.
  - intros s0. case_bool_decide; [|done]. apply Hb. by intros [].
  - intros s0. apply Hb. by intros [].
Qed.

Lemma kept_after {A B} (J : NodeSys -> Prop) (m : M NodeSys A) (k : A -> M NodeSys B) s :
  J (m s).1 -> (forall a, keeps J (k a) (fun _ => True)) -> J ((m ≫= k) s).1.
Proof.
  intros Hm Hk. unfold mbind, M_bind. destruct (m s) as [s' [a|e|p|]]; try done. by apply Hk.
Qed.

Lemma keeps_cleanup b p : keeps (alive b p) bn_cleanup (fun _ => True).
Proof.
  apply keeps_seq; [by intros s Hs|]. intros n. apply keeps_seq.
  - case_bool_decide; [|by apply keeps_ret]. apply keeps_seq; [apply keeps_try, keeps_onHost; intros; apply th_remove|].
    intros [u|err]; [by apply keeps_ret|by intros s0 Hs0].
  - intros _. apply keeps_seq; [apply keeps_try, keeps_onHost; intros; apply th_removeAll|].
    intros [u|err]; [by apply keeps_ret|by intros s0 Hs0].
Qed.

Lemma keeps_writePidFile b p q : keeps (alive b p) (writePidFile q) (fun _ => True).
Proof.
  apply keeps_seq; [by intros s Hs|]. intros n.
  apply keeps_seq; [apply keeps_onHost; intros; apply th_create|]. intros f.
  apply keeps_seq; [by intros s Hs|]. intros _.
  apply keeps_seq; [apply keeps_onHost; intros; apply th_write|]. intros _.
  apply keeps_onHost. intros. apply th_close.
Qed.

(** A command that was started runs after Start, whether that succeeds or
    fails. *)
Lemma bh_Start_running cmd s w p :
  bn_cmd (ns_node s) = Some cmd -> cmd_Start cmd (ns_world s) = (w, Ok p) ->
  running (ns_world (bh_Start s).1) p.
Proof.
  intros Hc Hs. pose proof (th_start _ _ _ _ Hs) as Hp.
  assert (exists s1, bn_start s = writePidFile p s1 /\ ns_world s1 = w) as (s1 & Hst & Hw).
  { unfold bn_start. erewrite bind_run_Ok by reflexivity. rewrite Hc.
    erewrite bind_run_Ok by (unfold onHost; by rewrite Hs). by eexists. }
  assert (alive True p s1) as H1 by (unfold alive; rewrite Hw; tauto).
  destruct (keeps_writePidFile True p p s1 H1) as [H2 _]. rewrite <- Hst in H2.
  assert (alive True p (bh_Start s).1) as H; [|by apply H].
  apply (kept_after (alive True p)); [by rewrite attempt_state|]. intros [u|e]; [by apply keeps_ret|].
  apply keeps_seq; [apply keeps_try, keeps_cleanup|]. intros _. apply keeps_fail.
Qed.

(** The life of the test's node.  A node whose start succeeds is a running
    process; a start that fails after the process was made (the pid file cannot
    be written) returns an error and removes the files, but leaves the process
    running.  A stop that succeeds leaves no process behind; one that fails
    returns the error of waiting, never the one of the signal, and leaves the
    files in place. *)
Theorem node_life cmd s p :
  bn_cmd (ns_node s) = Some cmd ->
  (forall w, cmd_Start cmd (ns_world s) = (w, Ok p) -> running (ns_world (bh_Start s).1) p) /\
  (bn_process (ns_node s) = Some p -> let '(s', r) := bh_Stop s in
     (r = Ok tt -> ~ running (ns_world s') p) /\
     (forall e, r = Err e -> exists w, cmd_Wait p w = (ns_world s', Err e) /\ ns_node s' = ns_node s)).
Proof.
  intros Hc. split; [intros w; by apply bh_Start_running|]. intros Hp. destruct (bh_Stop s) as [s' r] eqn:Hr.
  unfold bh_Stop, bn_shutdown, mbind at 1, M_bind in Hr. destruct (bn_stop s) as [s1 r1] eqn:Hs.
  unfold bn_stop in Hs. erewrite bind_run_Ok in Hs by reflexivity. rewrite Hc, Hp in Hs.
  set (sig := proc_Signal p _) in Hs.
  assert (ns_node (attempt (onHost sig) s).1 = ns_node s) as Hn.
  { rewrite attempt_state. unfold onHost. by destruct (sig (ns_world s)). }
  assert (forall e, (attempt (onHost sig) s).2 <> Err e) as He by (intros e; apply attempt_no_Err).
  unfold mbind, M_bind in Hs. destruct (attempt (onHost sig) s) as [s2 [x|e|m|]]; simpl in Hn, He;
    [|by destruct (He e)|by simplify_eq..].
  unfold onHost in Hs. destruct (cmd_Wait p (ns_world s2)) as [w r'] eqn:Hw. injection Hs as <- ->.
  destruct r1 as [[]|e|m|]; [|by simplify_eq/=; split; [done|]; intros ? [= <-]; eexists|by simplify_eq..].
  split.
  - intros ->. apply th_wait in Hw.
    assert (alive False p (bn_cleanup {| ns_node := ns_node s2; ns_log := ns_log s2; ns_world := w |}).1) as H
      by (apply keeps_cleanup; unfold alive; simpl; tauto).
    rewrite Hr in H. by intros ?%H.
  - intros e ->. by destruct (cleanup_no_Err {| ns_node := ns_node s2; ns_log := ns_log s2; ns_world := w |} e); rewrite Hr.
Qed.

End Processes.
End Node.
