(* ===== verification/SignerHarness.v ===== *)
(** * covenant-signer/itest: containers, bitcoind and the test manager

    containers/ (the docker containers of a test), bitcoindnodesetup.go (the
    bitcoind node in one of them, driven by its command line) and testmanager.go
    (a signer service on a test key, and the check of its answers).  dockertest,
    testify's Eventually and the verification functions of Babylon are
    parameters. *)
From Stdlib Require Import Strings.Byte Strings.Ascii Strings.String.
From S2P Require Import Prelude GoStd JsonText JsonCodec GoNet GoPath SignerConfig BtcLib Env SignerApp SignerProps ControllerProps Bip32 Keyrings WireTypes HmacAuth SignerServer NodeHarness.
Local Open Scope Z_scope.

(** ** containers/ *)

Record ImageConfig := { BitcoindRepository : string; BitcoindVersion : string }.

Definition dockerBitcoindRepository : string := "lncm/bitcoind".
Definition dockerBitcoindVersionTag : string := "v27.0".
Definition NewImageConfig : ImageConfig :=
  {| BitcoindRepository := dockerBitcoindRepository; BitcoindVersion := dockerBitcoindVersionTag |}.

Record RunOptions := {
  ro_Name : string;
  ro_Repository : string;
  ro_Tag : string;
  ro_User : string;
  ro_Mounts : list string;
  ro_ExposedPorts : list string;
  ro_PortBindings : list (string * (string * string));  (* port, host address and port *)
  ro_Cmd : list string
}.

Record HostConfig := { hc_RestartPolicy : string; hc_AutoRemove : bool }.

Class DockerLib (W : Type) : Type := {
  Pool : Type;
  Resource : Type;
  ContainerID : Resource -> string;
  NewPool : string -> M W Pool;
  RunWithOptions : Pool -> RunOptions -> (HostConfig -> HostConfig) -> M W Resource;
  Purge : Pool -> Resource -> M W unit;
  CreateExec : Pool -> string -> list string -> M W string;       (* container, words: an id *)
  (* the two streams, and the error if there is one *)
  StartExec : Pool -> string -> M W (string * string * option error)
}.

(** require.Eventually(t, condition, waitFor, tick): polls until the condition
    holds.  When it does not within the time, t.FailNow ends the test: no caller
    sees an error, so this is an end like the one of a panic. *)
Class Testify : Type := { Eventually : forall S : Type, M S bool -> Z -> Z -> M S unit }.
Arguments Eventually {_} {S} _ _ _.

Class TestifyLaws `{Testify} : Prop := {
  ev_fatal : forall S (c : M S bool) w t s e, (Eventually c w t s).2 <> Err e;
  ev_holds : forall S (c : M S bool) w t s s', Eventually c w t s = (s', Ok tt) -> exists s0, c s0 = (s', Ok true);
  ev_keeps : forall S (c : M S bool) w t (J : S -> Prop),
    (forall s, J s -> J (c s).1) -> forall s, J s -> J (Eventually c w t s).1;
  ev_first : forall S (c : M S bool) w t s s', 0 < t -> t < w -> c s = (s', Ok true) -> Eventually c w t s = (s', Ok tt)
}.

Definition second : Z := 1000000000.
Definition bitcoindContainerName : string := "bitcoind-test".

Section Containers.
Context {W : Type} `{DL : !DockerLib W} `{TF : Testify}.

Record Manager := { mg_cfg : ImageConfig; mg_pool : Pool; mg_resources : gmap string Resource }.

Definition NewManager : M W Manager :=
  pool ← NewPool "";
  mret {| mg_cfg := NewImageConfig; mg_pool := pool; mg_resources := ∅ |}.

(** A command: the host, what the test logged, and the two buffers. *)
Record ExecSys := { ex_world : W; ex_log : list string; ex_out : string; ex_err : string }.

Definition onDocker {A} (m : M W A) : M ExecSys A := fun s =>
  let '(w, r) := m (ex_world s) in
  ({| ex_world := w; ex_log := ex_log s; ex_out := ex_out s; ex_err := ex_err s |}, r).
Definition Logf (line : string) : M ExecSys unit := modify (fun s =>
  {| ex_world := ex_world s; ex_log := ex_log s ++ [line]; ex_out := ex_out s; ex_err := ex_err s |}).
Definition setBuffers (out err : string) : M ExecSys unit := modify (fun s =>
  {| ex_world := ex_world s; ex_log := ex_log s; ex_out := out; ex_err := err |}).

(** The regular expression (E|e)rror *)
Definition errRegex (s : string) : bool := Contains s "Error" || Contains s "error".

(** The condition of ExecCmd *)
Definition execOnce (m : Manager) (containerID : string) (command : list string) : M ExecSys bool :=
  setBuffers "" "";;
  exec ← attempt (onDocker (CreateExec (mg_pool m) containerID command));
  match exec with
  | inr err => Logf ("failed to create exec: " +:+ err);; mret false
  | inl exec =>
      '(out, err, e) ← onDocker (StartExec (mg_pool m) exec);
      setBuffers out err;;
      match e with
      | Some e => Logf ("failed to start exec: " +:+ e);; mret false
      | None =>
          if errRegex err then
            Logf (String "010" "stderr:");; Logf err;; Logf (String "010" "stdout:");; Logf out;; mret false
          else mret true
      end
  end.

Definition execTimeout : Z := 20 * second.
Definition pollInterval : Z := 500 * 1000000.

Definition ExecCmd (m : Manager) (containerName : string) (command : list string) : M ExecSys (string * string) :=
  match mg_resources m !! containerName with
  | None => fail ("no resource " +:+ containerName +:+ " found")
  | Some r =>
      Logf (lf +:+ lf +:+ "Running: " +:+ qt +:+ "[" +:+ String.concat " " command +:+ "]" +:+ qt);;
      setBuffers "" "";;
      Eventually (execOnce m (ContainerID r) command) execTimeout pollInterval;;
      s ← gets (fun s => (ex_out s, ex_err s));
      mret s
  end.

Definition ExecBitcoindCliCmd (m : Manager) (command : list string) : M ExecSys (string * string) :=
  ExecCmd m bitcoindContainerName
    (["bitcoin-cli"; "-chain=regtest"; "-rpcuser=user"; "-rpcpassword=pass"] ++ command).

Definition dockerConf (config : HostConfig) : HostConfig := {| hc_RestartPolicy := "no"; hc_AutoRemove := true |}.

Definition bitcoindPorts : list string := ["8332"; "8333"; "28332"; "28333"; "18443"; "18444"].

Definition bitcoindOptions (cfg : ImageConfig) (bitcoindCfgPath : string) : RunOptions :=
  {| ro_Name := bitcoindContainerName; ro_Repository := BitcoindRepository cfg; ro_Tag := BitcoindVersion cfg;
     ro_User := "root:root"; ro_Mounts := [bitcoindCfgPath +:+ "/:/data/.bitcoin"];
     ro_ExposedPorts := (fun p => p +:+ "/tcp") <$> bitcoindPorts;
     ro_PortBindings := (fun p => (p +:+ "/tcp", ("", p))) <$> bitcoindPorts;
     ro_Cmd := ["-regtest"; "-txindex"; "-rpcuser=user"; "-rpcpassword=pass"; "-rpcallowip=0.0.0.0/0";
                "-rpcbind=0.0.0.0"] |}.

(** The manager with the resource it has made *)
Definition RunBitcoindResource (m : Manager) (bitcoindCfgPath : string) : M W (Manager * Resource) :=
  r ← RunWithOptions (mg_pool m) (bitcoindOptions (mg_cfg m) bitcoindCfgPath) dockerConf;
  mret ({| mg_cfg := mg_cfg m; mg_pool := mg_pool m;
           mg_resources := <[bitcoindContainerName := r]> (mg_resources m) |}, r).

(** The loop over the map, in the order [rs] the runtime picks. *)
Fixpoint purgeAll (m : Manager) (rs : list Resource) : M W unit :=
  match rs with
  | [] => mret tt
  | r :: rs => Purge (mg_pool m) r;; purgeAll m rs
  end.

(** Every manager has one container at most, so there is one order. *)
Definition ClearResources (m : Manager) : M W unit := purgeAll m (map_to_list (mg_resources m)).*2.

(** *** Lemmas *)

Definition oneContainer (m : Manager) : Prop := dom (mg_resources m) ⊆ {[bitcoindContainerName]}.

Lemma oneContainer_run m path w w' m' r :
  RunBitcoindResource m path w = (w', Ok (m', r)) -> oneContainer m -> oneContainer m'.
Proof.
  unfold RunBitcoindResource, oneContainer. intros H Hm. inv_bind H. injection H as <- <- <-. simpl. set_solver.
Qed.

Lemma oneContainer_order m rs : oneContainer m -> rs ≡ₚ (map_to_list (mg_resources m)).*2 ->
  rs = (map_to_list (mg_resources m)).*2.
Proof.
  unfold oneContainer. intros Hm Hp.
  assert (length (map_to_list (mg_resources m)) <= 1)%nat as Hl.
  { rewrite length_map_to_list, <- size_dom. etrans; [by apply subseteq_size|]. by rewrite size_singleton. }
  rewrite <- (length_fmap snd), <- Hp in Hl. destruct rs as [|r [|? ?]]; simpl in Hl; [|..|lia].
  - by apply Permutation_nil_l in Hp.
  - symmetry in Hp. by apply Permutation_singleton_r in Hp.
Qed.

(** A command that is answered ran without an error on its error stream. *)
Lemma ExecCmd_clean `{!TestifyLaws} m name command s s' out err :
  ExecCmd m name command s = (s', Ok (out, err)) ->
  is_Some (mg_resources m !! name) /\ Contains err "Error" = false /\ Contains err "error" = false.
Proof.
  unfold ExecCmd. destruct (mg_resources m !! name) as [r|]; [|done]. intros Hx.
  inv_bind Hx. inv_bind Hx. inv_bind Hx. inv_bind Hx. injection Hm2 as <- <-. injection Hx as <- <- <-. destruct a1.
  apply ev_holds in Hm1 as [sc Hc]. split; [by eexists|].
  unfold execOnce in Hc. inv_bind Hc. inv_bind Hc. destruct a2 as [id|e]; [|done].
  inv_bind Hc. destruct a2 as [[o er] oe]. inv_bind Hc. injection Hm4 as <- <-.
  destruct oe as [e|]; [done|]. destruct (errRegex er) eqn:Hr; [done|]. injection Hc as <-. simpl.
  by apply orb_false_iff in Hr.
Qed.

(** The one error a caller can see is that of a container that does not run. *)
Lemma ExecCmd_error `{!TestifyLaws} m name command s e :
  (ExecCmd m name command s).2 = Err e -> mg_resources m !! name = None /\ e = "no resource " +:+ name +:+ " found".
Proof.
  unfold ExecCmd. destruct (mg_resources m !! name) as [r|]; [|by intros [= <-]].
  erewrite bind_run_Ok by reflexivity. erewrite bind_run_Ok by reflexivity. intros He.
  unfold mbind, M_bind in He. destruct (Eventually _ _ _ _) as [s' [u|e'|p|]] eqn:Hv; try done.
  by destruct (ev_fatal _ (execOnce m (ContainerID r) command) execTimeout pollInterval _ e'
                 ltac:(rewrite Hv; reflexivity)).
Qed.

End Containers.
Arguments ExecSys W : clear implicits.

(** ** bitcoindnodesetup.go *)

Record CreateWalletResponse := { cw_Name : string; cw_Warning : string }.
Record GenerateBlockResponse := { gb_Address : string; gb_Blocks : slice string }.

#[export] Instance createWalletType : JsonType CreateWalletResponse := {
  toJson r := JObj [("name", JStr (cw_Name r)); ("warning", JStr (cw_Warning r))];
  fromJson := decStruct (fun l old =>
    n <~ field ["name"; "warning"] "name" decString l (cw_Name old);
    w <~ field ["name"; "warning"] "warning" decString l (cw_Warning old);
    ({| cw_Name := n; cw_Warning := w |}, false));
  zeroValue := {| cw_Name := ""; cw_Warning := "" |}
}.

#[export] Instance generateBlockType : JsonType GenerateBlockResponse := {
  toJson r := JObj [("address", JStr (gb_Address r)); ("blocks", JArr (JStr <$> view (gb_Blocks r)))];
  fromJson := decStruct (fun l old =>
    a <~ field ["address"; "blocks"] "address" decString l (gb_Address old);
    b <~ field ["address"; "blocks"] "blocks" decSlice l (gb_Blocks old);
    ({| gb_Address := a; gb_Blocks := b |}, false));
  zeroValue := {| gb_Address := ""; gb_Blocks := nilSlice |}
}.

(** What t.Cleanup has registered, run at the end of the test. *)
Inductive Cleanup := RemoveDir (path : string) | ClearManager | StopServer.

Section Bitcoind.
Context {W : Type} `{DL : !DockerLib W} `{TF : Testify} `{TH : !TestHost W}.

Definition startTimeout : Z := 30 * second.

(** require.NoError on the error of encoding/json, whose text nobody reads *)
Definition unmarshalled {A} `{JsonType A} (text : string) : M (ExecSys W) A :=
  match Unmarshal fromJson zeroValue text with
  | Some a => mret a
  | None => fail "invalid JSON"
  end.

Definition GetBlockCount (m : Manager) : M (ExecSys W) Z :=
  '(buff, _) ← ExecBitcoindCliCmd m ["getblockcount"];
  match Atoi (TrimSuffix buff "010") with
  | Some num => mret num
  | None => fail "invalid syntax"
  end.

Definition bt_Start (m : Manager) : M (ExecSys W) (Manager * list Cleanup) :=
  tempPath ← onDocker (os_MkdirTemp "" "bitcoind-staker-test-*");
  '(m, _) ← onDocker (RunBitcoindResource m tempPath);
  Eventually (
    r ← attempt (GetBlockCount m);
    match r with
    | inr err => Logf ("failed to get block count: " +:+ err);; mret false
    | inl _ => Logf "failed to get block count: <nil>";; mret true
    end) startTimeout pollInterval;;
  mret (m, [RemoveDir tempPath]).

Definition CreateWallet (m : Manager) (walletName passphrase : string) : M (ExecSys W) CreateWalletResponse :=
  '(buff, _) ← ExecBitcoindCliCmd m ["createwallet"; walletName; "false"; "false"; passphrase];
  unmarshalled buff.

Definition GenerateBlocks (m : Manager) (count : Z) : M (ExecSys W) GenerateBlockResponse :=
  '(buff, _) ← ExecBitcoindCliCmd m ["-generate"; pretty count];
  unmarshalled buff.

(** The count bitcoind prints, with its line end, is the one returned. *)
Lemma block_count_read (n : N) : Z.of_N n < 2 ^ 63 -> Atoi (TrimSuffix (pretty n +:+ lf) "010") = Some (Z.of_N n).
Proof. intros Hn. unfold lf. rewrite TrimSuffix_snoc. by apply Atoi_pretty. Qed.

End Bitcoind.

(** ** testmanager.go *)

(** btcec.NewPrivateKey and the import of a key into a keyring *)
Class TestKeys (W : Type) `{BL : BtcLib} `{KL : !KeyringLib W} : Type := {
  NewPrivateKey : M W PrivateKey;
  ImportPrivKeyHex : KrHandle -> string -> string -> string -> M W unit       (* name, key, algorithm *)
}.

(** babylon/btcstaking and the adaptor signatures: verification *)
Class VerifyLib `{BL : BtcLib} : Type := {
  NewAdaptorSignatureFromBytes : bytes -> res AdaptorSig;
  EncVerifyTransactionSigWithOutput :
    MsgTx -> TxOut -> bytes -> PublicKey -> EncryptionKey -> AdaptorSig -> res unit;
  VerifyTransactionSigWithOutput : MsgTx -> TxOut -> bytes -> PublicKey -> bytes -> res unit
}.

(** What they promise: a signature made by the signing functions for an output
    of the funding transaction (which they check to be there) verifies under
    the public key, and a marshalled adaptor signature is read back. *)
Class VerifyLaws `{VL : VerifyLib} : Prop := {
  vl_marshal : forall sig b, MustMarshal sig = Ok b -> NewAdaptorSignatureFromBytes b = Ok sig;
  vl_enc : forall tx funding i script k e sig,
    EncSignTxWithOneScriptSpendInputStrict tx funding i script k e = Ok sig ->
    exists out, index (tx_TxOut funding) i = Ok out /\
      EncVerifyTransactionSigWithOutput tx out script (PrivPubKey k) e sig = Ok tt;
  vl_sign : forall tx funding i script k sig,
    SignTxWithOneScriptSpendInputStrict tx funding i script k = Ok sig ->
    exists out, index (tx_TxOut funding) i = Ok out /\
      VerifyTransactionSigWithOutput tx out script (PrivPubKey k) (SigSerialize sig) = Ok tt
}.

Section TestManager.
Context `{BL : BtcLib} {W : Type} `{OS : !Os W} `{KL : !KeyringLib W} `{CH : ChiLib}.
Context `{DL : !DockerLib W} `{TF : Testify} `{TH : !TestHost W} `{TK : !TestKeys W}.

Record TestManager := {
  tm_bitcoind : Manager (W := W);
  tm_walletPass : string;
  tm_signerConfig : SignerConfig;
  tm_app : PrivKeyRetriever;
  tm_server : Handler ServerSys;
  tm_hmacKey : string;
  tm_cleanups : list Cleanup
}.

Definition withHMACKey (c : SignerConfig) (key : string) : SignerConfig :=
  let s := Server c in
  {| KeyStore := KeyStore c;
     Server := {| sc_Host := sc_Host s; sc_Port := sc_Port s; sc_WriteTimeout := sc_WriteTimeout s;
                  sc_ReadTimeout := sc_ReadTimeout s; sc_IdleTimeout := sc_IdleTimeout s;
                  sc_MaxContentLength := sc_MaxContentLength s; sc_HMACKey := key |};
     Metrics := Metrics c |}.

Definition withCosmosStore (c : SignerConfig) (store : CosmosKeyStoreConfig) : SignerConfig :=
  {| KeyStore := {| ks_KeyStoreType := "cosmos"; ks_CosmosKeyStore := Some store |};
     Server := Server c; Metrics := Metrics c |}.

Definition fileStore : CosmosKeyStoreConfig :=
  {| ck_ChainID := ""; ck_KeyDirectory := "./testkeyring"; ck_KeyringBackend := "file"; ck_KeyName := "test" |}.
Definition memoryStore : CosmosKeyStoreConfig :=
  {| ck_ChainID := "test-chain"; ck_KeyDirectory := ""; ck_KeyringBackend := "memory"; ck_KeyName := "test-key" |}.

(** NewCosmosKeyringRetriever, then the import of a new key into its keyring:
    the retriever reads the keyring as the import leaves it. *)
Definition memoryRetriever : M W PrivKeyRetriever :=
  kr ← wrapErrM "failed to create keyring"
         (CreateKeyring (ck_KeyDirectory memoryStore) (ck_ChainID memoryStore) (ck_KeyringBackend memoryStore));
  kc ← lift (NewChainKeyringControllerWithKeyring kr (ck_KeyName memoryStore));
  covPrivKey ← NewPrivateKey;
  ImportPrivKeyHex (kc_kr kc) (ck_KeyName memoryStore) (EncodeToString (PrivSerialize covPrivKey)) "secp256k1";;
  w ← gets id;
  mret (KeyringRetriever (KR := openedKeyring (kc_kr kc) w) (kc_keyName kc)).

Definition StartManager (numMatureOutputsInWallet : Z) (useEncryptedFileKeyRing : bool) (hmacKey : string)
  : M (ExecSys W) TestManager :=
  m ← onDocker NewManager;
  '(m, cleanups) ← bt_Start m;
  let passphrase := "pass" in
  _ ← CreateWallet m "test-wallet" passphrase;
  _ ← GenerateBlocks m (numMatureOutputsInWallet + 100);
  appConfig ← lift DefaultSignerConfig;
  let appConfig := if bool_decide (hmacKey <> "") then withHMACKey appConfig hmacKey else appConfig in
  '(appConfig, retriever) ←
    (if useEncryptedFileKeyRing then
       retriever ← onDocker (NewCosmosKeyringRetriever (Some fileStore));
       mret (withCosmosStore appConfig fileStore, retriever)
     else
       retriever ← onDocker memoryRetriever;
       mret (withCosmosStore appConfig memoryStore, retriever));
  parsedConfig ← lift (SignerConfig_Parse appConfig);
  let server := New retriever (fun _ => mret tt) (pc_ServerConfig parsedConfig) in
  mret {| tm_bitcoind := m; tm_walletPass := passphrase; tm_signerConfig := appConfig; tm_app := retriever;
          tm_server := server; tm_hmacKey := hmacKey; tm_cleanups := ClearManager :: cleanups ++ [StopServer] |}.

Definition SigningServerUrl (tm : TestManager) : string :=
  "http://" +:+ sc_Host (Server (tm_signerConfig tm)) +:+ ":" +:+ pretty (sc_Port (Server (tm_signerConfig tm))).

Context `{VL : !VerifyLib}.

Definition verifyResponse (resp : ParsedSigningResponse) (req : ParsedSigningRequest) (covenantPubKey : PublicKey)
  : res unit :=
  b1 ← index (pp_SlashAdaptorSigs resp) 0;
  slashAdaptorSig ← NewAdaptorSignatureFromBytes b1;
  out1 ← index (tx_TxOut (pr_StakingTx req)) (pr_StakingOutputIdx req);
  e1 ← index (pr_FpEncKeys req) 0;
  _ ← wrapErr "failed to verify slash adaptor signature for slashing tx"
        (EncVerifyTransactionSigWithOutput (pr_SlashingTx req) out1 (pr_SlashingScript req) covenantPubKey e1
           slashAdaptorSig);
  b2 ← index (pp_SlashUnbondingAdaptorSigs resp) 0;
  slashUnbondingAdaptorSig ← NewAdaptorSignatureFromBytes b2;
  out2 ← index (tx_TxOut (pr_UnbondingTx req)) 0;
  _ ← wrapErr "failed to verify slash unbonding adaptor signature for slash unbonding tx"
        (EncVerifyTransactionSigWithOutput (pr_SlashUnbondingTx req) out2 (pr_UnbondingSlashingScript req)
           covenantPubKey e1 slashUnbondingAdaptorSig);
  wrapErr "failed to verify unbonding signature for unbonding tx"
    (VerifyTransactionSigWithOutput (pr_UnbondingTx req) out1 (pr_UnbondingScript req) covenantPubKey
       (SigSerialize (pp_UnbondingSig resp))).

(** The pair of adaptor signatures made for one finality provider verifies. *)
Lemma fpSigs_verify `{VLaws : !VerifyLaws} k req e b1 b2 : fpSigs k req e = Ok (b1, b2) ->
  exists s1 s2 out1 out2,
    NewAdaptorSignatureFromBytes b1 = Ok s1 /\ NewAdaptorSignatureFromBytes b2 = Ok s2 /\
    index (tx_TxOut (pr_StakingTx req)) (pr_StakingOutputIdx req) = Ok out1 /\
    index (tx_TxOut (pr_UnbondingTx req)) 0 = Ok out2 /\
    EncVerifyTransactionSigWithOutput (pr_SlashingTx req) out1 (pr_SlashingScript req) (PrivPubKey k) e s1 = Ok tt /\
    EncVerifyTransactionSigWithOutput (pr_SlashUnbondingTx req) out2 (pr_UnbondingSlashingScript req)
      (PrivPubKey k) e s2 = Ok tt.
Proof.
  intros (s1 & H1 & Hr)%res_bind_Ok. apply res_bind_Ok in Hr as (s2 & H2 & Hr).
  apply res_bind_Ok in Hr as (m1 & Hm1 & Hr). apply res_bind_Ok in Hr as (m2 & Hm2 & [= -> ->]).
  apply wrapErr_Ok, vl_enc in H1 as (out1 & Ho1 & Hv1). apply wrapErr_Ok, vl_enc in H2 as (out2 & Ho2 & Hv2).
  apply vl_marshal in Hm1, Hm2. by exists s1, s2, out1, out2.
Qed.

Lemma index_head {A} (a : A) l : index (a :: l) 0 = Ok a.
Proof. reflexivity. Qed.

(** C12: the check of the end-to-end tests accepts the signer: whatever the
    request, if it names a finality provider and the signing specification has
    an answer under the key [k], verifyResponse passes on that answer for the
    public key of [k]. *)
Theorem test_oracle_accepts `{VLaws : !VerifyLaws} k req resp :
  signSpec k req = Ok resp -> pr_FpEncKeys req <> [] -> verifyResponse resp req (PrivPubKey k) = Ok tt.
Proof.
  intros Hs Hne. unfold signSpec in Hs. apply res_bind_Ok in Hs as (sigs & Hm & Hs).
  apply res_bind_Ok in Hs as (u & Hu & Hs). apply res_bind_Ok in Hs as (x & _ & [= <-]).
  destruct (pr_FpEncKeys req) as [|e es] eqn:He; [done|].
  apply mapM_res_Ok in Hm. inversion Hm as [|? [b1 b2] ? rest Hf _]; subst.
  apply fpSigs_verify in Hf as (s1 & s2 & out1 & out2 & Hb1 & Hb2 & Ho1 & Ho2 & Hv1 & Hv2).
  apply wrapErr_Ok, vl_sign in Hu as (out & Ho & Hv). rewrite Ho1 in Ho. injection Ho as <-.
  unfold verifyResponse. rewrite He.
  repeat (apply res_bind_Ok; eexists; split;
    [first [eassumption | apply wrapErr_Ok; eassumption | apply index_head]|]).
  by apply wrapErr_Ok.
Qed.

End TestManager.
