(* ===== verification/Covd.v ===== *)
(** * cmd/covd: the commands of the emulator, and log/log.go

    init, create-key, show-key and start, with the root logger and the
    construction of the client controller.  Each command is a function of its
    flags; what it prints is part of the state [Cli].  [start] ends where
    RunUntilShutdown takes over ([Daemon]). *)
From Stdlib Require Import Strings.Ascii Strings.String.
From S2P Require Import Prelude GoStd JsonText GoNet GoPath SignerConfig BtcLib Config Types Env ParamsCache ClientController Emulator Lifecycle SignerApp Keyrings HmacAuth Daemon SignerServer SignerClient.
Local Open Scope Z_scope.

(** ** log/log.go *)

(** strings.ToLower, as far as the result is compared with ASCII words: of the
    runes outside ASCII only U+0130 and U+212A have their lower case in it. *)
Fixpoint ToLower (s : string) : string :=
  match s with
  | "" => ""
  | String "196" (String "176" s) => String "i" (ToLower s)
  | String "226" (String "132" (String "170" s)) => String "k" (ToLower s)
  | String c s => String (if between 65 90 (code c) then ascii_of_N (code c + 32) else c) (ToLower s)
  end.

Inductive ZapLevel := PanicLevel | FatalLevel | ErrorLevel | WarnLevel | InfoLevel | DebugLevel.
Inductive ZapEncoder := JSONEncoder | ConsoleEncoder | LogfmtEncoder.

Definition NewRootLogger (format level : string) : res (ZapEncoder * ZapLevel) :=
  enc ← (if bool_decide (format = "json") then Ok JSONEncoder
         else if bool_decide (format = "auto" \/ format = "console") then Ok ConsoleEncoder
         else if bool_decide (format = "logfmt") then Ok LogfmtEncoder
         else Err ("unrecognized log format " +:+ format));
  let l := ToLower level in
  lvl ← (if bool_decide (l = "panic") then Ok PanicLevel
         else if bool_decide (l = "fatal") then Ok FatalLevel
         else if bool_decide (l = "error") then Ok ErrorLevel
         else if bool_decide (l = "warn" \/ l = "warning") then Ok WarnLevel
         else if bool_decide (l = "info") then Ok InfoLevel
         else if bool_decide (l = "debug") then Ok DebugLevel
         else Err ("unsupported log level: " +:+ level));
  Ok (enc, lvl).

Section Logger.
Context {W : Type} `{!Os W}.

Definition NewRootLoggerWithFile (logFile level : string) : M W (ZapEncoder * ZapLevel) :=
  MakeDirectory (Dir logFile);;
  os_OpenAppend logFile;;
  lift (NewRootLogger "console" level).

End Logger.

(** ** clientcontroller: construction *)

(** The Babylon client library: validation and connection *)
Class BbnNew (W : Type) : Type := {
  BabylonConfig_Validate : BabylonConfig -> res unit;
  bbnclient_New : BabylonConfig -> M W unit
}.

Section NewController.
Context {W : Type} `{!BbnNew W}.

Definition NewBabylonController (cfg : BBNConfig) (maxRetiresBatchRemovingMsgs : Z) : M W BabylonController :=
  let bbnConfig := BBNConfigToBabylonConfig cfg in
  lift (wrapErr "invalid config for Babylon client" (BabylonConfig_Validate bbnConfig));;
  wrapErrM "failed to create Babylon client" (bbnclient_New bbnConfig);;
  mret {| bc_Key := bbn_Key cfg; bc_AccountPrefix := bbn_AccountPrefix cfg;
          MaxRetiresBatchRemovingMsgs := maxRetiresBatchRemovingMsgs |}.

Definition NewClientController (chainName : string) (cfg : BBNConfig) (maxRetiresBatchRemovingMsgs : Z)
  : M W BabylonController :=
  if bool_decide (chainName = "babylon") then
    wrapErrM "failed to create Babylon rpc client" (NewBabylonController cfg maxRetiresBatchRemovingMsgs)
  else fail "unsupported consumer chain".

End NewController.

(** ** The commands *)

Section Commands.
Context {W : Type}.

(** The world and the standard output, a line per element. *)
Record Cli := { cli_world : W; cli_out : list string }.

Definition onCli {A} (m : M W A) : M Cli A := fun s =>
  let '(w, r) := m (cli_world s) in ({| cli_world := w; cli_out := cli_out s |}, r).

(** A call that uses a keyring: its reader starts empty. *)
Definition onKeyring {A} (m : M (KrSys W) A) : M Cli A := fun s =>
  let '(k, r) := m {| krWorld := cli_world s; krInput := "" |} in
  ({| cli_world := krWorld k; cli_out := cli_out s |}, r).

Definition Println (line : string) : M Cli unit :=
  modify (fun s => {| cli_world := cli_world s; cli_out := cli_out s ++ [line] |}).

End Commands.
Arguments Cli W : clear implicits.

Record covenantKey := { ck_Name : string; ck_PublicKey : string; ck_BabylonAddr : string }.

(** json.MarshalIndent with four spaces *)
Definition covenantKeyJSON (k : covenantKey) : string :=
  let member name value := "    " +:+ quote name +:+ ": " +:+ quote value in
  "{" +:+ lf +:+ member "name" (ck_Name k) +:+ "," +:+ lf
      +:+ member "public-key-hex" (ck_PublicKey k) +:+ "," +:+ lf
      +:+ member "babylon-address" (ck_BabylonAddr k) +:+ lf +:+ "}".

Definition printRespJSON {W} (resp : covenantKey) : M (Cli W) unit := Println (covenantKeyJSON resp).

(** signal.Intercept of lnd *)
Class Interceptor (W : Type) : Type := { Intercept : M W unit }.

Section Covd.
Context `{BL : BtcLib} {BN : BtcNets} {W : Type} `{OS : !Os W} `{GF : !GoFlags W} `{BD : BbnDefaults}.

(** init.go *)
Definition initHome (home : string) (force : bool) : M W unit :=
  homePath ← lift (Abs home);
  let homePath := CleanAndExpandPath homePath in
  exist ← FileExists homePath;
  if (exist : bool) && negb force then fail ("home path " +:+ homePath +:+ " already exists")
  else
    MakeDirectory homePath;;
    MakeDirectory (LogDir homePath);;
    defaultConfig ← lift (DefaultConfigWithHomePath homePath);
    ini_WriteFile (File homePath) defaultConfig.

Definition setKey (keyName keyBackend : string) (c : BBNConfig) : BBNConfig :=
  {| bbn_Key := keyName; bbn_ChainID := bbn_ChainID c; bbn_RPCAddr := bbn_RPCAddr c;
     bbn_GRPCAddr := bbn_GRPCAddr c; bbn_AccountPrefix := bbn_AccountPrefix c;
     bbn_KeyringBackend := keyBackend; bbn_GasAdjustment := bbn_GasAdjustment c;
     bbn_GasPrices := bbn_GasPrices c; bbn_KeyDirectory := bbn_KeyDirectory c; bbn_Debug := bbn_Debug c;
     bbn_Timeout := bbn_Timeout c; bbn_BlockTimeout := bbn_BlockTimeout c;
     bbn_OutputFormat := bbn_OutputFormat c; bbn_SignModeStr := bbn_SignModeStr c |}.

Definition setBabylon (c : BBNConfig) (cfg : Config) : Config :=
  {| cf_LogLevel := cf_LogLevel cfg; cf_QueryInterval := cf_QueryInterval cfg;
     cf_DelegationLimit := cf_DelegationLimit cfg; cf_SigsBatchSize := cf_SigsBatchSize cfg;
     cf_MaxRetiresBatchRemovingMsgs := cf_MaxRetiresBatchRemovingMsgs cfg;
     cf_BitcoinNetwork := cf_BitcoinNetwork cfg; cf_BTCNetParams := cf_BTCNetParams cfg;
     cf_Metrics := cf_Metrics cfg; cf_BabylonConfig := Some c; cf_RemoteSigner := cf_RemoteSigner cfg |}.

Definition nilDeref {S A} : M S A := lift (Panic "invalid memory address or nil pointer dereference").

Section Keys.
Context `{KL : !KeyringLib W}.

(** key.go *)
Definition createKey (homePath chainID keyName backend passphrase hdPath : string) : M (Cli W) unit :=
  cfg ← wrapErrM ("failed to load the config from " +:+ File homePath) (onCli (LoadConfig homePath));
  keyPair ← wrapErrM "failed to create covenant key"
              (onKeyring (CreateCovenantKey homePath chainID keyName backend passphrase hdPath));
  let bip340Key := NewBIP340PubKeyFromBTCPK (ki_PublicKey keyPair) in
  printRespJSON {| ck_Name := keyName; ck_PublicKey := BIP340MarshalHex bip340Key;
                   ck_BabylonAddr := ko_Address (ki_KeyOutput keyPair) |};;
  match cf_BabylonConfig cfg with
  | None => nilDeref
  | Some c => onCli (ini_WriteFile (File homePath) (setBabylon (setKey keyName backend c) cfg))
  end.

(** The keyring part of show-key: the private key and the address *)
Definition showKeyring (homePath chainID keyName backend passphrase : string)
  : M (KrSys W) (bytes * AccAddr) :=
  sdkCtx ← lift (CreateClientCtx homePath chainID);
  krController ← NewChainKeyringController sdkCtx keyName backend;
  privKey ← kc_GetChainPrivKey krController passphrase;
  r ← kc_KeyRecord krController;
  babylonAddr ← lift (rec_GetAddress r);
  mret (privKey, babylonAddr).

Definition showKey (homePath chainID keyName backend passphrase : string) : M (Cli W) unit :=
  '(privKey, babylonAddr) ← onKeyring (showKeyring homePath chainID keyName backend passphrase);
  let bip340Key := NewBIP340PubKeyFromBTCPK (PrivPubKey (PrivKeyFromBytes privKey)) in
  printRespJSON {| ck_Name := keyName; ck_PublicKey := BIP340MarshalHex bip340Key;
                   ck_BabylonAddr := AccAddressString babylonAddr |}.

End Keys.

Section Start.
Context `{RL : RetryLib} `{BC : !BbnClient W} `{NW : !BbnNew W} `{HC : !HttpClient W} `{IC : !Interceptor W} `{CK : !Clock W}.
Variable fuel : nat.                 (* of the controller's pagination loop *)

(** start.go, up to the call of RunUntilShutdown: the emulator it runs and its
    metrics configuration *)
Definition start (home : string) : M (Sys W) (Emulator W * MetricsConfig) :=
  homePath ← lift (Abs home);
  let homePath := CleanAndExpandPath homePath in
  cfg ← wrapErrM ("failed to load config at " +:+ homePath) (ext (LoadConfig homePath));
  match cf_BabylonConfig cfg with
  | None => nilDeref
  | Some bbnCfg =>
      if bool_decide (bbn_KeyringBackend bbnCfg <> "test") then
        fail ("the keyring backend in config must be `test` for automatic signing, got "
              +:+ bbn_KeyringBackend bbnCfg
              +:+ ". Other keyring backends are not supported as they require manual passphrase entry")
      else
        wrapErrM "failed to load the logger" (ext (NewRootLoggerWithFile (LogFile homePath) (cf_LogLevel cfg)));;
        bbnClient ← wrapErrM "failed to create rpc client for the consumer chain"
                      (ext (NewBabylonController bbnCfg (cf_MaxRetiresBatchRemovingMsgs cfg)));
        modify (add_log (Log InfoL "Performing health check on remote signer..."));;
        match cf_RemoteSigner cfg, cf_Metrics cfg with
        | Some signerCfg, Some metrics =>
            let signer := NewRemoteSigner signerCfg in
            wrapErrM "remote signer health check failed - ensure the signer is running and unlocked"
              (ext (PubKey signer));;
            modify (add_log (Log InfoL "Remote signer health check passed"));;
            ce ← wrapErrM "failed to start the covenant emulator"
                   (NewEmulator cfg metrics (babylonClientController bbnClient fuel) signer);
            ext Intercept;;
            mret (ce, metrics)
        | _, _ => nilDeref
        end
  end.

(** ** Lemmas: start *)

Lemma ext_Ok {A} (m : M W A) (s s' : Sys W) a :
  ext m s = (s', Ok a) -> m (world s) = (world s', Ok a).
Proof. unfold ext. destruct (m (world s)) as [w r]. by intros [= <- ->]. Qed.

(** The levels the root logger knows. *)
Definition knownLevel (level : string) : Prop :=
  ToLower level ∈ ["panic"; "fatal"; "error"; "warn"; "warning"; "info"; "debug"].

Lemma NewRootLogger_level format level l : NewRootLogger format level = Ok l -> knownLevel level.
Proof.
  unfold NewRootLogger, knownLevel. intros (enc & _ & (lvl & H & _)%res_bind_Ok)%res_bind_Ok.
  repeat (case_bool_decide; [set_solver|]). done.
Qed.

(** What has been checked when the daemon is about to run. *)
Record ready (cfg : Config) (ce : Emulator W) (m : MetricsConfig) : Prop := {
  rd_wf : wfConfig cfg;
  rd_backend : bbn_KeyringBackend <$> cf_BabylonConfig cfg = Some "test";
  rd_level : knownLevel (cf_LogLevel cfg);
  rd_metrics : cf_Metrics cfg = Some m /\ exists a, Address m = Ok a;
  rd_signer : exists c w w', cf_RemoteSigner cfg = Some c /\ ce_signer ce = NewRemoteSigner c /\
    rs_PubKey c w = (w', Ok (ce_pk ce));
  rd_config : SigsBatchSize ce = cf_SigsBatchSize cfg /\ DelegationLimit ce = cf_DelegationLimit cfg /\
    QueryInterval ce = cf_QueryInterval cfg /\ Some (BTCNetParams ce) = netOf (cf_BitcoinNetwork cfg)
}.

Lemma LoadConfig_Ok_wf home w w' cfg : LoadConfig home w = (w', Ok cfg) -> wfConfig cfg.
Proof.
  unfold LoadConfig. intros H. inv_bind H. destruct a; [|done]. inv_bind H. injection H as <- H.
  apply Validate_Ok in H as [(mc & Hmc & Hv) (p & Hp & ->)]. split; [by exists mc|done].
Qed.

Lemma NewEmulator_Ok cfg m (cc : ClientController W) signer s s' ce :
  NewEmulator cfg m cc signer s = (s', Ok ce) ->
  PubKey signer (world s) = (world s', Ok (ce_pk ce)) /\ ce_signer ce = signer /\
  SigsBatchSize ce = cf_SigsBatchSize cfg /\ DelegationLimit ce = cf_DelegationLimit cfg /\
  QueryInterval ce = cf_QueryInterval cfg /\ BTCNetParams ce = cf_BTCNetParams cfg.
Proof.
  unfold NewEmulator. intros H. inv_bind H. injection H as <- <-. apply wrapErrM_Ok, ext_Ok in Hm. done.
Qed.

Lemma start_Ok home s s' ce m :
  start home s = (s', Ok (ce, m)) ->
  exists homePath w1 cfg, Abs home = Ok homePath /\
    LoadConfig (CleanAndExpandPath homePath) (world s) = (w1, Ok cfg) /\ ready cfg ce m.
Proof.
  unfold start. intros H. inv_bind H. injection Hm as <- Ha. inv_bind H.
  apply wrapErrM_Ok, ext_Ok in Hm. pose proof (LoadConfig_Ok_wf _ _ _ _ Hm) as Hwf.
  exists a, (world s0), a0. split; [done|]. split; [done|].
  destruct (cf_BabylonConfig a0) as [bbnCfg|] eqn:Hb; [|done]. case_bool_decide as Ht; [done|].
  do 3 inv_bind H. apply wrapErrM_Ok, ext_Ok in Hm0. do 2 inv_bind Hm0. injection Hm0 as _ Hl.
  destruct (cf_RemoteSigner a0) as [c|] eqn:Hc; [|done]. destruct (cf_Metrics a0) as [mc|] eqn:Hmc; [|done].
  do 4 inv_bind H. injection H as <- <- <-. apply wrapErrM_Ok, NewEmulator_Ok in Hm6 as (Hpk & Hs & ? & ? & ? & Hn).
  destruct Hwf as [(m' & Hm' & Hv) Hnet]. split; [split; [by exists m'|done]| | | | |]; try done.
  - rewrite Hb. simpl. by f_equal.
  - by apply NewRootLogger_level in Hl.
  - rewrite Hmc in *. split; [done|]. simplify_eq. exists (mc_Host m' +:+ ":" +:+ pretty (mc_Port m')).
    unfold Address. apply MetricsConfig_Validate_Ok in Hv. by rewrite Hv.
  - rewrite Hs in *. by exists c, (world s7), (world s8).
  - by rewrite Hn.
Qed.

(** ** Properties *)

(** C15: the start command hands an emulator to the daemon only when its
    configuration is well formed, names the test keyring and a log level the
    logger knows (never trace, which the configuration offers), and the remote
    signer has answered with the public key the emulator then uses; and if
    RunUntilShutdown of the daemon then returns, it returns no error.  (The
    process may also exit when the metrics address cannot be bound, or crash,
    see [nonpositive_interval_crashes].) *)
Theorem start_runs home s s' ce m :
  start home s = (s', Ok (ce, m)) ->
  exists cfg, ready cfg ce m /\ cf_LogLevel cfg <> "trace" /\
    forall p r, rtc (pstep ce m) (newProcess s') p -> p_run p = RunReturned r -> r = Ok tt.
Proof.
  intros (homePath & w1 & cfg & _ & _ & Hr)%start_Ok. exists cfg. split; [done|]. split.
  - intros Ht. pose proof (rd_level _ _ _ Hr) as Hl. unfold knownLevel in Hl. rewrite Ht in Hl. vm_compute in Hl. set_solver.
  - intros p r Hp Hret. destruct (pInv_reachable ce m s' p Hp) as [Hi _]. unfold runInv in Hi. rewrite Hret in Hi.
    destruct (rd_metrics _ _ _ Hr) as [_ [a Ha]]. destruct r as [[]|e| |]; [done| |done|done].
    destruct Hi as [Hi _]. congruence.
Qed.

End Start.

(** ** The files the commands leave *)

(** go-flags on its own files.  [iniSafe] are the configurations whose values
    the format can carry (it trims blanks, for one); the network parameters are
    not an option, and every group of options is allocated by the parser. *)
Section Files.
Context (iniSafe : Config -> Prop).

Definition complete (cfg : Config) : Prop :=
  is_Some (cf_Metrics cfg) /\ is_Some (cf_BabylonConfig cfg) /\ is_Some (cf_RemoteSigner cfg).

Class GoFlagsLaws : Prop := {
  ini_written : forall f cfg w w', complete cfg -> iniSafe cfg -> ini_WriteFile f cfg w = (w', Ok tt) ->
    exists w1 w2, FileExists f w' = (w1, Ok true) /\
      ini_ParseFile f zeroConfig w1 = (w2, Ok (setNet zeroNetParams cfg));
  ini_complete : forall f w w' cfg, ini_ParseFile f zeroConfig w = (w', Ok cfg) -> complete cfg
}.

Context `{GL : !GoFlagsLaws}.

Lemma written_loads home cfg w w' :
  wfConfig cfg -> complete cfg -> iniSafe cfg -> ini_WriteFile (File home) cfg w = (w', Ok tt) ->
  exists w2, LoadConfig home w' = (w2, Ok cfg).
Proof.
  intros [Hm Hn] Hc Hs Hw. destruct (ini_written _ _ _ _ Hc Hs Hw) as (w1 & w2 & He & Hp).
  exists w2. unfold LoadConfig. erewrite bind_run_Ok by exact He. cbv iota. erewrite bind_run_Ok by exact Hp.
  unfold lift. f_equal. apply Validate_Ok. split; [done|]. exists (cf_BTCNetParams cfg). split; [exact Hn|]. by destruct cfg.
Qed.

Lemma LoadConfig_complete home w w' cfg : LoadConfig home w = (w', Ok cfg) -> complete cfg.
Proof.
  unfold LoadConfig. intros H. inv_bind H. destruct a; [|done]. inv_bind H. injection H as <- H.
  apply ini_complete in Hm0. by apply Validate_Ok in H as [_ (p & _ & ->)].
Qed.

Lemma default_complete home cfg : DefaultConfigWithHomePath home = Ok cfg -> complete cfg /\ wfConfig cfg.
Proof.
  intros H. destruct (DefaultConfig_valid home) as (cfg' & H' & Hwf & _).
  assert (cfg' = cfg) as -> by congruence. split; [|done]. revert H. unfold DefaultConfigWithHomePath. rewrite (Validate_net DefaultMetricsConfig) by done.
  intros [= <-]. repeat split; by eexists.
Qed.

Lemma onCli_Ok {A} (m : M W A) s s' a :
  onCli m s = (s', Ok a) -> m (cli_world s) = (cli_world s', Ok a) /\ cli_out s' = cli_out s.
Proof. unfold onCli. destruct (m (cli_world s)) as [w r]. by intros [= <- ->]. Qed.

Lemma onKeyring_Ok {A} (m : M (KrSys W) A) s s' a :
  onKeyring m s = (s', Ok a) -> cli_out s' = cli_out s /\
  exists k, m {| krWorld := cli_world s; krInput := "" |} = (k, Ok a) /\ krWorld k = cli_world s'.
Proof. unfold onKeyring. destruct (m _) as [k r]. intros [= <- ->]. split; [done|]. by exists k. Qed.

Section Created.
Context `{KL : !KeyringLib W} (stored : W -> Place -> string -> string -> KrRec -> Prop) `{LW : !KeyringLaws stored}.

Lemma CreateCovenantKey_Ok dir chain name backend passphrase hdPath s s' info :
  CreateCovenantKey dir chain name backend passphrase hdPath s = (s', Ok info) ->
  exists ctx rec key, CreateClientCtx dir chain = Ok ctx /\ CachedValue rec = Ok (Secp256k1PrivKey key) /\
    name <> "" /\ backend <> "" /\ ki_PublicKey info = PrivPubKey (PrivKeyFromBytes key) /\
    MkAccKeyOutput rec = Ok (ki_KeyOutput info) /\
    (backend <> "memory" -> noChar newline passphrase ->
     stored (krWorld s') (cx_ChainID ctx, backend, cx_KeyringDir ctx) name passphrase rec).
Proof.
  unfold CreateCovenantKey, CreateChainKey. intros Hr. inv_bind Hr. injection Hm as <- Hc.
  inv_bind Hr. inv_bind Hr. destruct a1 as [mnemonic rec]. inv_bind Hr. injection Hm1 as -> Hk.
  destruct a1 as [key|]; [|done]. injection Hr as <- (ko & Hko & [= <-])%res_bind_Ok.
  pose proof (NewChainKeyringController_Ok _ _ _ _ _ _ Hm) as (Hname & Hback & _).
  exists a, rec, key. split_and!; [done..|]. intros. by eapply newAccount_stored.
Qed.

(** The keyring part of show-key on a stored key. *)
Lemma showKeyring_stored home chain name backend passphrase ctx rec key ko w :
  CreateClientCtx home chain = Ok ctx -> name <> "" -> backend <> "" ->
  stored w (cx_ChainID ctx, backend, cx_KeyringDir ctx) name passphrase rec ->
  CachedValue rec = Ok (Secp256k1PrivKey key) -> MkAccKeyOutput rec = Ok ko ->
  (exists w1 h, kr_New (cx_ChainID ctx) backend (cx_KeyringDir ctx) w = (w1, Ok h)) ->
  exists k addr, showKeyring home chain name backend passphrase {| krWorld := w; krInput := "" |} = (k, Ok (key, addr)) /\
    AccAddressString addr = ko_Address ko.
Proof.
  intros Hc Hn Hb Hst Hk Ho (w1 & h & Hnew).
  pose proof (kl_kept _ _ _ _ (cx_ChainID ctx) backend (cx_KeyringDir ctx) _ Hst) as Hst'. rewrite Hnew in Hst'.
  assert (opened (cx_ChainID ctx, backend, cx_KeyringDir ctx) h) as Hop by (by eexists _, _).
  destruct (kl_read _ h _ _ _ w1 Hop Hst') as (s1 & Hr1 & s2 & Hr2).
  destruct (kl_output _ _ Ho) as (addr & Ha & Haddr). exists s2, addr. split; [|done].
  unfold showKeyring, NewChainKeyringController, kc_GetChainPrivKey, kc_KeyRecord.
  rewrite Hc, !bool_decide_false by done.
  unfold mbind, M_bind, lift, wrapErrM, setReader, modify, onWorld. simpl. rewrite Hnew. simpl.
  rewrite Hr1. simpl. rewrite Hk. simpl. rewrite Hr2. by rewrite Ha.
Qed.

Lemma create_then_show home chain name backend passphrase hdPath (s s' : Cli W) :
  createKey home chain name backend passphrase hdPath s = (s', Ok tt) ->
  backend <> "memory" -> noChar newline passphrase ->
  (forall f cfg w l n p rec, stored w l n p rec -> stored (ini_WriteFile f cfg w).1 l n p rec) ->
  (forall ctx, CreateClientCtx home chain = Ok ctx ->
     exists w h, kr_New (cx_ChainID ctx) backend (cx_KeyringDir ctx) (cli_world s') = (w, Ok h)) ->
  exists s'' line, showKey home chain name backend passphrase s' = (s'', Ok tt) /\
    cli_out s' = cli_out s ++ [line] /\ cli_out s'' = cli_out s' ++ [line].
Proof.
  intros Hr Hb Hp Hini Hopen. unfold createKey in Hr. inv_bind Hr. apply wrapErrM_Ok, onCli_Ok in Hm as [_ Ho1].
  inv_bind Hr. apply wrapErrM_Ok, onKeyring_Ok in Hm as (Ho2 & k & Hk & Hw).
  apply CreateCovenantKey_Ok in Hk as (ctx & rec & key & Hc & Hkey & Hn & Hback & Hpk & Hout & Hst).
  inv_bind Hr. injection Hm as <- _. destruct (cf_BabylonConfig a) as [c|]; [|done].
  apply onCli_Ok in Hr as [Hwrite Ho3]. specialize (Hst Hb Hp). rewrite Hw in Hst.
  apply (Hini (File home) (setBabylon (setKey name backend c) a)) in Hst. simpl in Hwrite. rewrite Hwrite in Hst.
  destruct (showKeyring_stored home chain name backend passphrase ctx rec key _ _ Hc Hn Hback Hst Hkey Hout (Hopen ctx Hc))
    as (k' & addr & Hshow & Haddr).
  eexists _, _. split; [|split; [rewrite Ho3; simpl; by rewrite Ho2, Ho1|]].
  - unfold showKey, onKeyring, mbind, M_bind. simpl in Hshow. by rewrite Hshow.
  - simpl. do 3 f_equal. by rewrite Hpk, Haddr.
Qed.

(** Show-key prints what create-key printed: after a successful create-key
    with a keyring on disk, show-key with the same flags succeeds and prints
    the same name, public key and address; writing the configuration in
    between loses nothing. *)
Theorem created_key_shown home chain name backend passphrase hdPath (s s' : Cli W) :
  createKey home chain name backend passphrase hdPath s = (s', Ok tt) ->
  backend <> "memory" -> noChar newline passphrase ->
  (forall f cfg w l n p rec, stored w l n p rec -> stored (ini_WriteFile f cfg w).1 l n p rec) ->
  (forall ctx, CreateClientCtx home chain = Ok ctx ->
     exists w h, kr_New (cx_ChainID ctx) backend (cx_KeyringDir ctx) (cli_world s') = (w, Ok h)) ->
  exists s'' line, showKey home chain name backend passphrase s' = (s'', Ok tt) /\
    cli_out s' = cli_out s ++ [line] /\ cli_out s'' = cli_out s' ++ [line].
Proof. apply create_then_show. Qed.

End Created.

(** C20: the home directory init makes is the one start loads: after init, the
    configuration loaded from it is the default one, which is well formed. *)
Theorem init_then_load home force homePath w w' :
  Abs home = Ok homePath ->
  (forall cfg, DefaultConfigWithHomePath (CleanAndExpandPath homePath) = Ok cfg -> iniSafe cfg) ->
  initHome home force w = (w', Ok tt) ->
  exists w2 cfg, LoadConfig (CleanAndExpandPath homePath) w' = (w2, Ok cfg) /\
    DefaultConfigWithHomePath (CleanAndExpandPath homePath) = Ok cfg /\ wfConfig cfg.
Proof.
  intros Ha Hs Hr. unfold initHome in Hr. inv_bind Hr. apply lift_Ok in Hm as [-> Ha'].
  assert (a = homePath) as -> by congruence. inv_bind Hr.
  case_match; [done|]. do 3 inv_bind Hr. apply lift_Ok in Hm2 as [-> Hd].
  destruct (default_complete _ _ Hd) as [Hc Hwf].
  destruct (written_loads _ _ _ _ Hwf Hc (Hs _ Hd) Hr) as [w2 Hl]. by exists w2, a2.
Qed.

(** create-key leaves a configuration that start's backend check judges: the
    loaded one with the new key name and backend. *)
Lemma createKey_config `{KL : !KeyringLib W} home chain name backend passphrase hdPath (s s' : Cli W) w1 cfg c :
  LoadConfig home (cli_world s) = (w1, Ok cfg) -> cf_BabylonConfig cfg = Some c ->
  iniSafe (setBabylon (setKey name backend c) cfg) ->
  createKey home chain name backend passphrase hdPath s = (s', Ok tt) ->
  exists w2, LoadConfig home (cli_world s') = (w2, Ok (setBabylon (setKey name backend c) cfg)).
Proof.
  intros Hl Hb Hs Hr. unfold createKey in Hr. inv_bind Hr. apply wrapErrM_Ok, onCli_Ok in Hm as [Hl' _].
  rewrite Hl in Hl'. simplify_eq. inv_bind Hr. inv_bind Hr. rewrite Hb in Hr. apply onCli_Ok in Hr as [Hr _].
  pose proof (LoadConfig_complete _ _ _ _ Hl) as (? & _ & ?). destruct (LoadConfig_Ok_wf _ _ _ _ Hl) as [? ?].
  eapply written_loads; [|done|exact Hs|exact Hr]. by split.
Qed.

End Files.

End Covd.
