(* ===== verification/SignerCmd.v ===== *)
(** * covenant-signer/cmd: the commands of the signer

    start, dump-cfg and derive-child-key, up to the point where start listens,
    and the whole path of a covenant key: created in the keyring, served by the
    signer, unlocked and read by the emulator over HTTP. *)
From Stdlib Require Import Strings.Ascii Strings.String.
From S2P Require Import Prelude GoStd JsonText JsonCodec GoNet GoPath SignerConfig BtcLib Config Env SignerApp Keyrings WireTypes Bip32 HmacAuth SignerServer SignerClient RemoteProps ServerProps Covd.
Local Open Scope Z_scope.

(** What srv.Start and the metrics server run with. *)
Record SignerProcess `{BL : BtcLib} := {
  sp_handler : Handler ServerSys;
  sp_addr : string;                (* of the signing service *)
  sp_metricsAddr : string          (* of the metrics server *)
}.

Section Commands.
Context `{BL : BtcLib} {W : Type} `{OS : !Os W} `{VP : !Viper W} `{KL : !KeyringLib W} `{CH : ChiLib}.

(** signerCmd.go; requests are served one at a time *)
Definition runSigner (configPath : string) : M W SignerProcess :=
  cfg ← GetConfig configPath;
  parsedConfig ← lift (SignerConfig_Parse cfg);
  prk ← (if bool_decide (pk_KeyStoreType (pc_KeyStoreConfig parsedConfig) = CosmosKeyStore) then
           NewCosmosKeyringRetriever (pk_CosmosKeyStore (pc_KeyStoreConfig parsedConfig))
         else fail "unknown key store type");
  let srv := New prk (fun _ => mret tt) (pc_ServerConfig parsedConfig) in
  let metricsAddress := smc_Host (Metrics cfg) +:+ ":" +:+ pretty (smc_Port (Metrics cfg)) in
  mret {| sp_handler := srv; sp_addr := serverAddr (pc_ServerConfig parsedConfig);
          sp_metricsAddr := metricsAddress |}.

(** dumpDefaultCfgCmd.go *)
Definition dumpCfg (path : string) : M (Cli W) unit :=
  conf ← lift DefaultSignerConfig;
  onCli (WriteConfigToFile path conf);;
  Println ("Default configuration file dumped to: " +:+ path +:+ " ").

(** derivechildkeycmd.go *)
Definition deriveChildKeyCmd `{HK : !HdKeychain} (masterKey derivationPath : string) : M (Cli W) unit :=
  result ← lift (DeriveChildKey masterKey derivationPath);
  Println ("Derived private key: " +:+ dres_PrivateKey result);;
  Println ("Derived public key: " +:+ dres_PublicKey result).

(** ** Lemmas *)

(** What has been checked when the signer listens. *)
Lemma runSigner_Ok path w w' proc :
  runSigner path w = (w', Ok proc) ->
  exists w1 cfg parsed pkr, GetConfig path w = (w1, Ok cfg) /\ SignerConfig_Parse cfg = Ok parsed /\
    NewCosmosKeyringRetriever (ks_CosmosKeyStore (KeyStore cfg)) w1 = (w', Ok pkr) /\
    sp_handler proc = New pkr (fun _ => mret tt) (pc_ServerConfig parsed).
Proof.
  unfold runSigner. intros H. inv_bind H. inv_bind H. apply lift_Ok in Hm0 as [-> Hp]. inv_bind H.
  injection H as <- <-. case_bool_decide; [|done]. exists s, a, a0, a1. split_and!; try done.
  assert (pk_CosmosKeyStore (pc_KeyStoreConfig a0) = ks_CosmosKeyStore (KeyStore a)) as <-; [|done].
  unfold SignerConfig_Parse, KeyStoreConfig_Parse in Hp.
  apply res_bind_Ok in Hp as (k & (t & _ & [= <-])%res_bind_Ok & (sc & _ & (mc & _ & [= <-])%res_bind_Ok)%res_bind_Ok).
  done.
Qed.

(** Dump-cfg reports that it has dumped the defaults also when the file
    was there already and is left as it was: the only effect is the message. *)
Lemma dumpCfg_existing path (s : Cli W) w1 :
  os_Stat path (cli_world s) = (w1, Ok tt) ->
  dumpCfg path s =
    ({| cli_world := w1;
        cli_out := cli_out s ++ ["Default configuration file dumped to: " +:+ path +:+ " "] |}, Ok tt).
Proof.
  intros Hs. unfold dumpCfg. erewrite bind_run_Ok by reflexivity.
  unfold mbind, M_bind, onCli. rewrite (WriteConfigToFile_keeps _ _ _ w1 (inl tt)); [done| |done].
  unfold attempt. by rewrite Hs.
Qed.

(** ** A covenant key from its creation to the emulator *)

Section EndToEnd.
Context (stored : W -> Place -> string -> string -> KrRec -> Prop) `{LW : !KeyringLaws stored} `{CL : !ChiLaws}.
Context {V : Type} `{HC : !HttpClient V}.
Variables (rc : RemoteSignerCfg) (get : V -> ServerSys) (set : ServerSys -> V -> V).

(** C7: the whole path of a covenant key.  A key is created in the signer's
    keyring; the signer is started on a configuration that names that keyring
    and listens; the emulator's client reaches it with the same HMAC key.  Then
    unlocking over HTTP with the passphrase of the creation succeeds, and the
    remote signer's public key is the one of the created key. *)
Theorem created_key_reaches_emulator dir chain name backend passphrase hdPath path s0 s1 info cfg parsed w2 proc wd :
  cosmos_CreateCovenantKey dir chain name backend passphrase hdPath s0 = (s1, Ok info) ->
  backend <> "memory" -> noChar newline passphrase -> validText passphrase ->
  GetConfig path (krWorld s1) = (krWorld s1, Ok cfg) ->
  SignerConfig_Parse cfg = Ok parsed ->
  ks_CosmosKeyStore (KeyStore cfg) =
    Some {| ck_ChainID := chain; ck_KeyDirectory := dir; ck_KeyringBackend := backend; ck_KeyName := name |} ->
  runSigner path (krWorld s1) = (w2, Ok proc) ->
  Connected (rc_URL rc) (sp_handler proc) get set -> rc_HMACKey rc = psc_HMACKey (pc_ServerConfig parsed) ->
  get wd = newServer ->
  Z.of_nat (length (unlockBody passphrase)) <= psc_MaxContentLength (pc_ServerConfig parsed) ->
  Z.of_nat (length (ascii_bytes (publicKeyText (ci_PublicKey info)))) <= maxResponseSize ->
  (forall pk, ParsePubKey (SerializeCompressed pk) = Ok pk) ->
  exists wd1 wd2, Unlock (rc_URL rc) (rc_Timeout rc) passphrase (rc_HMACKey rc) wd = (wd1, Ok tt) /\
    PubKey (NewRemoteSigner rc) wd1 = (wd2, Ok (ci_PublicKey info)).
Proof.
  intros (ctx & rec & key & Hc & Hk & Hname & Hpk & Hst)%(cosmos_CreateCovenantKey_Ok stored) Hb Hp Hv Hg Hparse Hks.
  intros (w1' & cfg' & parsed' & pkr & Hg' & Hp' & Hnew & Hh)%runSigner_Ok.
  rewrite Hg in Hg'. injection Hg' as <- <-. rewrite Hparse in Hp'. injection Hp' as <-. rewrite Hks in Hnew.
  destruct (retriever_unlocks stored _ _ _ _ _ _ _ _ _ _ _ Hc Hname (Hst Hb Hp) Hk Hnew) as (h & w & -> & Hu).
  rewrite Hh. intros Hconn Hhmac Hget Hsz Hans Hpp.
  destruct (unlock_remotely (KR := openedKeyring h w) (pc_ServerConfig parsed) rc name get set passphrase wd)
    as (s & Happ & Hrun & Hiff); [by split|done|].
  rewrite Hget, Hv in *. simpl sv_app in *. rewrite Hu in *. simpl in Happ, Hiff. destruct Hiff as [_ Hok].
  exists (set s wd). destruct Hconn as [Hurl Hgs Hdo].
  destruct (pubkey_remotely (KR := openedKeyring h w) (pc_ServerConfig parsed) rc name get set (set s wd)
              0%nat (PrivKeyFromBytes key)) as (s' & _ & Hpub); rewrite ?Hgs, ?Happ; try done.
  - lia.
  - by rewrite <- Hpk.
  - exists (set s' (set s wd)). rewrite Hpk, <- Hpub. split; [|done].
    rewrite (surjective_pairing (Unlock _ _ _ _ _)), Hrun. by rewrite Hok.
Qed.

End EndToEnd.

End Commands.
