(* ===== verification/Programs.v ===== *)
(** * The two programs as processes

    The command line of covd (cmd/covd: flags.go, the declarations of the
    commands, main.go) and of covenant-signer (cmd/root.go, main.go), what they
    exit with, and the process of the signer after start: the signing service
    and the metrics server of observability/metrics/prometheus.go side by
    side.  urfave/cli and cobra are classes with their documented behaviour. *)
From Stdlib Require Import Strings.Ascii Strings.String.
From S2P Require Import Prelude GoStd JsonText GoNet GoPath SignerConfig BtcLib Config Types Env ParamsCache ClientController Emulator Lifecycle SignerApp Keyrings WireTypes Bip32 HmacAuth Daemon SignerServer SignerClient Covd SignerCmd.
Local Open Scope Z_scope.

(** ** urfave/cli *)

Inductive CliFlag :=
| StringFlag (Name Value : string) (Required : bool)
| BoolFlag (Name : string) (Required : bool).

Definition flagName (f : CliFlag) : string :=
  match f with StringFlag n _ _ => n | BoolFlag n _ => n end.
Definition flagRequired (f : CliFlag) : bool :=
  match f with StringFlag _ _ r => r | BoolFlag _ r => r end.

(** cli.Context, as the actions read it *)
Record CliContext := { ctx_String : string -> string; ctx_Bool : string -> bool }.

(** The flags given on a command line: a string flag with its value. *)
Inductive Setting := SetString (name value : string) | SetBool (name : string).

#[export] Instance Setting_eq_dec : EqDecision Setting.
Proof. solve_decision. Defined.

Definition settingName (x : Setting) : string := match x with SetString n _ => n | SetBool n => n end.

Definition settingWords (x : Setting) : list string :=
  match x with
  | SetString n v => ["--" +:+ n; v]
  | SetBool n => ["--" +:+ n]
  end.

(** A setting the command declares, with a value that does not look like a flag. *)
Definition declared (flags : list CliFlag) (x : Setting) : Prop :=
  match x with
  | SetString n v => (exists d r, StringFlag n d r ∈ flags) /\ String.prefix "-" v = false
  | SetBool n => exists r, BoolFlag n r ∈ flags
  end.

Fixpoint givenString (given : list Setting) (n : string) : option string :=
  match given with
  | [] => None
  | SetString m v :: given => if bool_decide (m = n) then Some v else givenString given n
  | SetBool _ :: given => givenString given n
  end.

Fixpoint defaultString (flags : list CliFlag) (n : string) : string :=
  match flags with
  | [] => ""
  | StringFlag m v _ :: flags => if bool_decide (m = n) then v else defaultString flags n
  | BoolFlag _ _ :: flags => defaultString flags n
  end.

Definition contextOf (flags : list CliFlag) (given : list Setting) : CliContext := {|
  ctx_String := fun n => default (defaultString flags n) (givenString given n);
  ctx_Bool := fun n => bool_decide (SetBool n ∈ given)
|}.

Section Cli.
Context {W R : Type}.

(** An action ends, or leaves a daemon [R] that goes on. *)
Record CliCommand := {
  cmd_Name : string;
  cmd_ShortName : string;
  cmd_Flags : list CliFlag;
  cmd_Action : CliContext -> M (Cli W) (option R)
}.

Definition cmd_names (c : CliCommand) : list string :=
  cmd_Name c :: (if bool_decide (cmd_ShortName c = "") then [] else [cmd_ShortName c]).

Class CliLib : Type := { cli_Run : list CliCommand -> list string -> M (Cli W) (option R) }.

Definition argv (prog name : string) (given : list Setting) : list string :=
  prog :: name :: concat (settingWords <$> given).

(** App.Run: the command of the first word runs with its flags, or their
    defaults; without a required one it does not run. *)
Class CliLaws `{CliLib} : Prop := {
  cli_runs : forall cmds c prog name given s,
    NoDup (concat (cmd_names <$> cmds)) -> c ∈ cmds -> NoDup (flagName <$> cmd_Flags c) -> name ∈ cmd_names c ->
    NoDup (settingName <$> given) -> Forall (declared (cmd_Flags c)) given ->
    Forall (fun f => flagRequired f = true -> flagName f ∈ settingName <$> given) (cmd_Flags c) ->
    cli_Run cmds (argv prog name given) s = cmd_Action c (contextOf (cmd_Flags c) given) s;
  cli_required : forall cmds c f prog name given s,
    NoDup (concat (cmd_names <$> cmds)) -> c ∈ cmds -> NoDup (flagName <$> cmd_Flags c) -> name ∈ cmd_names c ->
    NoDup (settingName <$> given) -> Forall (declared (cmd_Flags c)) given ->
    f ∈ cmd_Flags c -> flagRequired f = true -> flagName f ∉ settingName <$> given ->
    exists s' e, cli_Run cmds (argv prog name given) s = (s', Err e) /\ cli_world s' = cli_world s
}.

End Cli.
Arguments CliCommand W R : clear implicits.
Arguments CliLib W R : clear implicits.
Arguments CliLaws W R {_}.

(** How main goes on: the process exits with a status and what it wrote to the
    standard error, the daemon [D] runs, or nothing ever happens. *)
Inductive Fate (D : Type) :=
| Exits (status : Z) (stderr : string)
| Runs (d : D)
| Hangs.
Arguments Exits {D} status stderr.
Arguments Runs {D} d.
Arguments Hangs {D}.

(** ** cmd/covd *)

(** flags.go *)
Definition homeFlag : string := "home".
Definition forceFlag : string := "force".
Definition keyNameFlag : string := "key-name".
Definition passphraseFlag : string := "passphrase".
Definition hdPathFlag : string := "hd-path".
Definition chainIDFlag : string := "chain-id".
Definition keyringBackendFlag : string := "keyring-backend".
Definition defaultChainID : string := "chain-test".
Definition defaultKeyringBackend : string := "test".       (* keyring.BackendTest *)
Definition defaultPassphrase : string := "".
Definition defaultHdPath : string := "".

Section CovdMain.
Context `{BL : BtcLib} {BN : BtcNets} {W : Type} `{OS : !Os W} `{GF : !GoFlags W} `{BD : BbnDefaults}.
Context `{KL : !KeyringLib W} `{RL : RetryLib} `{BC : !BbnClient W} `{NW : !BbnNew W} `{HC : !HttpClient W}.
Context `{IC : !Interceptor W} `{CK : !Clock W}.
(** btcutil.AppDataDir(app, false); the fuel of the controller's pagination *)
Variables (AppDataDir : string -> string) (fuel : nat).

(** config.DefaultCovenantDir *)
Definition DefaultCovenantDir : string := AppDataDir "covd".

(** What goes on as RunUntilShutdown: the emulator, its metrics configuration
    and the process it starts from. *)
Definition CovdDaemon : Type := Emulator W * MetricsConfig * Sys W.

Abbreviation Command := (CliCommand W CovdDaemon).

(** A command that ends. *)
Definition ends (m : M (Cli W) unit) : M (Cli W) (option CovdDaemon) := m;; mret None.

Definition initCommand : Command := {|
  cmd_Name := "init"; cmd_ShortName := "";
  cmd_Flags := [StringFlag homeFlag DefaultCovenantDir false; BoolFlag forceFlag false];
  cmd_Action := fun c => ends (onCli (initHome (ctx_String c homeFlag) (ctx_Bool c forceFlag)))
|}.

Definition createKeyCommand : Command := {|
  cmd_Name := "create-key"; cmd_ShortName := "ck";
  cmd_Flags := [StringFlag chainIDFlag defaultChainID false; StringFlag keyNameFlag "" true;
                StringFlag passphraseFlag defaultPassphrase false; StringFlag hdPathFlag defaultHdPath false;
                StringFlag keyringBackendFlag defaultKeyringBackend false;
                StringFlag homeFlag DefaultCovenantDir false];
  cmd_Action := fun ctx => ends (createKey (ctx_String ctx homeFlag) (ctx_String ctx chainIDFlag)
    (ctx_String ctx keyNameFlag) (ctx_String ctx keyringBackendFlag) (ctx_String ctx passphraseFlag)
    (ctx_String ctx hdPathFlag))
|}.

Definition showKeyCommand : Command := {|
  cmd_Name := "show-key"; cmd_ShortName := "sk";
  cmd_Flags := [StringFlag chainIDFlag defaultChainID false; StringFlag keyNameFlag "" true;
                StringFlag passphraseFlag defaultPassphrase false;
                StringFlag keyringBackendFlag defaultKeyringBackend false;
                StringFlag homeFlag DefaultCovenantDir false];
  cmd_Action := fun ctx => ends (showKey (ctx_String ctx homeFlag) (ctx_String ctx chainIDFlag)
    (ctx_String ctx keyNameFlag) (ctx_String ctx keyringBackendFlag) (ctx_String ctx passphraseFlag))
|}.

(** The start command; its process begins with the world of the command. *)
Definition startAction (home : string) : M (Cli W) (option CovdDaemon) := fun s =>
  let '(p, r) := start fuel home (initSys (cli_world s)) in
  ({| cli_world := world p; cli_out := cli_out s |},
   match r with
   | Ok (ce, m) => Ok (Some (ce, m, p))
   | Err e => Err e
   | Panic msg => Panic msg
   | OutOfFuel => OutOfFuel
   end).

Definition startCommand : Command := {|
  cmd_Name := "start"; cmd_ShortName := "";
  cmd_Flags := [StringFlag homeFlag DefaultCovenantDir false];
  cmd_Action := fun ctx => startAction (ctx_String ctx homeFlag)
|}.

Definition covdCommands : list Command := [startCommand; initCommand; createKeyCommand; showKeyCommand].

(** main.go; a panic ends a Go process with status 2 *)
Definition fatal (err : error) : Fate CovdDaemon := Exits 1 ("[covd] " +:+ err +:+ lf).

Definition covd_main `{CL : !CliLib W CovdDaemon} (args : list string) (s : Cli W) : Cli W * Fate CovdDaemon :=
  let '(s', r) := cli_Run covdCommands args s in
  (s', match r with
       | Ok None => Exits 0 ""
       | Ok (Some d) => Runs d
       | Err err => fatal err
       | Panic msg => Exits 2 msg
       | OutOfFuel => Hangs
       end).

Lemma covd_names_distinct : NoDup (concat (cmd_names <$> covdCommands)).
Proof. apply (bool_decide_unpack _). vm_compute. exact I. Qed.

Lemma covd_flags_distinct c : c ∈ covdCommands -> NoDup (flagName <$> cmd_Flags c).
Proof.
  intros H. repeat (apply elem_of_cons in H as [->|H]; [apply (bool_decide_unpack _); vm_compute; exact I|]).
  by apply not_elem_of_nil in H.
Qed.

(** *** Lemmas *)

Lemma covd_runs `{!CliLib W CovdDaemon} `{!CliLaws W CovdDaemon} c prog given s :
  c ∈ covdCommands -> NoDup (settingName <$> given) -> Forall (declared (cmd_Flags c)) given ->
  Forall (fun f => flagRequired f = true -> flagName f ∈ settingName <$> given) (cmd_Flags c) ->
  covd_main (argv prog (cmd_Name c) given) s =
  let '(s', r) := cmd_Action c (contextOf (cmd_Flags c) given) s in
  (s', match r with
       | Ok None => Exits 0 ""
       | Ok (Some d) => Runs d
       | Err err => fatal err
       | Panic msg => Exits 2 msg
       | OutOfFuel => Hangs
       end).
Proof.
  intros Hc Hn Hd Hr. unfold covd_main.
  by rewrite (cli_runs _ c) by (first [done|apply covd_names_distinct|by apply covd_flags_distinct|left]).
Qed.

Lemma ends_Exits0 (m : M (Cli W) unit) s s' :
  (let '(s1, r) := ends m s in
   (s1, match r with Ok None => Exits 0 "" | Ok (Some d) => Runs d | Err err => fatal err
                   | Panic msg => Exits 2 msg | OutOfFuel => Hangs end)) = (s', Exits 0 "") <->
  m s = (s', Ok tt).
Proof.
  unfold ends, mbind, M_bind. destruct (m s) as [s1 [[]|e|msg|]]; simpl; unfold fatal; split; intros H; simplify_eq; done.
Qed.

(** Leaving one setting out changes nothing for the others. *)
Lemma givenString_without given n m : n <> m ->
  givenString (filter (fun x => settingName x <> m) given) n = givenString given n.
Proof.
  intros Hnm. induction given as [|x given IH]; [done|].
  destruct (decide (settingName x = m)) as [Hx|Hx].
  - rewrite filter_cons_False by auto. rewrite IH. destruct x as [k v|k]; simpl in *; [|done].
    by rewrite bool_decide_false by congruence.
  - rewrite filter_cons_True by done. destruct x as [k v|k]; simpl; [by rewrite IH|done].
Qed.

Lemma declared_show x : settingName x <> hdPathFlag ->
  declared (cmd_Flags createKeyCommand) x -> declared (cmd_Flags showKeyCommand) x.
Proof.
  intros Hx. destruct x as [n v|n]; simpl in *.
  - intros [(d & r & H) Hv]. split; [|done]. exists d, r.
    repeat (apply elem_of_cons in H as [H|H]; [simplify_eq; try done; set_solver|]). by apply not_elem_of_nil in H.
  - intros [r H]. repeat (apply elem_of_cons in H as [H|H]; [done|]). by apply not_elem_of_nil in H.
Qed.

(** *** Properties *)

Section KeyCommands.
Context `{CL : !CliLib W CovdDaemon} `{CLL : !CliLaws W CovdDaemon}.
Context (stored : W -> Place -> string -> string -> KrRec -> Prop) `{LW : !KeyringLaws stored}.

(** C30: on the command line, show-key shows what create-key created: after a
    covd create-key that exits with 0, with a keyring backend other than memory
    and a passphrase without a newline, covd show-key with the same flags, given
    or left to their defaults, less the hd path, which it does not have, exits
    with 0 and prints the same line, provided that the keyring can be opened
    again. *)
Theorem key_commands_agree prog prog' given (s s' : Cli W) :
  let ctx := contextOf (cmd_Flags createKeyCommand) given in
  let given' := filter (fun x => settingName x <> hdPathFlag) given in
  NoDup (settingName <$> given) -> Forall (declared (cmd_Flags createKeyCommand)) given ->
  keyNameFlag ∈ settingName <$> given ->
  ctx_String ctx keyringBackendFlag <> "memory" -> noChar newline (ctx_String ctx passphraseFlag) ->
  (forall f cfg w l n p rec, stored w l n p rec -> stored (ini_WriteFile f cfg w).1 l n p rec) ->
  (forall c, CreateClientCtx (ctx_String ctx homeFlag) (ctx_String ctx chainIDFlag) = Ok c ->
     exists w h, kr_New (cx_ChainID c) (ctx_String ctx keyringBackendFlag) (cx_KeyringDir c) (cli_world s') = (w, Ok h)) ->
  covd_main (argv prog "create-key" given) s = (s', Exits 0 "") ->
  exists s'' line, covd_main (argv prog' "show-key" given') s' = (s'', Exits 0 "") /\
    cli_out s' = cli_out s ++ [line] /\ cli_out s'' = cli_out s' ++ [line].
Proof.
  intros ctx given' Hn Hd Hk Hb Hp Hini Hopen Hcreate.
  change "create-key" with (cmd_Name createKeyCommand) in Hcreate.
  rewrite covd_runs in Hcreate; [|set_solver|done|done|].
  2:{ repeat constructor; try done. }
  apply ends_Exits0 in Hcreate. fold ctx in Hcreate.
  destruct (create_then_show stored _ _ _ _ _ _ _ _ Hcreate Hb Hp Hini Hopen) as (s'' & line & Hshow & H1 & H2).
  exists s'', line. split; [|done]. change "show-key" with (cmd_Name showKeyCommand).
  rewrite covd_runs; [|set_solver| | |].
  - apply ends_Exits0. cbn [cmd_Action showKeyCommand]. rewrite <- Hshow.
    unfold ctx, contextOf. cbn [ctx_String]. unfold given'. by rewrite !givenString_without by done.
  - unfold given'. clear -Hn. induction given as [|x given IH]; [done|]. apply NoDup_cons in Hn as [Hx Hn].
    destruct (decide (settingName x <> hdPathFlag)).
    + rewrite filter_cons_True by done. apply NoDup_cons. split; [|by apply IH].
      intros (y & Hy & Hin)%list_elem_of_fmap. apply Hx, list_elem_of_fmap. exists y. split; [done|].
      by apply list_elem_of_filter in Hin as [_ ?].
    + rewrite filter_cons_False by done. by apply IH.
  - apply Forall_forall. intros x (Hx & Hin)%list_elem_of_filter. apply declared_show; [done|].
    rewrite Forall_forall in Hd. by apply Hd.
  - assert (keyNameFlag ∈ settingName <$> given') as Hk'.
    { apply list_elem_of_fmap in Hk as (x & Hx & Hin). apply list_elem_of_fmap. exists x. split; [done|].
      apply list_elem_of_filter. split; [|done]. by rewrite <- Hx. }
    repeat constructor; try done.
Qed.

End KeyCommands.

(** create-key and show-key without a key name do not run: covd exits with 1
    and the host is as it was. *)
Lemma key_name_required `{!CliLib W CovdDaemon} `{!CliLaws W CovdDaemon} c prog given s :
  c = createKeyCommand \/ c = showKeyCommand ->
  NoDup (settingName <$> given) -> Forall (declared (cmd_Flags c)) given ->
  keyNameFlag ∉ settingName <$> given ->
  exists s' e, covd_main (argv prog (cmd_Name c) given) s = (s', Exits 1 ("[covd] " +:+ e +:+ lf)) /\
    cli_world s' = cli_world s.
Proof.
  intros Hc Hn Hd Hk.
  destruct (cli_required covdCommands c (StringFlag keyNameFlag "" true) prog (cmd_Name c) given s)
    as (s' & e & Hr & Hw); try done.
  - apply covd_names_distinct.
  - destruct Hc as [-> | ->]; set_solver.
  - apply covd_flags_distinct. destruct Hc as [-> | ->]; set_solver.
  - left.
  - destruct Hc as [-> | ->]; set_solver.
  - exists s', e. unfold covd_main. by rewrite Hr.
Qed.

End CovdMain.

(** ** cobra *)

(** A command below the root: its first word, its check of the arguments and
    its RunE with the values of the flags. *)
Record CobraCommand (W R : Type) := {
  cb_Name : string;
  cb_Args : list string -> res unit;
  cb_RunE : CliContext -> list string -> M (Cli W) (option R)
}.
Arguments cb_Name {W R} _.
Arguments cb_Args {W R} _.
Arguments cb_RunE {W R} _.

Record CobraRoot (W R : Type) := {
  root_Use : string;
  root_PersistentFlags : list CliFlag;
  root_PersistentPreRunE : CliContext -> M (Cli W) unit;
  root_Commands : list (CobraCommand W R)
}.
Arguments root_Use {W R} _.
Arguments root_PersistentFlags {W R} _.
Arguments root_PersistentPreRunE {W R} _.
Arguments root_Commands {W R} _.

Class CobraLib (W R : Type) : Type := { cobra_Execute : CobraRoot W R -> list string -> M (Cli W) (option R) }.

(** Execute: the command of the first word runs after the check of its
    arguments and the root's pre-run. *)
Class CobraLaws (W R : Type) `{CobraLib W R} : Prop := {
  cobra_runs : forall root c given args s,
    NoDup (cb_Name <$> root_Commands root) -> c ∈ root_Commands root ->
    NoDup (flagName <$> root_PersistentFlags root) ->
    NoDup (settingName <$> given) -> Forall (declared (root_PersistentFlags root)) given ->
    Forall (fun a => String.prefix "-" a = false) args ->
    cobra_Execute root (cb_Name c :: concat (settingWords <$> given) ++ args) s =
    (let ctx := contextOf (root_PersistentFlags root) given in
     lift (cb_Args c args);; root_PersistentPreRunE root ctx;; cb_RunE c ctx args) s
}.

(** cobra.ExactArgs *)
Definition ExactArgs (n : nat) (args : list string) : res unit :=
  if bool_decide (length args = n) then Ok tt
  else Err ("accepts " +:+ pretty n +:+ " arg(s), received " +:+ pretty (length args)).

(** The cosmos-sdk's client context and its place in a command *)
Class SdkClient (W : Type) : Type := {
  SdkContext : Type;
  EncodingConfig : Type;
  emptyContext : SdkContext;                                   (* client.Context{} *)
  DefaultEncodingConfig : EncodingConfig;
  std_RegisterInterfaces : EncodingConfig -> EncodingConfig;
  bstypes_RegisterInterfaces : EncodingConfig -> EncodingConfig;
  WithCodec : EncodingConfig -> SdkContext -> SdkContext;
  WithInterfaceRegistry : EncodingConfig -> SdkContext -> SdkContext;
  WithTxConfig : EncodingConfig -> SdkContext -> SdkContext;
  WithLegacyAmino : EncodingConfig -> SdkContext -> SdkContext;
  WithStdin : SdkContext -> SdkContext;
  SetCmdClientContextHandler : SdkContext -> CliContext -> M (Cli W) unit;
  GetClientContextFromCmd : M (Cli W) SdkContext;
  SetCmdClientContext : SdkContext -> M (Cli W) unit
}.

(** ** covenant-signer: the command line *)

Section SignerMain.
Context `{BL : BtcLib} {W : Type} `{OS : !Os W} `{VP : !Viper W} `{KL : !KeyringLib W} `{CH : ChiLib} `{HK : !HdKeychain}.
Context `{SC : !SdkClient W}.
(** btcutil.AppDataDir and keys.Commands of the cosmos-sdk *)
Variable AppDataDir : string -> string.
Variable keysCommands : CobraCommand W SignerProcess.
Hypothesis keys_name : cb_Name keysCommands = "keys".

(** helper.go *)
Definition PersistClientCtx (ctx : SdkContext) (cmd : CliContext) : M (Cli W) unit :=
  let encCfg := bstypes_RegisterInterfaces (std_RegisterInterfaces DefaultEncodingConfig) in
  let ctx := WithStdin (WithLegacyAmino encCfg (WithTxConfig encCfg
               (WithInterfaceRegistry encCfg (WithCodec encCfg ctx)))) in
  SetCmdClientContextHandler ctx cmd;;
  ctx ← GetClientContextFromCmd;
  SetCmdClientContext ctx.

(** root.go *)
Definition configPathKey : string := "config".
Definition defaultConfigDir : string := AppDataDir "signer".
Definition defaultConfigPath : string := Join2 defaultConfigDir "config.toml".

Definition runSignerCmd : CobraCommand W SignerProcess := {|
  cb_Name := "start"; cb_Args := fun _ => Ok tt;
  cb_RunE := fun cmd _ => p ← onCli (runSigner (ctx_String cmd configPathKey)); mret (Some p)
|}.

Definition dumpCfgCmd : CobraCommand W SignerProcess := {|
  cb_Name := "dump-cfg"; cb_Args := fun _ => Ok tt;
  cb_RunE := fun cmd _ => dumpCfg (ctx_String cmd configPathKey);; mret None
|}.

Definition deriveChildKey : CobraCommand W SignerProcess := {|
  cb_Name := "derive-child-key"; cb_Args := ExactArgs 2;
  cb_RunE := fun _ args =>
    masterKey ← lift (index args 0);
    derivationPath ← lift (index args 1);
    deriveChildKeyCmd masterKey derivationPath;; mret None
|}.

Definition NewRootCmd : CobraRoot W SignerProcess := {|
  root_Use := "covenant-signer";
  root_PersistentFlags := [StringFlag homeFlag defaultConfigDir false; StringFlag configPathKey defaultConfigPath false];
  root_PersistentPreRunE := PersistClientCtx emptyContext;
  root_Commands := [deriveChildKey; dumpCfgCmd; keysCommands; runSignerCmd]
|}.

Definition Execute `{CL : !CobraLib W SignerProcess} (args : list string) : M (Cli W) (option SignerProcess) :=
  cobra_Execute NewRootCmd args.

(** main.go drops the error of Execute, which cobra has printed. *)
Definition signer_main `{CL : !CobraLib W SignerProcess} (args : list string) (s : Cli W)
  : Cli W * Fate SignerProcess :=
  let '(s', r) := Execute args s in
  (s', match r with
       | Ok None => Exits 0 ""
       | Ok (Some p) => Runs p
       | Err err => Exits 0 ("Error: " +:+ err +:+ lf)
       | Panic msg => Exits 2 msg
       | OutOfFuel => Hangs
       end).

Lemma signer_names_distinct : NoDup (cb_Name <$> root_Commands NewRootCmd).
Proof.
  cbn [NewRootCmd root_Commands fmap list_fmap]. rewrite keys_name. apply (bool_decide_unpack _). vm_compute. exact I.
Qed.

Lemma signer_runs `{!CobraLib W SignerProcess} `{!CobraLaws W SignerProcess} c given args s :
  c ∈ root_Commands NewRootCmd -> NoDup (settingName <$> given) ->
  Forall (declared (root_PersistentFlags NewRootCmd)) given -> Forall (fun a => String.prefix "-" a = false) args ->
  Execute (cb_Name c :: concat (settingWords <$> given) ++ args) s =
  (let ctx := contextOf (root_PersistentFlags NewRootCmd) given in
   lift (cb_Args c args);; PersistClientCtx emptyContext ctx;; cb_RunE c ctx args) s.
Proof.
  intros. unfold Execute. rewrite (cobra_runs NewRootCmd c); try done; [apply signer_names_distinct|].
  apply (bool_decide_unpack _). vm_compute. exact I.
Qed.

(** A start of covenant-signer that cannot read its configuration, parse it or
    open its keyring is reported on the standard error but ends with status 0,
    as main drops the error. *)
Lemma signer_failure_exits_zero `{!CobraLib W SignerProcess} `{!CobraLaws W SignerProcess} given (s s1 : Cli W) :
  let ctx := contextOf (root_PersistentFlags NewRootCmd) given in
  NoDup (settingName <$> given) -> Forall (declared (root_PersistentFlags NewRootCmd)) given ->
  PersistClientCtx emptyContext ctx s = (s1, Ok tt) ->
  let '(w', r) := runSigner (ctx_String ctx configPathKey) (cli_world s1) in
  (signer_main ("start" :: concat (settingWords <$> given)) s).2 =
  match r with
  | Ok p => Runs p
  | Err err => Exits 0 ("Error: " +:+ err +:+ lf)
  | Panic msg => Exits 2 msg
  | OutOfFuel => Hangs
  end.
Proof.
  intros ctx Hn Hd Hpre.
  assert (Execute ("start" :: concat (settingWords <$> given)) s =
    (onCli (runSigner (ctx_String ctx configPathKey)) ≫= fun p => mret (Some p)) s1) as Hrun.
  { rewrite <- (app_nil_r (concat (settingWords <$> given))).
    change "start" with (cb_Name runSignerCmd). rewrite signer_runs; [|set_solver|done|done|by constructor].
    erewrite bind_run_Ok by done. by erewrite bind_run_Ok by exact Hpre. }
  unfold signer_main. rewrite Hrun. unfold mbind, M_bind, onCli.
  destruct (runSigner _ (cli_world s1)) as [w' [p|e|m|]]; done.
Qed.

End SignerMain.

(** ** The signer's process *)

(** observability/metrics/prometheus.go and server.go: the two http.Servers *)
Record HttpServer (S : Type) := {
  hs_Addr : string;
  hs_Handler : Handler S;
  hs_ReadTimeout : Z;
  hs_WriteTimeout : Z;
  hs_IdleTimeout : Z
}.
Arguments hs_Addr {S} _.
Arguments hs_Handler {S} _.

Definition metricRequestTimeout : Z := 15 * 1000000000.
Definition metricRequestIdleTimeout : Z := 30 * 1000000000.

(** The mux of start; [promhttp] is promhttp.HandlerFor over the registry. *)
Definition metricsMux {S} (promhttp : Handler S) : Handler S := fun r =>
  if bool_decide (rq_Path r = "/metrics") then promhttp r
  else mret (httpError "404 page not found" 404).

Definition metricsServer {S} (addr : string) (promhttp : Handler S) : HttpServer S :=
  {| hs_Addr := addr; hs_Handler := metricsMux promhttp; hs_ReadTimeout := metricRequestTimeout;
     hs_WriteTimeout := metricRequestTimeout; hs_IdleTimeout := metricRequestIdleTimeout |}.

(** Listening: whether an address can be bound when others are. *)
Class Listen : Type := { canListen : list string -> string -> bool }.
Class ListenLaws `{Listen} : Prop := {
  listen_once : forall bound addr, addr ∈ bound -> canListen bound addr = false
}.

Section SignerRun.
Context `{BL : BtcLib} `{LN : Listen}.
Variable proc : SignerProcess.
(** promhttp only reads what it reports. *)
Variable promhttp : Handler ServerSys.
Hypothesis promhttp_reads : forall r s, (promhttp r s).1 = s.

Definition metricsOf : HttpServer ServerSys := metricsServer (sp_metricsAddr proc) promhttp.

(** Where the two goroutines are: the main one in srv.Start, the other in the
    metrics server's start; a listener that was opened goes on accepting. *)
Inductive Serving := Starting | Listening.

Record SignerRun := {
  ru_bound : list string;              (* the addresses in use on the host *)
  ru_main : Serving;
  ru_metrics : Serving;
  ru_sys : ServerSys;
  ru_exit : option Z                   (* the status the process ended with *)
}.

Definition startRun (bound : list string) : SignerRun :=
  {| ru_bound := bound; ru_main := Starting; ru_metrics := Starting; ru_sys := newServer; ru_exit := None |}.

Definition exitWith (status : Z) (x : SignerRun) : SignerRun :=
  {| ru_bound := ru_bound x; ru_main := ru_main x; ru_metrics := ru_metrics x; ru_sys := ru_sys x;
     ru_exit := Some status |}.

Inductive rstep : SignerRun -> SignerRun -> Prop :=
(* srv.Start listens *)
| r_listen x : ru_exit x = None -> ru_main x = Starting -> canListen (ru_bound x) (sp_addr proc) = true ->
    rstep x {| ru_bound := sp_addr proc :: ru_bound x; ru_main := Listening; ru_metrics := ru_metrics x;
               ru_sys := ru_sys x; ru_exit := None |}
(* it fails: RunE, Execute and main return *)
| r_refused x : ru_exit x = None -> ru_main x = Starting -> canListen (ru_bound x) (sp_addr proc) = false ->
    rstep x (exitWith 0 x)
(* the metrics server listens *)
| r_metrics x : ru_exit x = None -> ru_metrics x = Starting ->
    canListen (ru_bound x) (hs_Addr metricsOf) = true ->
    rstep x {| ru_bound := sp_metricsAddr proc :: ru_bound x; ru_main := ru_main x; ru_metrics := Listening;
               ru_sys := ru_sys x; ru_exit := None |}
(* it fails: log.Fatal *)
| r_fatal x : ru_exit x = None -> ru_metrics x = Starting ->
    canListen (ru_bound x) (hs_Addr metricsOf) = false ->
    rstep x (exitWith 1 x)
(* a request is served *)
| r_request x r : ru_exit x = None -> ru_main x = Listening ->
    rstep x {| ru_bound := ru_bound x; ru_main := ru_main x; ru_metrics := ru_metrics x;
               ru_sys := (sp_handler proc r (ru_sys x)).1; ru_exit := None |}
(* the metrics are scraped *)
| r_scrape x r : ru_exit x = None -> ru_metrics x = Listening ->
    rstep x {| ru_bound := ru_bound x; ru_main := ru_main x; ru_metrics := ru_metrics x;
               ru_sys := (hs_Handler metricsOf r (ru_sys x)).1; ru_exit := None |}.

(** What is true of every run. *)
Record runOk (x : SignerRun) : Prop := {
  ro_main : ru_main x = Listening -> sp_addr proc ∈ ru_bound x;
  ro_met : ru_metrics x = Listening -> sp_metricsAddr proc ∈ ru_bound x;
  ro_served : ru_main x = Starting -> ru_sys x = newServer;
  ro_exit0 : ru_exit x = Some 0 -> ru_main x = Starting /\ canListen (ru_bound x) (sp_addr proc) = false;
  ro_exit1 : ru_exit x <> None -> ru_exit x <> Some 0 ->
    ru_exit x = Some 1 /\ ru_metrics x = Starting /\ canListen (ru_bound x) (sp_metricsAddr proc) = false;
  ro_both : ListenLaws -> sp_addr proc = sp_metricsAddr proc ->
    ~ (ru_main x = Listening /\ ru_metrics x = Listening)
}.

Lemma mux_reads r s : (hs_Handler metricsOf r s).1 = s.
Proof. simpl. unfold metricsMux. case_bool_decide; [apply promhttp_reads|done]. Qed.

Lemma rstep_ok x x' : rstep x x' -> runOk x -> runOk x'.
Proof.
  intros [y H1 H2 H3|y H1 H2 H3|y H1 H2 H3|y H1 H2 H3|y r H1 H2|y r H1 H2] [Hm Hp Hs H0 He Hb]; split;
    cbn [ru_bound ru_main ru_metrics ru_sys ru_exit exitWith]; intros;
    first [congruence|apply list_elem_of_here|apply list_elem_of_further; auto; fail|auto; fail|idtac].
  - intros [_ Hl]. rewrite listen_once in H3; [done|]. replace (sp_addr proc) with (sp_metricsAddr proc) by congruence. auto.
  - intros [Hl _]. simpl in H3. rewrite listen_once in H3; [done|].
    replace (sp_metricsAddr proc) with (sp_addr proc) by congruence. auto.
  - rewrite mux_reads. auto.
Qed.

Lemma run_ok bound x : rtc rstep (startRun bound) x -> runOk x.
Proof.
  intros Hr. assert (runOk (startRun bound)) as H0 by (split; simpl; try done; intros _ _ [? ?]; done). revert H0.
  induction Hr as [|a b c Hs _ IH]; [done|]. intros H. by apply IH, (rstep_ok a).
Qed.

(** C40: what the end of the signer's process means.  It ends with status 0 only
    when the address of the signing service could not be bound and no request
    was ever served, and with status 1 only when the address of the metrics
    server could not be bound (which takes the signing service with it); it
    never ends otherwise.  With one address for both it never serves both, and
    from every state it can come to its end. *)
Theorem signer_process_exits bound x :
  rtc rstep (startRun bound) x ->
  (ru_exit x = Some 0 -> canListen (ru_bound x) (sp_addr proc) = false /\ ru_sys x = newServer) /\
  (forall n, ru_exit x = Some n -> n <> 0 ->
     n = 1 /\ canListen (ru_bound x) (sp_metricsAddr proc) = false) /\
  (ListenLaws -> sp_addr proc = sp_metricsAddr proc ->
     ~ (ru_main x = Listening /\ ru_metrics x = Listening) /\
     exists x', rtc rstep x x' /\ is_Some (ru_exit x')).
Proof.
  intros Hr. destruct (run_ok bound x Hr) as [Hm Hp Hs H0 He Hb]. split_and!.
  - intros E. destruct (H0 E) as [? ?]. auto.
  - intros n E Hn. destruct He as (? & _ & ?); [congruence..|]. split; [congruence|done].
  - intros HL Hsame. split; [by apply Hb|].
    destruct (ru_exit x) as [n|] eqn:Hx; [by exists x; rewrite Hx|].
    destruct (ru_main x) eqn:Hmain.
    + destruct (canListen (ru_bound x) (sp_addr proc)) eqn:Hc.
      * destruct (ru_metrics x) eqn:Hmet.
        -- eexists. split; [eapply rtc_l; [by apply r_listen|]; apply rtc_once, r_fatal; simpl; [done|done|]|by eexists].
           apply listen_once. rewrite Hsame. set_solver.
        -- rewrite listen_once in Hc; [done|]. rewrite Hsame. by apply Hp.
      * eexists. split; [by apply rtc_once, r_refused|by eexists].
    + destruct (ru_metrics x) eqn:Hmet; [|by destruct (Hb _ Hsame)].
      eexists. split; [apply rtc_once, r_fatal; [done|done|]|by eexists].
      simpl. apply listen_once. rewrite <- Hsame. by apply Hm.
Qed.

End SignerRun.
