(* ===== verification/Toy.v ===== *)
(** * A small concrete environment

    Executable instances of the parameters of the model (the Bitcoin and
    Babylon libraries, retry-go, the clock, the node), used to evaluate the
    definitions on concrete inputs and to show that the hypotheses of the
    theorems can hold together. *)
From Stdlib Require Import Strings.Byte.
From S2P Require Import Prelude GoStd BtcLib Types Env ParamsCache ClientController ControllerProps Emulator SubmitProps PagingProps SignerApp WireTypes.
Local Open Scope Z_scope.

(** ** Libraries: a key is a byte, a transaction its serialization *)

Definition toy_one (b : bytes) : res byte :=
  match b with [x] => Ok x | _ => Err "bad length" end.

Definition toy_sign (k : byte) : res byte :=
  if decide (k = "000"%byte) then Err "private key is zero" else Ok k.

(** The output a signature spends has to be there. *)
Definition toy_out (funding : bytes) (i : Z) : res byte :=
  match index funding i with Ok o => Ok o | _ => Err "invalid funding output index" end.

#[export] Instance toyLib : BtcLib := {|
  PublicKey := byte; PrivateKey := byte; SchnorrSig := byte;
  SerializePubKey := fun p => [p];
  SerializeCompressed := fun p => [x02; p];
  ParsePubKey := fun b => match b with [_; p] => Ok p | _ => Err "bad key" end;
  SchnorrParsePubKey := toy_one;
  PrivPubKey := fun k => k;
  PrivSerialize := fun k => [k];
  PrivKeyFromBytes := fun b => match b with x :: _ => x | [] => x00 end;
  ZeroKey := x00;
  SigSerialize := fun s => [s];
  ParseSignature := toy_one;
  Hash := string; TxIn := byte; TxOut := byte; MsgTx := bytes;
  tx_TxIn := fun t => t;
  tx_TxOut := fun t => t;
  PreviousOutPointHash := fun i => EncodeToString [i];
  Value := fun o => Z.of_N (Byte.to_N o);
  TxHash := fun t => EncodeToString t;
  HashIsEqual := fun a b => bool_decide (a = b);
  HashString := fun h => h;
  NewHashFromStr := fun s => Ok s;
  TxDeserialize := fun b => Ok b;
  TxSerialize := fun t => Ok t;
  BIP340PubKey := byte; BIP340Signature := byte;
  ToBTCPK := fun p => Ok p;
  MustToBTCPK := fun p => Ok p;
  ToBTCSig := fun s => Ok s;
  NewBIP340PubKeyFromBTCPK := fun p => p;
  NewBIP340SignatureFromBTCSig := fun s => s;
  BIP340MarshalHex := fun p => EncodeToString [p];
  NewBTCTxFromHex := DecodeString;
  SlashingTx := bytes;
  NewBTCSlashingTxFromHex := DecodeString;
  ToMsgTx := fun t => Ok t;
  ErrInvalidCovenantPK := "the covenant public key is not found in the params";
  ErrInvalidCovenantSig := "the covenant signature is not valid";
  ErrDuplicatedCovenantSig := "the covenant signature is already submitted";
  RelayerEvent := unit;
  ProofOfPossessionBTC := unit;
  TransactionInfo := bytes; TransactionKey := unit;
  ti_Key := fun _ => tt; ti_Transaction := fun t => t; ti_Proof := fun t => t;
  InclusionProof := bytes;
  NewInclusionProof := fun _ p => p;
  Description := unit; CommissionRates := unit; BTCHeaderBytes := bytes;
  FinalityProviderResponse := nat; BTCHeaderInfoResponse := unit;
  NetParams := unit; LegacyDec := unit;
  LegacyDecAdd := fun _ _ => tt; LegacyOneDec := tt; NewCommissionRates := fun _ _ _ => tt;
  StakingInfo := byte; UnbondingInfo := byte; SpendInfo := bytes;
  CheckSlashingTxMatchFundingTx := fun _ _ _ _ _ _ _ _ _ => Ok tt;
  BuildStakingInfo := fun pk _ _ _ _ _ _ => Ok pk;
  BuildUnbondingInfo := fun pk _ _ _ _ _ _ => Ok pk;
  StakingSlashingPathSpendInfo := fun i => Ok [x01; i];
  StakingUnbondingPathSpendInfo := fun i => Ok [x02; i];
  UnbondingSlashingPathSpendInfo := fun i => Ok [x03; i];
  GetPkScriptPath := fun i => i;
  SerializeTxOut := fun o => Ok [o];
  DeserializeTxOut := toy_one;
  EncryptionKey := byte; AdaptorSig := bytes;
  NewEncryptionKeyFromBTCPK := fun p => Ok p;
  NewEncryptionKeyFromBytes := toy_one;
  EncKeyToBytes := fun k => [k];
  MustMarshal := fun s => Ok s;
  EncSignTxWithOneScriptSpendInputStrict := fun _ f i _ k e => _ ← toy_out f i; s ← toy_sign k; Ok [s; e];
  SignTxWithOneScriptSpendInputStrict := fun _ f i _ k => _ ← toy_out f i; toy_sign k;
  SignTxForFirstScriptSpendWithTwoInputsFromScript := fun _ _ _ k _ => toy_sign k
|}.

(** ** retry-go: up to [n] attempts, the callback after each failed one *)

Fixpoint retryLoop {S} (i n : nat) (f : M S unit) (onRetry : Z -> error -> M S unit) : M S unit :=
  fun s =>
  match n with
  | O => (s, OutOfFuel)
  | Datatypes.S n =>
      match f s with
      | (s1, Err e) =>
          match n with
          | O => (s1, Err e)
          | _ => match onRetry (Z.of_nat i) e s1 with
                 | (s2, Ok _) => retryLoop (Datatypes.S i) n f onRetry s2
                 | x => x
                 end
          end
      | x => x
      end
  end.

#[export] Instance toyRetry : RetryLib := {| retry_Do := fun S n f onRetry => retryLoop 0 n f onRetry |}.

Lemma retryLoop_attempts {S} (f : M S unit) onRetry k s s1 :
  failed_attempts f onRetry k s s1 ->
  forall n, retryLoop 0 (k + Datatypes.S n) f onRetry s = retryLoop k (Datatypes.S n) f onRetry s1.
Proof.
  induction 1 as [s|k s s1 s2 s3 e _ IH Hf Ho]; intros n; [done|].
  replace (Datatypes.S k + Datatypes.S n)%nat with (k + Datatypes.S (Datatypes.S n))%nat by lia.
  rewrite IH. cbn [retryLoop]. rewrite Hf, Ho. done.
Qed.

#[export] Instance toyRetryLaws : RetryLaws.
Proof.
  split; cbn [retry_Do toyRetry].
  - intros S n k f onRetry s s1 s2 Hk Hf Hs. replace n with (k + Datatypes.S (n - k - 1))%nat by lia.
    rewrite (retryLoop_attempts f onRetry k s s1 Hf). cbn [retryLoop]. by rewrite Hs.
  - intros S n f onRetry s s1 s2 e Hf Hs. exists s2. split; [|by left].
    replace (Datatypes.S n) with (n + 1)%nat by lia.
    rewrite (retryLoop_attempts f onRetry n s s1 Hf). cbn [retryLoop]. by rewrite Hs.
  - intros S n f onRetry J Hf Ho. generalize 0%nat as i. induction n as [|n IH]; intros i s Hs; [done|].
    cbn [retryLoop]. destruct (Hf s Hs) as [H1 _].
    destruct (f s) as [s1 [a|e|m|]]; simpl in *; try done.
    destruct n as [|n]; [done|]. destruct (Ho (Z.of_nat i) e s1 H1) as [H2 _].
    destruct (onRetry (Z.of_nat i) e s1) as [s2 [b|e'|m|]]; simpl in *; try done. by apply IH.
Qed.

(** ** The node *)

Record ToyWorld := {
  tw_delivered : list Msg;                   (* executed messages *)
  tw_dels : list BTCDelegationResponse;      (* stored delegations *)
  tw_fps : list nat;                         (* stored finality providers *)
  tw_signed : list SigningRequest            (* what the signer was asked for *)
}.

Definition toyNode (dels : list BTCDelegationResponse) (fps : list nat) : ToyWorld :=
  {| tw_delivered := []; tw_dels := dels; tw_fps := fps; tw_signed := [] |}.

Definition toyVerdict (m : Msg) : option error :=
  match m with
  | AddCovenantSigsMsg m =>
      if decide (mc_StakingTxHash m = "dup") then Some ErrDuplicatedCovenantSig
      else if decide (mc_StakingTxHash m = "bad") then Some ErrInvalidCovenantSig
      else None
  | _ => None
  end.

(** Key-based pagination: the key of position [pos] has [pos + 1] bytes. *)
Definition toyKey (pos : nat) : bytes := replicate (S pos) x01.

Definition toyPage {A} (store : list A) (r : PageRequest) : QueryPage A :=
  let pos := pred (length (pg_Key r)) in
  let limit := Z.to_nat (pg_Limit r) in
  {| Items := take limit (drop pos store);
     Pagination := Some {| NextKey := if bool_decide (pos + limit < length store)%nat
                                      then toyKey (pos + limit) else [] |} |}.

Definition toyStakingParams : BTCStakingParamsT := {|
  sp_CovenantPks := [x07; x08]; sp_CovenantQuorum := 2;
  sp_MinStakingValueSat := 1; sp_MaxStakingValueSat := 1000;
  sp_MinStakingTimeBlocks := 10; sp_MaxStakingTimeBlocks := 100;
  sp_SlashingPkScript := [x51]; sp_MinSlashingTxFeeSat := 1; sp_SlashingRate := tt;
  sp_UnbondingTimeBlocks := 5; sp_UnbondingFeeSat := 1; sp_MinCommissionRate := tt |}.

#[export] Instance toyClient : BbnClient ToyWorld := {|
  KeyRecord := unit; AccAddress := unit;
  KeyringKey := fun _ w => (w, Ok tt);
  GetAddress := fun _ => Ok tt;
  MustBech32ifyAddressBytes := fun prefix _ => Ok (prefix +:+ "1toy");
  BTCCheckpointParams := fun w =>
    (w, Ok {| BtcConfirmationDepth := 10; CheckpointFinalizationTimeout := 100 |});
  BTCStakingParamsByVersion := fun v w =>
    (w, if decide (v = 0) then Ok toyStakingParams else Err "unknown version");
  BTCDelegation := fun h w =>
    (w, match filter (fun d => dr_StakingTxHex d = h) (tw_dels w) with
        | d :: _ => Ok d
        | [] => Err "not found"
        end);
  BTCDelegations := fun _ r w => (w, Ok (toyPage (tw_dels w) r));
  FinalityProviders := fun r w => (w, Ok (toyPage (tw_fps w) r));
  BTCTip := fun w => (w, Ok tt);
  ReliablySendMsgs := fun msgs _ _ w =>
    match first_bad toyVerdict 0 msgs with
    | Some (i, reason) => (w, Err (sdkExecError (N.of_nat i) reason))
    | None => ({| tw_delivered := tw_delivered w ++ msgs; tw_dels := tw_dels w; tw_fps := tw_fps w;
                  tw_signed := tw_signed w |}, Ok (Some {| rr_TxHash := "tx"; rr_Events := [] |}))
    end;
  IsRunning := fun w => (w, Ok true);
  StopClient := fun w => (w, Ok tt)
|}.

#[export] Instance toyClock : Clock ToyWorld := {| Now := fun w => (w, 0) |}.

Lemma toy_chain : AtomicChain toyVerdict tw_delivered.
Proof.
  split.
  - intros msgs w H. eexists _, _. split; [simpl; by rewrite H|done].
  - intros msgs w i reason H. exists w. split; [simpl; by rewrite H|done].
Qed.

Lemma toy_paginated {A} (J : Sys ToyWorld -> Prop) (store : list A) query :
  (forall r s, J s -> query r s = (s, Ok (toyPage store r))) -> Paginated J store toyKey query.
Proof.
  intros Hq. split; [done|]. intros s key pos limit Hs Hk Hl. exists s. split; [done|].
  rewrite Hq by done. unfold toyPage. simpl. rewrite Nat2Z.id.
  assert (pred (length key) = pos) as ->; [|done].
  destruct Hk as [[-> ->]| ->]; [done|]. unfold toyKey. rewrite length_replicate. done.
Qed.

(** ** The emulator on top of it *)

Definition toyDel (stakingTime paramsVersion : Z) : Delegation := {|
  del_BtcPk := x05; del_FpBtcPks := [x06]; del_StakingTime := stakingTime;
  del_StartHeight := 0; del_EndHeight := 0; del_TotalSat := 10;
  del_StakingTxHex := "0a"; del_StakingOutputIdx := 0; del_SlashingTxHex := "01";
  del_UnbondingTime := 5; del_CovenantSigs := [];
  del_BtcUndelegation := Some {|
    ud_UnbondingTxHex := "09"; ud_SlashingTxHex := "01"; ud_CovenantSlashingSigs := [];
    ud_CovenantUnbondingSigs := []; ud_DelegatorUnbondingSig := None; ud_SpendStakeTxHex := "" |};
  del_ParamsVersion := paramsVersion; del_StakeExpansion := None |}.

Definition toyResp (txHex : string) (stakingTime : Z) : BTCDelegationResponse := {|
  dr_BtcPk := x05; dr_FpBtcPkList := [x06]; dr_StakingTime := stakingTime;
  dr_StartHeight := 0; dr_EndHeight := 0; dr_TotalSat := 10;
  dr_StakingTxHex := txHex; dr_SlashingTxHex := "01"; dr_CovenantSigs := [];
  dr_StakingOutputIdx := 0; dr_UnbondingTime := 5;
  dr_UndelegationResponse := Some {|
    ur_UnbondingTxHex := "09"; ur_SlashingTxHex := "01"; ur_CovenantUnbondingSigList := [];
    ur_CovenantSlashingSigs := []; ur_DelegatorUnbondingInfoResponse := None |};
  dr_ParamsVersion := 0; dr_StkExp := None |}.

Definition toyBC (maxRetires : Z) : BabylonController :=
  {| bc_Key := "covenant"; bc_AccountPrefix := "bbn"; MaxRetiresBatchRemovingMsgs := maxRetires |}.

Definition toyCC : ClientController ToyWorld := babylonClientController (toyBC 0) 10.

(** The signer holds the key 7 and notes what it is asked to sign. *)
Definition toySigner : Signer ToyWorld := {|
  SignTransactions := fun req w =>
    ({| tw_delivered := tw_delivered w; tw_dels := tw_dels w; tw_fps := tw_fps w;
        tw_signed := tw_signed w ++ [req] |},
     signerResponseToCovenantResponse <$>
       (app_SignTransactions (NewHardcodedPrivKeyRetriever 0%nat) (fun _ => mret tt)
          (covenantRequestToSignerRequest req)
          {| heap := [x07]; keyringKeys := []; btcecPrivKey := None; input := "" |}).2);
  Env.PubKey := fun w => (w, Ok x07)
|}.

Definition toyEmulator : Emulator ToyWorld := {|
  ce_pk := x07; ce_signer := toySigner; ce_cc := toyCC;
  ce_paramCache := NewCacheVersionedParams toyCC;
  SigsBatchSize := 2; DelegationLimit := 50; BTCNetParams := tt;
  QueryInterval := 15000000000; UpdateInterval := 100000000
|}.

Definition toySys (dels : list BTCDelegationResponse) : Sys ToyWorld := initSys (toyNode dels []).

(** One round on a node with a valid delegation and one with a staking time
    out of range: one signature is delivered. *)
Example toy_round :
  let '(s, r) := submissionRound toyEmulator (toySys [toyResp "0a" 20; toyResp "0b" 9]) in
  r = Ok tt /\ length (tw_signed (world s)) = 1%nat /\
  (fun m => match m with AddCovenantSigsMsg m => mc_StakingTxHash m | _ => "" end)
    <$> tw_delivered (world s) = ["0a"] /\
  totalSignDelegationsSubmitted (collectors s) = 1.
Proof. vm_compute. auto. Qed.
