(* ===== verification/ToyServices.v ===== *)
(** * A small concrete environment for the programs around the emulator

    Executable instances of the parameters of the service, the configurations,
    the keyrings and the commands, with the laws the theorems ask for. *)
From Stdlib Require Import Strings.Byte Strings.Ascii Strings.String QArith.
From S2P Require Import Prelude GoStd JsonText JsonCodec GoNet GoPath SignerConfig BtcLib Config Types Env ParamsCache ClientController Emulator Lifecycle SignerApp Keyrings WireTypes HmacAuth Daemon SignerServer SignerClient RemoteProps ServerProps Covd SignerCmd Toy.
Local Open Scope Z_scope.

(** ** chi: the first route that matches *)

Definition routeMatches {S} (r : Request) (rt : Route S) : bool :=
  bool_decide (rq_Method r = rt_Method rt /\ rq_Path r = rt_Pattern rt).

#[export] Instance toyChi : ChiLib := {|
  chi_ServeHTTP := fun S routes r =>
    match List.find (routeMatches r) routes with
    | Some rt => rt_Handler rt r
    | None => mret {| rs_Status := 404; rs_ContentType := ""; rs_Body := [] |}
    end
|}.

Lemma find_route {S} (routes : list (Route S)) r rt :
  NoDup ((fun rt => (rt_Method rt, rt_Pattern rt)) <$> routes) -> rt ∈ routes ->
  rq_Method r = rt_Method rt -> rq_Path r = rt_Pattern rt -> List.find (routeMatches r) routes = Some rt.
Proof.
  intros Hd Hin Hm Hp. induction routes as [|x routes IH]; [by apply not_elem_of_nil in Hin|].
  apply NoDup_cons in Hd as [Hx Hd]. simpl. unfold routeMatches at 1. case_bool_decide as Hc.
  - apply elem_of_cons in Hin as [->|Hin]; [done|]. destruct Hx. apply list_elem_of_fmap. exists rt.
    split; [|done]. destruct Hc as [<- <-]. by rewrite Hm, Hp.
  - apply elem_of_cons in Hin as [->|Hin]; [by destruct Hc|]. by apply IH.
Qed.

#[export] Instance toyChiLaws : ChiLaws.
Proof.
  split; simpl.
  - intros S routes rt r Hd Hin Hm Hp. by rewrite (find_route routes r rt).
  - intros S routes r s Hn. destruct (List.find (routeMatches r) routes) as [rt|] eqn:Hf; [|eexists; by split; [|left]].
    apply List.find_some in Hf as [Hin Hm]. unfold routeMatches in Hm. case_bool_decide as Hc; [|done].
    destruct (Hn rt); [by apply list_elem_of_In|naive_solver..].
Qed.

(** ** A network with one service behind one address *)

Fixpoint dropStr (n : nat) (s : string) : string :=
  match n, s with
  | S n, String _ s => dropStr n s
  | _, _ => s
  end.

Lemma dropStr_app a b : dropStr (String.length a) (a +:+ b) = b.
Proof. induction a as [|c a IH]; [done|]. apply IH. Qed.

Definition toyURL : string := "http://signer".

Definition toyHttp (serve : Handler ServerSys) : HttpClient ServerSys := {|
  http_NewRequest := fun _ _ => Ok tt;
  http_Do := fun _ req s =>
    let '(s', r) := serve (serverView (dropStr (String.length toyURL) (hr_URL req)) req) s in
    (s', match r with
         | Ok resp => Ok {| hp_StatusCode := rs_Status resp;
                            hp_Body := {| content := rs_Body resp; readErr := None |} |}
         | _ => Err "EOF"
         end);
  json_Error := fun _ => "invalid character"
|}.

Lemma toy_connected serve :
  Connected (HttpClient0 := toyHttp serve) toyURL serve (fun s => s) (fun s _ => s).
Proof.
  split; [done|done|]. intros timeout path req w Hu _. exists "EOF".
  cbn [http_Do toyHttp]. by rewrite Hu, dropStr_app.
Qed.

(** ** A host: keyrings and configuration files *)

Record ToyHost := {
  th_keys : list (Place * string * string * byte);   (* where, name, passphrase, key *)
  th_files : list (string * Config)                  (* the files under a home *)
}.

Definition emptyHost : ToyHost := {| th_keys := []; th_files := [] |}.

Definition findKey (l : Place) (name p : string) (w : ToyHost) : option byte :=
  (fun e => e.2) <$> List.find (fun e => bool_decide (e.1 = (l, name, p))) (th_keys w).

#[export] Instance toyKeyringLib : KeyringLib ToyHost := {|
  KrHandle := Place; KrRec := byte; SigningAlgo := unit; AccAddr := byte; KeyOutput := string;
  kr_New := fun app backend dir w => (w, Ok (app, backend, dir));
  SupportedAlgorithms := fun _ => [tt];
  NewSigningAlgoFromString := fun _ l => match l with a :: _ => Ok a | [] => Err "unsupported" end;
  NewEntropy := fun _ w => (w, Ok [x07]);
  NewMnemonic := fun _ => Ok "seven";
  kr_NewAccount := fun h name _ _ _ _ s =>
    let p := default "" (head (Split (krInput s) newline)) in
    ({| krWorld := {| th_keys := (h, name, p, x07) :: th_keys (krWorld s); th_files := th_files (krWorld s) |};
        krInput := krInput s |}, Ok x07);
  kr_Key := fun h name s =>
    (s, match findKey h name (krInput s) (krWorld s) with Some k => Ok k | None => Err "key not found" end);
  CachedValue := fun k => Ok (Secp256k1PrivKey [k]);
  rec_GetAddress := fun k => Ok k;
  AccAddressString := fun a => "bbn1" +:+ EncodeToString [a];
  MkAccKeyOutput := fun k => Ok ("bbn1" +:+ EncodeToString [k]);
  ko_Address := fun a => a
|}.

Definition toyStored (w : ToyHost) (l : Place) (name p : string) (k : byte) : Prop := findKey l name p w = Some k.

#[export] Instance toyKeyringLaws : KeyringLaws toyStored.
Proof.
  split.
  - intros l h name mnemonic bip39 hd algo p w s rec (w0 & w1 & [= _ Hh]) _ Hp [= <- <-].
    assert (h = l) as -> by (rewrite <- Hh; by destruct l as [[]]). unfold toyStored, findKey. simpl.
    rewrite Split_app by done. simpl. by rewrite bool_decide_true.
  - done.
  - intros l h name p rec w (w0 & w1 & [= _ Hh]) Hs.
    assert (h = l) as -> by (rewrite <- Hh; by destruct l as [[]]). simpl. unfold toyStored in Hs. rewrite Hs.
    eexists. split; [done|]. simpl. rewrite Hs. by eexists.
  - intros rec ko [= <-]. by eexists.
Qed.

#[export] Instance toyNets : BtcNets := {|
  MainNetParams := tt; TestNet3Params := tt; RegressionNetParams := tt; SimNetParams := tt; SigNetParams := tt;
  zeroNetParams := tt |}.

#[export] Instance toyDefaults : BbnDefaults := {|
  DefaultBabylonConfig := {|
    bab_Key := "node0"; bab_ChainID := "chain-test"; bab_RPCAddr := "http://localhost:26657";
    bab_GRPCAddr := "https://localhost:9090"; bab_AccountPrefix := "bbn"; bab_KeyringBackend := "test";
    bab_GasAdjustment := 6 # 5; bab_GasPrices := "0.01ubbn"; bab_KeyDirectory := "/root/.babylond";
    bab_Debug := true; bab_Timeout := 20; bab_BlockTimeout := 60; bab_OutputFormat := "json";
    bab_SignModeStr := "direct"; bab_SubmitterAddress := "" |} |}.

Definition fileOf (name : string) (w : ToyHost) : option Config :=
  snd <$> List.find (fun e => bool_decide (e.1 = name)) (th_files w).

#[export] Instance toyOs : Os ToyHost := {|
  os_Stat := fun name w => (w, match fileOf name w with Some _ => Ok tt | None => Err "no such file" end);
  os_IsNotExist := fun e => bool_decide (e = "no such file");
  os_MkdirAll := fun _ w => (w, Ok tt);
  os_IsExist := fun _ => false;
  os_PathOf := fun _ => None;
  os_Readlink := fun _ w => (w, Err "not a link");
  os_WriteFile := fun _ _ w => (w, Ok tt);
  os_OpenAppend := fun _ w => (w, Ok tt);
  os_Getenv := fun v => if bool_decide (v = "HOME") then "/root" else "";
  os_UserHome := Some "/root";
  os_UserHomeDir := Ok "/root";
  os_Getwd := Ok "/"
|}.

Definition completeb (cfg : Config) : bool :=
  match cf_Metrics cfg, cf_BabylonConfig cfg, cf_RemoteSigner cfg with Some _, Some _, Some _ => true | _, _, _ => false end.

#[export] Instance toyFlags : GoFlags ToyHost := {|
  ini_ParseFile := fun f _ w =>
    (w, match fileOf f w with
        | Some cfg => if completeb cfg then Ok (setNet zeroNetParams cfg) else Err "missing group"
        | None => Err "no such file"
        end);
  ini_WriteFile := fun f cfg w => ({| th_keys := th_keys w; th_files := (f, cfg) :: th_files w |}, Ok tt)
|}.

Lemma completeb_spec cfg : completeb cfg = true <-> complete cfg.
Proof.
  unfold completeb, complete. split; [repeat case_match; try done; eauto|].
  by intros ([? ->] & [? ->] & [? ->]).
Qed.

#[export] Instance toyFlagsLaws : GoFlagsLaws (fun _ => True).
Proof.
  split.
  - intros f cfg w w' Hc _ Hw. injection Hw as <-.
    assert (fileOf f {| th_keys := th_keys w; th_files := (f, cfg) :: th_files w |} = Some cfg) as Hf
      by (unfold fileOf; simpl; by rewrite bool_decide_true).
    eexists _, _. split; [unfold FileExists, attempt, mbind, M_bind; cbn [os_Stat toyOs]; by rewrite Hf|].
    cbn [ini_ParseFile toyFlags]. by rewrite Hf, (proj2 (completeb_spec cfg) Hc).
  - intros f w w' cfg. simpl. destruct (fileOf f w) as [c|]; [|done].
    destruct (completeb c) eqn:Hc; [|done]. intros [= _ <-]. by apply completeb_spec in Hc.
Qed.

(** The configuration file of the signer on this host. *)
Definition toyStoreConfig : CosmosKeyStoreConfig :=
  {| ck_ChainID := "chain-test"; ck_KeyDirectory := "/root/.signer"; ck_KeyringBackend := "file";
     ck_KeyName := "covenant-key" |}.

#[export] Instance toyViper : Viper ToyHost := {|
  ViperFile := unit;
  viper_ReadInConfig := fun _ _ w => (w, Ok tt);
  viper_Unmarshal := fun _ conf =>
    Ok {| KeyStore := {| ks_KeyStoreType := "cosmos"; ks_CosmosKeyStore := Some toyStoreConfig |};
          Server := Server conf; Metrics := Metrics conf |}
|}.

(** ** The host of the emulator: a default configuration, the node of [Toy] and
    a signer that answers with the key 7 *)

#[export] Instance toyOsNode : Os ToyWorld := {|
  os_Stat := fun _ w => (w, Ok tt);
  os_IsNotExist := fun e => bool_decide (e = "no such file");
  os_MkdirAll := fun _ w => (w, Ok tt);
  os_IsExist := fun _ => false;
  os_PathOf := fun _ => None;
  os_Readlink := fun _ w => (w, Err "not a link");
  os_WriteFile := fun _ _ w => (w, Ok tt);
  os_OpenAppend := fun _ w => (w, Ok tt);
  os_Getenv := fun v => if bool_decide (v = "HOME") then "/root" else "";
  os_UserHome := Some "/root";
  os_UserHomeDir := Ok "/root";
  os_Getwd := Ok "/"
|}.

#[export] Instance toyFlagsNode : GoFlags ToyWorld := {|
  ini_ParseFile := fun _ _ w => (w, DefaultConfigWithHomePath "/root/.covd");
  ini_WriteFile := fun _ _ w => (w, Ok tt)
|}.

#[export] Instance toyBbnNew : BbnNew ToyWorld := {|
  BabylonConfig_Validate := fun c => if bool_decide (bab_ChainID c = "") then Err "empty chain id" else Ok tt;
  bbnclient_New := fun _ w => (w, Ok tt)
|}.

#[export] Instance toyIntercept : Interceptor ToyWorld := {| Intercept := fun w => (w, Ok tt) |}.

#[export] Instance toyHttpNode : HttpClient ToyWorld := {|
  http_NewRequest := fun _ _ => Ok tt;
  http_Do := fun _ _ w =>
    (w, Ok {| hp_StatusCode := 200;
              hp_Body := {| content := ascii_bytes (publicKeyText x07); readErr := None |} |});
  json_Error := fun _ => "invalid character"
|}.
