(* ===== verification/Witnesses.v ===== *)
(** * The theorems at concrete inputs

    For each property with hypotheses, an instance on the environment of
    [Toy] where they hold. *)
From Stdlib Require Import Strings.Byte.
From S2P Require Import Prelude GoStd BtcLib Types Env ParamsCache ClientController Emulator EmulatorProps ControllerProps SubmitProps PagingProps SystemProps Lifecycle SignerApp SignerProps WireTypes Toy.
Local Open Scope Z_scope.

(** Evaluation of both sides by the virtual machine. *)
Ltac vm_refl := match goal with |- _ = ?b => vm_cast_no_check (eq_refl b) end.

(** ** The parameter cache *)

Definition toyParams : StakingParams := {|
  ComfirmationTimeBlocks := 10; FinalizationTimeoutBlocks := 100; MinSlashingTxFeeSat := 1;
  CovenantPks := [x07; x08]; SlashingPkScript := [x51]; CovenantQuorum := 2; SlashingRate := tt;
  MinComissionRate := tt; UnbondingTimeBlocks := 5; UnbondingFee := 1; MinStakingTime := 10;
  MaxStakingTime := 100; MinStakingValue := 1; MaxStakingValue := 1000 |}.

Lemma Get_stable_witness :
  let s1 := (CacheGet toyCC 0 (toySys [])).1 in CacheGet toyCC 0 s1 = (s1, Ok toyParams).
Proof.
  intros s1. apply (Get_stable toyCC 0 (toySys [])).
  assert ((CacheGet toyCC 0 (toySys [])).2 = Ok toyParams) as <- by vm_refl.
  apply surjective_pairing.
Defined.

(** A node that is down for the next [world s] queries. *)
Definition flakyCC : ClientController nat := {|
  SubmitCovenantSigs := fun _ => fail "down";
  QueryPendingDelegations := fun _ _ => fail "down";
  QueryBTCDelegation := fun _ => fail "down";
  QueryStakingParamsByVersion := fun _ s =>
    match world s with
    | O => (s, Ok toyParams)
    | S n => (set_world n s, Err "down")
    end;
  Close := mret tt
|}.

(** The process after a failed query and the log line of the retry. *)
Definition afterFailure (n : nat) (s : Sys nat) : Sys nat :=
  add_log (Log DebugL "failed to query the consumer chain for the staking params") (set_world n s).

Lemma flaky_fails k : forall n s, world s = (k + n)%nat ->
  exists s1, query_fails flakyCC 0 k s s1 /\ world s1 = n /\ paramsByVersion s1 = paramsByVersion s.
Proof.
  induction k as [|k IH]; intros n s Hs; [exists s; split; [constructor|done]|].
  destruct (IH (S n) s) as (s1 & Hf & Hw & Hp); [lia|].
  exists (afterFailure n s1). split; [|done].
  eapply qf_more; [exact Hf|]. simpl. by rewrite Hw.
Defined.

Lemma Get_miss_success_witness :
  exists s, CacheGet flakyCC 0 (initSys 2%nat) = (s, Ok toyParams) /\
            paramsByVersion s !! 0 = Some toyParams.
Proof.
  destruct (flaky_fails 2 0 (initSys 2%nat) eq_refl) as (s1 & Hf & Hw & Hp).
  eexists. split.
  - apply (Get_miss_success flakyCC 0 2 (initSys 2%nat) s1 s1 toyParams);
      [reflexivity|unfold RtyAttNum; lia|exact Hf|simpl; by rewrite Hw].
  - simpl. apply lookup_insert_eq.
Defined.

Lemma Get_miss_exhausted_witness :
  exists s, CacheGet flakyCC 0 (initSys 7%nat) = (s, Err "down") /\ paramsByVersion s = ∅.
Proof.
  destruct (flaky_fails 4 3 (initSys 7%nat) eq_refl) as (s1 & Hf & Hw & Hp).
  destruct (Get_miss_exhausted flakyCC 0 (initSys 7%nat) s1 (set_world 2%nat s1) "down")
    as (s3 & H & _ & Hc); [reflexivity|exact Hf|simpl; by rewrite Hw|].
  exists s3. split; [exact H|]. rewrite Hc. simpl. exact Hp.
Defined.

Lemma cache_coherent_witness :
  map_Forall (fun _ p => p = toyParams) (paramsByVersion (CacheGet flakyCC 3 (initSys 1%nat)).1).
Proof.
  apply (cache_coherent flakyCC (fun _ p => p = toyParams) 3 (initSys 1%nat)).
  - intros v s0. simpl. destruct (world s0); simpl; split; try done. by intros p [= <-].
  - apply map_Forall_empty.
Defined.

(** ** The client controller *)

Lemma DelegationResp_faithful_witness :
  DelegationRespToDelegation (toyResp "0a" 70000) = Ok (toyDel 70000 0).
Proof.
  apply DelegationResp_faithful; [unfold resp_in_range; simpl; lia|].
  split_and!; simpl; try done; repeat constructor.
Defined.

Lemma QueryStakingParams_faithful_witness :
  bc_QueryStakingParamsByVersion 0 (toySys []) = (toySys [], Ok toyParams).
Proof.
  apply (QueryStakingParams_faithful 0 (toySys []) (toyNode [] []) (toyNode [] [])
           {| BtcConfirmationDepth := 10; CheckpointFinalizationTimeout := 100 |} toyStakingParams);
    [reflexivity|reflexivity|simpl; lia|simpl; lia|].
  split_and!; try reflexivity; try (unfold MaxUint16; simpl; lia). repeat constructor.
Defined.

Definition toyMsg (hash : string) : Msg := AddCovenantSigsMsg {|
  mc_Signer := "bbn1toy"; mc_Pk := x07; mc_StakingTxHash := hash; mc_SlashingTxSigs := [];
  mc_UnbondingTxSig := x07; mc_SlashingUnbondingTxSigs := []; mc_StakeExpansionTxSig := None |}.

Lemma resend_delivers_witness :
  exists s r,
    reliablySendMsgsResendingOnMsgErr (toyBC 0)
      (slice_of [toyMsg "bad"; toyMsg "0a"; toyMsg "dup"; toyMsg "0b"]) (toySys []) = (s, Ok r) /\
    tw_delivered (world s) = [toyMsg "0a"; toyMsg "0b"].
Proof.
  destruct (resend_delivers toyVerdict tw_delivered (toyBC 0)
              (slice_of [toyMsg "bad"; toyMsg "0a"; toyMsg "dup"; toyMsg "0b"]) (toySys []))
    as (s & r & H & Hd); [apply toy_chain|apply slice_of_ok|simpl; lia|vm_compute; lia|].
  exists s, r. split; [exact H|]. rewrite Hd. vm_refl.
Defined.

Lemma resend_gives_up_witness :
  exists s,
    reliablySendMsgsResendingOnMsgErr (toyBC 1) (slice_of [toyMsg "bad"; toyMsg "0a"]) (toySys [])
      = (s, Err ("failed to send batch of msgs: " +:+ sdkExecError 0 "the covenant signature is not valid"))
    /\ tw_delivered (world s) = [].
Proof.
  destruct (resend_gives_up toyVerdict tw_delivered (toyBC 1)
              (slice_of [toyMsg "bad"; toyMsg "0a"]) (toySys []))
    as (s & H & Hd); [apply toy_chain|apply slice_of_ok|simpl; lia|vm_compute; lia|].
  exists s. split; [|exact Hd]. rewrite H. reflexivity.
Defined.

Lemma duplicate_masks_refusals_witness :
  exists s,
    reliablySendMsgsResendingOnMsgErr (toyBC 1) (slice_of [toyMsg "dup"; toyMsg "0a"]) (toySys [])
      = (s, Ok emptyTxResponse) /\ tw_delivered (world s) = [].
Proof.
  apply (duplicate_masks_refusals toyVerdict tw_delivered (toyBC 1)
           (slice_of [toyMsg "dup"; toyMsg "0a"]) (toySys []) ErrDuplicatedCovenantSig);
    [apply toy_chain|apply slice_of_ok|simpl; lia|vm_compute; lia|vm_compute; left|reflexivity].
Defined.

(** ** Paged queries *)

Lemma QueryFinalityProviders_all_witness :
  exists s, tw_fps (world s) = seq 0 200 /\
    QueryFinalityProviders 3 (initSys (toyNode [] (seq 0 200))) = (s, Ok (seq 0 200)).
Proof.
  apply (QueryFinalityProviders_all (BL := toyLib) (fun s => tw_fps (world s) = seq 0 200) (seq 0 200) toyKey);
    [|reflexivity|vm_compute; lia].
  apply toy_paginated. intros r s Hs. unfold ext. simpl. rewrite Hs. by destruct s.
Defined.

Definition someResps (n : nat) : list BTCDelegationResponse := replicate n (toyResp "0a" 20).
Definition someDels (n : nat) : list Delegation := replicate n (toyDel 20 0).
Definition stores (n : nat) (s : Sys ToyWorld) : Prop := tw_dels (world s) = someResps n.

Lemma stores_paginated n status :
  Paginated (stores n) (someResps n) toyKey (fun r => ext (BTCDelegations status r)).
Proof. apply toy_paginated. intros r s Hs. unfold ext. simpl. rewrite Hs. by destruct s. Qed.

Lemma some_convert n :
  Forall2 (fun r d => DelegationRespToDelegation r = Ok d) (someResps n) (someDels n).
Proof. unfold someResps, someDels. induction n as [|n IH]; constructor; [reflexivity|exact IH]. Qed.

Lemma queryDelegations_correct_witness :
  exists s, stores 5 s /\
    queryDelegationsWithStatus 3 PENDING 2 (Some (fun d => mret true)) (toySys (someResps 5))
    = (s, Ok (someDels 2)).
Proof.
  apply (queryDelegations_correct (stores 5) PENDING toyKey (someResps 5) (someDels 5)
           (fun d => mret true) (fun _ => true)) with (limit := 2%nat).
  - apply stores_paginated.
  - apply some_convert.
  - intros d s _ Hs. by exists s.
  - reflexivity.
  - lia.
  - vm_compute. lia.
  - left. vm_compute. lia.
Defined.

Lemma queryDelegations_repeats_witness :
  exists N s, stores 1000 s /\ forall fuel, (N <= fuel)%nat ->
    queryDelegationsWithStatus fuel PENDING 1500 (Some (fun d => mret true)) (toySys (someResps 1000))
    = (s, Ok (take 1500 (concat (replicate 1500
                (filter (fun d => (fun _ => true) d = true) (someDels 1000)))))).
Proof.
  apply (queryDelegations_repeats (stores 1000) PENDING toyKey (someResps 1000) (someDels 1000)
           (fun d => mret true) (fun _ => true)) with (limit := 1500%nat) (k := 0%nat).
  - apply stores_paginated.
  - apply some_convert.
  - intros d s _ Hs. by exists s.
  - reflexivity.
  - lia.
  - reflexivity.
  - done.
Defined.

Lemma queryDelegations_diverges_witness :
  (queryDelegationsWithStatus 1000 PENDING 2 (Some (fun d => mret false)) (toySys (someResps 4))).2
  = OutOfFuel.
Proof.
  apply (queryDelegations_diverges (stores 4) PENDING toyKey (someResps 4) (someDels 4)
           (fun d => mret false) (fun _ => false)) with (limit := 2%nat) (k := 1%nat).
  - apply stores_paginated.
  - apply some_convert.
  - intros d s _ Hs. by exists s.
  - reflexivity.
  - lia.
  - reflexivity.
  - reflexivity.
Defined.

(** ** The signer and its wire format *)

Lemma toy_zero : ZeroKeyRefused (BL := toyLib).
Proof. split; [intros a b i scr ek x|intros a b i scr x|done]; simpl; by destruct (toy_out b i). Qed.

Lemma toy_codec : CodecLaws (BL := toyLib).
Proof. split; try done. by intros o b [= <-]. Qed.

Definition toyRequest : ParsedSigningRequest := {|
  pr_StakingTx := [x0a]; pr_SlashingTx := [x01]; pr_UnbondingTx := [x09]; pr_SlashUnbondingTx := [x01];
  pr_StakeExp := Some {| ps_PreviousActiveStakeTx := [x03; x04]; ps_OtherFundingOutput := x02;
                         ps_PreviousStakingOutputIdx := 1;
                         ps_PreviousActiveStakeUnbondingScript := [x02; x05] |};
  pr_StakingOutputIdx := 0; pr_SlashingScript := [x01; x05]; pr_UnbondingScript := [x02; x05];
  pr_UnbondingSlashingScript := [x03; x05]; pr_FpEncKeys := [x06; x10] |}.

Definition toyResponse : ParsedSigningResponse := {|
  pp_SlashAdaptorSigs := [[x07; x06]; [x07; x10]]; pp_UnbondingSig := x07;
  pp_SlashUnbondingAdaptorSigs := [[x07; x06]; [x07; x10]]; pp_StakeExpSig := Some x07 |}.

(** A keyring whose one key, the byte 7, opens under one passphrase. *)
#[export] Instance toyKeyring : Keyring := {|
  KrRecord := bytes;
  KrKey := fun _ pass => if decide (pass = "open") then Ok [x07] else Err "wrong passphrase";
  LocalCachedKey := fun r => Ok (Secp256k1PrivKey r)
|}.

Definition unlockedSigner : SignerSys :=
  {| heap := [x00; x07]; keyringKeys := [[x07]; [x07]]; btcecPrivKey := Some 1%nat; input := "open" |}.

Lemma SignTransactions_refines_witness :
  app_SignTransactions (KeyringRetriever "cov") (fun _ => mret tt) toyRequest unlockedSigner
  = (unlockedSigner, Ok toyResponse).
Proof.
  rewrite (SignTransactions_refines "cov" toyRequest unlockedSigner 1%nat x07) by reflexivity.
  reflexivity.
Defined.

Lemma SignTransactions_race_safe_witness : signSpec x07 toyRequest = Ok toyResponse.
Proof.
  apply (SignTransactions_race_safe "cov"
           (fun t => if decide (t = 0%nat) then [OpUnlock "other"; OpPrivKey] else [OpPrivKey])
           toyRequest unlockedSigner unlockedSigner 1%nat x07 toyResponse);
    [apply toy_zero|reflexivity..].
Defined.

Lemma Lock_zeroes_btcec_keys_witness :
  exists s s', cosmos_Unlock "cov" "open" initSigner = (s, Ok tt) /\ btcecPrivKey s = Some 0%nat /\
    cosmos_Lock s = (s', Ok tt) /\ heap s' = [x00] /\ [x07] ∈ keyringKeys s'.
Proof.
  set (s := (cosmos_Unlock "cov" "open" initSigner).1).
  destruct (Lock_zeroes_btcec_keys "cov" s (fun _ => mret tt) toyRequest) as (_ & s' & Hl & _ & Hk & _).
  { eapply rtc_l; [exists (OpUnlock "open"); reflexivity|constructor]. }
  destruct (Hk 0%nat eq_refl) as (key & Hin & _). injection Hl as <-.
  exists s, (cosmos_Lock s).1. do 4 (split; [reflexivity|]).
  apply list_elem_of_singleton in Hin as ->. apply list_elem_of_singleton. reflexivity.
Defined.

Lemma PubKey_race_witness :
  (app_PubKey (KeyringRetriever "cov") (fun _ => run_ops "cov" [OpLock]) unlockedSigner).2 = Ok x00.
Proof. apply (PubKey_race "cov" unlockedSigner 1%nat x07); reflexivity. Defined.

Lemma request_roundtrip_witness :
  exists w, ToSignTransactionRequest toyRequest = Ok w /\ ParseSigningRequest w = Ok toyRequest.
Proof.
  eexists. split; [reflexivity|].
  apply (request_roundtrip toyRequest); [apply toy_codec| |reflexivity|by split_and!].
  repeat constructor; by intros b [= <-].
Defined.

Lemma response_roundtrip_witness : ToParsedSigningResponse (ToResponse toyResponse) = Ok toyResponse.
Proof. apply response_roundtrip; [apply toy_codec|]. by split. Defined.

(** ** The emulator *)

Lemma nil_delegation_panics_witness :
  (AddCovenantSignatures toyEmulator ([Some (toyDel 20 0)] ++ None :: []) (toySys [])).2
  = Panic "invalid memory address or nil pointer dereference".
Proof.
  destruct (signLoop toyEmulator [Some (toyDel 20 0)] [] (toySys [])) as [s1 r] eqn:H.
  assert (exists sigs, r = Ok sigs) as [sigs ->].
  { assert (match (signLoop toyEmulator [Some (toyDel 20 0)] [] (toySys [])).2 with
            | Ok _ => true | _ => false end = true) as Hok by vm_refl.
    rewrite H in Hok. destruct r; [by eexists|done..]. }
  by rewrite (nil_delegation_panics toyEmulator [Some (toyDel 20 0)] [] sigs (toySys []) s1 H).
Defined.

Lemma params_failure_drops_batch_witness :
  exists s, AddCovenantSignatures toyEmulator ([] ++ Some (toyDel 20 7) :: [Some (toyDel 20 0)]) (toySys [])
  = (s, Err "failed to get staking params with version 7: failed to query staking params with version 7: unknown version").
Proof.
  eexists.
  refine (params_failure_drops_batch toyEmulator [] [Some (toyDel 20 0)] (toyDel 20 7) _ [] (toySys [])
            (toySys []) _ _ _ _ _); [reflexivity|reflexivity|].
  rewrite (surjective_pairing (Get _ _ _)). reflexivity.
Defined.

Lemma long_staking_time_panics_witness :
  (AddCovenantSignatures toyEmulator [Some (toyDel 70000 0)] (toySys [])).2
  = Panic "invalid delegation in database".
Proof.
  erewrite (long_staking_time_panics toyEmulator [] [] (toyDel 70000 0) _ [] (toySys []) (toySys []) _ toyParams);
    [reflexivity|reflexivity|reflexivity| | |reflexivity|reflexivity].
  - rewrite (surjective_pairing (Get _ _ _)). reflexivity.
  - left. reflexivity.
Defined.

(** The signer has only been asked for valid requests for one delegation, and
    the cache holds the node's parameters. *)
Definition onlyValid (s : Sys ToyWorld) : Prop :=
  Forall (fun req => exists del, Some del ∈ [Some (toyDel 20 0)] /\
            RequestFor toyEmulator (fun _ p => p = toyParams) (fun _ _ => True) del req)
         (tw_signed (world s)) /\
  map_Forall (fun _ p => p = toyParams) (paramsByVersion s).

Lemma keeps_quiet {A} (m : M ToyWorld A) (Q : A -> Prop) :
  (forall w, tw_signed (m w).1 = tw_signed w) -> (forall w a, (m w).2 = Ok a -> Q a) ->
  keeps onlyValid (ext m) Q.
Proof.
  intros Hm HQ. apply keeps_ext. intros s [H1 H2]. split; [|by apply HQ].
  split; [|done]. simpl. by rewrite Hm.
Qed.

Lemma keeps_toy_params v : keeps onlyValid (bc_QueryStakingParamsByVersion v) (fun p => p = toyParams).
Proof.
  intros s Hs. unfold bc_QueryStakingParamsByVersion.
  destruct (decide (v = 0)) as [->|Hv].
  - split; [destruct s; exact Hs|]. simpl. by intros a [= <-].
  - unfold mbind, M_bind, wrapErrM, ext. simpl. destruct (decide (v = 0)); [done|]. simpl.
    split; [destruct s; exact Hs|done].
Qed.

Lemma keeps_toy_submit sigs : keeps onlyValid (bc_SubmitCovenantSigs (toyBC 0) sigs) (fun _ => True).
Proof.
  apply keeps_SubmitCovenantSigs.
  - intros msgs. apply keeps_quiet; [|done].
    intros w. simpl. by destruct (first_bad toyVerdict 0 msgs) as [[i r]|].
  - intros s Hs. split; [destruct s; exact Hs|done].
Qed.

Lemma toy_environment :
  Environment toyEmulator (fun _ p => p = toyParams) (fun _ _ => True) (fun _ _ => True) onlyValid
    (fun req => exists del, Some del ∈ [Some (toyDel 20 0)] /\
       RequestFor toyEmulator (fun _ p => p = toyParams) (fun _ _ => True) del req)
    (BatchSigs toyEmulator (fun _ p => p = toyParams) (fun _ _ => True) (fun _ _ => True) [Some (toyDel 20 0)]).
Proof.
  split.
  - by split; intros s x [H1 H2].
  - apply keeps_quiet; done.
  - intros v. apply keeps_CacheGet; [apply _|..].
    + by intros s l [H1 H2].
    + eapply keeps_mono; [apply keeps_toy_params|]. intros p ->. split; [done|]. intros s [H1 H2].
      split; [done|]. by apply map_Forall_insert_2.
    + intros s p [_ H] Hp. by apply (H v).
  - intros h. eapply keeps_bind; [|intros r _; by apply keeps_lift].
    apply keeps_wrapErrM, (keeps_quiet _ (fun _ => True)); done.
  - intros sigs _. apply keeps_toy_submit.
  - intros req Hreq. apply keeps_ext. intros s [H1 H2]. split; [|done]. split; [|done].
    simpl. apply Forall_app. split; [done|]. by constructor.
Qed.

Lemma AddCovenantSignatures_safe_witness :
  onlyValid (AddCovenantSignatures toyEmulator [Some (toyDel 20 0)] (toySys [])).1.
Proof.
  apply (AddCovenantSignatures_safe toyEmulator (fun _ p => p = toyParams) (fun _ _ => True) (fun _ _ => True)
           onlyValid [Some (toyDel 20 0)] (toySys [])); [apply toy_environment|].
  split; [constructor|apply map_Forall_empty].
Defined.

(** That run does sign something. *)
Example safe_witness_signs :
  length (tw_signed (world (AddCovenantSignatures toyEmulator [Some (toyDel 20 0)] (toySys [])).1)) = 1%nat.
Proof. vm_refl. Qed.

(** ** The emulator with the client controller *)

Definition toySigs : CovenantSigs := {|
  cs_PublicKey := x07; cs_StakingTxHash := "0a"; cs_SlashingSigs := [[x07; x06]];
  cs_UnbondingSig := x07; cs_SlashingUnbondingSigs := [[x07; x06]]; cs_StkExpSig := None |}.

Lemma nothing_signed_is_an_error_witness :
  (AddCovenantSignatures toyEmulator [Some (toyDel 9 0)] (toySys [])).2
  = Err "failed to send batch of msgs: %!w(<nil>)".
Proof.
  apply (nothing_signed_is_an_error toyEmulator (toyBC 0) 10%nat eq_refl [Some (toyDel 9 0)] (toySys [])
           (signLoop toyEmulator [Some (toyDel 9 0)] [] (toySys [])).1); [done|].
  rewrite (surjective_pairing (signLoop _ _ _ _)) at 1. reflexivity.
Defined.

Lemma toy_quiet : QuietKeyring (toyBC 0) tw_delivered "bbn1toy".
Proof. split; [|done]. intros s. exists s. by destruct s. Qed.

Lemma signatures_are_delivered_witness :
  exists s r, AddCovenantSignatures toyEmulator [Some (toyDel 20 0)] (toySys []) = (s, Ok r) /\
    tw_delivered (world s) = [msgOf "bbn1toy" toySigs].
Proof.
  destruct (signatures_are_delivered toyEmulator (toyBC 0) 10%nat eq_refl toyVerdict tw_delivered "bbn1toy"
              [Some (toyDel 20 0)] (toySys [])
              (signLoop toyEmulator [Some (toyDel 20 0)] [] (toySys [])).1 [toySigs])
    as (s & r & H & Hd);
    [apply toy_chain|apply toy_quiet|done|
     rewrite (surjective_pairing (signLoop _ _ _ _)) at 1; reflexivity|simpl; lia|vm_compute; lia|].
  exists s, r. split; [exact H|]. rewrite Hd. vm_refl.
Defined.

(** ** Start, stop, readiness *)

(** Start, the goroutines beginning, Stop and the two loops leaving. *)
Definition startedDaemon : Daemon := Start (newDaemon (toySys [])).
Definition stoppingDaemon : Daemon := StopBegin startedDaemon.

(** A log line. *)
Definition noted (l : Level) (msg : string) (d : Daemon) : Sys ToyWorld := add_log (Log l msg) (d_sys d).

Definition sigBegun (d : Daemon) : Daemon :=
  setSig d (noted InfoL "starting signature submission loop" d) AtSelect (wg d) false.
Definition metBegun (d : Daemon) : Daemon :=
  setMet d (noted InfoL "starting metrics update loop" d) AtSelect (wg d) false.
Definition oneLeft (d : Daemon) : Daemon :=
  setSig d (noted DebugL "exiting covenant signature submission loop" d) Exited (wg d - 1) false.
Definition noneLeft (d : Daemon) : Daemon :=
  setMet d (noted InfoL "exiting metrics update loop" d) Exited (wg d - 1) false.
Definition stoppedLoops : Daemon := noneLeft (oneLeft (metBegun (sigBegun stoppingDaemon))).

Lemma stopping_reachable : rtc (dstep toyEmulator) (newDaemon (toySys [])) stoppingDaemon.
Proof.
  eapply rtc_l; [by apply step_start|]. eapply rtc_l; [by apply step_stop|]. apply rtc_refl.
Qed.

Lemma none_left_reachable : rtc (dstep toyEmulator) (newDaemon (toySys [])) stoppedLoops.
Proof.
  etrans; [apply stopping_reachable|].
  eapply rtc_l; [by apply (step_sig_begin toyEmulator stoppingDaemon)|].
  eapply rtc_l; [by apply (step_met_begin toyEmulator (sigBegun stoppingDaemon))|].
  eapply rtc_l; [by apply (step_sig_quit toyEmulator (metBegun (sigBegun stoppingDaemon)))|].
  eapply rtc_l; [by apply (step_met_quit toyEmulator (oneLeft (metBegun (sigBegun stoppingDaemon))))|].
  apply rtc_refl.
Qed.

Lemma Stop_waits_for_loops_witness :
  live (sigLoop (StopEnd stoppedLoops)) = 0 /\ live (metLoop (StopEnd stoppedLoops)) = 0 /\
  wg (StopEnd stoppedLoops) = 0 /\ quit (StopEnd stoppedLoops) = true.
Proof.
  apply (Stop_waits_for_loops toyEmulator (toySys []) stoppedLoops (StopEnd stoppedLoops));
    [apply none_left_reachable|by apply step_stop_end|done|done].
Defined.

Lemma Stop_can_complete_witness :
  exists d', rtc (dstep toyEmulator) stoppingDaemon d' /\ stopOnce d' = StopDone.
Proof.
  apply (Stop_can_complete toyEmulator (toySys []) stoppingDaemon);
    [reflexivity|reflexivity|apply stopping_reachable|reflexivity|reflexivity|done].
Defined.

(** The same emulator configured with a batch size of zero. *)
Definition zeroBatchEmulator : Emulator ToyWorld := {|
  ce_pk := x07; ce_signer := toySigner; ce_cc := toyCC;
  ce_paramCache := NewCacheVersionedParams toyCC;
  SigsBatchSize := 0; DelegationLimit := 50; BTCNetParams := tt;
  QueryInterval := 1; UpdateInterval := 1 |}.

Lemma hung_round_blocks_Stop_witness :
  exists d, rtc (dstep zeroBatchEmulator) (newDaemon (toySys [toyResp "0a" 20])) d /\
    sigLoop d = Hung /\
    forall d', rtc (dstep zeroBatchEmulator) d d' -> stopOnce d' <> StopDone /\ sigLoop d' = Hung.
Proof.
  set (s0 := toySys [toyResp "0a" 20]). set (d0 := sigBegun (Start (newDaemon s0))).
  assert ((submissionRound zeroBatchEmulator (d_sys d0)).2 = OutOfFuel) as Hf by vm_refl.
  destruct (submissionRound zeroBatchEmulator (d_sys d0)) as [s1 r] eqn:Hr. simpl in Hf. subst r.
  exists (setSig d0 s1 Hung (wg d0) false).
  assert (rtc (dstep zeroBatchEmulator) (newDaemon s0) (setSig d0 s1 Hung (wg d0) false)) as Hreach.
  { eapply rtc_l; [by apply step_start|].
    eapply rtc_l; [by apply (step_sig_begin zeroBatchEmulator (Start (newDaemon s0)))|]. fold (sigBegun (Start (newDaemon s0))). fold d0.
    eapply rtc_l; [by apply (step_tick_hang zeroBatchEmulator d0 s1)|]. apply rtc_refl. }
  split; [exact Hreach|]. split; [reflexivity|]. intros d' Hd'.
  apply (hung_round_blocks_Stop zeroBatchEmulator s0 (setSig d0 s1 Hung (wg d0) false) d');
    [exact Hreach|reflexivity|done|exact Hd'].
Defined.

Lemma ready_before_Start_witness :
  CheckReadiness toyEmulator (newDaemon (toySys [])) = (newDaemon (toySys []), Ok tt).
Proof. apply (ready_before_Start toyEmulator (toySys []) (toyNode [] []) x07). reflexivity. Defined.
