(* ===== verification/ServiceWitnesses.v ===== *)
(** * The theorems of the services and commands at concrete inputs

    For each property of these parts with hypotheses, an instance on the
    environment of [ToyServices] where they hold. *)
From Stdlib Require Import Strings.Byte Strings.Ascii Strings.String.
From S2P Require Import Prelude GoStd JsonText JsonCodec GoNet GoPath SignerConfig BtcLib Config Types Env ParamsCache ClientController Emulator Lifecycle SignerApp SignerProps Keyrings WireTypes HmacAuth Daemon SignerServer SignerClient RemoteProps ServerProps Tracing SignerConcurrency Covd SignerCmd Toy ToyServices Witnesses.
Local Open Scope Z_scope.

(** ** Configuration *)

Lemma Address_splits_witness :
  SplitHostPort "127.0.0.1:2112" = Some ("127.0.0.1", "2112") /\ SplitHostPort "::1:2112" = None.
Proof.
  split.
  - destruct (Address_splits DefaultMetricsConfig "127.0.0.1:2112" ltac:(vm_refl)) as [[_ H]|[H _]];
      [exact H|discriminate H].
  - destruct (Address_splits {| mc_Host := "::1"; mc_Port := 2112; mc_UpdateInterval := 1 |} "::1:2112" ltac:(vm_refl))
      as [[H _]|[_ H]]; [discriminate H|exact H].
Defined.

(** ** The daemon *)

Definition runningProcess : Process (W := ToyWorld) :=
  goOn (newProcess (toySys [])) 1 RunWaiting PromServing (Start (newDaemon (toySys []))).
Definition signalledProcess : Process (W := ToyWorld) :=
  {| p_started := 1; p_run := RunWaiting; p_prom := PromServing; p_signal := true; p_exited := false;
     p_daemon := p_daemon runningProcess |}.

Lemma signalled_reachable :
  rtc (pstep toyEmulator DefaultMetricsConfig) (newProcess (toySys [])) signalledProcess.
Proof.
  eapply rtc_l; [by apply (run_call toyEmulator DefaultMetricsConfig (newProcess (toySys [])) "127.0.0.1:2112")|].
  eapply rtc_l; [by apply run_signal|]. apply rtc_refl.
Qed.

Lemma shutdown_completes_witness :
  exists p', rtc (pstep toyEmulator DefaultMetricsConfig) signalledProcess p' /\ p_run p' = RunReturned (Ok tt).
Proof.
  apply (shutdown_completes toyEmulator DefaultMetricsConfig (toySys []));
    [reflexivity|reflexivity|apply signalled_reachable|reflexivity|reflexivity|by split|done].
Defined.

(** A configuration whose metrics host is no address. *)
Definition badMetrics : MetricsConfig := {| mc_Host := "localhost"; mc_Port := 2112; mc_UpdateInterval := 1 |}.


Lemma health_is_readiness_witness :
  exists ps d resp,
    setupPrometheus toyEmulator DefaultMetricsConfig (fun _ => mret (httpError "" 200)) = Ok ps /\
    prometheusMux ps (sent "GET" "/health" [] "") (newDaemon (toySys [])) = (d, Ok resp) /\ rs_Status resp = 200.
Proof.
  destruct (setupPrometheus toyEmulator DefaultMetricsConfig (fun _ => mret (httpError "" 200)))
    as [ps|e|m|] eqn:E; [|discriminate E..]. exists ps.
  destruct (health_is_readiness toyEmulator DefaultMetricsConfig _ ps
              (sent "GET" "/health" [] "") (newDaemon (toySys [])) E) as (d & resp & H & _ & Hiff); [reflexivity|done|done|].
  exists d, resp. split; [reflexivity|]. split; [exact H|]. apply Hiff. split; [reflexivity|]. by exists x07.
Defined.

(** The emulator of a configuration file without a query interval. *)
Definition noInterval : Emulator ToyWorld := {|
  ce_pk := x07; ce_signer := toySigner; ce_cc := toyCC; ce_paramCache := NewCacheVersionedParams toyCC;
  SigsBatchSize := 2; DelegationLimit := 50; BTCNetParams := tt; QueryInterval := 0; UpdateInterval := 1 |}.

Lemma nonpositive_interval_crashes_witness :
  exists d', dstep noInterval (Start (newDaemon (toySys []))) d' /\ crashed d' = true.
Proof.
  destruct (nonpositive_interval_crashes noInterval (toySys []) (Start (newDaemon (toySys [])))) as [[H _]|(_ & _ & [H|H])];
    [reflexivity|by apply rtc_once, step_start|discriminate H|discriminate H|exact H].
Defined.

(** ** The signer service and its client *)

Definition signerPlace : Place := ("chain-test", "file", "/root/.signer").

(** The host after a covenant key was created with the passphrase secret. *)
Definition hostWithKey : ToyHost :=
  {| th_keys := [(signerPlace, "covenant-key", "secret", x07)]; th_files := [] |}.

#[local] Instance servedKeyring : Keyring := openedKeyring (signerPlace : KrHandle) hostWithKey.

Definition toyServerConfig : ParsedServerConfig :=
  {| psc_Host := "127.0.0.1"; psc_Port := 9791; psc_WriteTimeout := 15; psc_ReadTimeout := 15;
     psc_IdleTimeout := 120; psc_MaxContentLength := 10485760; psc_HMACKey := "k" |}.

Definition toyRemote : RemoteSignerCfg := {| rc_URL := toyURL; rc_Timeout := 2; rc_HMACKey := "k" |}.

Definition toyStore : PrivKeyRetriever := KeyringRetriever "covenant-key".
Definition toyServe : Handler ServerSys := New toyStore (fun _ => mret tt) toyServerConfig.

#[local] Instance servedHttp : HttpClient ServerSys := toyHttp toyServe.

Lemma toy_paired :
  Paired toyServerConfig toyRemote "covenant-key" (fun s : ServerSys => s) (fun s _ => s).
Proof. split; [apply toy_connected|reflexivity]. Qed.

(** The service with its key unlocked. *)
Definition unlockedServer : ServerSys :=
  {| sv_app := {| heap := [x07]; keyringKeys := [[x07]]; btcecPrivKey := Some 0%nat; input := "secret" |};
     sv_metrics := NewCovenantSignerMetrics; sv_log := [] |}.

Lemma remote_unlock_witness :
  exists s, (Unlock toyURL 2 "secret" "k" newServer).1 = s /\
    btcecPrivKey (sv_app s) = Some 0%nat /\ (Unlock toyURL 2 "secret" "k" newServer).2 = Ok tt.
Proof.
  destruct (remote_unlock toyServerConfig toyRemote "covenant-key" (fun s => s) (fun s _ => s) "secret" newServer)
    as (s & Happ & Hrun & Hiff); [apply toy_paired|vm_compute; congruence|].
  exists s. split; [exact Hrun|]. split; [by rewrite Happ; vm_refl|]. apply Hiff. vm_refl.
Defined.

Lemma remote_pubkey_witness :
  exists s, sv_app s = sv_app unlockedServer /\
    Env.PubKey (NewRemoteSigner toyRemote) unlockedServer = (s, Ok x07).
Proof.
  apply (remote_pubkey toyServerConfig toyRemote "covenant-key" (fun s => s) (fun s _ => s) unlockedServer 0%nat x07);
    [apply toy_paired|done|done|vm_compute; congruence|reflexivity|reflexivity].
Defined.

Lemma metrics_agree_witness :
  exists s, served "covenant-key" toyServerConfig newServer s /\ gaugeOk s.
Proof.
  assert (exists s, served "covenant-key" toyServerConfig newServer s) as [s Hs]
    by (eexists; by exists (sent "POST" "/v1/unlock" (unlockBody "secret") "k")).
  exists s. split; [exact Hs|]. exact (proj1 (metrics_agree "covenant-key" toyServerConfig s (rtc_once _ _ Hs))).
Defined.

(** A request for the public key of a locked signer. *)
Definition lockedRoute : Route ServerSys :=
  {| rt_Method := "GET"; rt_Pattern := "/v1/public-key";
     rt_Handler := registerHandler (h_GetPublicKey toyStore (fun _ => mret tt)) |}.
Definition lockedAnswer : Response := writeResponse 500 (errorJson hiddenError).

Lemma signing_failures_hidden_witness :
  exists s, rt_Handler lockedRoute (sent "GET" "/v1/public-key" [] "") newServer = (s, Ok lockedAnswer) /\
    told toyStore (sent "GET" "/v1/public-key" [] "") newServer "/v1/public-key" lockedAnswer.
Proof.
  assert ((rt_Handler lockedRoute (sent "GET" "/v1/public-key" [] "") newServer).2 = Ok lockedAnswer) as E by vm_refl.
  pose proof (surjective_pairing (rt_Handler lockedRoute (sent "GET" "/v1/public-key" [] "") newServer)) as H.
  rewrite E in H. eexists. split; [exact H|].
  exact (signing_failures_hidden toyStore (fun _ => mret tt) lockedRoute _ newServer _ lockedAnswer
           ltac:(do 3 right; left) H).
Defined.

(** What the emulator asks for; [toyRequest] of [Witnesses] is its form on the
    signer's side. *)
Definition emuRequest : SigningRequest := {|
  sr_StakingTx := [x0a]; sr_SlashingTx := [x01]; sr_UnbondingTx := [x09]; sr_SlashUnbondingTx := [x01];
  sr_StakeExp := Some {| se_PreviousActiveStakeTx := [x03; x04]; se_OtherFundingOutput := x02;
                         se_PreviousStakingOutputIdx := 1;
                         se_PreviousActiveStakeUnbondingPkScriptPath := [x02; x05] |};
  sr_StakingOutputIdx := 0; sr_SlashingPkScriptPath := [x01; x05];
  sr_StakingTxUnbondingPkScriptPath := [x02; x05]; sr_UnbondingTxSlashingPkScriptPath := [x03; x05];
  sr_FpEncKeys := [x06; x10] |}.

(** Its form on the wire. *)
Definition emuWire : SignTransactionsRequest := {|
  StakingTxHex := "0a"; SlashingTxHex := "01"; UnbondingTxHex := "09"; SlashUnbondingTxHex := "01";
  StakingOutputIdx := 0; SlashingScriptHex := "0105"; UnbondingScriptHex := "0205";
  UnbondingSlashingScriptHex := "0305"; FpEncKeys := ["06"; "10"];
  StakeExpansion := Some {| PreviousActiveStakeTxHex := "0304"; OtherFundingOutputHex := "02";
                            PrevStakingOutputIdx := 1; PreviousActiveStakeUnbondingScriptHex := "0205" |} |}.

Lemma emuRequest_exchangeable : exchangeable toyServerConfig x07 toyRequest emuWire.
Proof.
  split; [|vm_refl|by split_and!|done|by split|by split|vm_compute; congruence|].
  { apply Forall_forall. intros tx _ b [= <-]. reflexivity. }
  intros resp. assert (signSpec x07 toyRequest = Ok toyResponse) as -> by vm_refl. intros [= <-]. vm_compute. congruence.
Qed.

Lemma remote_signer_refines_witness :
  exists s, sv_app s = sv_app unlockedServer /\
    SignTransactions (NewRemoteSigner toyRemote) emuRequest unlockedServer =
      (s, Ok (signerResponseToCovenantResponse toyResponse)).
Proof.
  pose proof (remote_signer_refines toyServerConfig toyRemote "covenant-key" (fun s => s) (fun s _ => s) emuRequest emuWire
           unlockedServer 0%nat x07 toy_codec toy_paired emuRequest_exchangeable eq_refl eq_refl) as H.
  assert (signSpec x07 (covenantRequestToSignerRequest emuRequest) = Ok toyResponse) as E by vm_refl.
  rewrite E in H. exact H.
Defined.

(** Requests side by side: an Unlock, then a signing request. *)
Definition unlockSent : Request := sent "POST" "/v1/unlock" (unlockBody "secret") "k".
Definition signSent : Request := sent "POST" "/v1/sign-transactions" (ascii_bytes (Marshal emuWire)) "k".

(** The log of an Unlock without a header, with a counter for clock and
    identifiers. *)
#[local] Instance tickClock : Clock nat := {| Now := fun w => (S w, Z.of_nat w * 1000000) |}.
#[local] Instance tickUuid : Uuid nat := {| uuid_New := fun w => (S w, pretty w) |}.
Definition untraced : Traced (W := nat) := {| tr_server := newServer; tr_lines := []; tr_world := 41%nat |}.
Definition bareUnlock : Request := sent "POST" "/v1/unlock" (unlockBody "secret") "".

Lemma bareUnlock_rejected : rejected 10485760 "k" bareUnlock.
Proof. split_and!; [done|vm_compute; discriminate|]. intros [_ H]. symmetry in H. by apply GenerateHMAC_nonempty in H. Qed.

Lemma request_log_lines_witness :
  exists received why completed,
    tr_lines (traced_New toyStore (fun _ => mret tt) toyServerConfig [] bareUnlock untraced).1
      = [received; why; completed] /\
    ln_logger received = Some {| lg_path := "/v1/unlock"; lg_traceID := Some (TraceID "41") |} /\
    ln_logger why = None /\ ln_entry why = Log DebugL "Request rejected: Missing HMAC header".
Proof.
  pose proof (request_log_lines toyStore (fun _ => mret tt) toyServerConfig [] bareUnlock untraced) as H.
  destruct (traced_New _ _ _ _ _ _) as [s res]. destruct H as (lines & H0 & _ & _ & H1 & _).
  destruct (H1 bareUnlock_rejected) as (received & why & completed & -> & Hr & _ & Hw & He).
  exists received, why, completed. split; [exact H0|]. split; [exact Hr|]. split; [exact Hw|exact He].
Defined.

Definition served1 (e : Endpoint) (r : Request) (c : Pool) : Pool :=
  let x := LoggingMiddleware (registerHandler (endpointHandler "covenant-key" e)) r (pl_sys c) in
  {| pl_sys := x.1; pl_threads := pl_threads c ++ [continue (spawn "covenant-key" e r) (Done x.2)] |}.

Lemma served1_reaches e r c : rtc (cstep "covenant-key") c (served1 e r c).
Proof.
  eapply rtc_l; [apply (cs_arrive _ c e r)|]. unfold served1. pose proof (serve_alone "covenant-key" c e r) as H.
  by destruct (LoggingMiddleware _ _ (pl_sys c)).
Qed.

Definition busyPool : Pool := served1 SignE signSent (served1 UnlockE unlockSent emptyPool).

Lemma busy_reachable : rtc (cstep "covenant-key") emptyPool busyPool.
Proof. etrans; apply served1_reaches. Qed.

Definition signAnswer200 : Response := writeResponse 200 (publicResponse (responseJson (ToResponse toyResponse))).

Lemma busy_answered : exists t, pl_threads busyPool !! 1%nat = Some t /\ th_endpoint t = SignE /\
  th_request t = signSent /\ th_prog t = Done (Ok signAnswer200).
Proof. eexists. split; [reflexivity|]. split; [reflexivity|]. split; [reflexivity|]. vm_refl. Qed.

Lemma concurrent_counters_witness :
  ReceivedSigningRequests (sv_metrics (pl_sys busyPool)) = 1 /\
  ReceivedSigningRequests (sv_metrics (pl_sys busyPool)) =
  SuccessfulSigningRequests (sv_metrics (pl_sys busyPool)) + FailedSigningRequests (sv_metrics (pl_sys busyPool)).
Proof.
  split; [vm_refl|]. apply (concurrent_counters "covenant-key" busyPool busy_reachable).
  apply Forall_cons. split; [exists (writeResponse 200 (publicResponse UnlockResponse)); vm_refl|].
  apply Forall_cons. split; [exists signAnswer200; vm_refl|by apply Forall_nil].
Defined.

Lemma concurrent_answers_witness :
  exists d, explained "covenant-key" SignE signSent d /\ signAnswer200 = writeResponse 200 (publicResponse d).
Proof.
  destruct busy_answered as (t & Ht & He & Hr & Hp). rewrite <- He, <- Hr.
  apply (concurrent_answers "covenant-key" toy_zero busyPool t signAnswer200 busy_reachable);
    [by eapply list_elem_of_lookup_2|exact Hp|reflexivity].
Defined.

Lemma stale_gauge_witness :
  exists c, rtc (cstep "covenant-key") emptyPool c /\
    btcecPrivKey (sv_app (pl_sys c)) = None /\ SignerUnlockStatus (sv_metrics (pl_sys c)) = 1.
Proof.
  destruct (stale_gauge "covenant-key" unlockSent (sent "POST" "/v1/lock" [] "k") "secret") as (c & Hc & _ & H);
    [vm_refl|vm_refl|]. exists c. split; [exact Hc|exact H].
Defined.

(** ** Keyrings and commands *)

(** The covenant key made on an empty host. *)
Definition creation : KrSys ToyHost * res CosmosChainKeyInfo :=
  cosmos_CreateCovenantKey "/root/.signer" "chain-test" "covenant-key" "file" "secret" ""
    {| krWorld := emptyHost; krInput := "" |}.
Definition toyKeyInfo : CosmosChainKeyInfo :=
  {| ci_Name := "covenant-key"; ci_Address := (x07 : AccAddr); ci_Mnemonic := "seven";
     ci_PublicKey := (x07 : PublicKey); ci_PrivateKey := (x07 : PrivateKey) |}.

Lemma creation_Ok : creation = (creation.1, Ok toyKeyInfo).
Proof. vm_refl. Qed.

Lemma created_key_unlocks_witness :
  exists s1, app_Unlock toyStore "secret" initSigner = (s1, Ok tt) /\
    app_PubKey toyStore (fun _ => mret tt) s1 = (s1, Ok x07).
Proof.
  exact (created_key_unlocks toyStored "/root/.signer" "chain-test" "covenant-key" "file" "secret" "" _ _ toyKeyInfo
           hostWithKey toyStore creation_Ok ltac:(done) ltac:(reflexivity) eq_refl).
Defined.

Definition listening : SignerProcess := {|
  sp_handler := New toyStore (fun _ => mret tt)
    {| psc_Host := "127.0.0.1"; psc_Port := 9791; psc_WriteTimeout := 15000000000; psc_ReadTimeout := 15000000000;
       psc_IdleTimeout := 120000000000; psc_MaxContentLength := 10485760; psc_HMACKey := "" |};
  sp_addr := "127.0.0.1:9791"; sp_metricsAddr := "127.0.0.1:2112" |}.

Definition plainRemote : RemoteSignerCfg := {| rc_URL := toyURL; rc_Timeout := 2; rc_HMACKey := "" |}.

Definition signerFile : SignerConfig :=
  {| KeyStore := {| ks_KeyStoreType := "cosmos"; ks_CosmosKeyStore := Some toyStoreConfig |};
     Server := DefaultServerConfig; Metrics := DefaultSignerMetricsConfig |}.

Definition signerParsed : ParsedConfig :=
  {| pc_KeyStoreConfig := {| pk_KeyStoreType := CosmosKeyStore; pk_CosmosKeyStore := Some toyStoreConfig |};
     pc_ServerConfig := {| psc_Host := "127.0.0.1"; psc_Port := 9791; psc_WriteTimeout := 15000000000;
                           psc_ReadTimeout := 15000000000; psc_IdleTimeout := 120000000000;
                           psc_MaxContentLength := 10485760; psc_HMACKey := "" |};
     pc_MetricsConfig := {| pmc_Host := "127.0.0.1"; pmc_Port := 2112 |} |}.

Lemma signer_parses : SignerConfig_Parse signerFile = Ok signerParsed.
Proof. vm_refl. Qed.

Lemma creation_world : krWorld creation.1 = hostWithKey.
Proof. vm_refl. Qed.

Lemma signer_listens : runSigner "/root/.signer/config.toml" (krWorld creation.1) = (hostWithKey, Ok listening).
Proof.
  rewrite creation_world. unfold runSigner.
  erewrite bind_run_Ok by (assert (GetConfig "/root/.signer/config.toml" hostWithKey = (hostWithKey, Ok signerFile)) as H
                             by vm_refl; exact H).
  erewrite bind_run_Ok by (unfold lift; by rewrite signer_parses).
  erewrite bind_run_Ok by (rewrite bool_decide_true by reflexivity; reflexivity). reflexivity.
Qed.

Lemma created_key_reaches_emulator_witness :
  let H : HttpClient ServerSys := toyHttp (sp_handler listening) in
  exists s1 s2 : ServerSys, Unlock toyURL 2 "secret" "" newServer = (s1, Ok tt) /\
    Env.PubKey (NewRemoteSigner plainRemote) s1 = (s2, Ok x07).
Proof.
  intros H.
  apply (created_key_reaches_emulator (KL := toyKeyringLib) (HC := H) toyStored plainRemote (fun s => s) (fun s _ => s)
    "/root/.signer" "chain-test" "covenant-key" "file" "secret" "" "/root/.signer/config.toml"
    {| krWorld := emptyHost; krInput := "" |} creation.1 toyKeyInfo signerFile signerParsed hostWithKey listening newServer).
  - exact creation_Ok.
  - done.
  - reflexivity.
  - vm_compute. reflexivity.
  - rewrite creation_world. reflexivity.
  - exact signer_parses.
  - reflexivity.
  - exact signer_listens.
  - apply toy_connected.
  - reflexivity.
  - reflexivity.
  - vm_compute. congruence.
  - vm_compute. congruence.
  - reflexivity.
Defined.

(** init, then create-key and show-key under one home directory. *)
Definition homeConfig : Config :=
  match DefaultConfigWithHomePath "/root/.covd" with Ok c => c | _ => zeroConfig end.
Definition initialised : ToyHost := {| th_keys := []; th_files := [("/root/.covd/covd.conf", homeConfig)] |}.

Lemma init_then_load_witness :
  initHome "/root/.covd" false emptyHost = (initialised, Ok tt) /\
  exists w2 cfg, LoadConfig "/root/.covd" initialised = (w2, Ok cfg) /\
    DefaultConfigWithHomePath "/root/.covd" = Ok cfg /\ wfConfig cfg.
Proof.
  split; [vm_refl|].
  apply (init_then_load (fun _ => True) "/root/.covd" false "/root/.covd" emptyHost initialised);
    [vm_refl|done|vm_refl].
Defined.

Definition covdCreation : Cli ToyHost * res unit :=
  createKey "/root/.covd" "chain-test" "covenant-key" "test" "" "" {| cli_world := initialised; cli_out := [] |}.

Lemma created_key_shown_witness :
  exists s'' line, showKey "/root/.covd" "chain-test" "covenant-key" "test" "" covdCreation.1 = (s'', Ok tt) /\
    cli_out covdCreation.1 = [line] /\ cli_out s'' = [line; line].
Proof.
  destruct (created_key_shown (KL := toyKeyringLib) toyStored "/root/.covd" "chain-test" "covenant-key" "test" "" ""
    {| cli_world := initialised; cli_out := [] |} covdCreation.1) as (s'' & line & Hs & H1 & H2).
  - vm_refl.
  - done.
  - reflexivity.
  - done.
  - intros ctx _. by eexists _, _.
  - exists s'', line. split; [exact Hs|]. split; [exact H1|]. rewrite H2, H1. reflexivity.
Defined.

(** The daemon on the host of the node. *)
Lemma start_runs_witness :
  exists s' ce m cfg, start 10 "/root/.covd" (toySys []) = (s', Ok (ce, m)) /\ ready cfg ce m.
Proof.
  assert (exists s' ce m, start 10 "/root/.covd" (toySys []) = (s', Ok (ce, m))) as (s' & ce & m & E).
  { assert (match (start 10 "/root/.covd" (toySys [])).2 with Ok _ => true | _ => false end = true) as H by vm_refl.
    destruct (start 10 "/root/.covd" (toySys [])) as [s' [[ce m]| | |]]; [by exists s', ce, m|discriminate H..]. }
  destruct (start_runs 10 "/root/.covd" (toySys []) s' ce m E) as (cfg & Hr & _).
  exists s', ce, m, cfg. split; [exact E|exact Hr].
Defined.
