(* ===== verification/EndToEndWitness.v ===== *)
(** * The whole system at a concrete input

    The node of [Toy] and the service of [ToyServices] in one world, and the
    emulator between them.  What is pending is a function of what the chain has
    executed: three delegations, of which one has a staking time out of range,
    are handled by one round; three good ones by two rounds of two; and one bad
    delegation in front of a good one keeps a daemon that takes up one at a
    time busy for ever. *)
From Stdlib Require Import Strings.Byte Strings.Ascii Strings.String.
From S2P Require Import Prelude GoStd BtcLib Config Types Env ParamsCache ClientController Emulator EmulatorProps ControllerProps SubmitProps PagingProps SystemProps RoundProps Lifecycle Rounds SignerConfig SignerApp SignerProps WireTypes HmacAuth SignerServer SignerClient RemoteProps EndToEnd Toy ToyServices Witnesses ServiceWitnesses.
Local Open Scope Z_scope.

Record Pair := { pr_node : ToyWorld; pr_service : ServerSys }.

Definition onNode {A} (m : M ToyWorld A) : M Pair A := fun w =>
  let '(n, r) := m (pr_node w) in ({| pr_node := n; pr_service := pr_service w |}, r).
Definition onService {A} (m : M ServerSys A) : M Pair A := fun w =>
  let '(s, r) := m (pr_service w) in ({| pr_node := pr_node w; pr_service := s |}, r).
Definition setService (s : ServerSys) (w : Pair) : Pair := {| pr_node := pr_node w; pr_service := s |}.

#[local] Instance pairClock : Clock Pair := {| Now := fun w => (w, 0) |}.

#[local] Instance servedKeyring' : Keyring := servedKeyring.

#[local] Instance pairHttp : HttpClient Pair := {|
  http_NewRequest := fun _ _ => Ok tt;
  http_Do := fun t req => onService (http_Do (HttpClient := servedHttp) t req);
  json_Error := fun _ => "invalid character"
|}.

Section PairNode.
(** The delegations the node knows, and which are pending after [L]. *)
Variables (known : list BTCDelegationResponse) (left : list Msg -> list BTCDelegationResponse).

#[local] Instance pairClient : BbnClient Pair := {|
  KeyRecord := KeyRecord (BbnClient := toyClient); AccAddress := AccAddress (BbnClient := toyClient);
  KeyringKey := fun n => onNode (KeyringKey n);
  GetAddress := GetAddress;
  MustBech32ifyAddressBytes := MustBech32ifyAddressBytes;
  BTCCheckpointParams := onNode BTCCheckpointParams;
  BTCStakingParamsByVersion := fun v => onNode (BTCStakingParamsByVersion v);
  BTCDelegation := fun h => onNode (BTCDelegation h);
  BTCDelegations := fun _ r => onNode (fun w => (w, Ok (toyPage (left (tw_delivered w)) r)));
  FinalityProviders := fun r => onNode (FinalityProviders r);
  BTCTip := onNode BTCTip;
  ReliablySendMsgs := fun msgs e u => onNode (ReliablySendMsgs msgs e u);
  IsRunning := onNode IsRunning;
  StopClient := onNode StopClient
|}.

Lemma pair_paired : Paired toyServerConfig toyRemote "covenant-key" pr_service setService.
Proof.
  split; [|reflexivity]. split; [done|done|]. intros timeout path req w Hu Hp.
  destruct (conn_do _ _ _ _ (toy_connected toyServe) timeout path req (pr_service w) Hu Hp) as [e He].
  exists e. cbn [http_Do pairHttp]. unfold onService, servedHttp. rewrite He.
  unfold toyServe, toyStore. by destruct (New _ _ _ _ _) as [s [r| | |]].
Qed.

Definition pairCC : ClientController Pair := babylonClientController (toyBC 0) 10.
Definition pairEmulator (limit : Z) : Emulator Pair := {|
  ce_pk := x07; ce_signer := NewRemoteSigner toyRemote; ce_cc := pairCC;
  ce_paramCache := NewCacheVersionedParams pairCC;
  SigsBatchSize := 2; DelegationLimit := limit; BTCNetParams := tt;
  QueryInterval := 15000000000; UpdateInterval := 100000000 |}.

(** The node's side: delegations, parameters, previous delegations. *)
Definition converted (L : list Msg) : list Delegation := omap (fun r => okOf (DelegationRespToDelegation r)) (left L).
Definition nodeParams (v : Z) : option StakingParams := if decide (v = 0) then Some toyParams else None.
Definition nodePrevs (h : string) : option Delegation :=
  match filter (fun d => dr_StakingTxHex d = h) known with
  | d :: _ => okOf (DelegationRespToDelegation d)
  | [] => None
  end.
Definition nodeStores (w : Pair) : Prop := tw_dels (pr_node w) = known.
Definition pairDelivered (w : Pair) : list Msg := tw_delivered (pr_node w).

Definition pairSys : Sys Pair := initSys {| pr_node := toyNode known []; pr_service := unlockedServer |}.

(** ** The hypotheses hold *)

Hypothesis Hknown : Forall (fun r => returns (DelegationRespToDelegation r)) known.
Hypothesis Hleft : forall L, Forall (fun r => r ∈ known /\ is_Some (okOf (DelegationRespToDelegation r))) (left L).


Abbreviation run := (Running pr_service (x07 : PrivateKey) nodeStores nodeParams).
Abbreviation runL := (JL pairDelivered run).

(** A query of the node changes nothing. *)
Lemma yields_query {A} L (m : M ToyWorld A) (a : A) :
  (forall w, tw_dels w = known -> m w = (w, Ok a)) -> yields (runL L) (ext (onNode m)) (fun b => b = a).
Proof.
  intros Hm s Hs. exists s, a. split_and!; [|done..]. unfold ext, onNode.
  rewrite Hm by apply Hs. by destruct s as [[]].
Qed.

Lemma refuses_query {A} L (m : M ToyWorld A) e :
  (forall w, tw_dels w = known -> m w = (w, Err e)) -> refuses (runL L) (ext (onNode m)).
Proof.
  intros Hm s Hs. exists s, e. split; [|done]. unfold ext, onNode.
  rewrite Hm by apply Hs. by destruct s as [[]].
Qed.

Lemma answers_query {A B} L pre (m : M ToyWorld A) a (k : A -> M (Sys Pair) B) o :
  (forall w, tw_dels w = known -> m w = (w, Ok a)) -> answers (runL L) (k a) o ->
  answers (runL L) (wrapErrM pre (ext (onNode m)) ≫= k) o.
Proof.
  intros Hm Hk. eapply answers_after; [apply (answers_wrapErrM _ _ _ (Some a)), yields_query, Hm|]. by intros ? ->.
Qed.

Lemma pair_params L v : answers (runL L) (bc_QueryStakingParamsByVersion v) (nodeParams v).
Proof.
  unfold bc_QueryStakingParamsByVersion, nodeParams.
  eapply answers_query; [reflexivity|]. destruct (decide (v = 0)) as [->|Hv].
  - eapply answers_query; [reflexivity|]. apply answers_ret.
  - change (@None StakingParams) with (@None BTCStakingParamsT ≫= fun _ => @None StakingParams).
    apply answers_bind; [|done]. apply (answers_wrapErrM _ _ _ None), (refuses_query _ _ "unknown version").
    intros w _. cbn [BTCStakingParamsByVersion toyClient]. by rewrite decide_False.
Qed.

Lemma pair_prevs L h : answers (runL L) (bc_QueryBTCDelegation h) (nodePrevs h).
Proof.
  unfold bc_QueryBTCDelegation, nodePrevs. destruct (filter _ known) as [|d l] eqn:Hf.
  - change (@None Delegation) with (@None BTCDelegationResponse ≫= fun _ => @None Delegation).
    apply answers_bind; [|done]. apply (answers_wrapErrM _ _ _ None), (refuses_query _ _ "not found").
    intros w Hw. cbn [BTCDelegation toyClient]. by rewrite Hw, Hf.
  - apply (answers_query _ _ _ d).
    { intros w Hw. cbn [BTCDelegation toyClient]. by rewrite Hw, Hf. }
    apply answers_lift.
    assert (d ∈ known) as Hd by (eapply list_elem_of_filter; rewrite Hf; left).
    by apply (proj1 (Forall_forall _ _) Hknown).
Qed.

Lemma pair_pages L : Paginated (runL L) (left L) toyKey (fun r => ext (BTCDelegations PENDING r)).
Proof.
  split; [done|]. intros s key pos limit Hs Hk Hl. exists s. split; [done|].
  cbn [BTCDelegations pairClient]. unfold ext, onNode.
  destruct Hs as [_ Hd]. unfold pairDelivered in Hd. rewrite Hd.
  assert (pred (length key) = pos) as Hpos.
  { destruct Hk as [[-> ->]| ->]; [done|]. unfold toyKey. by rewrite length_replicate. }
  destruct s as [[] ? ? ? ?]. unfold set_world, toyPage. simpl. by rewrite Nat2Z.id, Hpos.
Qed.

Lemma pair_chain : AtomicChain toyVerdict pairDelivered.
Proof.
  split.
  - intros msgs w H. eexists _, _. split; [simpl; unfold onNode; simpl; rewrite H; reflexivity|done].
  - intros msgs w i reason H. exists w. split; [simpl; unfold onNode; simpl; rewrite H; by destruct w|done].
Qed.

(** The requests of the round can be exchanged. *)
Definition roundWire : SignTransactionsRequest := {|
  StakingTxHex := "0a"; SlashingTxHex := "01"; UnbondingTxHex := "09"; SlashUnbondingTxHex := "01";
  StakingOutputIdx := 0; SlashingScriptHex := "0105"; UnbondingScriptHex := "0205";
  UnbondingSlashingScriptHex := "0305"; FpEncKeys := ["06"]; StakeExpansion := None |}.
Definition roundRequest : SigningRequest := {|
  sr_StakingTx := [x0a]; sr_SlashingTx := [x01]; sr_UnbondingTx := [x09]; sr_SlashUnbondingTx := [x01];
  sr_StakeExp := None; sr_StakingOutputIdx := 0; sr_SlashingPkScriptPath := [x01; x05];
  sr_StakingTxUnbondingPkScriptPath := [x02; x05]; sr_UnbondingTxSlashingPkScriptPath := [x03; x05];
  sr_FpEncKeys := [x06] |}.

Definition roundResponse : ParsedSigningResponse := {|
  pp_SlashAdaptorSigs := [[x07; x06]]; pp_UnbondingSig := x07; pp_StakeExpSig := None;
  pp_SlashUnbondingAdaptorSigs := [[x07; x06]] |}.

Lemma round_exchangeable : exchangeable toyServerConfig x07 (covenantRequestToSignerRequest roundRequest) roundWire.
Proof.
  split; [|vm_refl|by split_and!|done|by split|done|vm_compute; congruence|].
  { apply Forall_forall. intros tx _ b [= <-]. reflexivity. }
  intros resp. assert (signSpec x07 (covenantRequestToSignerRequest roundRequest) = Ok roundResponse) as -> by vm_refl.
  intros [= <-]. vm_compute. congruence.
Qed.

Variables (limit : Z) (good : nat).
Hypothesis Hrequests :
  omap (fun r => okOf (DelegationRespToDelegation r) ≫= requestFor (pairEmulator limit) nodeParams nodePrevs) known
  = replicate good roundRequest.

Lemma round_requests L del req : del ∈ converted L ->
  RequestFor (pairEmulator limit) (fun v p => nodeParams v = Some p) (fun h d => nodePrevs h = Some d) del req ->
  req = roundRequest.
Proof.
  intros (r & Hr & Hd)%list_elem_of_omap Hreq%requestFor_spec.
  assert (req ∈ replicate good roundRequest) as H; [|by apply elem_of_replicate in H as [? _]].
  rewrite <- Hrequests. apply list_elem_of_omap. exists r. rewrite Hd. split; [|done].
  by apply (proj1 (Forall_forall _ _) (Hleft L)).
Qed.

Lemma converted_left L : Forall2 (fun r d => DelegationRespToDelegation r = Ok d) (left L) (converted L).
Proof.
  unfold converted. specialize (Hleft L). induction (left L) as [|r l IH]; [constructor|].
  apply Forall_cons in Hleft as [(_ & d & Hd) Hl]. cbn [omap list_omap]. rewrite Hd.
  constructor; [by apply okOf_Some|by apply IH].
Qed.

Lemma pair_deployed : Deployed (pairEmulator limit) (toyBC 0) 10 toyServerConfig toyRemote "covenant-key" pr_service
  setService x07 nodeStores nodeParams nodePrevs toyVerdict pairDelivered "bbn1toy" left converted toyKey.
Proof.
  split.
  - reflexivity.
  - reflexivity.
  - reflexivity.
  - apply pair_paired.
  - intros st w. by split.
  - intros L del req Hd Hr. rewrite (round_requests L del req Hd Hr). exists roundWire. apply round_exchangeable.
  - intros L s Hs. exists s, 0. split_and!; [|done|done]. by destruct s.
  - apply pair_params.
  - apply pair_prevs.
  - apply pair_pages.
  - apply converted_left.
  - apply pair_chain.
  - split; [|done]. intros s. exists s. split; [|done]. by destruct s as [[]].
  - intros msgs. apply keeps_ext. intros s (H1 & H2 & H3). split; [|done].
    cbn [ReliablySendMsgs pairClient]. unfold onNode. cbn [ReliablySendMsgs toyClient].
    by destruct (first_bad toyVerdict 0 msgs) as [[i r]|].
  - intros s Hs. split; [by destruct s as [[]]|done].
Qed.

(** No check of these delegations panics, and they are no stake expansions. *)
Hypothesis Hplain : Forall (fun r => forall d, DelegationRespToDelegation r = Ok d -> del_StakeExpansion d = None /\
  is_Some (acceptable (pairEmulator limit) nodeParams nodePrevs d) /\
  exists st, checkAgainstParams toyParams d = Ok st /\ del_ParamsVersion d = 0 /\
    forall ud, del_BtcUndelegation d = Some ud -> exists st, buildSigningRequest toyParams tt d ud = Ok st) known.

Lemma plain L d : d ∈ converted L -> decided (pairEmulator limit) nodeParams nodePrevs d /\
  Calm (pairEmulator limit) nodeParams nodePrevs d.
Proof.
  intros (r & Hr & Hd%okOf_Some)%list_elem_of_omap.
  assert (r ∈ known) as Hk by (by apply (proj1 (Forall_forall _ _) (Hleft L))).
  destruct (proj1 (Forall_forall _ _) Hplain r Hk d Hd) as (Hse & Hacc & st & Hst & Hv & Hud). split; split.
  - done.
  - intros se prev. by rewrite Hse.
  - exists toyParams, st. rewrite Hv. by split_and!.
  - intros se. by rewrite Hse.
Qed.

Lemma pair_walkable n L : (length (left L) / pageSize n < 10)%nat ->
  (n <= length (queue (pairEmulator limit) nodeParams nodePrevs converted L) \/ length (left L) mod pageSize n <> 0 \/
   left L = [])%nat -> Walkable (pairEmulator limit) 10 nodeParams nodePrevs left converted n L.
Proof.
  intros Hf He. split; [|done|done|].
  - apply Forall_forall. intros d Hd. by apply (plain L).
  - apply Forall_forall. intros d Hd%taken_subseteq. by apply (plain L).
Qed.

Lemma pair_running : Running pr_service (x07 : PrivateKey) nodeStores nodeParams pairSys.
Proof. split_and!; [reflexivity|exists 0%nat; by split|apply map_Forall_empty]. Qed.

End PairNode.

(** Facts about the few delegations of a concrete node, by evaluation. *)
Ltac each tac := repeat (apply Forall_cons; split; [tac ()|]); by apply Forall_nil.
Ltac member := split; [repeat first [apply list_elem_of_here|apply list_elem_of_further]|eexists; reflexivity].
Ltac plain := intros d [= <-]; split; [reflexivity|]; split; [eexists; reflexivity|];
  eexists; split; [reflexivity|]; split; [reflexivity|]; intros ud [= <-]; eexists; reflexivity.

(** ** One round: the second delegation has a staking time out of range. *)

Definition mixed : list BTCDelegationResponse := [toyResp "0a" 20; toyResp "0b" 9; toyResp "0a" 30].
Definition stays (l : list BTCDelegationResponse) (_ : list Msg) : list BTCDelegationResponse := l.

Example pair_round :
  (fun m => match m with AddCovenantSigsMsg m => (mc_StakingTxHash m, mc_UnbondingTxSig m) | _ => ("", x00) end)
    <$> pairDelivered (world (submissionRound (pairEmulator (stays mixed) 50) (pairSys mixed)).1)
  = [("0a", x07); ("0a", x07)].
Proof. vm_refl. Qed.


(** ** Two rounds of two: what was signed is no longer pending. *)

Definition three : list BTCDelegationResponse := [toyResp "0a" 20; toyResp "0a" 30; toyResp "0a" 40].
Definition shrinks (L : list Msg) : list BTCDelegationResponse := drop (length L) three.

(** The daemon with its submission loop waiting for the ticker. *)
Definition waiting (s : Sys Pair) : Daemon (W := Pair) :=
  let d := Start (newDaemon s) in
  setSig d (add_log (Log InfoL "starting signature submission loop") (d_sys d)) AtSelect (wg d) false.

Abbreviation two := (pairEmulator shrinks 2).
Abbreviation twoProgress := (progress two nodeParams (nodePrevs three) (signWith (x07 : PrivateKey)) "bbn1toy" (converted shrinks) 2 []).

Lemma shrinks_known L : Forall (fun r => r ∈ three /\ is_Some (okOf (DelegationRespToDelegation r))) (shrinks L).
Proof. apply Forall_drop. each ltac:(fun _ => member). Qed.

Lemma twoProgress_length n : length (twoProgress n) = Nat.min (n * 2) 3.
Proof.
  destruct n as [|[|n]]; [vm_refl..|]. unfold progress. rewrite take_ge; [|by vm_compute; lia].
  transitivity 3%nat; [vm_refl|lia].
Qed.

Lemma converted_drop n l : converted (fun _ => drop n three) l = drop n (converted shrinks []).
Proof. do 3 (destruct n as [|n]; [reflexivity|]). by destruct n. Qed.

Lemma converted_progress n : converted shrinks (twoProgress n) = drop (Nat.min (n * 2) 3) (converted shrinks []).
Proof. rewrite <- (converted_drop _ []). unfold converted, shrinks. by rewrite twoProgress_length. Qed.

Lemma three_distinct : NoDup (converted shrinks []).
Proof. apply (NoDup_fmap_1 del_StakingTime), (bool_decide_unpack _). vm_compute. exact I. Qed.

Lemma all_acceptable l : l `suffix_of` converted shrinks [] ->
  filter (fun d => acceptable two nodeParams (nodePrevs three) d = Some true) l = l.
Proof.
  intros [l0 H]. assert (Forall (fun d => acceptable two nodeParams (nodePrevs three) d = Some true) (l0 ++ l)) as Hall.
  { rewrite <- H. each ltac:(fun _ => reflexivity). }
  apply Forall_app in Hall as [_ Hall]. clear H. induction Hall as [|d l Hd _ IH]; [done|].
  by rewrite filter_cons_True, IH.
Qed.

(** The node drops the delegations that were signed. *)
Lemma evolves_take n l : NoDup l -> evolves two (fun d => d ∈ take n l) l (drop n l).
Proof.
  intros Hnd. rewrite <- (take_drop n l) in Hnd. apply NoDup_app in Hnd as (_ & Hnd & _).
  assert (forall d, d ∈ drop n l -> d ∉ take n l) as H by (intros d H1 H2; by apply (Hnd d)).
  assert (forall l1 l2, (forall d, d ∈ l1 -> d ∈ take n l) -> (forall d, d ∈ l2 -> d ∉ take n l) ->
    evolves two (fun d => d ∈ take n l) (l1 ++ l2) l2) as Hev.
  2:{ pose proof (Hev (take n l) (drop n l) ltac:(done) H) as E. by rewrite take_drop in E. }
  clear. induction l1 as [|d l1 IH]; intros l2 H1 H2; simpl.
  - induction l2 as [|d l2 IH]; constructor; [apply H2; left|]. apply IH. intros e He. apply H2. by right.
  - apply ev_gone; [apply H1; left|]. apply IH; [|done]. intros e He. apply H1. by right.
Qed.

Lemma two_draining : Draining two (toyBC 0) 10 nodeParams (nodePrevs three)
  (signWith (x07 : PrivateKey)) toyVerdict "bbn1toy" shrinks (converted shrinks) 2 [].
Proof.
  split.
  - done.
  - each ltac:(fun _ => eexists; split; reflexivity).
  - intros n. apply (pair_walkable three); [apply shrinks_known|each ltac:(fun _ => plain)|..];
      unfold shrinks; rewrite length_drop, twoProgress_length; change (length three) with 3%nat.
    + destruct n as [|[|n]]; vm_compute; lia.
    + destruct n as [|[|n]]; [right; left; vm_compute; lia..|]. right; right.
      apply drop_ge. change (length three) with 3%nat. lia.
  - intros n. rewrite converted_progress. apply sublist_NoDup with (converted shrinks []); [apply three_distinct|apply sublist_drop].
  - intros n. unfold taken, queue. rewrite !converted_progress, all_acceptable by apply suffix_drop.
    replace (drop (Nat.min (S n * 2) 3) (converted shrinks [])) with
      (drop 2 (drop (Nat.min (n * 2) 3) (converted shrinks []))) by (by destruct n as [|[|n]]).
    apply evolves_take. apply sublist_NoDup with (converted shrinks []); [apply three_distinct|apply sublist_drop].
Qed.

Lemma waiting_running s : Running pr_service (x07 : PrivateKey) (nodeStores three) nodeParams s ->
  Running pr_service (x07 : PrivateKey) (nodeStores three) nodeParams (d_sys (waiting s)).
Proof. done. Qed.


(** ** A bad delegation in front of a good one, with a limit of one. *)

Definition blocked : list BTCDelegationResponse := [toyResp "0b" 9; toyResp "0a" 20].
Abbreviation one := (pairEmulator (stays blocked) 1).

Lemma one_tick : exists d', ticks one 1 (waiting (pairSys blocked)) d'.
Proof.
  set (d := waiting (pairSys blocked)). assert ((submissionRound one (d_sys d)).2 = Ok tt) as E by vm_refl.
  exists (setSig d (submissionRound one (d_sys d)).1 AtSelect (wg d) false).
  eapply ticks_round; [apply ticks_none|]. split; [done|]. split; [done|].
  destruct (submissionRound one (d_sys d)) as [s r]. simpl in E. by subst r.
Qed.

Lemma unsigned_starve_witness :
  exists d', ticks one 1 (waiting (pairSys blocked)) d' /\ pairDelivered (world (d_sys d')) = [].
Proof.
  destruct one_tick as [d' Ht]. exists d'. split; [exact Ht|].
  apply (unsigned_starve (BC := pairClient (stays blocked)) one (toyBC 0) 10 toyServerConfig toyRemote "covenant-key"
    pr_service setService x07 (nodeStores blocked) nodeParams (nodePrevs blocked) toyVerdict pairDelivered "bbn1toy"
    (stays blocked) (converted (stays blocked)) toyKey 1 [] 1 (waiting (pairSys blocked)) d'); [..|exact Ht].
  - apply toy_codec.
  - apply (pair_deployed blocked (stays blocked)) with (good := 1%nat);
      [each ltac:(fun _ => exact I)|intros L; each ltac:(fun _ => member)|vm_refl].
  - split; [reflexivity|lia|by split].
  - apply (pair_walkable blocked); [intros L; each ltac:(fun _ => member)|each ltac:(fun _ => plain)|vm_compute; lia|].
    left. vm_compute. lia.
  - each ltac:(fun _ => reflexivity).
  - apply pair_running.
  - reflexivity.
Defined.
