(* ===== verification/ProgramWitnesses.v ===== *)
(** * The programs at concrete inputs

    An executable command-line parser with the behaviour the theorems ask of
    urfave/cli and cobra, and the theorems about the two mains and the signer's
    process on the host of [ToyServices]. *)
From Stdlib Require Import Strings.Byte Strings.Ascii Strings.String.
From S2P Require Import Prelude GoStd JsonText GoNet GoPath SignerConfig BtcLib Config Types Env ParamsCache ClientController Emulator Lifecycle SignerApp Keyrings WireTypes Bip32 HmacAuth Daemon SignerServer SignerClient Datagen Covd SignerCmd Programs Toy ToyServices Witnesses ServiceWitnesses.
Local Open Scope Z_scope.

(** ** Parsing the words of a command line *)

Definition isString (flags : list CliFlag) (n : string) : bool :=
  existsb (fun f => match f with StringFlag m _ _ => bool_decide (m = n) | BoolFlag _ _ => false end) flags.

(** The settings at the front, and the words after them. *)
Fixpoint parseWords (flags : list CliFlag) (words : list string) : list Setting * list string :=
  match words with
  | String "-" (String "-" n) :: rest =>
      if isString flags n then
        match rest with
        | v :: rest => let '(given, args) := parseWords flags rest in (SetString n v :: given, args)
        | [] => ([], words)
        end
      else let '(given, args) := parseWords flags rest in (SetBool n :: given, args)
  | _ => ([], words)
  end.

Lemma isString_true flags n d r : StringFlag n d r ∈ flags -> isString flags n = true.
Proof.
  intros H. apply existsb_exists. exists (StringFlag n d r). split; [by apply list_elem_of_In|]. by apply bool_decide_true.
Qed.

Lemma isString_false flags n r : NoDup (flagName <$> flags) -> BoolFlag n r ∈ flags -> isString flags n = false.
Proof.
  intros Hd Hin. destruct (isString flags n) eqn:E; [|done]. apply existsb_exists in E as (f & Hf%list_elem_of_In & E).
  destruct f as [m d q|]; [|done]. apply bool_decide_eq_true in E as ->.
  apply list_elem_of_lookup in Hf as [i Hi]. apply list_elem_of_lookup in Hin as [j Hj].
  assert (i = j) as ->; [|congruence]. eapply (NoDup_lookup _ _ _ n Hd); rewrite list_lookup_fmap; [by rewrite Hi|by rewrite Hj].
Qed.

Lemma parseWords_words flags given args :
  NoDup (flagName <$> flags) -> Forall (declared flags) given ->
  Forall (fun a => String.prefix "-" a = false) args ->
  parseWords flags (concat (settingWords <$> given) ++ args) = (given, args).
Proof.
  intros Hd Hg Ha. induction Hg as [|x given Hx _ IH].
  - destruct args as [|a args]; [done|]. apply Forall_cons in Ha as [Ha _]. simpl.
    destruct a as [|c a]; [done|]. simpl in Ha. destruct (ascii_dec "-" c) as [<-|Hc]; [by destruct a|].
    by destruct c as [[] [] [] [] [] [] [] []].
  - destruct x as [n v|n]; cbn [declared] in Hx.
    + destruct Hx as [(d & r & Hin) _]. cbn -[isString].
      change ("--" +:+ n) with (String "-" (String "-" n)). cbv iota. rewrite (isString_true _ _ d r) by done.
      by rewrite IH.
    + destruct Hx as [r Hin]. cbn -[isString].
      change ("--" +:+ n) with (String "-" (String "-" n)). cbv iota. rewrite (isString_false _ _ r) by done. by rewrite IH.
Qed.

(** ** urfave/cli and cobra *)

#[export] Instance toyCli {W R} : CliLib W R := {|
  cli_Run := fun cmds args s =>
    match args with
    | _ :: name :: words =>
        match List.find (fun c => bool_decide (name ∈ cmd_names c)) cmds with
        | None => (s, Err ("No help topic for " +:+ name))
        | Some c =>
            let '(given, _) := parseWords (cmd_Flags c) words in
            if forallb (fun f => negb (flagRequired f) || bool_decide (flagName f ∈ settingName <$> given)) (cmd_Flags c)
            then cmd_Action c (contextOf (cmd_Flags c) given) s
            else (s, Err "Required flag not set")
        end
    | _ => (s, Err "no command")
    end
|}.

Lemma find_command {W R} (cmds : list (CliCommand W R)) c name :
  NoDup (concat (cmd_names <$> cmds)) -> c ∈ cmds -> name ∈ cmd_names c ->
  List.find (fun c => bool_decide (name ∈ cmd_names c)) cmds = Some c.
Proof.
  intros Hd Hin Hn. induction cmds as [|x cmds IH]; [by apply not_elem_of_nil in Hin|].
  cbn [fmap list_fmap concat] in Hd. apply NoDup_app in Hd as (_ & Hx & Hd). simpl. case_bool_decide as Hc.
  - apply elem_of_cons in Hin as [->|Hin]; [done|]. destruct (Hx name Hc).
    apply list_elem_of_In, in_concat. exists (cmd_names c). split; [|by apply list_elem_of_In].
    apply list_elem_of_In, list_elem_of_fmap. by exists c.
  - apply elem_of_cons in Hin as [->|Hin]; [done|]. by apply IH.
Qed.

Lemma toyCli_run {W R} (cmds : list (CliCommand W R)) c prog name given s :
  NoDup (concat (cmd_names <$> cmds)) -> c ∈ cmds -> NoDup (flagName <$> cmd_Flags c) -> name ∈ cmd_names c ->
  Forall (declared (cmd_Flags c)) given ->
  cli_Run cmds (argv prog name given) s =
  if forallb (fun f => negb (flagRequired f) || bool_decide (flagName f ∈ settingName <$> given)) (cmd_Flags c)
  then cmd_Action c (contextOf (cmd_Flags c) given) s else (s, Err "Required flag not set").
Proof.
  intros Hd Hin Hf Hn Hg. unfold argv. cbn [cli_Run toyCli]. rewrite (find_command cmds c name) by done.
  rewrite <- (app_nil_r (concat _)), parseWords_words by (first [done|by constructor]). done.
Qed.

#[export] Instance toyCliLaws {W R} : CliLaws W R.
Proof.
  split.
  - intros cmds c prog name given s Hd Hin Hf Hn _ Hg Hr. rewrite (toyCli_run _ c) by done.
    destruct (forallb _ _) eqn:E; [done|]. exfalso. apply not_true_iff_false in E. apply E, forallb_forall.
    intros f Hin'%list_elem_of_In. rewrite Forall_forall in Hr. specialize (Hr f Hin').
    destruct (flagRequired f); [|done]. simpl. apply bool_decide_true. auto.
  - intros cmds c f prog name given s Hd Hin Hf Hn _ Hg Hfin Hreq Hmiss. rewrite (toyCli_run _ c) by done.
    destruct (forallb _ _) eqn:E; [|by eexists s, _]. exfalso. rewrite forallb_forall in E.
    specialize (E f ltac:(by apply list_elem_of_In)). rewrite Hreq in E. simpl in E. by apply bool_decide_eq_true in E.
Qed.

#[export] Instance toyCobra {W R} : CobraLib W R := {|
  cobra_Execute := fun root args s =>
    match args with
    | [] => (s, Err "no command")
    | name :: words =>
        match List.find (fun c => bool_decide (cb_Name c = name)) (root_Commands root) with
        | None => (s, Err ("unknown command " +:+ name))
        | Some c =>
            let '(given, args) := parseWords (root_PersistentFlags root) words in
            (let ctx := contextOf (root_PersistentFlags root) given in
             lift (cb_Args c args);; root_PersistentPreRunE root ctx;; cb_RunE c ctx args) s
        end
    end
|}.

#[export] Instance toyCobraLaws {W R} : CobraLaws W R.
Proof.
  split. intros root c given args s Hd Hin Hf _ Hg Ha. cbn [cobra_Execute toyCobra].
  assert (List.find (fun c' => bool_decide (cb_Name c' = cb_Name c)) (root_Commands root) = Some c) as ->.
  { clear -Hd Hin. induction (root_Commands root) as [|x cmds IH]; [by apply not_elem_of_nil in Hin|].
    apply NoDup_cons in Hd as [Hx Hd]. simpl. case_bool_decide as Hc.
    - apply elem_of_cons in Hin as [->|Hin]; [done|]. destruct Hx. rewrite Hc. by apply list_elem_of_fmap_2.
    - apply elem_of_cons in Hin as [->|Hin]; [done|]. by apply IH. }
  by rewrite parseWords_words.
Qed.

(** ** covd on a host without a network *)

Definition offline {A} : M ToyHost A := fun w => (w, Err "offline").

#[local] Instance hostClient : BbnClient ToyHost := {|
  KeyRecord := unit; AccAddress := unit;
  KeyringKey := fun _ => offline; GetAddress := fun _ => Ok tt;
  MustBech32ifyAddressBytes := fun prefix _ => Ok prefix;
  BTCCheckpointParams := offline; BTCStakingParamsByVersion := fun _ => offline; BTCDelegation := fun _ => offline;
  BTCDelegations := fun _ _ => offline; FinalityProviders := fun _ => offline; BTCTip := offline;
  ReliablySendMsgs := fun _ _ _ => offline; IsRunning := offline; StopClient := offline
|}.
#[local] Instance hostNew : BbnNew ToyHost := {|
  BabylonConfig_Validate := fun _ => Ok tt; bbnclient_New := fun _ => offline |}.
#[local] Instance hostHttp : HttpClient ToyHost := {|
  http_NewRequest := fun _ _ => Ok tt; http_Do := fun _ _ => offline; json_Error := fun _ => "invalid character" |}.
#[local] Instance hostIntercept : Interceptor ToyHost := {| Intercept := fun w => (w, Ok tt) |}.
#[local] Instance hostClock : Clock ToyHost := {| Now := fun w => (w, 0) |}.

Definition toyAppData (app : string) : string := "/root/." +:+ app.

Definition keyGiven : list Setting :=
  [SetString "key-name" "covenant-key"; SetString "hd-path" "m/44"; SetString "home" "/root/.covd"].

Definition covdHost : Cli ToyHost := {| cli_world := initialised; cli_out := [] |}.

Definition keyCreated := covd_main toyAppData 10 (argv "covd" "create-key" keyGiven) covdHost.

Lemma key_commands_agree_witness :
  exists s'' line, covd_main toyAppData 10 (argv "covd" "show-key"
      [SetString "key-name" "covenant-key"; SetString "home" "/root/.covd"]) keyCreated.1 = (s'', Exits 0 "") /\
    cli_out keyCreated.1 = [line] /\ cli_out s'' = [line; line].
Proof.
  destruct (key_commands_agree (KL := toyKeyringLib) toyAppData 10 toyStored "covd" "covd" keyGiven covdHost keyCreated.1)
    as (s'' & line & Hs & H1 & H2).
  - apply (bool_decide_unpack _). vm_compute. exact I.
  - do 3 (apply Forall_cons; split; [split; [eexists _, _;
      repeat (first [apply list_elem_of_here|apply list_elem_of_further])|reflexivity]|]). by apply Forall_nil.
  - left.
  - done.
  - reflexivity.
  - done.
  - intros c _. by eexists _, _.
  - apply injective_projections; [reflexivity|vm_refl].
  - exists s'', line. split; [exact Hs|]. split; [exact H1|]. rewrite H2, H1. reflexivity.
Defined.

(** ** covenant-signer *)

#[local] Instance hostSdk : SdkClient ToyHost := {|
  SdkContext := unit; EncodingConfig := unit; emptyContext := tt; DefaultEncodingConfig := tt;
  std_RegisterInterfaces := fun e => e; bstypes_RegisterInterfaces := fun e => e;
  WithCodec := fun _ c => c; WithInterfaceRegistry := fun _ c => c; WithTxConfig := fun _ c => c;
  WithLegacyAmino := fun _ c => c; WithStdin := fun c => c;
  SetCmdClientContextHandler := fun _ _ => mret tt;
  GetClientContextFromCmd := mret tt; SetCmdClientContext := fun _ => mret tt
|}.
#[local] Instance noKeychain : HdKeychain := {|
  ExtendedKey := unit; NewKeyFromString := fun _ => Err "invalid"; Derive := fun _ _ => Err "invalid";
  ECPrivKey := fun _ => Err "invalid" |}.

(** A host without the configuration file. *)
#[local] Instance noViper : Viper ToyHost := {|
  ViperFile := unit;
  viper_ReadInConfig := fun _ _ => offline;
  viper_Unmarshal := fun _ conf => Ok conf
|}.

Definition toyKeys : CobraCommand ToyHost SignerProcess :=
  {| cb_Name := "keys"; cb_Args := fun _ => Ok tt; cb_RunE := fun _ _ => mret None |}.

Lemma signer_failure_exits_zero_witness :
  exists msg, (signer_main (VP := noViper) toyAppData toyKeys ["start"; "--config"; "/nowhere.toml"] covdHost).2
    = Exits 0 msg.
Proof.
  pose proof (signer_failure_exits_zero (VP := noViper) toyAppData toyKeys eq_refl [SetString "config" "/nowhere.toml"]
    covdHost covdHost ltac:(apply (bool_decide_unpack _); vm_compute; exact I)
    ltac:(apply Forall_cons; split; [split; [eexists _, _; right; left|reflexivity]|by apply Forall_nil])
    eq_refl) as H.
  revert H. match goal with |- context [runSigner ?p ?w] => rewrite (surjective_pairing (runSigner p w)) end.
  intros H. eexists. etransitivity; [exact H|]. reflexivity.
Defined.

(** ** The signer's process *)

#[local] Instance hostListen : Listen := {| canListen := fun bound a => negb (bool_decide (a ∈ bound)) |}.

Lemma hostListenLaws : ListenLaws.
Proof. split. intros bound a H. simpl. by rewrite bool_decide_true. Qed.

(** Both servers on one address. *)
Definition oneAddress : SignerProcess :=
  {| sp_handler := sp_handler listening; sp_addr := "127.0.0.1:9791"; sp_metricsAddr := "127.0.0.1:9791" |}.

Definition noScrape : Handler ServerSys := fun _ => mret (httpError "" 200).

Lemma signer_process_exits_witness :
  exists x', rtc (rstep oneAddress noScrape) (startRun []) x' /\ is_Some (ru_exit x').
Proof. apply (signer_process_exits oneAddress noScrape ltac:(done) [] (startRun [])); [apply rtc_refl|apply hostListenLaws|reflexivity]. Defined.

(** ** The generators of the tests: a counter as the source of randomness *)

Definition draw (n : Z) : M nat Z := fun g =>
  (S g, if bool_decide (0 < n) then Ok (Z.of_nat g mod n) else Panic "invalid argument to Intn").

#[local] Instance toyGen : GenLib := {|
  Source := nat; Intn := draw; Int63n := draw; Uint32 := draw (2 ^ 32);
  GenRandomByteArray := fun n g => (S g, Ok (replicate (Z.to_nat n) x07));
  GenRandomBTCKeyPair := fun g => (S g, Ok (x07, x07));
  BTCAddress := byte; GenRandomBTCAddress := fun _ g => (S g, Ok x05);
  GenRandomPubKeyHashScript := fun _ g => (S g, Ok [x51]);
  PayToAddrScript := fun a => Ok [a]; NonStandardScript := fun _ => false;
  LegacyNewDecWithPrec := fun _ _ => tt; zeroDec := tt;
  NewHash := EncodeToString; OutPoint := unit; mkOutPoint := fun _ _ => tt;
  NewMsgTx := fun _ => []; AddTxOut := fun o tx => tx ++ [o]; AddTxIn := fun _ tx => tx;
  NewTxOut := fun _ _ => x0a; NewTxIn := fun _ => x01; StakingOutput := fun i => i;
  BuildSlashingTxFromStakingTxStrict := fun tx _ _ _ _ _ _ _ => Ok tx;
  NewBTCSlashingTxFromMsgTx := fun tx => Ok tx
|}.

Lemma toyRandLaws : RandLaws.
Proof.
  split. intros n g Hn. exists (S g), (Z.of_nat g mod n). split; [|by apply Z.mod_pos_bound].
  cbn [Intn toyGen]. unfold draw. by rewrite bool_decide_true.
Qed.

Definition toySeed : Gen := {| gen_r := (3%nat : Source); gen_global := (0%nat : Source) |}.

Lemma drawn_inputs_pass_witness :
  exists p, (GenRandomParams toySeed).2 = Ok p /\ CovenantQuorum p = 4 /\
    1 <= CovenantQuorum p <= 5 /\ Z.of_nat (length (CovenantPks p)) = 2 * CovenantQuorum p.
Proof.
  destruct (GenRandomParams toySeed) as [g1 [p|e|m|]] eqn:E; [|discriminate E..].
  exists p. split; [reflexivity|]. split; [by injection E as _ <-|].
  destruct (drawn_inputs_pass (RW := toyRandLaws) _ g1 p E) as (H1 & H2 & _). by split.
Defined.
