(* ===== verification/HarnessWitnesses.v ===== *)
(** * The test harness at concrete inputs

    A host whose generator counts and on which some ports are taken, one with
    processes and a disk that can be full, and the verification functions of
    [Toy]'s libraries. *)
From Stdlib Require Import Strings.Byte Strings.String.
From S2P Require Import Prelude GoStd BtcLib SignerApp SignerProps Toy Witnesses NodeHarness SignerHarness.
Local Open Scope Z_scope.

(** ** Ports *)

(** A generator that draws every multiple of 8500 twice in a row; four ports
    can be listened on, and closing the listener of 57000 fails. *)
Definition PortWorld : Type := Z.

Definition freePorts : list Z := [40000; 41000; 57000; 65500].

Definition toyListen (url : string) : res Z :=
  match list_find (fun p => localURL p = url) freePorts with
  | Some (_, p) => Ok p
  | None => Err "address already in use"
  end.

Lemma toyListen_port port l : toyListen (localURL port) = Ok l -> port < 2 ^ 16.
Proof.
  unfold toyListen. destruct (list_find _ _) as [[i p]|] eqn:Hf; [|done]. intros _.
  apply list_find_Some in Hf as (Hl & Hp & _). apply list_elem_of_lookup_2 in Hl.
  unfold localURL in Hp. simplify_eq. unfold freePorts in Hl. rewrite !elem_of_cons, elem_of_nil in Hl. lia.
Qed.

#[export] Instance toyNet : TestNet PortWorld := {|
  IntN := fun n w =>
    (w + 1, if bool_decide (0 < n) then Ok ((w / 2 * 8500) mod n) else Panic "invalid argument to IntN");
  Listener := Z;
  net_Listen := fun url w => (w, toyListen url);
  lis_Close := fun p w => (w, if bool_decide (p = 57000) then Err "use of closed network connection" else Ok tt)
|}.

#[export] Instance toyNetLaws : TestNetLaws PortWorld.
Proof.
  split; simpl.
  - intros n w w' x. case_bool_decide; [|done]. intros [= _ <-]. by apply Z.mod_pos_bound.
  - intros port w w' l [= _ Hl]. by apply toyListen_port in Hl.
Qed.

(** Three calls: the first draw is free, the next ones are given out, taken,
    not closed or not ports. *)
Lemma ports_unique_witness :
  NoDup [40000; 65500; 41000] /\
  Forall (fun p => basePort <= p < 2 ^ 16 /\ p ∉ (∅ : gset Z)) [40000; 65500; 41000].
Proof.
  apply (ports_unique 3 {| allocatedPorts := ∅; ps_world := 0 |}
           (allocations 3 {| allocatedPorts := ∅; ps_world := 0 |}).1). vm_compute. reflexivity.
Defined.

(** ** The node *)

(** The processes that run, and whether the disk is full. *)
Record HostWorld := { hw_running : gset Z; hw_full : bool }.

Definition onDisk {A} (a : A) : M HostWorld A := fun w => (w, if hw_full w then Err "no space left on device" else Ok a).

#[export] Instance toyHost : TestHost HostWorld := {|
  File := string;
  os_TempDir := "/tmp";
  os_MkdirTemp := fun dir pattern => onDisk (dir +:+ "/" +:+ pattern);
  os_Chmod := fun _ _ => mret tt;
  os_Create := onDisk;
  file_Name := fun f => f;
  file_Write := fun _ _ => onDisk tt;
  file_Close := fun _ => mret tt;
  os_Remove := fun _ => mret tt;
  os_RemoveAll := fun _ => mret tt;
  os_Environ := [];
  GOOS := "linux";
  cmd_Run := fun _ => mret tt;
  cmd_Start := fun _ w => ({| hw_running := {[42]} ∪ hw_running w; hw_full := hw_full w |}, Ok 42);
  proc_Signal := fun _ _ => fail "os: process already finished";
  cmd_Wait := fun p w => ({| hw_running := hw_running w ∖ {[p]}; hw_full := hw_full w |}, Ok tt)
|}.

#[export] Instance toyHostLaws : TestHostLaws (fun w p => p ∈ hw_running w).
Proof.
  split; simpl; try done.
  - intros c w w' p [= <- <-]. simpl. set_solver.
  - intros p w w' [= <-]. simpl. set_solver.
Qed.

Definition toyNode (process : option Z) : babylonNode :=
  {| bn_cmd := Some (startNodeCmd "/tmp/zBabylonTest/node0/babylond" "/tmp/zBabylonTest/babylon.log");
     bn_process := process; bn_pidFile := ""; bn_dataDir := "/tmp/zBabylonTest";
     bn_nodeHome := "/tmp/zBabylonTest/node0/babylond"; bn_chainID := "chain-test";
     bn_slashingAddr := testSlashingAddr; bn_covenantPk := x07 |}.

Definition nodeAt (process : option Z) (running : gset Z) (full : bool) : NodeSys :=
  {| ns_node := toyNode process; ns_log := []; ns_world := {| hw_running := running; hw_full := full |} |}.

(** A start on a full disk fails and leaves the process; a stop whose signal
    fails succeeds. *)
Lemma node_life_witness :
  (bh_Start (nodeAt None ∅ true)).2 = Err "no space left on device" /\
  42 ∈ hw_running (ns_world (bh_Start (nodeAt None ∅ true)).1) /\
  (bh_Stop (nodeAt (Some 42) {[42]} false)).2 = Ok tt /\
  42 ∉ hw_running (ns_world (bh_Stop (nodeAt (Some 42) {[42]} false)).1).
Proof.
  split; [reflexivity|]. split; [|split; [reflexivity|]].
  - destruct (node_life (TL := toyHostLaws) _ (nodeAt None ∅ true) 42 eq_refl) as [Hstart _].
    exact (Hstart _ eq_refl).
  - destruct (node_life (TL := toyHostLaws) _ (nodeAt (Some 42) {[42]} false) 42 eq_refl) as [_ Hstop].
    specialize (Hstop eq_refl). exact (proj1 Hstop eq_refl).
Defined.

(** ** The check of the signer's answers *)

Definition toy_valid (b : bool) : res unit := if b then Ok tt else Err "signature is not valid".

#[export] Instance toyVerify : VerifyLib (BL := toyLib) := {|
  NewAdaptorSignatureFromBytes := fun b => Ok b;
  EncVerifyTransactionSigWithOutput := fun _ _ _ pk e sig => toy_valid (bool_decide (sig = [pk; e]));
  VerifyTransactionSigWithOutput := fun _ _ _ pk sig => toy_valid (bool_decide (sig = [pk]))
|}.

Lemma toy_out_Ok f i o : toy_out f i = Ok o -> index f i = Ok o.
Proof. unfold toy_out. by destruct (index f i) as [?|?|?|]. Qed.

Lemma toy_sign_Ok k s : toy_sign k = Ok s -> s = k.
Proof. unfold toy_sign. destruct (decide _); congruence. Qed.

#[export] Instance toyVerifyLaws : VerifyLaws (VL := toyVerify).
Proof.
  split; simpl.
  - by intros sig b [= ->].
  - intros tx f i script k e sig (o & Ho & Hs)%res_bind_Ok. apply res_bind_Ok in Hs as (s & Hs & [= <-]).
    apply toy_sign_Ok in Hs as ->. exists o. split; [by apply toy_out_Ok|]. unfold toy_valid. by case_bool_decide.
  - intros tx f i script k sig (o & Ho & Hs)%res_bind_Ok. apply toy_sign_Ok in Hs as ->.
    exists o. split; [by apply toy_out_Ok|]. unfold toy_valid. by case_bool_decide.
Qed.

Lemma test_oracle_accepts_witness : verifyResponse toyResponse toyRequest x07 = Ok tt.
Proof. apply (test_oracle_accepts (BL := toyLib) x07 toyRequest toyResponse); [reflexivity|done]. Defined.

(** ** Polling *)

Fixpoint poll {S} (n : nat) (c : M S bool) : M S unit := fun s =>
  match n with
  | O => (s, Panic "Condition never satisfied")
  | Datatypes.S n =>
      match c s with
      | (s', Ok true) => (s', Ok tt)
      | (s', Ok false) => poll n c s'
      | (s', _) => (s', Panic "FailNow")
      end
  end.

#[export] Instance toyTestify : Testify := {| Eventually := fun S c w t => poll (Z.to_nat (w / t)) c |}.

#[export] Instance toyTestifyLaws : TestifyLaws (H := toyTestify).
Proof.
  split; simpl.
  - intros S c w t. induction (Z.to_nat (w / t)) as [|n IH]; intros s e; simpl; [done|].
    destruct (c s) as [s' [[]|?|?|]]; done.
  - intros S c w t. induction (Z.to_nat (w / t)) as [|n IH]; intros s s'; simpl; [done|].
    destruct (c s) as [s1 [[]|?|?|]] eqn:Hc; try done; [|apply IH]. intros [= <-]. by exists s.
  - intros S c w t J HJ. induction (Z.to_nat (w / t)) as [|n IH]; intros s Hs; simpl; [done|].
    specialize (HJ s Hs). destruct (c s) as [s1 [[]|?|?|]]; simpl in *; try done. by apply IH.
  - intros S c w t s s' Ht Hw Hc. assert (1 <= w / t) by (apply Z.div_le_lower_bound; lia).
    destruct (Z.to_nat (w / t)) as [|n] eqn:E; [lia|]. simpl. by rewrite Hc.
Qed.
